(** * Offline registry: duplicate detection and cloud reconciliation

    A shallow embedding of [src/lib/validation.ts] (the fuzzy duplicate
    detector) and [src/lib/supabaseSync.ts] (upload and download between
    the local Dexie store and the remote Supabase store), with the record
    shapes of [src/lib/db.ts] and [src/lib/supabase.ts]; further the
    batch validation and the normalisation of [src/lib/validation.ts],
    the settings, PIN and identifier helpers of [src/lib/db.ts] and the
    import loop of [src/components/CSVImport.tsx].

    Conventions of the embedding:
    - a JavaScript [Date] is the instant it denotes, in milliseconds since
      the epoch ([Z]); an ISO-8601 string produced by [toISOString] is
      represented by the same instant, and a date-only string
      ["YYYY-MM-DD"] by its day number;
    - a JavaScript [number] that is computed with (similarity scores,
      thresholds) is a binary64 float; coordinates are carried as floats,
      ages and local identifiers as integers;
    - strings are byte strings, so [toLowerCase] and [trim] are the ASCII
      ones; they are those of the code on strings of ASCII characters;
    - [Omit<T, 'id'>] is a function from the identifier to [T]: the table
      supplies the identifier when the row is stored. *)

From Stdlib Require Import Ascii String Floats ZArith DecimalString DecimalNat Lia.
From stdpp Require Import base option strings list gmap.

Set Warnings "-inexact-float".

(** ** Record shapes of the local store ([db.ts]) *)

Definition Date := Z.

Inductive Sex := male | female.

Inductive DisabilityStatus :=
  none | visual | hearing | physical | intellectual | multiple | other.

Module Ward.
Record t := mk {
  id : nat;
  code : string;
  name : string;
  createdAt : Date }.
End Ward.

Module Village.
Record t := mk {
  id : nat;
  wardId : nat;
  code : string;
  name : string;
  createdAt : Date }.
End Village.

Module Household.
Record t := mk {
  id : nat;
  villageId : nat;
  code : string;
  headName : string;
  locationDescription : option string;
  latitude : option float;
  longitude : option float;
  createdAt : Date;
  updatedAt : Date }.
End Household.

Module Citizen.
Record t := mk {
  id : nat;
  uniqueId : string;
  householdId : nat;
  villageId : nat;
  wardId : nat;
  firstName : string;
  lastName : string;
  otherNames : option string;
  sex : Sex;
  dateOfBirth : option Date;
  age : option Z;
  phoneNumber : option string;
  occupation : option string;
  disabilityStatus : DisabilityStatus;
  disabilityNotes : option string;
  photoData : option string;
  fingerprintData : option string;
  notes : option string;
  consentGiven : bool;
  consentDate : option Date;
  recorderName : option string;
  createdAt : Date;
  updatedAt : Date }.

(** [Partial<Citizen>]: every field may be missing. *)
Record partial := mkPartial {
  p_id : option nat;
  p_uniqueId : option string;
  p_householdId : option nat;
  p_villageId : option nat;
  p_wardId : option nat;
  p_firstName : option string;
  p_lastName : option string;
  p_otherNames : option string;
  p_sex : option Sex;
  p_dateOfBirth : option Date;
  p_age : option Z;
  p_phoneNumber : option string;
  p_occupation : option string;
  p_disabilityStatus : option DisabilityStatus;
  p_disabilityNotes : option string;
  p_photoData : option string;
  p_fingerprintData : option string;
  p_notes : option string;
  p_consentGiven : option bool;
  p_consentDate : option Date;
  p_recorderName : option string;
  p_createdAt : option Date;
  p_updatedAt : option Date }.

Definition blank : partial :=
  mkPartial None None None None None None None None None None None None
            None None None None None None None None None None None.
End Citizen.

(** JavaScript truthiness of the values the code tests. *)
Definition truthy_string (s : string) : bool :=
  match s with EmptyString => false | _ => true end.

Definition truthy_opt_string (s : option string) : bool :=
  match s with Some s => truthy_string s | None => false end.

Definition truthy_number (n : nat) : bool :=
  match n with O => false | S _ => true end.

Definition truthy_opt_number (n : option nat) : bool :=
  match n with Some n => truthy_number n | None => false end.

(** ** [validation.ts] *)

Module Validation.

(** *** String helpers

    [toLowerCase] and [trim] as they act on strings of ASCII characters:
    the letters [A] to [Z] have a lower case, and tab, line feed,
    vertical tab, form feed, carriage return and space are white space.
    A byte above 127 is left as it is and is no white space, whereas
    JavaScript also folds letters such as [É] and trims the no-break
    space; what is proved of case folding and of trimming as such is
    stated for strings of ASCII characters ([AsciiTerms.ascii_only]). *)

Definition lower_ascii (c : ascii) : ascii :=
  let n := nat_of_ascii c in
  if (65 <=? n)%nat && (n <=? 90)%nat then ascii_of_nat (n + 32) else c.

Fixpoint toLowerCase (s : string) : string :=
  match s with
  | EmptyString => EmptyString
  | String c s' => String (lower_ascii c) (toLowerCase s')
  end.

Definition is_space (c : ascii) : bool :=
  let n := nat_of_ascii c in
  (n =? 32)%nat || ((9 <=? n)%nat && (n <=? 13)%nat).

Fixpoint trimStart (s : string) : string :=
  match s with
  | String c s' => if is_space c then trimStart s' else s
  | EmptyString => EmptyString
  end.

Fixpoint trimEnd (s : string) : string :=
  match s with
  | EmptyString => EmptyString
  | String c s' =>
      match trimEnd s' with
      | EmptyString => if is_space c then EmptyString else String c EmptyString
      | rest => String c rest
      end
  end.

Definition trim (s : string) : string := trimEnd (trimStart s).

Definition chars (s : string) : list ascii := list_ascii_of_string s.

(** *** Levenshtein matrix, one row at a time

    [next_cells c s2 up diag left] fills the cells of the row of
    character [c] from column [j] on, where [up] holds
    [matrix[i-1][j..]], [diag] is [matrix[i-1][j-1]] and [left] is
    [matrix[i][j-1]]. *)
Fixpoint next_cells (c : ascii) (s2 : list ascii) (up : list nat)
    (diag left : nat) : list nat :=
  match s2, up with
  | d :: s2', u :: up' =>
      let cost := if Ascii.eqb c d then 0 else 1 in
      let cell := Nat.min (Nat.min (u + 1) (left + 1)) (diag + cost) in
      cell :: next_cells c s2' up' u cell
  | _, _ => []
  end.

(** Row [i] of the matrix from row [i-1]; column 0 holds [i]. *)
Definition next_row (i : nat) (c : ascii) (s2 : list ascii)
    (prev : list nat) : list nat :=
  match prev with
  | p0 :: prev' => i :: next_cells c s2 prev' p0 i
  | [] => [i]
  end.

Fixpoint matrix_rows (i : nat) (s1 s2 : list ascii) (prev : list nat)
    : list nat :=
  match s1 with
  | [] => prev
  | c :: s1' => matrix_rows (S i) s1' s2 (next_row (S i) c s2 prev)
  end.

(** [matrix[s1.length][s2.length]]. *)
Definition levenshtein (s1 s2 : string) : nat :=
  List.last (matrix_rows 0 (chars s1) (chars s2) (seq 0 (S (String.length s2)))) 0.

Definition float_of_nat (n : nat) : float :=
  PrimFloat.of_uint63 (Uint63.of_Z (Z.of_nat n)).

Definition stringSimilarity (str1 str2 : string) : float :=
  let s1 := trim (toLowerCase str1) in
  let s2 := trim (toLowerCase str2) in
  if String.eqb s1 s2 then 1%float
  else if (String.length s1 =? 0)%nat || (String.length s2 =? 0)%nat then 0%float
  else
    let maxLen := Nat.max (String.length s1) (String.length s2) in
    (1 - float_of_nat (levenshtein s1 s2) / float_of_nat maxLen)%float.

(** [Math.round] on a finite float: the integer nearest to it, ties
    towards plus infinity.  It is only applied to similarities, which
    are finite; other inputs give 0 here. *)
Definition Math_round (x : float) : Z :=
  match Prim2SF x with
  | S754_finite s m e =>
      let n := if s then Z.neg m else Z.pos m in
      if (0 <=? e)%Z then (n * 2 ^ e)%Z
      else ((2 * n + 2 ^ (- e)) / 2 ^ (- e + 1))%Z
  | _ => 0%Z
  end.

Definition percent (sim : float) : string :=
  NilZero.string_of_int (Z.to_int (Math_round (sim * 100)%float)).

(** [s.replace(/\D/g, "")]. *)
Definition is_digit (c : ascii) : bool :=
  let n := nat_of_ascii c in (48 <=? n)%nat && (n <=? 57)%nat.

Fixpoint digits_only (s : string) : string :=
  match s with
  | EmptyString => EmptyString
  | String c s' =>
      if is_digit c then String c (digits_only s') else digits_only s'
  end.

Record DuplicateMatch := mkMatch {
  citizen : Citizen.t;
  matchScore : float;
  matchReasons : list string }.

Section WithHost.

(** [Date.prototype.toDateString] prints the calendar day in the time
    zone of the host, which the code does not control. *)
Variable toDateString : Date -> string.

(** The three accumulators of one loop iteration. *)
Record Tally := mkTally {
  reasons : list string;
  totalScore : float;
  scoreCount : nat }.

Definition contribute (reason : string) (score : float) (t : Tally) : Tally :=
  {| reasons := reasons t ++ [reason];
     totalScore := (totalScore t + score)%float;
     scoreCount := S (scoreCount t) |}.

Definition check_name (label : string) (new : option string)
    (old : string) (t : Tally) : Tally :=
  match new with
  | Some n =>
      if truthy_string n && truthy_string old then
        let sim := stringSimilarity n old in
        if (0.8 <? sim)%float
        then contribute (label ++ " name similar (" ++ percent sim ++ "%)") sim t
        else t
      else t
  | None => t
  end.

Definition check_phone (new old : option string) (t : Tally) : Tally :=
  match new, old with
  | Some n, Some o =>
      if truthy_string n && truthy_string o then
        let cleanNew := digits_only n in
        let cleanExisting := digits_only o in
        if String.eqb cleanNew cleanExisting && (0 <? String.length cleanNew)%nat
        then contribute "Same phone number" 1%float t
        else t
      else t
  | _, _ => t
  end.

Definition check_dob (new old : option Date) (t : Tally) : Tally :=
  match new, old with
  | Some n, Some o =>
      if String.eqb (toDateString n) (toDateString o)
      then contribute "Same date of birth" 1%float t
      else t
  | _, _ => t
  end.

Definition check_same (reason : string) (weight : float)
    (new : option nat) (old : nat) (t : Tally) : Tally :=
  match new with
  | Some n =>
      if truthy_number n && truthy_number old && (n =? old)%nat
      then contribute reason weight t
      else t
  | None => t
  end.

(** The body of the [for] loop up to the final test. *)
Definition tally (newCitizen : Citizen.partial) (existing : Citizen.t) : Tally :=
  let t := mkTally [] 0%float 0 in
  let t := check_name "First" (Citizen.p_firstName newCitizen)
             (Citizen.firstName existing) t in
  let t := check_name "Last" (Citizen.p_lastName newCitizen)
             (Citizen.lastName existing) t in
  let t := check_phone (Citizen.p_phoneNumber newCitizen)
             (Citizen.phoneNumber existing) t in
  let t := check_dob (Citizen.p_dateOfBirth newCitizen)
             (Citizen.dateOfBirth existing) t in
  let t := check_same "Same household" 0.5%float
             (Citizen.p_householdId newCitizen) (Citizen.householdId existing) t in
  check_same "Same village" 0.3%float
    (Citizen.p_villageId newCitizen) (Citizen.villageId existing) t.

Definition score_of (t : Tally) : float :=
  (totalScore t / float_of_nat (scoreCount t))%float.

Definition qualifies (threshold : float) (t : Tally) : bool :=
  (0 <? scoreCount t)%nat
  && (threshold <=? score_of t)%float
  && (2 <=? length (reasons t))%nat.

Definition report (existing : Citizen.t) (t : Tally) : DuplicateMatch :=
  mkMatch existing (score_of t) (reasons t).

Definition examine (newCitizen : Citizen.partial) (threshold : float)
    (duplicates : list DuplicateMatch) (existing : Citizen.t)
    : list DuplicateMatch :=
  let t := tally newCitizen existing in
  if qualifies threshold t then duplicates ++ [report existing t]
  else duplicates.

(** [duplicates.sort((a, b) => b.matchScore - a.matchScore)]: a stable
    sort in which [a] stays before [b] when the comparator is not
    positive. *)
Fixpoint insert_by_score (a : DuplicateMatch) (l : list DuplicateMatch)
    : list DuplicateMatch :=
  match l with
  | [] => [a]
  | b :: l' =>
      if (0 <? matchScore b - matchScore a)%float
      then b :: insert_by_score a l'
      else a :: l
  end.

Definition sort_by_score (l : list DuplicateMatch) : list DuplicateMatch :=
  foldr insert_by_score [] l.

Definition findDuplicates (existingCitizens : list Citizen.t)
    (newCitizen : Citizen.partial) (threshold : float)
    : list DuplicateMatch :=
  sort_by_score (fold_left (examine newCitizen threshold) existingCitizens []).

End WithHost.

End Validation.

(** ** Record shapes of the remote store ([supabase.ts])

    Timestamps are the instants their ISO strings denote;
    [date_of_birth] is a day number.  An attachment URL is kept as the
    bucket and the two parts its file name
    [`${citizenId}-${Date.now()}.jpg`] is built from. *)

Inductive BucketName := citizen_photos | citizen_fingerprints.

Record Url := mkUrl {
  bucket : BucketName;
  owner : string;
  stamp : Z }.

Module SupabaseWard.
Record t := mk {
  id : string;
  code : string;
  name : string;
  created_at : Z;
  updated_at : option Z }.
End SupabaseWard.

Module SupabaseVillage.
Record t := mk {
  id : string;
  ward_id : string;
  code : string;
  name : string;
  created_at : Z;
  updated_at : option Z }.
End SupabaseVillage.

Module SupabaseHousehold.
Record t := mk {
  id : string;
  village_id : string;
  code : string;
  head_name : string;
  location_description : option string;
  latitude : option float;
  longitude : option float;
  created_at : Z;
  updated_at : Z }.
End SupabaseHousehold.

Module SupabaseCitizen.
Record t := mk {
  id : string;
  unique_id : string;
  household_id : string;
  village_id : string;
  ward_id : string;
  first_name : string;
  last_name : string;
  other_names : option string;
  sex : Sex;
  date_of_birth : option Z;
  age : option Z;
  phone_number : option string;
  occupation : option string;
  disability_status : DisabilityStatus;
  disability_notes : option string;
  photo_url : option Url;
  fingerprint_url : option Url;
  consent_given : bool;
  consent_date : option Z;
  recorder_name : option string;
  notes : option string;
  created_at : Z;
  updated_at : Z;
  synced_at : option Z;
  device_id : option string }.
End SupabaseCitizen.

(** ** The two stores *)

(** A Dexie table with an auto-incremented primary key: the rows in
    primary-key order and the next key the generator hands out. *)
Record Table (R : Type) := mkTable {
  rows : list R;
  nextId : nat }.
Arguments mkTable {R}.
Arguments rows {R}.
Arguments nextId {R}.

Class Keyed (R : Type) := primary_key : R -> nat.
#[export] Instance ward_keyed : Keyed Ward.t := Ward.id.
#[export] Instance village_keyed : Keyed Village.t := Village.id.
#[export] Instance household_keyed : Keyed Household.t := Household.id.
#[export] Instance citizen_keyed : Keyed Citizen.t := Citizen.id.

(** [table.toArray()]. *)
Definition toArray {R} (t : Table R) : list R := rows t.

(** [table.where(field).equals(v).first()]. *)
Definition first_where {R} (p : R -> bool) (t : Table R) : option R :=
  List.find p (rows t).

(** [table.add(fields)]: the generator supplies the key. *)
Definition add {R} (fields : nat -> R) (t : Table R) : nat * Table R :=
  (nextId t, mkTable (rows t ++ [fields (nextId t)]) (S (nextId t))).

(** [table.update(key, fields)] with every field but the key listed:
    the row under that key is replaced, a missing value deletes the
    property. *)
Definition update {R} `{Keyed R} (key : nat) (fields : nat -> R)
    (t : Table R) : Table R :=
  mkTable (map (fun r => if (primary_key r =? key)%nat then fields key else r)
               (rows t))
          (nextId t).

(** The two settings the reconciler reads and writes. *)
Module Settings.
Record t := mk {
  last_sync_time : option Z;
  sync_device_id : option string }.
End Settings.

Module Local.
Record t := mk {
  wards : Table Ward.t;
  villages : Table Village.t;
  households : Table Household.t;
  citizens : Table Citizen.t;
  settings : Settings.t }.

Definition empty : t :=
  mk (mkTable [] 1) (mkTable [] 1) (mkTable [] 1) (mkTable [] 1)
     (Settings.mk None None).
End Local.

Module Remote.
Record t := mk {
  wards : list SupabaseWard.t;
  villages : list SupabaseVillage.t;
  households : list SupabaseHousehold.t;
  citizens : list SupabaseCitizen.t;
  objects : list (Url * string) }.

Definition empty : t := mk [] [] [] [] [].
End Remote.

(** ** [supabaseSync.ts] *)

Module Counts.
Record t := mk {
  wards : nat;
  villages : nat;
  households : nat;
  citizens : nat }.
Definition zero : t := mk 0 0 0 0.
End Counts.

Record SyncResult := mkResult {
  success : bool;
  uploaded : Counts.t;
  downloaded : Counts.t;
  errors : list string }.

Definition initial_result : SyncResult :=
  mkResult false Counts.zero Counts.zero [].

Definition push_error (msg : string) (r : SyncResult) : SyncResult :=
  mkResult (success r) (uploaded r) (downloaded r) (errors r ++ [msg]).

Inductive Tier := TWard | TVillage | THousehold | TCitizen.

(** *** Converters *)

Definition or_random (existingId : option string) (randomUUID : string) : string :=
  match existingId with
  | Some i => if truthy_string i then i else randomUUID
  | None => randomUUID
  end.

Definition wardToSupabase (randomUUID : string) (ward : Ward.t)
    (existingId : option string) : SupabaseWard.t :=
  {| SupabaseWard.id := or_random existingId randomUUID;
     SupabaseWard.code := Ward.code ward;
     SupabaseWard.name := Ward.name ward;
     SupabaseWard.created_at := Ward.createdAt ward;
     SupabaseWard.updated_at := None |}.

Definition supabaseToWard (ward : SupabaseWard.t) : nat -> Ward.t :=
  fun id =>
  {| Ward.id := id;
     Ward.code := SupabaseWard.code ward;
     Ward.name := SupabaseWard.name ward;
     Ward.createdAt := SupabaseWard.created_at ward |}.

Definition villageToSupabase (randomUUID : string) (village : Village.t)
    (wardUuid : string) (existingId : option string) : SupabaseVillage.t :=
  {| SupabaseVillage.id := or_random existingId randomUUID;
     SupabaseVillage.ward_id := wardUuid;
     SupabaseVillage.code := Village.code village;
     SupabaseVillage.name := Village.name village;
     SupabaseVillage.created_at := Village.createdAt village;
     SupabaseVillage.updated_at := None |}.

Definition supabaseToVillage (village : SupabaseVillage.t) (localWardId : nat)
    : nat -> Village.t :=
  fun id =>
  {| Village.id := id;
     Village.wardId := localWardId;
     Village.code := SupabaseVillage.code village;
     Village.name := SupabaseVillage.name village;
     Village.createdAt := SupabaseVillage.created_at village |}.

Definition householdToSupabase (randomUUID : string) (household : Household.t)
    (villageUuid : string) (existingId : option string) : SupabaseHousehold.t :=
  {| SupabaseHousehold.id := or_random existingId randomUUID;
     SupabaseHousehold.village_id := villageUuid;
     SupabaseHousehold.code := Household.code household;
     SupabaseHousehold.head_name := Household.headName household;
     SupabaseHousehold.location_description := Household.locationDescription household;
     SupabaseHousehold.latitude := Household.latitude household;
     SupabaseHousehold.longitude := Household.longitude household;
     SupabaseHousehold.created_at := Household.createdAt household;
     SupabaseHousehold.updated_at := Household.updatedAt household |}.

Definition supabaseToHousehold (household : SupabaseHousehold.t)
    (localVillageId : nat) : nat -> Household.t :=
  fun id =>
  {| Household.id := id;
     Household.villageId := localVillageId;
     Household.code := SupabaseHousehold.code household;
     Household.headName := SupabaseHousehold.head_name household;
     Household.locationDescription := SupabaseHousehold.location_description household;
     Household.latitude := SupabaseHousehold.latitude household;
     Household.longitude := SupabaseHousehold.longitude household;
     Household.createdAt := SupabaseHousehold.created_at household;
     Household.updatedAt := SupabaseHousehold.updated_at household |}.

Definition ms_per_day : Z := 86400000.

(** [d.toISOString().split('T')[0]]: the UTC calendar day of [d]. *)
Definition iso_date (d : Date) : Z := (d / ms_per_day)%Z.

(** [new Date("YYYY-MM-DD")]: midnight UTC of that day. *)
Definition date_of_iso_date (day : Z) : Date := (day * ms_per_day)%Z.

Definition citizenToSupabase (deviceId : string) (now : Z) (randomUUID : string)
    (citizen : Citizen.t) (householdUuid villageUuid wardUuid : string)
    (existingId : option string) : SupabaseCitizen.t :=
  {| SupabaseCitizen.id := or_random existingId randomUUID;
     SupabaseCitizen.unique_id := Citizen.uniqueId citizen;
     SupabaseCitizen.household_id := householdUuid;
     SupabaseCitizen.village_id := villageUuid;
     SupabaseCitizen.ward_id := wardUuid;
     SupabaseCitizen.first_name := Citizen.firstName citizen;
     SupabaseCitizen.last_name := Citizen.lastName citizen;
     SupabaseCitizen.other_names := Citizen.otherNames citizen;
     SupabaseCitizen.sex := Citizen.sex citizen;
     SupabaseCitizen.date_of_birth := iso_date <$> Citizen.dateOfBirth citizen;
     SupabaseCitizen.age := Citizen.age citizen;
     SupabaseCitizen.phone_number := Citizen.phoneNumber citizen;
     SupabaseCitizen.occupation := Citizen.occupation citizen;
     SupabaseCitizen.disability_status := Citizen.disabilityStatus citizen;
     SupabaseCitizen.disability_notes := Citizen.disabilityNotes citizen;
     SupabaseCitizen.photo_url := None;
     SupabaseCitizen.fingerprint_url := None;
     SupabaseCitizen.consent_given := Citizen.consentGiven citizen;
     SupabaseCitizen.consent_date := Citizen.consentDate citizen;
     SupabaseCitizen.recorder_name := Citizen.recorderName citizen;
     SupabaseCitizen.notes := Citizen.notes citizen;
     SupabaseCitizen.created_at := Citizen.createdAt citizen;
     SupabaseCitizen.updated_at := Citizen.updatedAt citizen;
     SupabaseCitizen.synced_at := Some now;
     SupabaseCitizen.device_id := Some deviceId |}.

Definition supabaseToCitizen (citizen : SupabaseCitizen.t)
    (localHouseholdId localVillageId localWardId : nat) : nat -> Citizen.t :=
  fun id =>
  {| Citizen.id := id;
     Citizen.uniqueId := SupabaseCitizen.unique_id citizen;
     Citizen.householdId := localHouseholdId;
     Citizen.villageId := localVillageId;
     Citizen.wardId := localWardId;
     Citizen.firstName := SupabaseCitizen.first_name citizen;
     Citizen.lastName := SupabaseCitizen.last_name citizen;
     Citizen.otherNames := SupabaseCitizen.other_names citizen;
     Citizen.sex := SupabaseCitizen.sex citizen;
     Citizen.dateOfBirth := date_of_iso_date <$> SupabaseCitizen.date_of_birth citizen;
     Citizen.age := SupabaseCitizen.age citizen;
     Citizen.phoneNumber := SupabaseCitizen.phone_number citizen;
     Citizen.occupation := SupabaseCitizen.occupation citizen;
     Citizen.disabilityStatus := SupabaseCitizen.disability_status citizen;
     Citizen.disabilityNotes := SupabaseCitizen.disability_notes citizen;
     Citizen.photoData := None;
     Citizen.fingerprintData := None;
     Citizen.notes := SupabaseCitizen.notes citizen;
     Citizen.consentGiven := SupabaseCitizen.consent_given citizen;
     Citizen.consentDate := SupabaseCitizen.consent_date citizen;
     Citizen.recorderName := SupabaseCitizen.recorder_name citizen;
     Citizen.createdAt := SupabaseCitizen.created_at citizen;
     Citizen.updatedAt := SupabaseCitizen.updated_at citizen |}.

(** *** The remote client

    A call to the remote store answers with a value, answers with an
    error value, or throws.  What the network and the service do is not
    decided by the program; an environment gives the reply to each call,
    addressed by the tier and the key of the record being processed.

    The remote tables are declared in the SQL schema the setup guide
    points to ([supabase/migrations/001_initial_schema.sql]), which is
    not among the TypeScript sources.  Two things the schema does to a
    written row are therefore parameters of the environment as well:
    every table has a [BEFORE UPDATE] trigger that sets [updated_at] to
    the [NOW()] of the remote store (the guide: automated timestamps with
    triggers), and the coordinates of a household are [DECIMAL] columns,
    which keep a number to their scale. *)

Inductive Reply :=
  | Done
  | ErrorValue (message : string)
  | Thrown (message : string).

(** [.select(...).eq(column, v).single()]: the row when exactly one row
    matches, no data otherwise. *)
Definition single {R} (p : R -> bool) (l : list R) : option R :=
  match List.filter p l with
  | [r] => Some r
  | _ => None
  end.

Definition select_id {R} (answered : bool) (column id : R -> string)
    (v : string) (table : list R) : option string :=
  if answered then id <$> single (fun r => String.eqb (column r) v) table
  else None.

(** A value that is [undefined] is left out of the request body, so an
    update keeps the stored value of that column. *)
Definition or_keep {A} (new old : option A) : option A :=
  match new with
  | Some _ => new
  | None => old
  end.

(** [.update(row)] on a stored row: the columns of the request body
    replace the stored ones, and the trigger of the table writes the
    [NOW()] of the remote store, [now], to [updated_at], whatever the
    request says about that column. *)
Definition patch_ward (now : Z) (new old : SupabaseWard.t) : SupabaseWard.t :=
  {| SupabaseWard.id := SupabaseWard.id new;
     SupabaseWard.code := SupabaseWard.code new;
     SupabaseWard.name := SupabaseWard.name new;
     SupabaseWard.created_at := SupabaseWard.created_at new;
     SupabaseWard.updated_at := Some now |}.

Definition patch_village (now : Z) (new old : SupabaseVillage.t)
    : SupabaseVillage.t :=
  {| SupabaseVillage.id := SupabaseVillage.id new;
     SupabaseVillage.ward_id := SupabaseVillage.ward_id new;
     SupabaseVillage.code := SupabaseVillage.code new;
     SupabaseVillage.name := SupabaseVillage.name new;
     SupabaseVillage.created_at := SupabaseVillage.created_at new;
     SupabaseVillage.updated_at := Some now |}.

Definition patch_household (now : Z) (new old : SupabaseHousehold.t)
    : SupabaseHousehold.t :=
  {| SupabaseHousehold.id := SupabaseHousehold.id new;
     SupabaseHousehold.village_id := SupabaseHousehold.village_id new;
     SupabaseHousehold.code := SupabaseHousehold.code new;
     SupabaseHousehold.head_name := SupabaseHousehold.head_name new;
     SupabaseHousehold.location_description :=
       or_keep (SupabaseHousehold.location_description new)
               (SupabaseHousehold.location_description old);
     SupabaseHousehold.latitude :=
       or_keep (SupabaseHousehold.latitude new) (SupabaseHousehold.latitude old);
     SupabaseHousehold.longitude :=
       or_keep (SupabaseHousehold.longitude new) (SupabaseHousehold.longitude old);
     SupabaseHousehold.created_at := SupabaseHousehold.created_at new;
     SupabaseHousehold.updated_at := now |}.

Definition patch_citizen (now : Z) (new old : SupabaseCitizen.t)
    : SupabaseCitizen.t :=
  {| SupabaseCitizen.id := SupabaseCitizen.id new;
     SupabaseCitizen.unique_id := SupabaseCitizen.unique_id new;
     SupabaseCitizen.household_id := SupabaseCitizen.household_id new;
     SupabaseCitizen.village_id := SupabaseCitizen.village_id new;
     SupabaseCitizen.ward_id := SupabaseCitizen.ward_id new;
     SupabaseCitizen.first_name := SupabaseCitizen.first_name new;
     SupabaseCitizen.last_name := SupabaseCitizen.last_name new;
     SupabaseCitizen.other_names :=
       or_keep (SupabaseCitizen.other_names new) (SupabaseCitizen.other_names old);
     SupabaseCitizen.sex := SupabaseCitizen.sex new;
     SupabaseCitizen.date_of_birth :=
       or_keep (SupabaseCitizen.date_of_birth new) (SupabaseCitizen.date_of_birth old);
     SupabaseCitizen.age :=
       or_keep (SupabaseCitizen.age new) (SupabaseCitizen.age old);
     SupabaseCitizen.phone_number :=
       or_keep (SupabaseCitizen.phone_number new) (SupabaseCitizen.phone_number old);
     SupabaseCitizen.occupation :=
       or_keep (SupabaseCitizen.occupation new) (SupabaseCitizen.occupation old);
     SupabaseCitizen.disability_status := SupabaseCitizen.disability_status new;
     SupabaseCitizen.disability_notes :=
       or_keep (SupabaseCitizen.disability_notes new)
               (SupabaseCitizen.disability_notes old);
     SupabaseCitizen.photo_url :=
       or_keep (SupabaseCitizen.photo_url new) (SupabaseCitizen.photo_url old);
     SupabaseCitizen.fingerprint_url :=
       or_keep (SupabaseCitizen.fingerprint_url new)
               (SupabaseCitizen.fingerprint_url old);
     SupabaseCitizen.consent_given := SupabaseCitizen.consent_given new;
     SupabaseCitizen.consent_date :=
       or_keep (SupabaseCitizen.consent_date new) (SupabaseCitizen.consent_date old);
     SupabaseCitizen.recorder_name :=
       or_keep (SupabaseCitizen.recorder_name new) (SupabaseCitizen.recorder_name old);
     SupabaseCitizen.notes :=
       or_keep (SupabaseCitizen.notes new) (SupabaseCitizen.notes old);
     SupabaseCitizen.created_at := SupabaseCitizen.created_at new;
     SupabaseCitizen.updated_at := now;
     SupabaseCitizen.synced_at :=
       or_keep (SupabaseCitizen.synced_at new) (SupabaseCitizen.synced_at old);
     SupabaseCitizen.device_id :=
       or_keep (SupabaseCitizen.device_id new) (SupabaseCitizen.device_id old) |}.

(** [.update(row).eq('id', target)]. *)
Definition update_eq_id {R} (id : R -> string) (patch : R -> R)
    (target : string) (table : list R) : list R :=
  map (fun r => if String.eqb (id r) target then patch r else r) table.

(** [.insert(row)]. *)
Definition insert_row {R} (row : R) (table : list R) : list R := table ++ [row].

(** [if (existing) update else insert], as far as the table is concerned:
    only a call that was carried out changes it.  [patch] is the update
    with the time the remote store reads, and [row] the row as the table
    keeps it. *)
Definition write_row {R} (reply : Reply) (id : R -> string)
    (patch : R -> R -> R) (existing : option string) (row : R)
    (table : list R) : list R :=
  match reply with
  | Done =>
      match existing with
      | Some target => update_eq_id id (patch row) target table
      | None => insert_row row table
      end
  | _ => table
  end.

(** [.order('created_at', { ascending: true })]. *)
Fixpoint insert_by {R} (key : R -> Z) (x : R) (l : list R) : list R :=
  match l with
  | [] => [x]
  | y :: l' => if (key x <=? key y)%Z then x :: l else y :: insert_by key x l'
  end.

Definition order_by {R} (key : R -> Z) (l : list R) : list R :=
  foldr (insert_by key) [] l.

(** *** Attachments *)

#[export] Instance bucket_eq_dec : EqDecision BucketName.
Proof. solve_decision. Defined.

#[export] Instance url_eq_dec : EqDecision Url.
Proof. solve_decision. Defined.

Fixpoint fetch_object (url : Url) (objects : list (Url * string)) : option string :=
  match objects with
  | [] => None
  | (u, data) :: rest =>
      if bool_decide (u = url) then Some data else fetch_object url rest
  end.

(** [storage.from(bucket).upload(fileName, blob, { upsert: true })] and
    the public URL of the file, or [null] when the transfer fails. *)
Definition uploadToStorage (b : BucketName) (transferred : bool) (now : Z)
    (data citizenId : string) (objects : list (Url * string))
    : option Url * list (Url * string) :=
  if transferred then
    let url := mkUrl b citizenId now in (Some url, (url, data) :: objects)
  else (None, objects).

Definition uploadPhotoToStorage := uploadToStorage citizen_photos.
Definition uploadFingerprintToStorage := uploadToStorage citizen_fingerprints.

(** [fetch(url)] and the blob read back as a data URL, or [null]. *)
Definition downloadFromStorage (transferred : bool) (url : Url)
    (objects : list (Url * string)) : option string :=
  if transferred then fetch_object url objects else None.

Definition downloadPhotoFromStorage := downloadFromStorage.
Definition downloadFingerprintFromStorage := downloadFromStorage.

(** *** Upload *)

Record UploadEnv := mkUploadEnv {
  onLine : bool;
  (** whether the natural-key lookup for a record is answered *)
  select_answered : Tier -> nat -> bool;
  (** the reply to the insert or update of a record, or the exception
      thrown while the row of the record is built *)
  write_reply : Tier -> nat -> Reply;
  (** [crypto.randomUUID()] *)
  randomUUID : Tier -> nat -> string;
  (** the clock and the random digits of a generated device identifier *)
  device_suffix : string;
  (** [new Date()] when a citizen is converted *)
  now : nat -> Z;
  photo_transferred : nat -> bool;
  photo_stamp : nat -> Z;
  fingerprint_transferred : nat -> bool;
  fingerprint_stamp : nat -> Z;
  (** [new Date()] when the run ends *)
  finished_at : Z;
  (** [NOW()] of the remote store when the row of a record is updated *)
  server_now : Tier -> nat -> Z;
  (** what the columns [latitude DECIMAL(10, 8)] and
      [longitude DECIMAL(11, 8)] keep of a number *)
  stored_latitude : float -> float;
  stored_longitude : float -> float }.

(** A household row as its table keeps it. *)
Definition stored_household (env : UploadEnv) (row : SupabaseHousehold.t)
    : SupabaseHousehold.t :=
  {| SupabaseHousehold.id := SupabaseHousehold.id row;
     SupabaseHousehold.village_id := SupabaseHousehold.village_id row;
     SupabaseHousehold.code := SupabaseHousehold.code row;
     SupabaseHousehold.head_name := SupabaseHousehold.head_name row;
     SupabaseHousehold.location_description :=
       SupabaseHousehold.location_description row;
     SupabaseHousehold.latitude :=
       stored_latitude env <$> SupabaseHousehold.latitude row;
     SupabaseHousehold.longitude :=
       stored_longitude env <$> SupabaseHousehold.longitude row;
     SupabaseHousehold.created_at := SupabaseHousehold.created_at row;
     SupabaseHousehold.updated_at := SupabaseHousehold.updated_at row |}.

(** [`device-${Date.now()}-${Math.random().toString(36).substring(2, 9)}`]. *)
Definition new_device_id (env : UploadEnv) : string :=
  "device-" ++ device_suffix env.

Definition getDeviceId (generated : string) (s : Settings.t) : string * Settings.t :=
  match Settings.sync_device_id s with
  | Some d =>
      if truthy_string d then (d, s)
      else (generated, Settings.mk (Settings.last_sync_time s) (Some generated))
  | None => (generated, Settings.mk (Settings.last_sync_time s) (Some generated))
  end.

Definition set_last_sync_time (now : Z) (s : Settings.t) : Settings.t :=
  Settings.mk (Some now) (Settings.sync_device_id s).

Record UploadState := mkUploadState {
  up_remote : Remote.t;
  up_settings : Settings.t;
  up_result : SyncResult;
  wardIdMap : gmap nat string;
  villageIdMap : gmap nat string;
  householdIdMap : gmap nat string }.

Definition count_uploaded (tier : Tier) (r : SyncResult) : SyncResult :=
  let u := uploaded r in
  let u' :=
    match tier with
    | TWard => Counts.mk (S (Counts.wards u)) (Counts.villages u)
                 (Counts.households u) (Counts.citizens u)
    | TVillage => Counts.mk (Counts.wards u) (S (Counts.villages u))
                    (Counts.households u) (Counts.citizens u)
    | THousehold => Counts.mk (Counts.wards u) (Counts.villages u)
                      (S (Counts.households u)) (Counts.citizens u)
    | TCitizen => Counts.mk (Counts.wards u) (Counts.villages u)
                    (Counts.households u) (S (Counts.citizens u))
    end in
  mkResult (success r) u' (downloaded r) (errors r).

Definition up_error (msg : string) (st : UploadState) : UploadState :=
  mkUploadState (up_remote st) (up_settings st) (push_error msg (up_result st))
    (wardIdMap st) (villageIdMap st) (householdIdMap st).

Definition upload_ward (env : UploadEnv) (st : UploadState) (ward : Ward.t)
    : UploadState :=
  let r := up_remote st in
  let existing :=
    select_id (select_answered env TWard (Ward.id ward))
      SupabaseWard.code SupabaseWard.id (Ward.code ward) (Remote.wards r) in
  let supabaseWard :=
    wardToSupabase (randomUUID env TWard (Ward.id ward)) ward existing in
  match write_reply env TWard (Ward.id ward) with
  | Thrown e => up_error ("Ward " ++ Ward.code ward ++ ": " ++ e) st
  | reply =>
      mkUploadState
        (Remote.mk
           (write_row reply SupabaseWard.id
              (patch_ward (server_now env TWard (Ward.id ward)))
              existing supabaseWard (Remote.wards r))
           (Remote.villages r) (Remote.households r) (Remote.citizens r)
           (Remote.objects r))
        (up_settings st)
        (count_uploaded TWard (up_result st))
        (<[Ward.id ward := SupabaseWard.id supabaseWard]> (wardIdMap st))
        (villageIdMap st) (householdIdMap st)
  end.

Definition upload_village (env : UploadEnv) (st : UploadState)
    (village : Village.t) : UploadState :=
  match wardIdMap st !! Village.wardId village with
  | Some wardUuid =>
      if truthy_string wardUuid then
        let r := up_remote st in
        let existing :=
          select_id (select_answered env TVillage (Village.id village))
            SupabaseVillage.code SupabaseVillage.id (Village.code village)
            (Remote.villages r) in
        let supabaseVillage :=
          villageToSupabase (randomUUID env TVillage (Village.id village))
            village wardUuid existing in
        match write_reply env TVillage (Village.id village) with
        | Thrown e => up_error ("Village " ++ Village.code village ++ ": " ++ e) st
        | reply =>
            mkUploadState
              (Remote.mk (Remote.wards r)
                 (write_row reply SupabaseVillage.id
                    (patch_village (server_now env TVillage (Village.id village)))
                    existing supabaseVillage (Remote.villages r))
                 (Remote.households r) (Remote.citizens r) (Remote.objects r))
              (up_settings st)
              (count_uploaded TVillage (up_result st))
              (wardIdMap st)
              (<[Village.id village := SupabaseVillage.id supabaseVillage]>
                 (villageIdMap st))
              (householdIdMap st)
        end
      else up_error ("Village " ++ Village.code village ++ ": Ward not found") st
  | None => up_error ("Village " ++ Village.code village ++ ": Ward not found") st
  end.

Definition upload_household (env : UploadEnv) (st : UploadState)
    (household : Household.t) : UploadState :=
  match villageIdMap st !! Household.villageId household with
  | Some villageUuid =>
      if truthy_string villageUuid then
        let r := up_remote st in
        let existing :=
          select_id (select_answered env THousehold (Household.id household))
            SupabaseHousehold.code SupabaseHousehold.id (Household.code household)
            (Remote.households r) in
        let supabaseHousehold :=
          householdToSupabase (randomUUID env THousehold (Household.id household))
            household villageUuid existing in
        match write_reply env THousehold (Household.id household) with
        | Thrown e =>
            up_error ("Household " ++ Household.code household ++ ": " ++ e) st
        | reply =>
            mkUploadState
              (Remote.mk (Remote.wards r) (Remote.villages r)
                 (write_row reply SupabaseHousehold.id
                    (patch_household
                       (server_now env THousehold (Household.id household)))
                    existing (stored_household env supabaseHousehold)
                    (Remote.households r))
                 (Remote.citizens r) (Remote.objects r))
              (up_settings st)
              (count_uploaded THousehold (up_result st))
              (wardIdMap st) (villageIdMap st)
              (<[Household.id household := SupabaseHousehold.id supabaseHousehold]>
                 (householdIdMap st))
        end
      else
        up_error ("Household " ++ Household.code household ++ ": Village not found") st
  | None =>
      up_error ("Household " ++ Household.code household ++ ": Village not found") st
  end.

Definition set_photo_url (url : option Url) (c : SupabaseCitizen.t)
    : SupabaseCitizen.t :=
  match url with
  | Some u =>
      SupabaseCitizen.mk (SupabaseCitizen.id c) (SupabaseCitizen.unique_id c)
        (SupabaseCitizen.household_id c) (SupabaseCitizen.village_id c)
        (SupabaseCitizen.ward_id c) (SupabaseCitizen.first_name c)
        (SupabaseCitizen.last_name c) (SupabaseCitizen.other_names c)
        (SupabaseCitizen.sex c) (SupabaseCitizen.date_of_birth c)
        (SupabaseCitizen.age c) (SupabaseCitizen.phone_number c)
        (SupabaseCitizen.occupation c) (SupabaseCitizen.disability_status c)
        (SupabaseCitizen.disability_notes c) (Some u)
        (SupabaseCitizen.fingerprint_url c) (SupabaseCitizen.consent_given c)
        (SupabaseCitizen.consent_date c) (SupabaseCitizen.recorder_name c)
        (SupabaseCitizen.notes c) (SupabaseCitizen.created_at c)
        (SupabaseCitizen.updated_at c) (SupabaseCitizen.synced_at c)
        (SupabaseCitizen.device_id c)
  | None => c
  end.

Definition set_fingerprint_url (url : option Url) (c : SupabaseCitizen.t)
    : SupabaseCitizen.t :=
  match url with
  | Some u =>
      SupabaseCitizen.mk (SupabaseCitizen.id c) (SupabaseCitizen.unique_id c)
        (SupabaseCitizen.household_id c) (SupabaseCitizen.village_id c)
        (SupabaseCitizen.ward_id c) (SupabaseCitizen.first_name c)
        (SupabaseCitizen.last_name c) (SupabaseCitizen.other_names c)
        (SupabaseCitizen.sex c) (SupabaseCitizen.date_of_birth c)
        (SupabaseCitizen.age c) (SupabaseCitizen.phone_number c)
        (SupabaseCitizen.occupation c) (SupabaseCitizen.disability_status c)
        (SupabaseCitizen.disability_notes c) (SupabaseCitizen.photo_url c)
        (Some u) (SupabaseCitizen.consent_given c)
        (SupabaseCitizen.consent_date c) (SupabaseCitizen.recorder_name c)
        (SupabaseCitizen.notes c) (SupabaseCitizen.created_at c)
        (SupabaseCitizen.updated_at c) (SupabaseCitizen.synced_at c)
        (SupabaseCitizen.device_id c)
  | None => c
  end.

(** [if (data) url = await upload(data, citizenId)]. *)
Definition upload_attachment
    (upload : bool -> Z -> string -> string -> list (Url * string)
              -> option Url * list (Url * string))
    (transferred : bool) (now : Z) (data : option string) (citizenId : string)
    (objects : list (Url * string)) : option Url * list (Url * string) :=
  match data with
  | Some d =>
      if truthy_string d then upload transferred now d citizenId objects
      else (None, objects)
  | None => (None, objects)
  end.

Definition missing_parents (citizen : Citizen.t) : string :=
  "Citizen " ++ Citizen.uniqueId citizen ++ ": Missing parent records".

Definition upload_citizen_with_parents (env : UploadEnv) (st : UploadState)
    (citizen : Citizen.t) (householdUuid villageUuid wardUuid : string)
    : UploadState :=
  let r := up_remote st in
  let k := Citizen.id citizen in
  let existing :=
    select_id (select_answered env TCitizen k)
      SupabaseCitizen.unique_id SupabaseCitizen.id (Citizen.uniqueId citizen)
      (Remote.citizens r) in
  let '(deviceId, settings) := getDeviceId (new_device_id env) (up_settings st) in
  let supabaseCitizen :=
    citizenToSupabase deviceId (now env k) (randomUUID env TCitizen k) citizen
      householdUuid villageUuid wardUuid existing in
  let '(photoUrl, objects) :=
    upload_attachment uploadPhotoToStorage (photo_transferred env k)
      (photo_stamp env k) (Citizen.photoData citizen) (Citizen.uniqueId citizen)
      (Remote.objects r) in
  let supabaseCitizen := set_photo_url photoUrl supabaseCitizen in
  let '(fingerprintUrl, objects) :=
    upload_attachment uploadFingerprintToStorage (fingerprint_transferred env k)
      (fingerprint_stamp env k) (Citizen.fingerprintData citizen)
      (Citizen.uniqueId citizen) objects in
  let supabaseCitizen := set_fingerprint_url fingerprintUrl supabaseCitizen in
  match write_reply env TCitizen k with
  | Thrown e =>
      (* [citizenToSupabase] throws, after [getDeviceId] and before the
         attachments are sent *)
      mkUploadState r
        settings
        (push_error ("Citizen " ++ Citizen.uniqueId citizen ++ ": " ++ e)
           (up_result st))
        (wardIdMap st) (villageIdMap st) (householdIdMap st)
  | reply =>
      mkUploadState
        (Remote.mk (Remote.wards r) (Remote.villages r) (Remote.households r)
           (write_row reply SupabaseCitizen.id
              (patch_citizen (server_now env TCitizen k)) existing
              supabaseCitizen (Remote.citizens r))
           objects)
        settings
        (count_uploaded TCitizen (up_result st))
        (wardIdMap st) (villageIdMap st) (householdIdMap st)
  end.

Definition upload_citizen (env : UploadEnv) (st : UploadState)
    (citizen : Citizen.t) : UploadState :=
  match householdIdMap st !! Citizen.householdId citizen,
        villageIdMap st !! Citizen.villageId citizen,
        wardIdMap st !! Citizen.wardId citizen with
  | Some householdUuid, Some villageUuid, Some wardUuid =>
      if truthy_string householdUuid && truthy_string villageUuid
         && truthy_string wardUuid
      then upload_citizen_with_parents env st citizen
             householdUuid villageUuid wardUuid
      else up_error (missing_parents citizen) st
  | _, _, _ => up_error (missing_parents citizen) st
  end.

(** What a run leaves behind: the result it returns and the two stores. *)
Record Run := mkRun {
  result : SyncResult;
  local_after : Local.t;
  remote_after : Remote.t }.

Definition no_connection : string := "Error: No internet connection".

Definition upload_all (env : UploadEnv) (local : Local.t) (remote : Remote.t)
    : UploadState :=
  let st := mkUploadState remote (Local.settings local) initial_result ∅ ∅ ∅ in
  let st := fold_left (upload_ward env) (toArray (Local.wards local)) st in
  let st := fold_left (upload_village env) (toArray (Local.villages local)) st in
  let st := fold_left (upload_household env) (toArray (Local.households local)) st in
  fold_left (upload_citizen env) (toArray (Local.citizens local)) st.

Definition with_settings (s : Settings.t) (local : Local.t) : Local.t :=
  Local.mk (Local.wards local) (Local.villages local) (Local.households local)
    (Local.citizens local) s.

Definition finish (r : SyncResult) : SyncResult :=
  mkResult (match errors r with [] => true | _ => false end)
    (uploaded r) (downloaded r) (errors r).

Definition abort (prefix e : string) (r : SyncResult) : SyncResult :=
  mkResult false (uploaded r) (downloaded r) (errors r ++ [(prefix ++ e)%string]).

Definition syncToSupabase (env : UploadEnv) (local : Local.t) (remote : Remote.t)
    : Run :=
  if negb (onLine env) then
    mkRun (abort "Sync failed: " no_connection initial_result) local remote
  else
    let st := upload_all env local remote in
    mkRun (finish (up_result st))
      (with_settings (set_last_sync_time (finished_at env) (up_settings st)) local)
      (up_remote st).

(** [checkSupabaseConnection]: a count query on the wards. *)
Definition checkSupabaseConnection (probe : Reply) : bool :=
  match probe with
  | Done => true
  | _ => false
  end.

(** *** Download *)

Record DownloadEnv := mkDownloadEnv {
  dl_onLine : bool;
  (** the error value of the [select('*')] of a tier, if it has one *)
  fetch_error : Tier -> option string;
  (** the exception of the local write for a remote record, if it throws *)
  store_throws : Tier -> string -> option string;
  photo_fetched : string -> bool;
  fingerprint_fetched : string -> bool;
  dl_finished_at : Z }.

Record DownloadState := mkDownloadState {
  dn_local : Local.t;
  dn_result : SyncResult;
  wardUuidToLocalId : gmap string nat;
  villageUuidToLocalId : gmap string nat;
  householdUuidToLocalId : gmap string nat }.

Definition count_downloaded (tier : Tier) (r : SyncResult) : SyncResult :=
  let d := downloaded r in
  let d' :=
    match tier with
    | TWard => Counts.mk (S (Counts.wards d)) (Counts.villages d)
                 (Counts.households d) (Counts.citizens d)
    | TVillage => Counts.mk (Counts.wards d) (S (Counts.villages d))
                    (Counts.households d) (Counts.citizens d)
    | THousehold => Counts.mk (Counts.wards d) (Counts.villages d)
                      (S (Counts.households d)) (Counts.citizens d)
    | TCitizen => Counts.mk (Counts.wards d) (Counts.villages d)
                    (Counts.households d) (S (Counts.citizens d))
    end in
  mkResult (success r) (uploaded r) d' (errors r).

Definition dn_error (msg : string) (st : DownloadState) : DownloadState :=
  mkDownloadState (dn_local st) (push_error msg (dn_result st))
    (wardUuidToLocalId st) (villageUuidToLocalId st) (householdUuidToLocalId st).

(** [if (existing) { update; localId = existing.id } else { localId = add }].
    The key generator always returns a key, so the test
    [newId === undefined] of the code never holds. *)
Definition put {R} `{Keyed R} (existing : option R) (fields : nat -> R)
    (t : Table R) : nat * Table R :=
  match existing with
  | Some e => (primary_key e, update (primary_key e) fields t)
  | None => add fields t
  end.

Definition download_ward (env : DownloadEnv) (st : DownloadState)
    (ward : SupabaseWard.t) : DownloadState :=
  let l := dn_local st in
  let existing :=
    first_where (fun w => String.eqb (Ward.code w) (SupabaseWard.code ward))
      (Local.wards l) in
  let localWard := supabaseToWard ward in
  match store_throws env TWard (SupabaseWard.id ward) with
  | Some e => dn_error ("Ward " ++ SupabaseWard.code ward ++ ": " ++ e) st
  | None =>
      let '(localId, table) := put existing localWard (Local.wards l) in
      mkDownloadState
        (Local.mk table (Local.villages l) (Local.households l)
           (Local.citizens l) (Local.settings l))
        (count_downloaded TWard (dn_result st))
        (<[SupabaseWard.id ward := localId]> (wardUuidToLocalId st))
        (villageUuidToLocalId st) (householdUuidToLocalId st)
  end.

Definition download_village (env : DownloadEnv) (st : DownloadState)
    (village : SupabaseVillage.t) : DownloadState :=
  match wardUuidToLocalId st !! SupabaseVillage.ward_id village with
  | Some localWardId =>
      if truthy_number localWardId then
        let l := dn_local st in
        let existing :=
          first_where
            (fun v => String.eqb (Village.code v) (SupabaseVillage.code village))
            (Local.villages l) in
        let localVillage := supabaseToVillage village localWardId in
        match store_throws env TVillage (SupabaseVillage.id village) with
        | Some e =>
            dn_error ("Village " ++ SupabaseVillage.code village ++ ": " ++ e) st
        | None =>
            let '(localId, table) := put existing localVillage (Local.villages l) in
            mkDownloadState
              (Local.mk (Local.wards l) table (Local.households l)
                 (Local.citizens l) (Local.settings l))
              (count_downloaded TVillage (dn_result st))
              (wardUuidToLocalId st)
              (<[SupabaseVillage.id village := localId]> (villageUuidToLocalId st))
              (householdUuidToLocalId st)
        end
      else
        dn_error ("Village " ++ SupabaseVillage.code village
                  ++ ": Ward not found locally") st
  | None =>
      dn_error ("Village " ++ SupabaseVillage.code village
                ++ ": Ward not found locally") st
  end.

Definition download_household (env : DownloadEnv) (st : DownloadState)
    (household : SupabaseHousehold.t) : DownloadState :=
  match villageUuidToLocalId st !! SupabaseHousehold.village_id household with
  | Some localVillageId =>
      if truthy_number localVillageId then
        let l := dn_local st in
        let existing :=
          first_where
            (fun h => String.eqb (Household.code h)
                        (SupabaseHousehold.code household))
            (Local.households l) in
        let localHousehold := supabaseToHousehold household localVillageId in
        match store_throws env THousehold (SupabaseHousehold.id household) with
        | Some e =>
            dn_error ("Household " ++ SupabaseHousehold.code household
                      ++ ": " ++ e) st
        | None =>
            let '(localId, table) :=
              put existing localHousehold (Local.households l) in
            mkDownloadState
              (Local.mk (Local.wards l) (Local.villages l) table
                 (Local.citizens l) (Local.settings l))
              (count_downloaded THousehold (dn_result st))
              (wardUuidToLocalId st) (villageUuidToLocalId st)
              (<[SupabaseHousehold.id household := localId]>
                 (householdUuidToLocalId st))
        end
      else
        dn_error ("Household " ++ SupabaseHousehold.code household
                  ++ ": Village not found locally") st
  | None =>
      dn_error ("Household " ++ SupabaseHousehold.code household
                ++ ": Village not found locally") st
  end.

Definition set_photoData (data : option string) (c : Citizen.t) : Citizen.t :=
  if truthy_opt_string data then
    Citizen.mk (Citizen.id c) (Citizen.uniqueId c) (Citizen.householdId c)
      (Citizen.villageId c) (Citizen.wardId c) (Citizen.firstName c)
      (Citizen.lastName c) (Citizen.otherNames c) (Citizen.sex c)
      (Citizen.dateOfBirth c) (Citizen.age c) (Citizen.phoneNumber c)
      (Citizen.occupation c) (Citizen.disabilityStatus c)
      (Citizen.disabilityNotes c) data (Citizen.fingerprintData c)
      (Citizen.notes c) (Citizen.consentGiven c) (Citizen.consentDate c)
      (Citizen.recorderName c) (Citizen.createdAt c) (Citizen.updatedAt c)
  else c.

Definition set_fingerprintData (data : option string) (c : Citizen.t) : Citizen.t :=
  if truthy_opt_string data then
    Citizen.mk (Citizen.id c) (Citizen.uniqueId c) (Citizen.householdId c)
      (Citizen.villageId c) (Citizen.wardId c) (Citizen.firstName c)
      (Citizen.lastName c) (Citizen.otherNames c) (Citizen.sex c)
      (Citizen.dateOfBirth c) (Citizen.age c) (Citizen.phoneNumber c)
      (Citizen.occupation c) (Citizen.disabilityStatus c)
      (Citizen.disabilityNotes c) (Citizen.photoData c) data
      (Citizen.notes c) (Citizen.consentGiven c) (Citizen.consentDate c)
      (Citizen.recorderName c) (Citizen.createdAt c) (Citizen.updatedAt c)
  else c.

(** [if (url) data = await download(url)]. *)
Definition download_attachment (transferred : bool) (url : option Url)
    (objects : list (Url * string)) : option string :=
  match url with
  | Some u => downloadFromStorage transferred u objects
  | None => None
  end.

Definition missing_parents_locally (citizen : SupabaseCitizen.t) : string :=
  "Citizen " ++ SupabaseCitizen.unique_id citizen ++ ": Missing parent records".

Definition download_citizen_with_parents (env : DownloadEnv)
    (objects : list (Url * string)) (st : DownloadState)
    (citizen : SupabaseCitizen.t)
    (localHouseholdId localVillageId localWardId : nat) : DownloadState :=
  let l := dn_local st in
  let existing :=
    first_where
      (fun c => String.eqb (Citizen.uniqueId c) (SupabaseCitizen.unique_id citizen))
      (Local.citizens l) in
  let localCitizen :=
    supabaseToCitizen citizen localHouseholdId localVillageId localWardId in
  let photoData :=
    download_attachment (photo_fetched env (SupabaseCitizen.id citizen))
      (SupabaseCitizen.photo_url citizen) objects in
  let localCitizen := fun id => set_photoData photoData (localCitizen id) in
  let fingerprintData :=
    download_attachment (fingerprint_fetched env (SupabaseCitizen.id citizen))
      (SupabaseCitizen.fingerprint_url citizen) objects in
  let localCitizen := fun id => set_fingerprintData fingerprintData (localCitizen id) in
  match store_throws env TCitizen (SupabaseCitizen.id citizen) with
  | Some e =>
      dn_error ("Citizen " ++ SupabaseCitizen.unique_id citizen ++ ": " ++ e) st
  | None =>
      let '(_, table) := put existing localCitizen (Local.citizens l) in
      mkDownloadState
        (Local.mk (Local.wards l) (Local.villages l) (Local.households l)
           table (Local.settings l))
        (count_downloaded TCitizen (dn_result st))
        (wardUuidToLocalId st) (villageUuidToLocalId st)
        (householdUuidToLocalId st)
  end.

Definition download_citizen (env : DownloadEnv) (objects : list (Url * string))
    (st : DownloadState) (citizen : SupabaseCitizen.t) : DownloadState :=
  match householdUuidToLocalId st !! SupabaseCitizen.household_id citizen,
        villageUuidToLocalId st !! SupabaseCitizen.village_id citizen,
        wardUuidToLocalId st !! SupabaseCitizen.ward_id citizen with
  | Some localHouseholdId, Some localVillageId, Some localWardId =>
      if truthy_number localHouseholdId && truthy_number localVillageId
         && truthy_number localWardId
      then download_citizen_with_parents env objects st citizen
             localHouseholdId localVillageId localWardId
      else dn_error (missing_parents_locally citizen) st
  | _, _, _ => dn_error (missing_parents_locally citizen) st
  end.

(** One tier of the download: the fetch fails as a whole, or its rows
    are processed oldest first. *)
Definition download_tier {R} (env : DownloadEnv) (tier : Tier) (label : string)
    (created_at : R -> Z) (step : DownloadState -> R -> DownloadState)
    (table : list R) (st : DownloadState) : DownloadState :=
  match fetch_error env tier with
  | Some e => dn_error ("Failed to fetch " ++ label ++ ": " ++ e) st
  | None => fold_left step (order_by created_at table) st
  end.

Definition download_all (env : DownloadEnv) (local : Local.t) (remote : Remote.t)
    : DownloadState :=
  let st := mkDownloadState local initial_result ∅ ∅ ∅ in
  let st := download_tier env TWard "wards" SupabaseWard.created_at
              (download_ward env) (Remote.wards remote) st in
  let st := download_tier env TVillage "villages" SupabaseVillage.created_at
              (download_village env) (Remote.villages remote) st in
  let st := download_tier env THousehold "households" SupabaseHousehold.created_at
              (download_household env) (Remote.households remote) st in
  download_tier env TCitizen "citizens" SupabaseCitizen.created_at
    (download_citizen env (Remote.objects remote)) (Remote.citizens remote) st.

Definition restoreFromSupabase (env : DownloadEnv) (local : Local.t)
    (remote : Remote.t) : Run :=
  if negb (dl_onLine env) then
    mkRun (abort "Restore failed: " no_connection initial_result) local remote
  else
    let st := download_all env local remote in
    mkRun (finish (dn_result st))
      (with_settings
         (set_last_sync_time (dl_finished_at env) (Local.settings (dn_local st)))
         (dn_local st))
      remote.

(** *** The callers in [SupabaseSync.tsx]

    The dialog keeps two flags, the browser's connectivity,
    [useState(navigator.onLine)], and the reachability of the remote
    store, [useState(false)], and starts a run only when both hold. *)
Module Dialog.
Record t := mk {
  isOnline : bool;
  supabaseReachable : bool }.

Definition initial (onLine : bool) : t := mk onLine false.
End Dialog.

(** [checkStatus], run when the dialog opens: the second flag becomes the
    answer of [checkSupabaseConnection], whose request gets the reply
    [probe]. *)
Definition checkStatus (probe : Reply) (d : Dialog.t) : Dialog.t :=
  Dialog.mk (Dialog.isOnline d) (checkSupabaseConnection probe).

(** The listeners of the [online] and [offline] events of the window. *)
Definition handleOnline (d : Dialog.t) : Dialog.t :=
  Dialog.mk true (Dialog.supabaseReachable d).

Definition handleOffline (d : Dialog.t) : Dialog.t :=
  Dialog.mk false (Dialog.supabaseReachable d).

Definition handleSync (d : Dialog.t) (env : UploadEnv)
    (local : Local.t) (remote : Remote.t) : option Run :=
  if negb (Dialog.isOnline d) then None
  else if negb (Dialog.supabaseReachable d) then None
  else Some (syncToSupabase env local remote).

Definition handleRestore (d : Dialog.t) (confirmed : bool)
    (env : DownloadEnv) (local : Local.t) (remote : Remote.t) : option Run :=
  if negb (Dialog.isOnline d) then None
  else if negb (Dialog.supabaseReachable d) then None
  else if negb confirmed then None
  else Some (restoreFromSupabase env local remote).

(** ** The end-to-end scenario of the specification

    One area, one subarea, one unit and one member, and environments in
    which every call succeeds, the remote store cannot be reached, or an
    attachment transfer fails. *)

Module Scenario.

Definition north : Ward.t := Ward.mk 1 "W01" "North" 1000%Z.

Definition lakeside : Village.t := Village.mk 1 1 "V01" "Lakeside" 2000%Z.

Definition doe_unit : Household.t :=
  Household.mk 1 1 "H001" "Doe" None None None 3000%Z 3000%Z.

Definition jane (photo : option string) (dob : option Date) : Citizen.t :=
  {| Citizen.id := 1; Citizen.uniqueId := "W01-V01-000001";
     Citizen.householdId := 1; Citizen.villageId := 1; Citizen.wardId := 1;
     Citizen.firstName := "Jane"; Citizen.lastName := "Doe";
     Citizen.otherNames := None; Citizen.sex := female;
     Citizen.dateOfBirth := dob; Citizen.age := None;
     Citizen.phoneNumber := Some "5551234"; Citizen.occupation := None;
     Citizen.disabilityStatus := none; Citizen.disabilityNotes := None;
     Citizen.photoData := photo; Citizen.fingerprintData := None;
     Citizen.notes := None; Citizen.consentGiven := true;
     Citizen.consentDate := None; Citizen.recorderName := None;
     Citizen.createdAt := 4000%Z; Citizen.updatedAt := 4000%Z |}.

(** A second area with a subarea that has the code of [lakeside], as the
    sample data of the application has it ([V01] under every ward), and a
    unit with coordinates of more than eight decimals. *)
Definition south : Ward.t := Ward.mk 2 "W02" "South" 1500%Z.

Definition hillside : Village.t := Village.mk 2 2 "V01" "Hillside" 2500%Z.

Definition two_areas : Local.t :=
  Local.mk (mkTable [north; south] 3) (mkTable [lakeside; hillside] 3)
    (mkTable [] 1) (mkTable [] 1) (Settings.mk None None).

Definition surveyed_unit : Household.t :=
  Household.mk 1 1 "H001" "Doe" None (Some (-9.4438012345)%float)
    (Some 147.1802999999%float) 3000%Z 3000%Z.

Definition surveyed : Local.t :=
  Local.mk (mkTable [north] 2) (mkTable [lakeside] 2)
    (mkTable [surveyed_unit] 2) (mkTable [] 1) (Settings.mk None None).

Definition registry (member : Citizen.t) : Local.t :=
  Local.mk (mkTable [north] 2) (mkTable [lakeside] 2) (mkTable [doe_unit] 2)
    (mkTable [member] 2) (Settings.mk None None).

Definition tier_letter (tier : Tier) : string :=
  match tier with
  | TWard => "w"
  | TVillage => "v"
  | THousehold => "h"
  | TCitizen => "c"
  end.

(** What a [DECIMAL] column of scale 8 keeps of a number of the size of a
    coordinate: the nearest multiple of [1e-8].  Adding and subtracting
    [1.5 * 2^52] rounds a double below [2^51] to the nearest integer. *)
Definition decimal_8 (x : float) : float :=
  ((x * 100000000 + 6755399441055744) - 6755399441055744) / 100000000.

(** A generator of identifiers that never repeats itself. *)
Definition uuid_of (tier : Tier) (k : nat) : string :=
  tier_letter tier ++ "-" ++ NilZero.string_of_uint (Nat.to_uint k).

(** Every call is answered and carried out; the clock reads [t]. *)
Definition reliable (t : Z) : UploadEnv :=
  {| onLine := true;
     select_answered := fun _ _ => true;
     write_reply := fun _ _ => Done;
     randomUUID := uuid_of;
     device_suffix := "1700000000000-k3x9q2a";
     now := fun _ => t;
     photo_transferred := fun _ => true;
     photo_stamp := fun _ => t;
     fingerprint_transferred := fun _ => true;
     fingerprint_stamp := fun _ => t;
     finished_at := t;
     server_now := fun _ _ => t;
     stored_latitude := decimal_8;
     stored_longitude := decimal_8 |}.

(** The browser is on line but no request reaches the remote store. *)
Definition unreachable : UploadEnv :=
  {| onLine := true;
     select_answered := fun _ _ => false;
     write_reply := fun _ _ => ErrorValue "TypeError: Failed to fetch";
     randomUUID := uuid_of;
     device_suffix := "1700000000000-k3x9q2a";
     now := fun _ => 5000%Z;
     photo_transferred := fun _ => false;
     photo_stamp := fun _ => 5000%Z;
     fingerprint_transferred := fun _ => false;
     fingerprint_stamp := fun _ => 5000%Z;
     finished_at := 5000%Z;
     server_now := fun _ _ => 5000%Z;
     stored_latitude := decimal_8;
     stored_longitude := decimal_8 |}.

(** Records are written but attachments are not transferred. *)
Definition no_attachments : UploadEnv :=
  {| onLine := true;
     select_answered := fun _ _ => true;
     write_reply := fun _ _ => Done;
     randomUUID := uuid_of;
     device_suffix := "1700000000000-k3x9q2a";
     now := fun _ => 5000%Z;
     photo_transferred := fun _ => false;
     photo_stamp := fun _ => 5000%Z;
     fingerprint_transferred := fun _ => false;
     fingerprint_stamp := fun _ => 5000%Z;
     finished_at := 5000%Z;
     server_now := fun _ _ => 5000%Z;
     stored_latitude := decimal_8;
     stored_longitude := decimal_8 |}.

Definition offline : UploadEnv :=
  {| onLine := false;
     select_answered := fun _ _ => true;
     write_reply := fun _ _ => Done;
     randomUUID := uuid_of;
     device_suffix := "1700000000000-k3x9q2a";
     now := fun _ => 5000%Z;
     photo_transferred := fun _ => true;
     photo_stamp := fun _ => 5000%Z;
     fingerprint_transferred := fun _ => true;
     fingerprint_stamp := fun _ => 5000%Z;
     finished_at := 5000%Z;
     server_now := fun _ _ => 5000%Z;
     stored_latitude := decimal_8;
     stored_longitude := decimal_8 |}.

Definition restoring (online : bool) (failure : option string) : DownloadEnv :=
  {| dl_onLine := online;
     fetch_error := fun _ => failure;
     store_throws := fun _ _ => None;
     photo_fetched := fun _ => true;
     fingerprint_fetched := fun _ => true;
     dl_finished_at := 9000%Z |}.

End Scenario.

(** ** [validation.ts]: validation of records and of import batches *)

Module Batch.
Import Validation.

Record ValidationError := mkError {
  field : string;
  message : string;
  row : option nat }.

(** [/^[\d\s\-+()]{7,15}$/]: seven to fifteen characters, each a digit,
    white space, or one of [-+()]. *)
Definition phone_char (c : ascii) : bool :=
  is_digit c || is_space c
  || Ascii.eqb c "-" || Ascii.eqb c "+" || Ascii.eqb c "(" || Ascii.eqb c ")".

Definition phoneRegex_test (s : string) : bool :=
  (7 <=? String.length s) && (String.length s <=? 15)
  && forallb phone_char (chars s).

Definition valid_sexes : list Sex := [male; female].

Definition validDisabilityStatuses : list DisabilityStatus :=
  [none; visual; hearing; physical; intellectual; multiple; other].

#[export] Instance sex_eq_dec : EqDecision Sex.
Proof. solve_decision. Defined.

#[export] Instance disability_eq_dec : EqDecision DisabilityStatus.
Proof. solve_decision. Defined.

(** [!s?.trim()]. *)
Definition blank (s : option string) : bool :=
  match s with
  | Some s => negb (truthy_string (trim s))
  | None => true
  end.

Definition when (b : bool) (e : ValidationError) : list ValidationError :=
  if b then [e] else [].

(** [validateCitizenData(data, rowNumber)]; [now] is the [new Date()] the
    birth date is compared with. *)
Definition validateCitizenData (now : Date) (data : Citizen.partial)
    (rowNumber : option nat) : list ValidationError :=
  when (blank (Citizen.p_firstName data))
    (mkError "firstName" "First name is required" rowNumber)
  ++ when (blank (Citizen.p_lastName data))
       (mkError "lastName" "Last name is required" rowNumber)
  ++ when (match Citizen.p_sex data with
           | Some s => negb (bool_decide (s ∈ valid_sexes))
           | None => true
           end)
       (mkError "sex" "Sex must be 'male' or 'female'" rowNumber)
  ++ when (match Citizen.p_phoneNumber data with
           | Some p => truthy_string p && negb (phoneRegex_test p)
           | None => false
           end)
       (mkError "phoneNumber" "Invalid phone number format" rowNumber)
  ++ when (match Citizen.p_age data with
           | Some a => (a <? 0)%Z || (150 <? a)%Z
           | None => false
           end)
       (mkError "age" "Age must be between 0 and 150" rowNumber)
  ++ when (match Citizen.p_dateOfBirth data with
           | Some dob => (now <? dob)%Z
           | None => false
           end)
       (mkError "dateOfBirth" "Date of birth cannot be in the future" rowNumber)
  ++ when (match Citizen.p_disabilityStatus data with
           | Some s => negb (bool_decide (s ∈ validDisabilityStatuses))
           | None => false
           end)
       (mkError "disabilityStatus" "Invalid disability status" rowNumber).

Record BatchResult := mkBatch {
  valid : list Citizen.partial;
  errors : list ValidationError;
  duplicates : list (nat * list DuplicateMatch) }.

Section WithHost.
Variable toDateString : Date -> string.
(** the clock when the record of a row is validated *)
Variable now : nat -> Date.
(** [db.citizens.toArray()]; the batch validation does not write *)
Variable existingCitizens : list Citizen.t.

(** The body of the loop for the record at index [i]. *)
Definition batch_step (skipDuplicateCheck : bool) (acc : BatchResult)
    (ir : nat * Citizen.partial) : BatchResult :=
  let '(i, record) := ir in
  let rowNumber := i + 1 in
  let validationErrors :=
    validateCitizenData (now rowNumber) record (Some rowNumber) in
  if 0 <? length validationErrors then
    mkBatch (valid acc) (errors acc ++ validationErrors) (duplicates acc)
  else
    let duplicates' :=
      if negb skipDuplicateCheck then
        let matches :=
          findDuplicates toDateString existingCitizens record 0.7%float in
        if 0 <? length matches
        then duplicates acc ++ [(rowNumber, matches)]
        else duplicates acc
      else duplicates acc in
    mkBatch (valid acc ++ [record]) (errors acc) duplicates'.

Definition indexed {A} (l : list A) : list (nat * A) :=
  combine (seq 0 (length l)) l.

Definition validateImportBatch (records : list Citizen.partial)
    (skipDuplicateCheck : bool) : BatchResult :=
  fold_left (batch_step skipDuplicateCheck) (indexed records) (mkBatch [] [] []).

End WithHost.

End Batch.

(** ** [db.ts]: settings, the PIN and member identifiers *)

Module Db.

Record AppSettings := mkSetting {
  id : nat;
  key : string;
  value : string }.

#[export] Instance setting_keyed : Keyed AppSettings := id.

(** [table.update(key, changes)]: the changes are applied to the row
    under that primary key. *)
Definition modify {R} `{Keyed R} (k : nat) (changes : R -> R) (t : Table R)
    : Table R :=
  mkTable (map (fun r => if (primary_key r =? k)%nat then changes r else r)
               (rows t))
          (nextId t).

Definition where_key (k : string) (t : Table AppSettings) : option AppSettings :=
  first_where (fun s => String.eqb (key s) k) t.

(** [setting?.value ?? null]. *)
Definition getAppSetting (k : string) (t : Table AppSettings) : option string :=
  value <$> where_key k t.

Definition setAppSetting (k v : string) (t : Table AppSettings)
    : Table AppSettings :=
  match where_key k t with
  | Some existing =>
      modify (id existing) (fun s => mkSetting (id s) (key s) v) t
  | None => (add (fun i => mkSetting i k v) t).2
  end.

Section Pin.
(** The lower-case hexadecimal SHA-256 digest of a string, which the
    browser computes. *)
Variable sha256_hex : string -> string.

Definition pin_digest (pin : string) : string :=
  sha256_hex (pin ++ "citizen-registry-salt").

Definition setPIN (pin : string) (t : Table AppSettings) : Table AppSettings :=
  setAppSetting "pin_hash" (pin_digest pin) t.

Definition verifyPIN (pin : string) (t : Table AppSettings) : bool :=
  match getAppSetting "pin_hash" t with
  | Some storedHash =>
      if truthy_string storedHash then String.eqb (pin_digest pin) storedHash
      else false
  | None => false
  end.

End Pin.

Definition hasPIN (t : Table AppSettings) : bool :=
  match getAppSetting "pin_hash" t with
  | Some _ => true
  | None => false
  end.

(** [String(n)] for a natural number. *)
Definition decimal (n : nat) : string :=
  NilZero.string_of_uint (Nat.to_uint n).

Fixpoint repeat_char (c : ascii) (n : nat) : string :=
  match n with
  | O => EmptyString
  | S n' => String c (repeat_char c n')
  end.

(** [s.padStart(targetLength, c)] for a one-character pad. *)
Definition padStart (s : string) (targetLength : nat) (c : ascii) : string :=
  repeat_char c (targetLength - String.length s) ++ s.

(** [db.citizens.count()]. *)
Definition count {R} (t : Table R) : nat := length (rows t).

Definition generateCitizenId (wardCode villageCode : string)
    (citizens : Table Citizen.t) : string :=
  let paddedNumber := padStart (decimal (count citizens + 1)) 6 "0" in
  wardCode ++ "-" ++ villageCode ++ "-" ++ paddedNumber.

End Db.

(** ** [getSyncStatus] of [supabaseSync.ts]

    The settings keep the time whose ISO string is stored under
    [last_sync_time], so [new Date(lastSyncStr)] is that time. *)

Record SyncStatus := mkStatus {
  isOnline : bool;
  lastSync : option Date;
  isSyncing : bool;
  pendingUploads : nat;
  error : option string }.

Definition getSyncStatus (onLine : bool) (s : Settings.t) : SyncStatus :=
  {| isOnline := onLine;
     lastSync := Settings.last_sync_time s;
     isSyncing := false;
     pendingUploads := 0;
     error := None |}.

(** ** [CSVImport.tsx]: the import of a validated batch *)

Module CsvImport.
Import Validation Batch Db.

Record ImportEnv := mkImportEnv {
  (** [selectedWard?.code] and [selectedVillage?.code] *)
  selectedWardCode : option string;
  selectedVillageCode : option string;
  (** [Number(selectedWardId)] and so on *)
  selectedWardId : nat;
  selectedVillageId : nat;
  selectedHouseholdId : nat;
  (** the three [new Date()] of the record of a row *)
  consent_clock : nat -> Date;
  created_clock : nat -> Date;
  updated_clock : nat -> Date;
  (** whether the insert of the record of a row throws *)
  add_throws : nat -> bool }.

(** [s || d]. *)
Definition or_else (s : option string) (d : string) : string :=
  match s with
  | Some s => if truthy_string s then s else d
  | None => d
  end.

Definition citizen_of (env : ImportEnv) (rowNumber : nat) (uniqueId : string)
    (record : Citizen.partial) : nat -> Citizen.t :=
  fun id =>
  {| Citizen.id := id;
     Citizen.uniqueId := uniqueId;
     Citizen.householdId := selectedHouseholdId env;
     Citizen.villageId := selectedVillageId env;
     Citizen.wardId := selectedWardId env;
     Citizen.firstName := or_else (Citizen.p_firstName record) "";
     Citizen.lastName := or_else (Citizen.p_lastName record) "";
     Citizen.otherNames := Citizen.p_otherNames record;
     Citizen.sex := default male (Citizen.p_sex record);
     Citizen.dateOfBirth := Citizen.p_dateOfBirth record;
     Citizen.age := Citizen.p_age record;
     Citizen.phoneNumber := Citizen.p_phoneNumber record;
     Citizen.occupation := Citizen.p_occupation record;
     Citizen.disabilityStatus := default none (Citizen.p_disabilityStatus record);
     Citizen.disabilityNotes := Citizen.p_disabilityNotes record;
     Citizen.photoData := None;
     Citizen.fingerprintData := None;
     Citizen.notes := Citizen.p_notes record;
     Citizen.consentGiven := true;
     Citizen.consentDate := Some (consent_clock env rowNumber);
     Citizen.recorderName := Some "CSV Import"%string;
     Citizen.createdAt := created_clock env rowNumber;
     Citizen.updatedAt := updated_clock env rowNumber |}.

Record ImportState := mkImportState {
  citizens : Table Citizen.t;
  imported : nat;
  skipped : nat;
  import_errors : list ValidationError }.

(** The insert of one record: the identifier is generated from the size
    of the table at that moment. *)
Definition import_one (env : ImportEnv) (t : Table Citizen.t)
    (ir : nat * Citizen.partial) : Table Citizen.t :=
  let uniqueId :=
    generateCitizenId (or_else (selectedWardCode env) "WARD")
      (or_else (selectedVillageCode env) "VLG") t in
  (add (citizen_of env (ir.1 + 1) uniqueId ir.2) t).2.

(** The body of the loop over [valid] for the record at index [i]. *)
Definition import_step (env : ImportEnv) (skipDuplicates : bool)
    (duplicateRows : list nat) (st : ImportState)
    (ir : nat * Citizen.partial) : ImportState :=
  let rowNumber := ir.1 + 1 in
  if skipDuplicates && bool_decide (rowNumber ∈ duplicateRows) then
    mkImportState (citizens st) (imported st) (S (skipped st)) (import_errors st)
  else if add_throws env rowNumber then
    mkImportState (citizens st) (imported st) (skipped st)
      (import_errors st
       ++ [mkError "import" ("Failed to import row " ++ decimal rowNumber)
             (Some rowNumber)])
  else
    mkImportState (import_one env (citizens st) ir) (S (imported st))
      (skipped st) (import_errors st).

Record ImportResult := mkImportResult {
  result_imported : nat;
  result_skipped : nat;
  result_errors : list ValidationError;
  result_duplicates : list (nat * list DuplicateMatch) }.

(** [handleImport] from the parsed and normalised records on; the
    second component is the member table afterwards. *)
Definition handleImport (env : ImportEnv) (toDateString : Date -> string)
    (now : nat -> Date) (normalizedRecords : list Citizen.partial)
    (skipDuplicates : bool) (t : Table Citizen.t)
    : ImportResult * Table Citizen.t :=
  let batch :=
    validateImportBatch toDateString now (toArray t) normalizedRecords
      (negb skipDuplicates) in
  let duplicateRows := fst <$> duplicates batch in
  let st :=
    fold_left (import_step env skipDuplicates duplicateRows)
      (indexed (valid batch)) (mkImportState t 0 0 (errors batch)) in
  (mkImportResult (imported st) (skipped st) (import_errors st)
     (duplicates batch),
   citizens st).

End CsvImport.

(** ** [validation.ts]: normalisation of a parsed row *)

Module Normalize.
Import Validation.

(** [columnMappings].  A header that is not listed stands for itself;
    since it is in lower case it then names [sex], [age], [occupation] or
    [notes], which are listed, or no branch of the loop. *)
Definition columnMappings : list (string * string) :=
  [("first name", "firstName"); ("firstname", "firstName");
   ("first_name", "firstName");
   ("last name", "lastName"); ("lastname", "lastName");
   ("last_name", "lastName");
   ("other names", "otherNames"); ("othernames", "otherNames");
   ("other_names", "otherNames"); ("middle name", "otherNames");
   ("sex", "sex"); ("gender", "sex");
   ("date of birth", "dateOfBirth"); ("dateofbirth", "dateOfBirth");
   ("date_of_birth", "dateOfBirth"); ("dob", "dateOfBirth");
   ("birth date", "dateOfBirth");
   ("age", "age");
   ("phone", "phoneNumber"); ("phone number", "phoneNumber");
   ("phonenumber", "phoneNumber"); ("phone_number", "phoneNumber");
   ("mobile", "phoneNumber"); ("telephone", "phoneNumber");
   ("occupation", "occupation"); ("job", "occupation"); ("work", "occupation");
   ("disability", "disabilityStatus");
   ("disability status", "disabilityStatus");
   ("disability_status", "disabilityStatus");
   ("notes", "notes"); ("comments", "notes"); ("remarks", "notes")]%string.

Fixpoint lookup_column (k : string) (m : list (string * string))
    : option string :=
  match m with
  | [] => None
  | (k', v) :: m' => if String.eqb k k' then Some v else lookup_column k m'
  end.

(** [columnMappings[normalizedKey] || normalizedKey]. *)
Definition mappedKey (key : string) : string :=
  let normalizedKey := trim (toLowerCase key) in
  match lookup_column normalizedKey columnMappings with
  | Some field => if truthy_string field then field else normalizedKey
  | None => normalizedKey
  end.

(** [value?.trim() || undefined]. *)
Definition trimmed (value : string) : option string :=
  if truthy_string (trim value) then Some (trim value) else None.

Definition sex_of (value : string) : option Sex :=
  let sexValue := trim (toLowerCase value) in
  if String.eqb sexValue "m" || String.eqb sexValue "male" then Some male
  else if String.eqb sexValue "f" || String.eqb sexValue "female"
       then Some female
  else None.

Definition validStatuses : list (string * DisabilityStatus) :=
  [("none", none); ("visual", visual); ("hearing", hearing);
   ("physical", physical); ("intellectual", intellectual);
   ("multiple", multiple); ("other", other)]%string.

Fixpoint status_named (s : string) (l : list (string * DisabilityStatus))
    : option DisabilityStatus :=
  match l with
  | [] => None
  | (n, d) :: l' => if String.eqb s n then Some d else status_named s l'
  end.

(** [validStatuses.includes(status) ? status : "none"]. *)
Definition status_of (value : string) : DisabilityStatus :=
  let status := trim (toLowerCase value) in
  match status_named status validStatuses with
  | Some d => d
  | None => none
  end.

Import Citizen.

Definition set_firstName (v : option string) (p : partial) : partial :=
  mkPartial (p_id p) (p_uniqueId p) (p_householdId p) (p_villageId p)
    (p_wardId p) v (p_lastName p) (p_otherNames p) (p_sex p)
    (p_dateOfBirth p) (p_age p) (p_phoneNumber p) (p_occupation p)
    (p_disabilityStatus p) (p_disabilityNotes p) (p_photoData p)
    (p_fingerprintData p) (p_notes p) (p_consentGiven p) (p_consentDate p)
    (p_recorderName p) (p_createdAt p) (p_updatedAt p).

Definition set_lastName (v : option string) (p : partial) : partial :=
  mkPartial (p_id p) (p_uniqueId p) (p_householdId p) (p_villageId p)
    (p_wardId p) (p_firstName p) v (p_otherNames p) (p_sex p)
    (p_dateOfBirth p) (p_age p) (p_phoneNumber p) (p_occupation p)
    (p_disabilityStatus p) (p_disabilityNotes p) (p_photoData p)
    (p_fingerprintData p) (p_notes p) (p_consentGiven p) (p_consentDate p)
    (p_recorderName p) (p_createdAt p) (p_updatedAt p).

Definition set_otherNames (v : option string) (p : partial) : partial :=
  mkPartial (p_id p) (p_uniqueId p) (p_householdId p) (p_villageId p)
    (p_wardId p) (p_firstName p) (p_lastName p) v (p_sex p)
    (p_dateOfBirth p) (p_age p) (p_phoneNumber p) (p_occupation p)
    (p_disabilityStatus p) (p_disabilityNotes p) (p_photoData p)
    (p_fingerprintData p) (p_notes p) (p_consentGiven p) (p_consentDate p)
    (p_recorderName p) (p_createdAt p) (p_updatedAt p).

Definition set_sex (v : option Sex) (p : partial) : partial :=
  mkPartial (p_id p) (p_uniqueId p) (p_householdId p) (p_villageId p)
    (p_wardId p) (p_firstName p) (p_lastName p) (p_otherNames p) v
    (p_dateOfBirth p) (p_age p) (p_phoneNumber p) (p_occupation p)
    (p_disabilityStatus p) (p_disabilityNotes p) (p_photoData p)
    (p_fingerprintData p) (p_notes p) (p_consentGiven p) (p_consentDate p)
    (p_recorderName p) (p_createdAt p) (p_updatedAt p).

Definition set_dateOfBirth (v : option Date) (p : partial) : partial :=
  mkPartial (p_id p) (p_uniqueId p) (p_householdId p) (p_villageId p)
    (p_wardId p) (p_firstName p) (p_lastName p) (p_otherNames p) (p_sex p)
    v (p_age p) (p_phoneNumber p) (p_occupation p)
    (p_disabilityStatus p) (p_disabilityNotes p) (p_photoData p)
    (p_fingerprintData p) (p_notes p) (p_consentGiven p) (p_consentDate p)
    (p_recorderName p) (p_createdAt p) (p_updatedAt p).

Definition set_age (v : option Z) (p : partial) : partial :=
  mkPartial (p_id p) (p_uniqueId p) (p_householdId p) (p_villageId p)
    (p_wardId p) (p_firstName p) (p_lastName p) (p_otherNames p) (p_sex p)
    (p_dateOfBirth p) v (p_phoneNumber p) (p_occupation p)
    (p_disabilityStatus p) (p_disabilityNotes p) (p_photoData p)
    (p_fingerprintData p) (p_notes p) (p_consentGiven p) (p_consentDate p)
    (p_recorderName p) (p_createdAt p) (p_updatedAt p).

Definition set_phoneNumber (v : option string) (p : partial) : partial :=
  mkPartial (p_id p) (p_uniqueId p) (p_householdId p) (p_villageId p)
    (p_wardId p) (p_firstName p) (p_lastName p) (p_otherNames p) (p_sex p)
    (p_dateOfBirth p) (p_age p) v (p_occupation p)
    (p_disabilityStatus p) (p_disabilityNotes p) (p_photoData p)
    (p_fingerprintData p) (p_notes p) (p_consentGiven p) (p_consentDate p)
    (p_recorderName p) (p_createdAt p) (p_updatedAt p).

Definition set_occupation (v : option string) (p : partial) : partial :=
  mkPartial (p_id p) (p_uniqueId p) (p_householdId p) (p_villageId p)
    (p_wardId p) (p_firstName p) (p_lastName p) (p_otherNames p) (p_sex p)
    (p_dateOfBirth p) (p_age p) (p_phoneNumber p) v
    (p_disabilityStatus p) (p_disabilityNotes p) (p_photoData p)
    (p_fingerprintData p) (p_notes p) (p_consentGiven p) (p_consentDate p)
    (p_recorderName p) (p_createdAt p) (p_updatedAt p).

Definition set_disabilityStatus (v : option DisabilityStatus) (p : partial)
    : partial :=
  mkPartial (p_id p) (p_uniqueId p) (p_householdId p) (p_villageId p)
    (p_wardId p) (p_firstName p) (p_lastName p) (p_otherNames p) (p_sex p)
    (p_dateOfBirth p) (p_age p) (p_phoneNumber p) (p_occupation p)
    v (p_disabilityNotes p) (p_photoData p)
    (p_fingerprintData p) (p_notes p) (p_consentGiven p) (p_consentDate p)
    (p_recorderName p) (p_createdAt p) (p_updatedAt p).

Definition set_notes (v : option string) (p : partial) : partial :=
  mkPartial (p_id p) (p_uniqueId p) (p_householdId p) (p_villageId p)
    (p_wardId p) (p_firstName p) (p_lastName p) (p_otherNames p) (p_sex p)
    (p_dateOfBirth p) (p_age p) (p_phoneNumber p) (p_occupation p)
    (p_disabilityStatus p) (p_disabilityNotes p) (p_photoData p)
    (p_fingerprintData p) v (p_consentGiven p) (p_consentDate p)
    (p_recorderName p) (p_createdAt p) (p_updatedAt p).

Section WithHost.
(** [Number.parseInt(value, 10)], [None] for [NaN] *)
Variable parseInt : string -> option Z.
(** [new Date(value)], [None] for an invalid date *)
Variable parseDate : string -> option Date.

(** The body of the loop over [Object.entries(data)]. *)
Definition normalize_entry (normalized : partial) (entry : string * string)
    : partial :=
  let '(key, value) := entry in
  let mappedKey := mappedKey key in
  if String.eqb mappedKey "firstName" then
    set_firstName (trimmed value) normalized
  else if String.eqb mappedKey "lastName" then
    set_lastName (trimmed value) normalized
  else if String.eqb mappedKey "otherNames" then
    set_otherNames (trimmed value) normalized
  else if String.eqb mappedKey "sex" then
    match sex_of value with
    | Some s => set_sex (Some s) normalized
    | None => normalized
    end
  else if String.eqb mappedKey "age" then
    match parseInt value with
    | Some ageNum => set_age (Some ageNum) normalized
    | None => normalized
    end
  else if String.eqb mappedKey "dateOfBirth" then
    match parseDate value with
    | Some date => set_dateOfBirth (Some date) normalized
    | None => normalized
    end
  else if String.eqb mappedKey "phoneNumber" then
    set_phoneNumber (trimmed value) normalized
  else if String.eqb mappedKey "occupation" then
    set_occupation (trimmed value) normalized
  else if String.eqb mappedKey "disabilityStatus" then
    set_disabilityStatus (Some (status_of value)) normalized
  else if String.eqb mappedKey "notes" then
    set_notes (trimmed value) normalized
  else normalized.

Definition normalizeCitizenData (data : list (string * string)) : partial :=
  fold_left normalize_entry data blank.

End WithHost.

End Normalize.

(** * The vocabulary of the statements about the duplicate detector *)

Module ValidationTerms.
Import Validation.

Section WithHost.
Variable toDateString : Date -> string.

(** What a tally adds to the accumulators is the list of contributions
    that fired. *)
Definition extends (t t' : Tally) (cs : list float) : Prop :=
  totalScore t' = fold_left (fun acc x => (acc + x)%float) cs (totalScore t)
  /\ scoreCount t' = scoreCount t + length cs
  /\ length (reasons t') = length (reasons t) + length cs.

(** The rule in the words of the specification: the contributions of
    the signals that fired, in the order the code tests them. *)
Definition name_signal (new : option string) (old : string) : list float :=
  match new with
  | Some n =>
      if truthy_string n && truthy_string old
         && (0.8 <? stringSimilarity n old)%float
      then [stringSimilarity n old] else []
  | None => []
  end.

Definition phone_signal (new old : option string) : list float :=
  match new, old with
  | Some n, Some o =>
      if truthy_string n && truthy_string o
         && String.eqb (digits_only n) (digits_only o)
         && (0 <? String.length (digits_only n))%nat
      then [1%float] else []
  | _, _ => []
  end.

Definition dob_signal (new old : option Date) : list float :=
  match new, old with
  | Some n, Some o =>
      if String.eqb (toDateString n) (toDateString o) then [1%float] else []
  | _, _ => []
  end.

Definition same_signal (weight : float) (new : option nat) (old : nat)
    : list float :=
  match new with
  | Some n =>
      if truthy_number n && truthy_number old && (n =? old)%nat
      then [weight] else []
  | None => []
  end.

Definition contributions (newCitizen : Citizen.partial)
    (existing : Citizen.t) : list float :=
  name_signal (Citizen.p_firstName newCitizen) (Citizen.firstName existing)
  ++ name_signal (Citizen.p_lastName newCitizen) (Citizen.lastName existing)
  ++ phone_signal (Citizen.p_phoneNumber newCitizen) (Citizen.phoneNumber existing)
  ++ dob_signal (Citizen.p_dateOfBirth newCitizen) (Citizen.dateOfBirth existing)
  ++ same_signal 0.5%float (Citizen.p_householdId newCitizen)
       (Citizen.householdId existing)
  ++ same_signal 0.3%float (Citizen.p_villageId newCitizen)
       (Citizen.villageId existing).

Definition sum_floats (l : list float) : float :=
  fold_left (fun acc x => (acc + x)%float) l 0%float.

(** The score in the words of the specification. *)
Definition spec_score (newCitizen : Citizen.partial) (existing : Citizen.t)
    : float :=
  (sum_floats (contributions newCitizen existing)
   / float_of_nat (length (contributions newCitizen existing)))%float.

(** Only the same-village signal can fire. *)
Definition shares_only_village (newCitizen : Citizen.partial)
    (existing : Citizen.t) : Prop :=
  name_signal (Citizen.p_firstName newCitizen) (Citizen.firstName existing) = []
  /\ name_signal (Citizen.p_lastName newCitizen) (Citizen.lastName existing) = []
  /\ phone_signal (Citizen.p_phoneNumber newCitizen)
       (Citizen.phoneNumber existing) = []
  /\ dob_signal (Citizen.p_dateOfBirth newCitizen)
       (Citizen.dateOfBirth existing) = []
  /\ same_signal 0.5%float (Citizen.p_householdId newCitizen)
       (Citizen.householdId existing) = [].

End WithHost.

(** The scenario of the specification: the candidate and the stored
    record. *)
Definition jon_smith : Citizen.partial :=
  {| Citizen.p_id := None; Citizen.p_uniqueId := None;
     Citizen.p_householdId := None; Citizen.p_villageId := None;
     Citizen.p_wardId := None;
     Citizen.p_firstName := Some "Jon"; Citizen.p_lastName := Some "Smith";
     Citizen.p_otherNames := None; Citizen.p_sex := None;
     Citizen.p_dateOfBirth := None; Citizen.p_age := None;
     Citizen.p_phoneNumber := None; Citizen.p_occupation := None;
     Citizen.p_disabilityStatus := None; Citizen.p_disabilityNotes := None;
     Citizen.p_photoData := None; Citizen.p_fingerprintData := None;
     Citizen.p_notes := None; Citizen.p_consentGiven := None;
     Citizen.p_consentDate := None; Citizen.p_recorderName := None;
     Citizen.p_createdAt := None; Citizen.p_updatedAt := None |}.

Definition john_smith : Citizen.t :=
  {| Citizen.id := 1; Citizen.uniqueId := "W01-V01-000001";
     Citizen.householdId := 1; Citizen.villageId := 1; Citizen.wardId := 1;
     Citizen.firstName := "John"; Citizen.lastName := "Smith";
     Citizen.otherNames := None; Citizen.sex := male;
     Citizen.dateOfBirth := None; Citizen.age := None;
     Citizen.phoneNumber := Some "555-0001"; Citizen.occupation := None;
     Citizen.disabilityStatus := none; Citizen.disabilityNotes := None;
     Citizen.photoData := None; Citizen.fingerprintData := None;
     Citizen.notes := None; Citizen.consentGiven := true;
     Citizen.consentDate := None; Citizen.recorderName := None;
     Citizen.createdAt := 0%Z; Citizen.updatedAt := 0%Z |}.

Definition utc_day_string (d : Date) : string :=
  NilZero.string_of_int (Z.to_int (d / 86400000)%Z).

(** A candidate in the village of [john_smith] and nothing else in
    common: the weak signal alone is not reported at threshold 0. *)
Definition villager : Citizen.partial :=
  {| Citizen.p_id := None; Citizen.p_uniqueId := None;
     Citizen.p_householdId := None; Citizen.p_villageId := Some 1;
     Citizen.p_wardId := None;
     Citizen.p_firstName := Some "Mary"; Citizen.p_lastName := Some "Kila";
     Citizen.p_otherNames := None; Citizen.p_sex := None;
     Citizen.p_dateOfBirth := None; Citizen.p_age := None;
     Citizen.p_phoneNumber := None; Citizen.p_occupation := None;
     Citizen.p_disabilityStatus := None; Citizen.p_disabilityNotes := None;
     Citizen.p_photoData := None; Citizen.p_fingerprintData := None;
     Citizen.p_notes := None; Citizen.p_consentGiven := None;
     Citizen.p_consentDate := None; Citizen.p_recorderName := None;
     Citizen.p_createdAt := None; Citizen.p_updatedAt := None |}.

End ValidationTerms.

(** * The vocabulary of the statements about the synchronisation *)

Module SyncTerms.

(** ** Single steps *)

(** The step did nothing but append one message to the error list. *)
Definition only_reports_up (msg : string) (st st' : UploadState) : Prop :=
  up_remote st' = up_remote st
  /\ up_settings st' = up_settings st
  /\ wardIdMap st' = wardIdMap st
  /\ villageIdMap st' = villageIdMap st
  /\ householdIdMap st' = householdIdMap st
  /\ uploaded (up_result st') = uploaded (up_result st)
  /\ errors (up_result st') = errors (up_result st) ++ [msg].

Definition only_reports_down (msg : string) (st st' : DownloadState) : Prop :=
  dn_local st' = dn_local st
  /\ wardUuidToLocalId st' = wardUuidToLocalId st
  /\ villageUuidToLocalId st' = villageUuidToLocalId st
  /\ householdUuidToLocalId st' = householdUuidToLocalId st
  /\ downloaded (dn_result st') = downloaded (dn_result st)
  /\ errors (dn_result st') = errors (dn_result st) ++ [msg].

(** No request reaches the remote store: lookups are not answered,
    writes come back with an error value and nothing is transferred. *)
Definition remote_unreachable (env : UploadEnv) : Prop :=
  forall tier k,
    select_answered env tier k = false
    /\ (exists e, write_reply env tier k = ErrorValue e)
    /\ photo_transferred env k = false
    /\ fingerprint_transferred env k = false.

Definition remote_unreachable_dl (env : DownloadEnv) : Prop :=
  forall tier, exists e, fetch_error env tier = Some e.

(** The natural-key lookup of the remote counterpart of a citizen. *)
Definition existing_citizen (env : UploadEnv) (st : UploadState)
    (citizen : Citizen.t) : option string :=
  select_id (select_answered env TCitizen (Citizen.id citizen))
    SupabaseCitizen.unique_id SupabaseCitizen.id (Citizen.uniqueId citizen)
    (Remote.citizens (up_remote st)).

(** The row the converter builds for a citizen in a state. *)
Definition converted_citizen (env : UploadEnv) (st : UploadState)
    (citizen : Citizen.t) (householdUuid villageUuid wardUuid : string)
    : SupabaseCitizen.t :=
  citizenToSupabase (getDeviceId (new_device_id env) (up_settings st)).1
    (now env (Citizen.id citizen)) (randomUUID env TCitizen (Citizen.id citizen))
    citizen householdUuid villageUuid wardUuid (existing_citizen env st citizen).

Definition parents_mapped (st : UploadState) (citizen : Citizen.t)
    (householdUuid villageUuid wardUuid : string) : Prop :=
  householdIdMap st !! Citizen.householdId citizen = Some householdUuid
  /\ villageIdMap st !! Citizen.villageId citizen = Some villageUuid
  /\ wardIdMap st !! Citizen.wardId citizen = Some wardUuid
  /\ truthy_string householdUuid = true
  /\ truthy_string villageUuid = true
  /\ truthy_string wardUuid = true.

(** The remote counterparts of the upper tiers, and the rows built for
    them. *)
Definition existing_ward (env : UploadEnv) (st : UploadState) (ward : Ward.t)
    : option string :=
  select_id (select_answered env TWard (Ward.id ward))
    SupabaseWard.code SupabaseWard.id (Ward.code ward)
    (Remote.wards (up_remote st)).

Definition existing_village (env : UploadEnv) (st : UploadState)
    (village : Village.t) : option string :=
  select_id (select_answered env TVillage (Village.id village))
    SupabaseVillage.code SupabaseVillage.id (Village.code village)
    (Remote.villages (up_remote st)).

Definition existing_household (env : UploadEnv) (st : UploadState)
    (household : Household.t) : option string :=
  select_id (select_answered env THousehold (Household.id household))
    SupabaseHousehold.code SupabaseHousehold.id (Household.code household)
    (Remote.households (up_remote st)).

Definition ward_uuid (env : UploadEnv) (st : UploadState) (ward : Ward.t) : string :=
  or_random (existing_ward env st ward) (randomUUID env TWard (Ward.id ward)).

Definition village_uuid (env : UploadEnv) (st : UploadState)
    (village : Village.t) : string :=
  or_random (existing_village env st village)
    (randomUUID env TVillage (Village.id village)).

Definition household_uuid (env : UploadEnv) (st : UploadState)
    (household : Household.t) : string :=
  or_random (existing_household env st household)
    (randomUUID env THousehold (Household.id household)).

(** A remote store that answers every lookup and refuses every write to
    the ward table. *)
Definition refusing_wards : UploadEnv :=
  {| onLine := true;
     select_answered := fun _ _ => true;
     write_reply := fun tier _ =>
       match tier with
       | TWard => ErrorValue "permission denied for table wards"
       | _ => Done
       end;
     randomUUID := Scenario.uuid_of;
     device_suffix := "1700000000000-k3x9q2a";
     now := fun _ => 5000%Z;
     photo_transferred := fun _ => true;
     photo_stamp := fun _ => 5000%Z;
     fingerprint_transferred := fun _ => true;
     fingerprint_stamp := fun _ => 5000%Z;
     finished_at := 5000%Z;
     server_now := fun _ _ => 5000%Z;
     stored_latitude := Scenario.decimal_8;
     stored_longitude := Scenario.decimal_8 |}.

(** ** What the local store guarantees and what a run preserves *)

(** The primary keys of a table are unique and below its key
    generator. *)
Definition table_ok {R} `{Keyed R} (t : Table R) : Prop :=
  NoDup (primary_key <$> rows t)
  /\ Forall (fun r => primary_key r < nextId t) (rows t).

Definition local_ok (l : Local.t) : Prop :=
  table_ok (Local.wards l) /\ table_ok (Local.villages l)
  /\ table_ok (Local.households l) /\ table_ok (Local.citizens l).

(** Between [t0] and [t] no key disappeared, and the rows of [t0] whose
    natural key is not among [keys] are still there as they were. *)
Definition untouched {R} `{Keyed R} (key : R -> string) (keys : list string)
    (t0 t : Table R) : Prop :=
  (exists added,
      primary_key <$> rows t = (primary_key <$> rows t0) ++ added)
  /\ forall r, r ∈ rows t0 -> key r ∉ keys -> r ∈ rows t.

(** The natural keys of the rows a download gets to see in a tier. *)
Definition fetched_keys (env : DownloadEnv) (remote : Remote.t) (tier : Tier)
    : list string :=
  match fetch_error env tier with
  | Some _ => []
  | None =>
      match tier with
      | TWard => SupabaseWard.code <$> Remote.wards remote
      | TVillage => SupabaseVillage.code <$> Remote.villages remote
      | THousehold => SupabaseHousehold.code <$> Remote.households remote
      | TCitizen => SupabaseCitizen.unique_id <$> Remote.citizens remote
      end
  end.

(** What a download leaves of the local store [l0]. *)
Definition frame (keys : Tier -> list string) (l0 l : Local.t) : Prop :=
  local_ok l
  /\ untouched Ward.code (keys TWard) (Local.wards l0) (Local.wards l)
  /\ untouched Village.code (keys TVillage) (Local.villages l0) (Local.villages l)
  /\ untouched Household.code (keys THousehold)
       (Local.households l0) (Local.households l)
  /\ untouched Citizen.uniqueId (keys TCitizen)
       (Local.citizens l0) (Local.citizens l).

(** An upload never shortens a remote table or drops a stored object. *)
Definition grown (r r' : Remote.t) : Prop :=
  length (Remote.wards r) <= length (Remote.wards r')
  /\ length (Remote.villages r) <= length (Remote.villages r')
  /\ length (Remote.households r) <= length (Remote.households r')
  /\ length (Remote.citizens r) <= length (Remote.citizens r')
  /\ exists added, Remote.objects r' = added ++ Remote.objects r.

(** ** One tier of the upload, in general

    The four loops of the upload are one loop: look the record up by its
    natural key, build the row under the identifier found or a generated
    one, write it, and remember the identifier under the local key.
    [build] is [None] when the record is skipped for want of a parent. *)

Section Upsert.
Context {L R : Type}.
Variables (lid : L -> nat) (lcode : L -> string).
Variables (rid rcode : R -> string) (patch : L -> R -> R -> R).

Definition upsert (build : L -> option (string -> R)) (random : L -> string)
    (s : list R * gmap nat string) (w : L) : list R * gmap nat string :=
  match build w with
  | None => s
  | Some f =>
      let existing := select_id true rcode rid (lcode w) s.1 in
      let row := f (or_random existing (random w)) in
      (write_row Done rid (patch w) existing row s.1, <[lid w := rid row]> s.2)
  end.

Definition remote_table_ok (T : list R) : Prop :=
  NoDup (rcode <$> T) /\ NoDup (rid <$> T)
  /\ Forall (fun r => truthy_string (rid r) = true) T.

End Upsert.

(** ** Two uploads of the same records, one after the other *)

Section TwoRuns.
Context {L R : Type}.
Variables (lid : L -> nat) (lcode : L -> string).
Variables (rid rcode : R -> string).
Variable T0 : list R.

(** The identifiers the generator hands out for [l] are truthy, unused in
    [T0] and distinct for distinct records. *)
Definition fresh_for (random : L -> string) (l : list L) : Prop :=
  forall w, w ∈ l ->
    truthy_string (random w) = true
    /\ (random w ∉ rid <$> T0)
    /\ forall w', w' ∈ l -> random w = random w' -> lid w = lid w'.

(** [data] forgets the columns of a row that every write stamps anew, and
    [merge new old] is what an update with [new] makes of the data of the
    row [old].  Writing the record [w] touches the row of its natural
    key, and a run writes its records one after the other. *)
Variable build : L -> option (string -> R).
Variable data : R -> R.
Variable merge : R -> R -> R.

Definition rewritten (w : L) (x : R) : R :=
  match build w with
  | Some f =>
      if String.eqb (rcode x) (lcode w) then merge (data (f (rid x))) x else x
  | None => x
  end.

Definition rewritten_by (l : list L) (x : R) : R :=
  fold_left (fun x w => rewritten w x) l x.

(** Once a first run has written the records [done]: the keys of the
    table are in order, writing the records again leaves the data of
    every row as it is, every record that was not skipped has its row and
    the session map knows the identifier of that row, and the table has
    no identifier but those it had and those the run generated. *)
Definition after_first (random : L -> string) (done : list L)
    (s : list R * gmap nat string) : Prop :=
  remote_table_ok rid rcode s.1
  /\ (forall x, x ∈ s.1 -> rewritten_by done (data x) = data x)
  /\ (forall w, w ∈ done -> is_Some (build w) ->
        exists x, x ∈ s.1 /\ rcode x = lcode w /\ s.2 !! lid w = Some (rid x))
  /\ (forall k, is_Some (s.2 !! k) ->
        exists w, w ∈ done /\ lid w = k /\ is_Some (build w))
  /\ (forall u, u ∈ rid <$> s.1 ->
        u ∈ rid <$> T0 \/ exists w, w ∈ done /\ u = random w).

(** Once a second run has written the records [done] over the table [T1]
    of the first: the data of the rows is that of [T1] rewritten by
    [done], and the session map knows the rows of the records. *)
Definition after_second (T1 : list R) (done : list L)
    (s : list R * gmap nat string) : Prop :=
  data <$> s.1 = rewritten_by done <$> (data <$> T1)
  /\ (forall w, w ∈ done -> is_Some (build w) ->
        exists x, x ∈ s.1 /\ rcode x = lcode w /\ s.2 !! lid w = Some (rid x))
  /\ (forall k, is_Some (s.2 !! k) ->
        exists w, w ∈ done /\ lid w = k /\ is_Some (build w)).

End TwoRuns.

(** ** The four loops of the upload as instances of the general loop *)

(** Every lookup is answered and every write is carried out. *)
Definition answering (env : UploadEnv) : Prop :=
  onLine env = true
  /\ forall tier k,
       select_answered env tier k = true /\ write_reply env tier k = Done.

(** The row a loop builds for a record, as a function of the generated
    identifier, or [None] when the record is skipped. *)
Definition ward_rows (ward : Ward.t) : option (string -> SupabaseWard.t) :=
  Some (fun u => wardToSupabase u ward None).

Definition village_rows (wards : gmap nat string) (village : Village.t)
    : option (string -> SupabaseVillage.t) :=
  match wards !! Village.wardId village with
  | Some wardUuid =>
      if truthy_string wardUuid
      then Some (fun u => villageToSupabase u village wardUuid None)
      else None
  | None => None
  end.

Definition household_rows (env : UploadEnv) (villages : gmap nat string)
    (household : Household.t) : option (string -> SupabaseHousehold.t) :=
  match villages !! Household.villageId household with
  | Some villageUuid =>
      if truthy_string villageUuid
      then Some (fun u =>
             stored_household env
               (householdToSupabase u household villageUuid None))
      else None
  | None => None
  end.

(** The locators a run gives to the attachments of a citizen. *)
Definition photo_url_of (env : UploadEnv) (citizen : Citizen.t) : option Url :=
  (upload_attachment uploadPhotoToStorage
     (photo_transferred env (Citizen.id citizen))
     (photo_stamp env (Citizen.id citizen))
     (Citizen.photoData citizen) (Citizen.uniqueId citizen) []).1.

Definition fingerprint_url_of (env : UploadEnv) (citizen : Citizen.t) : option Url :=
  (upload_attachment uploadFingerprintToStorage
     (fingerprint_transferred env (Citizen.id citizen))
     (fingerprint_stamp env (Citizen.id citizen))
     (Citizen.fingerprintData citizen) (Citizen.uniqueId citizen) []).1.

(** The objects the attachments of one citizen add to the storage. *)
Definition store_attachments (env : UploadEnv) (citizen : Citizen.t)
    (objects : list (Url * string)) : list (Url * string) :=
  (upload_attachment uploadFingerprintToStorage
     (fingerprint_transferred env (Citizen.id citizen))
     (fingerprint_stamp env (Citizen.id citizen))
     (Citizen.fingerprintData citizen) (Citizen.uniqueId citizen)
     (upload_attachment uploadPhotoToStorage
        (photo_transferred env (Citizen.id citizen))
        (photo_stamp env (Citizen.id citizen))
        (Citizen.photoData citizen) (Citizen.uniqueId citizen) objects).2).2.

Definition citizen_rows (env : UploadEnv) (deviceId : string)
    (households villages wards : gmap nat string) (citizen : Citizen.t)
    : option (string -> SupabaseCitizen.t) :=
  match households !! Citizen.householdId citizen,
        villages !! Citizen.villageId citizen,
        wards !! Citizen.wardId citizen with
  | Some householdUuid, Some villageUuid, Some wardUuid =>
      if truthy_string householdUuid && truthy_string villageUuid
         && truthy_string wardUuid
      then Some (fun u =>
             set_fingerprint_url (fingerprint_url_of env citizen)
               (set_photo_url (photo_url_of env citizen)
                  (citizenToSupabase deviceId (now env (Citizen.id citizen)) u
                     citizen householdUuid villageUuid wardUuid None)))
      else None
  | _, _, _ => None
  end.

(** The update of the row of a record, with the time the remote store
    reads then. *)
Definition ward_patch (env : UploadEnv) (w : Ward.t) :=
  patch_ward (server_now env TWard (Ward.id w)).

Definition village_patch (env : UploadEnv) (v : Village.t) :=
  patch_village (server_now env TVillage (Village.id v)).

Definition household_patch (env : UploadEnv) (h : Household.t) :=
  patch_household (server_now env THousehold (Household.id h)).

Definition citizen_patch (env : UploadEnv) (c : Citizen.t) :=
  patch_citizen (server_now env TCitizen (Citizen.id c)).

Abbreviation upsert_wards env :=
  (upsert Ward.id Ward.code SupabaseWard.id SupabaseWard.code (ward_patch env)
     ward_rows (fun w => randomUUID env TWard (Ward.id w))).

Abbreviation upsert_villages env wards :=
  (upsert Village.id Village.code SupabaseVillage.id SupabaseVillage.code
     (village_patch env) (village_rows wards)
     (fun v => randomUUID env TVillage (Village.id v))).

Abbreviation upsert_households env villages :=
  (upsert Household.id Household.code SupabaseHousehold.id SupabaseHousehold.code
     (household_patch env) (household_rows env villages)
     (fun h => randomUUID env THousehold (Household.id h))).

Abbreviation upsert_citizens env deviceId households villages wards :=
  (upsert Citizen.id Citizen.uniqueId SupabaseCitizen.id SupabaseCitizen.unique_id
     (citizen_patch env) (citizen_rows env deviceId households villages wards)
     (fun c => randomUUID env TCitizen (Citizen.id c))).

(** The storage after the attachments of the citizens that are not
    skipped have been sent. *)
Definition objects_after (env : UploadEnv)
    (households villages wards : gmap nat string) (l : list Citizen.t)
    (objects : list (Url * string)) : list (Url * string) :=
  fold_left
    (fun o c =>
       match citizen_rows env "" households villages wards c with
       | Some _ => store_attachments env c o
       | None => o
       end)
    l objects.

(** ** Rows without the columns that every write stamps anew

    [updated_at] in every table, and in a citizen row also the time of
    the synchronisation and the two attachment locators. *)
Definition ward_data (w : SupabaseWard.t) : SupabaseWard.t :=
  SupabaseWard.mk (SupabaseWard.id w) (SupabaseWard.code w) (SupabaseWard.name w)
    (SupabaseWard.created_at w) None.

Definition village_data (v : SupabaseVillage.t) : SupabaseVillage.t :=
  SupabaseVillage.mk (SupabaseVillage.id v) (SupabaseVillage.ward_id v)
    (SupabaseVillage.code v) (SupabaseVillage.name v)
    (SupabaseVillage.created_at v) None.

Definition household_data (h : SupabaseHousehold.t) : SupabaseHousehold.t :=
  SupabaseHousehold.mk (SupabaseHousehold.id h) (SupabaseHousehold.village_id h)
    (SupabaseHousehold.code h) (SupabaseHousehold.head_name h)
    (SupabaseHousehold.location_description h) (SupabaseHousehold.latitude h)
    (SupabaseHousehold.longitude h) (SupabaseHousehold.created_at h) 0%Z.

Definition member_data (c : SupabaseCitizen.t) : SupabaseCitizen.t :=
  SupabaseCitizen.mk (SupabaseCitizen.id c) (SupabaseCitizen.unique_id c)
    (SupabaseCitizen.household_id c) (SupabaseCitizen.village_id c)
    (SupabaseCitizen.ward_id c) (SupabaseCitizen.first_name c)
    (SupabaseCitizen.last_name c) (SupabaseCitizen.other_names c)
    (SupabaseCitizen.sex c) (SupabaseCitizen.date_of_birth c)
    (SupabaseCitizen.age c) (SupabaseCitizen.phone_number c)
    (SupabaseCitizen.occupation c) (SupabaseCitizen.disability_status c)
    (SupabaseCitizen.disability_notes c) None None
    (SupabaseCitizen.consent_given c) (SupabaseCitizen.consent_date c)
    (SupabaseCitizen.recorder_name c) (SupabaseCitizen.notes c)
    (SupabaseCitizen.created_at c) 0%Z None (SupabaseCitizen.device_id c).

Definition same_ward (a b : SupabaseWard.t) : Prop := ward_data a = ward_data b.

Definition same_village (a b : SupabaseVillage.t) : Prop :=
  village_data a = village_data b.

Definition same_household (a b : SupabaseHousehold.t) : Prop :=
  household_data a = household_data b.

Definition same_member (a b : SupabaseCitizen.t) : Prop :=
  member_data a = member_data b.

(** What an update makes of the data of a row. *)
Definition merge_ward (new old : SupabaseWard.t) : SupabaseWard.t :=
  ward_data (patch_ward 0 new old).

Definition merge_village (new old : SupabaseVillage.t) : SupabaseVillage.t :=
  village_data (patch_village 0 new old).

Definition merge_household (new old : SupabaseHousehold.t) : SupabaseHousehold.t :=
  household_data (patch_household 0 new old).

Definition merge_member (new old : SupabaseCitizen.t) : SupabaseCitizen.t :=
  member_data (patch_citizen 0 new old).

(** Two environments of one remote store: its columns keep the same of
    a number in both. *)
Definition same_columns (env1 env2 : UploadEnv) : Prop :=
  forall x, stored_latitude env1 x = stored_latitude env2 x
            /\ stored_longitude env1 x = stored_longitude env2 x.

(** ** A whole upload in terms of the general loop

    The table and the session map each tier ends with. *)

Definition wards_pass (env : UploadEnv) (local : Local.t) (remote : Remote.t) :=
  fold_left (upsert_wards env) (rows (Local.wards local)) (Remote.wards remote, ∅).

Definition villages_pass (env : UploadEnv) (local : Local.t) (remote : Remote.t) :=
  fold_left (upsert_villages env (wards_pass env local remote).2)
    (rows (Local.villages local)) (Remote.villages remote, ∅).

Definition households_pass (env : UploadEnv) (local : Local.t) (remote : Remote.t) :=
  fold_left (upsert_households env (villages_pass env local remote).2)
    (rows (Local.households local)) (Remote.households remote, ∅).

Definition device_of (env : UploadEnv) (s : Settings.t) : string :=
  (getDeviceId (new_device_id env) s).1.

Definition member_rows (env : UploadEnv) (deviceId : string) (local : Local.t)
    (remote : Remote.t) :=
  citizen_rows env deviceId (households_pass env local remote).2
    (villages_pass env local remote).2 (wards_pass env local remote).2.

Definition citizens_pass (env : UploadEnv) (deviceId : string) (local : Local.t)
    (remote : Remote.t) : list SupabaseCitizen.t :=
  (fold_left
     (upsert Citizen.id Citizen.uniqueId SupabaseCitizen.id
        SupabaseCitizen.unique_id (citizen_patch env)
        (member_rows env deviceId local remote)
        (fun c => randomUUID env TCitizen (Citizen.id c)))
     (rows (Local.citizens local)) (Remote.citizens remote, ∅)).1.

Definition objects_pass (env : UploadEnv) (local : Local.t) (remote : Remote.t)
    : list (Url * string) :=
  objects_after env (households_pass env local remote).2
    (villages_pass env local remote).2 (wards_pass env local remote).2
    (rows (Local.citizens local)) (Remote.objects remote).

(** ** Unique keys *)

Definition remote_ok (r : Remote.t) : Prop :=
  remote_table_ok SupabaseWard.id SupabaseWard.code (Remote.wards r)
  /\ remote_table_ok SupabaseVillage.id SupabaseVillage.code (Remote.villages r)
  /\ remote_table_ok SupabaseHousehold.id SupabaseHousehold.code
       (Remote.households r)
  /\ remote_table_ok SupabaseCitizen.id SupabaseCitizen.unique_id
       (Remote.citizens r).

Definition natural_keys_unique (l : Local.t) : Prop :=
  NoDup (Ward.code <$> rows (Local.wards l))
  /\ NoDup (Village.code <$> rows (Local.villages l))
  /\ NoDup (Household.code <$> rows (Local.households l))
  /\ NoDup (Citizen.uniqueId <$> rows (Local.citizens l)).

(** The identifiers [crypto.randomUUID] returns during the run are not
    empty, not in use in the remote store and pairwise distinct. *)
Definition fresh_ids (env : UploadEnv) (local : Local.t) (remote : Remote.t)
    : Prop :=
  fresh_for Ward.id SupabaseWard.id (Remote.wards remote)
    (fun w => randomUUID env TWard (Ward.id w)) (rows (Local.wards local))
  /\ fresh_for Village.id SupabaseVillage.id (Remote.villages remote)
       (fun v => randomUUID env TVillage (Village.id v))
       (rows (Local.villages local))
  /\ fresh_for Household.id SupabaseHousehold.id (Remote.households remote)
       (fun h => randomUUID env THousehold (Household.id h))
       (rows (Local.households local))
  /\ fresh_for Citizen.id SupabaseCitizen.id (Remote.citizens remote)
       (fun c => randomUUID env TCitizen (Citizen.id c))
       (rows (Local.citizens local)).

(** ** Uploading into a remote store that has none of the keys *)

Section UpsertFresh.
Context {L R : Type}.
Variables (lcode : L -> string) (rid rcode : R -> string).
Variable build : L -> option (string -> R).
Variable random : L -> string.
Variable row : L -> R.

(** [row w] is what the loop builds for [w] under a generated
    identifier. *)
Definition builds (w : L) : Prop :=
  exists f, build w = Some f /\ row w = f (random w)
            /\ rid (row w) = random w /\ rcode (row w) = lcode w.

End UpsertFresh.

(** ** One tier of the download, in general *)

Section Restore.
Context {R L : Type} `{Keyed L}.
Variables (rid rcode : R -> string) (lcode : L -> string).
Variable build : R -> option (nat -> L).
Variable row : R -> nat -> L.

Definition restore (s : Table L * gmap string nat) (r : R)
    : Table L * gmap string nat :=
  match build r with
  | None => s
  | Some fields =>
      let existing := first_where (fun x => String.eqb (lcode x) (rcode r)) s.1 in
      let p := put existing fields s.1 in
      (p.2, <[rid r := p.1]> s.2)
  end.

(** [row r] is what the loop stores for [r], as a function of the key. *)
Definition restores (r : R) : Prop :=
  exists f, build r = Some f /\ forall k, f k = row r k /\ lcode (f k) = rcode r.

End Restore.

(** ** The four loops of the download as instances of the general loop *)

(** The browser is on line, every fetch returns its rows and no local
    write throws. *)
Definition restoring_ok (env : DownloadEnv) : Prop :=
  dl_onLine env = true
  /\ (forall tier, fetch_error env tier = None)
  /\ (forall tier u, store_throws env tier u = None).

(** The record a loop stores for a row, as a function of the local key,
    or [None] when the row is skipped. *)
Definition ward_fields (r : SupabaseWard.t) : option (nat -> Ward.t) :=
  Some (supabaseToWard r).

Definition village_fields (wards : gmap string nat) (r : SupabaseVillage.t)
    : option (nat -> Village.t) :=
  match wards !! SupabaseVillage.ward_id r with
  | Some localWardId =>
      if truthy_number localWardId then Some (supabaseToVillage r localWardId)
      else None
  | None => None
  end.

Definition household_fields (villages : gmap string nat) (r : SupabaseHousehold.t)
    : option (nat -> Household.t) :=
  match villages !! SupabaseHousehold.village_id r with
  | Some localVillageId =>
      if truthy_number localVillageId
      then Some (supabaseToHousehold r localVillageId)
      else None
  | None => None
  end.

Definition citizen_fields (env : DownloadEnv) (objects : list (Url * string))
    (households villages wards : gmap string nat) (r : SupabaseCitizen.t)
    : option (nat -> Citizen.t) :=
  match households !! SupabaseCitizen.household_id r,
        villages !! SupabaseCitizen.village_id r,
        wards !! SupabaseCitizen.ward_id r with
  | Some h, Some v, Some w =>
      if truthy_number h && truthy_number v && truthy_number w
      then Some (fun id =>
             set_fingerprintData
               (download_attachment (fingerprint_fetched env (SupabaseCitizen.id r))
                  (SupabaseCitizen.fingerprint_url r) objects)
               (set_photoData
                  (download_attachment (photo_fetched env (SupabaseCitizen.id r))
                     (SupabaseCitizen.photo_url r) objects)
                  (supabaseToCitizen r h v w id)))
      else None
  | _, _, _ => None
  end.

Abbreviation restore_wards :=
  (restore SupabaseWard.id SupabaseWard.code Ward.code ward_fields).

Abbreviation restore_villages wards :=
  (restore SupabaseVillage.id SupabaseVillage.code Village.code
     (village_fields wards)).

Abbreviation restore_households villages :=
  (restore SupabaseHousehold.id SupabaseHousehold.code Household.code
     (household_fields villages)).

Abbreviation restore_citizens env objects households villages wards :=
  (restore SupabaseCitizen.id SupabaseCitizen.unique_id Citizen.uniqueId
     (citizen_fields env objects households villages wards)).

(** The table and the session map each tier of a download ends with. *)
Definition wards_back (local : Local.t) (remote : Remote.t) :=
  fold_left restore_wards
    (order_by SupabaseWard.created_at (Remote.wards remote))
    (Local.wards local, ∅).

Definition villages_back (local : Local.t) (remote : Remote.t) :=
  fold_left (restore_villages (wards_back local remote).2)
    (order_by SupabaseVillage.created_at (Remote.villages remote))
    (Local.villages local, ∅).

Definition households_back (local : Local.t) (remote : Remote.t) :=
  fold_left (restore_households (villages_back local remote).2)
    (order_by SupabaseHousehold.created_at (Remote.households remote))
    (Local.households local, ∅).

Definition member_fields (env : DownloadEnv) (local : Local.t) (remote : Remote.t) :=
  citizen_fields env (Remote.objects remote) (households_back local remote).2
    (villages_back local remote).2 (wards_back local remote).2.

Definition citizens_back (env : DownloadEnv) (local : Local.t) (remote : Remote.t)
    : Table Citizen.t :=
  (fold_left
     (restore SupabaseCitizen.id SupabaseCitizen.unique_id Citizen.uniqueId
        (member_fields env local remote))
     (order_by SupabaseCitizen.created_at (Remote.citizens remote))
     (Local.citizens local, ∅)).1.

(** ** Records up to a renaming of the local keys *)

Definition relabel_ward (wards : nat -> nat) (w : Ward.t) : Ward.t :=
  Ward.mk (wards (Ward.id w)) (Ward.code w) (Ward.name w) (Ward.createdAt w).

Definition relabel_village (wards villages : nat -> nat) (v : Village.t)
    : Village.t :=
  Village.mk (villages (Village.id v)) (wards (Village.wardId v))
    (Village.code v) (Village.name v) (Village.createdAt v).

Definition relabel_household (villages households : nat -> nat)
    (h : Household.t) : Household.t :=
  Household.mk (households (Household.id h)) (villages (Household.villageId h))
    (Household.code h) (Household.headName h) (Household.locationDescription h)
    (Household.latitude h) (Household.longitude h) (Household.createdAt h)
    (Household.updatedAt h).

Definition relabel_citizen (wards villages households citizens : nat -> nat)
    (c : Citizen.t) : Citizen.t :=
  Citizen.mk (citizens (Citizen.id c)) (Citizen.uniqueId c)
    (households (Citizen.householdId c)) (villages (Citizen.villageId c))
    (wards (Citizen.wardId c)) (Citizen.firstName c) (Citizen.lastName c)
    (Citizen.otherNames c) (Citizen.sex c) (Citizen.dateOfBirth c)
    (Citizen.age c) (Citizen.phoneNumber c) (Citizen.occupation c)
    (Citizen.disabilityStatus c) (Citizen.disabilityNotes c)
    (Citizen.photoData c) (Citizen.fingerprintData c) (Citizen.notes c)
    (Citizen.consentGiven c) (Citizen.consentDate c) (Citizen.recorderName c)
    (Citizen.createdAt c) (Citizen.updatedAt c).

(** A renaming that keeps the keys of [keys] apart. *)
Definition injective_on (f : nat -> nat) (keys : list nat) : Prop :=
  forall a b, a ∈ keys -> b ∈ keys -> f a = f b -> a = b.

(** What the remote store can give back of a household: each coordinate
    as its column keeps it. *)
Definition household_as_restored (env : UploadEnv) (h : Household.t)
    : Household.t :=
  Household.mk (Household.id h) (Household.villageId h) (Household.code h)
    (Household.headName h) (Household.locationDescription h)
    (stored_latitude env <$> Household.latitude h)
    (stored_longitude env <$> Household.longitude h)
    (Household.createdAt h) (Household.updatedAt h).

(** An attachment that is an empty string counts as absent. *)
Definition present (data : option string) : option string :=
  if truthy_opt_string data then data else None.

(** What the remote store can give back of a citizen: the birth date is
    kept to the day, in UTC. *)
Definition as_restored (c : Citizen.t) : Citizen.t :=
  Citizen.mk (Citizen.id c) (Citizen.uniqueId c) (Citizen.householdId c)
    (Citizen.villageId c) (Citizen.wardId c) (Citizen.firstName c)
    (Citizen.lastName c) (Citizen.otherNames c) (Citizen.sex c)
    ((fun d => date_of_iso_date (iso_date d)) <$> Citizen.dateOfBirth c)
    (Citizen.age c) (Citizen.phoneNumber c) (Citizen.occupation c)
    (Citizen.disabilityStatus c) (Citizen.disabilityNotes c)
    (present (Citizen.photoData c)) (present (Citizen.fingerprintData c))
    (Citizen.notes c) (Citizen.consentGiven c) (Citizen.consentDate c)
    (Citizen.recorderName c) (Citizen.createdAt c) (Citizen.updatedAt c).

(** Every parent reference of the local records points to a local
    record. *)
Definition hierarchy_complete (l : Local.t) : Prop :=
  (forall v, v ∈ rows (Local.villages l) ->
     Village.wardId v ∈ Ward.id <$> rows (Local.wards l))
  /\ (forall h, h ∈ rows (Local.households l) ->
        Household.villageId h ∈ Village.id <$> rows (Local.villages l))
  /\ (forall c, c ∈ rows (Local.citizens l) ->
        Citizen.householdId c ∈ Household.id <$> rows (Local.households l)
        /\ Citizen.villageId c ∈ Village.id <$> rows (Local.villages l)
        /\ Citizen.wardId c ∈ Ward.id <$> rows (Local.wards l)).

(** Every attachment transfer succeeds. *)
Definition attachments_sent (env : UploadEnv) : Prop :=
  forall k, photo_transferred env k = true /\ fingerprint_transferred env k = true.

Definition attachments_fetched (env : DownloadEnv) : Prop :=
  forall u, photo_fetched env u = true /\ fingerprint_fetched env u = true.

(** ** An upload into an empty remote store and the download of it *)

Section RoundTrip.
Variables (env : UploadEnv) (denv : DownloadEnv) (local : Local.t).

Abbreviation uw := (randomUUID env TWard).
Abbreviation uv := (randomUUID env TVillage).
Abbreviation uh := (randomUUID env THousehold).
Abbreviation uc := (randomUUID env TCitizen).
Abbreviation lw := (rows (Local.wards local)).
Abbreviation lv := (rows (Local.villages local)).
Abbreviation lh := (rows (Local.households local)).
Abbreviation lc := (rows (Local.citizens local)).
Abbreviation dev := (device_of env (Local.settings local)).

(** The rows of the records under their generated identifiers. *)
Definition ward_row (w : Ward.t) : SupabaseWard.t :=
  wardToSupabase (uw (Ward.id w)) w None.

Definition village_row (v : Village.t) : SupabaseVillage.t :=
  villageToSupabase (uv (Village.id v)) v (uw (Village.wardId v)) None.

Definition household_row (h : Household.t) : SupabaseHousehold.t :=
  stored_household env
    (householdToSupabase (uh (Household.id h)) h (uv (Household.villageId h)) None).

Definition citizen_row (c : Citizen.t) : SupabaseCitizen.t :=
  set_fingerprint_url (fingerprint_url_of env c)
    (set_photo_url (photo_url_of env c)
       (citizenToSupabase dev (now env (Citizen.id c)) (uc (Citizen.id c)) c
          (uh (Citizen.householdId c)) (uv (Citizen.villageId c))
          (uw (Citizen.wardId c)) None)).

(** The remote store after the upload. *)
Definition uploaded_remote : Remote.t :=
  Remote.mk (ward_row <$> lw) (village_row <$> lv) (household_row <$> lh)
    (citizen_row <$> lc) (objects_pass env local Remote.empty).

Abbreviation wb := (wards_back Local.empty uploaded_remote).
Abbreviation vb := (villages_back Local.empty uploaded_remote).
Abbreviation hb := (households_back Local.empty uploaded_remote).

(** The local keys the download assigns, as functions of the old keys. *)
Definition new_ward (k : nat) : nat := default 0 (wb.2 !! uw k).
Definition new_village (k : nat) : nat := default 0 (vb.2 !! uv k).
Definition new_household (k : nat) : nat := default 0 (hb.2 !! uh k).

(** What the download stores for a citizen row, as a function of the
    key. *)
Definition restored_row (r : SupabaseCitizen.t) (k : nat) : Citizen.t :=
  set_fingerprintData
    (download_attachment (fingerprint_fetched denv (SupabaseCitizen.id r))
       (SupabaseCitizen.fingerprint_url r) (objects_pass env local Remote.empty))
    (set_photoData
       (download_attachment (photo_fetched denv (SupabaseCitizen.id r))
          (SupabaseCitizen.photo_url r) (objects_pass env local Remote.empty))
       (supabaseToCitizen r
          (default 0 (hb.2 !! SupabaseCitizen.household_id r))
          (default 0 (vb.2 !! SupabaseCitizen.village_id r))
          (default 0 (wb.2 !! SupabaseCitizen.ward_id r)) k)).

End RoundTrip.

End SyncTerms.

(** ** Edit distance by recursion

    The distance between two strings read from their last characters,
    by the recurrence the matrix of [stringSimilarity] is filled with. *)

Module EditDistance.

Definition cost (c d : ascii) : nat := if Ascii.eqb c d then 0 else 1.

Fixpoint dist (a b : list ascii) : nat :=
  match a with
  | [] => length b
  | c :: a' =>
      (fix inner (b : list ascii) : nat :=
         match b with
         | [] => length a
         | d :: b' =>
             Nat.min (Nat.min (dist a' b + 1) (inner b' + 1))
                     (dist a' b' + cost c d)
         end) b
  end.

(** The cells of the matrix row of the prefix [a] (reversed) in the
    columns after the prefix [b] (reversed) of the second string. *)
Fixpoint row_from (a b s2 : list ascii) : list nat :=
  match s2 with
  | [] => []
  | d :: s2' => dist a (d :: b) :: row_from a (d :: b) s2'
  end.

End EditDistance.

(** ** The rows of an import batch, one at a time *)

Module BatchTerms.
Import Validation Batch.

Section WithHost.
Variable toDateString : Date -> string.
Variable now : nat -> Date.
Variable existingCitizens : list Citizen.t.

(** The errors of the record at index [ir.1], with its row number. *)
Definition row_errors (ir : nat * Citizen.partial) : list ValidationError :=
  validateCitizenData (now (ir.1 + 1)) ir.2 (Some (ir.1 + 1)).

Definition row_valid (ir : nat * Citizen.partial) : bool :=
  match row_errors ir with [] => true | _ => false end.

Definition row_matches (ir : nat * Citizen.partial) : list DuplicateMatch :=
  findDuplicates toDateString existingCitizens ir.2 0.7%float.

(** The entry a row adds to the duplicate report, if any. *)
Definition row_duplicates (ir : nat * Citizen.partial)
    : list (nat * list DuplicateMatch) :=
  if row_valid ir then
    match row_matches ir with
    | [] => []
    | matches => [(ir.1 + 1, matches)]
    end
  else [].

End WithHost.

(** A record with names and sex and nothing else. *)
Definition named (firstName lastName : option string) (sex : option Sex)
    : Citizen.partial :=
  {| Citizen.p_id := None; Citizen.p_uniqueId := None;
     Citizen.p_householdId := None; Citizen.p_villageId := None;
     Citizen.p_wardId := None;
     Citizen.p_firstName := firstName; Citizen.p_lastName := lastName;
     Citizen.p_otherNames := None; Citizen.p_sex := sex;
     Citizen.p_dateOfBirth := None; Citizen.p_age := None;
     Citizen.p_phoneNumber := None; Citizen.p_occupation := None;
     Citizen.p_disabilityStatus := None; Citizen.p_disabilityNotes := None;
     Citizen.p_photoData := None; Citizen.p_fingerprintData := None;
     Citizen.p_notes := None; Citizen.p_consentGiven := None;
     Citizen.p_consentDate := None; Citizen.p_recorderName := None;
     Citizen.p_createdAt := None; Citizen.p_updatedAt := None |}.

End BatchTerms.

(** ** The settings table as Dexie keeps it *)

Module DbTerms.
Import Db.

(** The primary keys of the settings are unique and below the key
    generator, and no key of a setting occurs twice. *)
Definition settings_ok (t : Table AppSettings) : Prop :=
  NoDup (id <$> rows t)
  /\ Forall (fun s => id s < nextId t) (rows t)
  /\ NoDup (key <$> rows t).

(** A decimal numeral with [n] zeros in front. *)
Fixpoint leading_zeros (n : nat) (d : Decimal.uint) : Decimal.uint :=
  match n with
  | O => d
  | S n' => Decimal.D0 (leading_zeros n' d)
  end.

End DbTerms.

(** ** Counting what a run did *)

Module AccountingTerms.

#[export] Instance tier_eq_dec : EqDecision Tier.
Proof. solve_decision. Defined.

Definition total (c : Counts.t) : nat :=
  Counts.wards c + Counts.villages c + Counts.households c + Counts.citizens c.

Definition counter (tier : Tier) (c : Counts.t) : nat :=
  match tier with
  | TWard => Counts.wards c
  | TVillage => Counts.villages c
  | THousehold => Counts.households c
  | TCitizen => Counts.citizens c
  end.

(** A step either counts its record or reports one error. *)
Definition counts_or_reports (count : Tier -> SyncResult -> SyncResult)
    (tier : Tier) (r r' : SyncResult) : Prop :=
  r' = count tier r \/ exists msg, r' = push_error msg r.

(** The number of rows a download has to account for in a tier: the rows
    fetched, or the one failed fetch. *)
Definition fetched (env : DownloadEnv) (tier : Tier) (n : nat) : nat :=
  match fetch_error env tier with
  | Some _ => 1
  | None => n
  end.

End AccountingTerms.

(** ** The identifier and the natural key of a remote row *)

Module KeyTerms.

Definition keys_of {R} (rid rcode : R -> string) (T : list R)
    : list (string * string) :=
  (fun r => (rid r, rcode r)) <$> T.

(** The identifiers of a remote table are unique and not empty. *)
Definition ids_ok {R} (rid : R -> string) (T : list R) : Prop :=
  NoDup (rid <$> T) /\ Forall (fun r => truthy_string (rid r) = true) T.

Definition remote_ids_ok (r : Remote.t) : Prop :=
  ids_ok SupabaseWard.id (Remote.wards r)
  /\ ids_ok SupabaseVillage.id (Remote.villages r)
  /\ ids_ok SupabaseHousehold.id (Remote.households r)
  /\ ids_ok SupabaseCitizen.id (Remote.citizens r).

(** The table [T'] has the rows of [T], under the same identifiers and
    natural keys and in the same places, and maybe more. *)
Definition keeps_keys {R} (rid rcode : R -> string) (T T' : list R) : Prop :=
  exists added, keys_of rid rcode T' = keys_of rid rcode T ++ added.

End KeyTerms.

(** ** The rows of an import, one at a time *)

Module ImportTerms.
Import Validation Batch Db CsvImport.

(** The loop skips the record at this index of [valid]. *)
Definition skipped_row (skipDuplicates : bool) (duplicateRows : list nat)
    (ir : nat * Citizen.partial) : bool :=
  skipDuplicates && bool_decide (ir.1 + 1 ∈ duplicateRows).

(** The insert of the record at this index of [valid] is tried and
    throws. *)
Definition failed_row (env : ImportEnv) (skipDuplicates : bool)
    (duplicateRows : list nat) (ir : nat * Citizen.partial) : bool :=
  negb (skipped_row skipDuplicates duplicateRows ir)
  && add_throws env (ir.1 + 1).

Definition kept_row (env : ImportEnv) (skipDuplicates : bool)
    (duplicateRows : list nat) (ir : nat * Citizen.partial) : bool :=
  negb (skipped_row skipDuplicates duplicateRows ir)
  && negb (add_throws env (ir.1 + 1)).

Definition import_failure (ir : nat * Citizen.partial) : ValidationError :=
  mkError "import" ("Failed to import row " ++ decimal (ir.1 + 1))
    (Some (ir.1 + 1)).

(** The identifier generated when the member table has [n] rows. *)
Definition id_at (env : ImportEnv) (n : nat) : string :=
  or_else (selectedWardCode env) "WARD" ++ "-"
  ++ or_else (selectedVillageCode env) "VLG" ++ "-"
  ++ padStart (decimal (n + 1)) 6 "0".

(** An import into the household, village and ward 1, in which no insert
    throws. *)
Definition plain_import : ImportEnv :=
  {| selectedWardCode := Some "W01"%string;
     selectedVillageCode := Some "V01"%string;
     selectedWardId := 1; selectedVillageId := 1; selectedHouseholdId := 1;
     consent_clock := fun _ => 7000%Z;
     created_clock := fun _ => 7000%Z;
     updated_clock := fun _ => 7000%Z;
     add_throws := fun _ => false |}.

End ImportTerms.

(** ** A download after a download *)

Module RepeatTerms.
Import SyncTerms.

(** No natural key occurs twice in a remote table. *)
Definition remote_codes_unique (r : Remote.t) : Prop :=
  NoDup (SupabaseWard.code <$> Remote.wards r)
  /\ NoDup (SupabaseVillage.code <$> Remote.villages r)
  /\ NoDup (SupabaseHousehold.code <$> Remote.households r)
  /\ NoDup (SupabaseCitizen.unique_id <$> Remote.citizens r).

(** The primary keys and the natural keys of a local table are unique. *)
Definition keys_unique {L} `{Keyed L} (lcode : L -> string) (t : Table L)
    : Prop :=
  table_ok t /\ NoDup (lcode <$> rows t).

(** The entries a loop writes into its session map, in order. *)
Definition bind_all (pairs : list (string * nat)) (M : gmap string nat)
    : gmap string nat :=
  fold_left (fun M p => <[p.1 := p.2]> M) pairs M.

End RepeatTerms.

(** ** The columns of a parsed row *)

Module NormalizeTerms.
Import Validation Normalize.

(** The header [key] names the field [field]. *)
Definition names (field : string) (entry : string * string) : bool :=
  String.eqb (mappedKey entry.1) field.

(** The last entry of a row that satisfies [p]. *)
Definition last_entry (p : string * string -> bool)
    (data : list (string * string)) : option (string * string) :=
  List.find p (rev data).

(** The header names [field] and the value can be read by [read]. *)
Definition readable {A} (field : string) (read : string -> option A)
    (entry : string * string) : bool :=
  names field entry && bool_decide (is_Some (read entry.2)).

End NormalizeTerms.

(** ** Strings of ASCII characters

    A string of the embedding is a sequence of bytes.  On the strings
    whose characters are all below 128 its [toLowerCase] and [trim] are
    those of JavaScript: the letters [A] to [Z] are the only ones with a
    lower case, and tab, line feed, vertical tab, form feed, carriage
    return and space the only white space. *)

Module AsciiTerms.

Definition ascii_char (c : ascii) : bool := (nat_of_ascii c <? 128)%nat.

Fixpoint ascii_only (s : string) : bool :=
  match s with
  | EmptyString => true
  | String c rest => ascii_char c && ascii_only rest
  end.

(** Every header and every value of an imported row is such a string. *)
Definition ascii_row (data : list (string * string)) : bool :=
  forallb (fun entry => ascii_only entry.1 && ascii_only entry.2) data.

End AsciiTerms.

(** * Properties of the duplicate detector *)

Module ValidationFacts.
Import Validation ValidationTerms.

Section WithHost.
Variable toDateString : Date -> string.

Abbreviation tally := (tally toDateString).
Abbreviation contributions := (contributions toDateString).
Abbreviation findDuplicates := (findDuplicates toDateString).
Abbreviation examine := (examine toDateString).

Lemma extends_nil t : extends t t [].
Proof. unfold extends; simpl; repeat split; lia. Qed.

Lemma extends_contribute r s t : extends t (contribute r s t) [s].
Proof.
  unfold extends, contribute; simpl.
  rewrite length_app; simpl; repeat split; lia.
Qed.

Lemma extends_trans t1 t2 t3 cs ds :
  extends t1 t2 cs -> extends t2 t3 ds -> extends t1 t3 (cs ++ ds).
Proof.
  intros (Ht & Hc & Hr) (Ht' & Hc' & Hr'); unfold extends.
  rewrite fold_left_app, <- Ht, length_app; repeat split; [done | lia..].
Qed.

Lemma check_name_extends label new old t :
  extends t (check_name label new old t) (name_signal new old).
Proof.
  unfold check_name, name_signal.
  destruct new as [n|]; [|apply extends_nil].
  destruct (truthy_string n && truthy_string old); [|apply extends_nil].
  simpl; destruct (0.8 <? stringSimilarity n old)%float;
    [apply extends_contribute | apply extends_nil].
Qed.

Lemma check_phone_extends new old t :
  extends t (check_phone new old t) (phone_signal new old).
Proof.
  unfold check_phone, phone_signal.
  destruct new as [n|], old as [o|]; try apply extends_nil.
  destruct (truthy_string n && truthy_string o); [|apply extends_nil].
  cbv zeta.
  destruct (String.eqb (digits_only n) (digits_only o));
    destruct (0 <? String.length (digits_only n))%nat; simpl;
    first [apply extends_contribute | apply extends_nil].
Qed.

Lemma check_dob_extends new old t :
  extends t (check_dob toDateString new old t) (dob_signal toDateString new old).
Proof.
  unfold check_dob, dob_signal.
  destruct new, old; try apply extends_nil.
  destruct (String.eqb _ _); [apply extends_contribute | apply extends_nil].
Qed.

Lemma check_same_extends reason weight new old t :
  extends t (check_same reason weight new old t) (same_signal weight new old).
Proof.
  unfold check_same, same_signal.
  destruct new; [|apply extends_nil].
  destruct (_ && _); [apply extends_contribute | apply extends_nil].
Qed.

Lemma tally_contributions newCitizen existing :
  totalScore (tally newCitizen existing)
    = sum_floats (contributions newCitizen existing)
  /\ scoreCount (tally newCitizen existing)
    = length (contributions newCitizen existing)
  /\ length (reasons (tally newCitizen existing))
    = length (contributions newCitizen existing).
Proof.
  assert (H : extends (mkTally [] 0%float 0) (tally newCitizen existing)
                (contributions newCitizen existing)).
  { unfold Validation.tally, ValidationTerms.contributions.
    repeat (eapply extends_trans;
            [first [apply check_name_extends | apply check_phone_extends
                   | apply check_dob_extends | apply check_same_extends]|]).
    apply check_same_extends. }
  destruct H as (Ht & Hc & Hr); simpl in *; auto.
Qed.

Abbreviation spec_score := (spec_score toDateString).

Lemma score_of_tally newCitizen existing :
  score_of (tally newCitizen existing) = spec_score newCitizen existing.
Proof.
  unfold score_of, spec_score.
  destruct (tally_contributions newCitizen existing) as (-> & -> & _); done.
Qed.

Lemma qualifies_spec threshold newCitizen existing :
  qualifies threshold (tally newCitizen existing) = true
  <-> (threshold <=? spec_score newCitizen existing)%float = true
      /\ 2 <= length (contributions newCitizen existing).
Proof.
  unfold qualifies. rewrite score_of_tally.
  destruct (tally_contributions newCitizen existing) as (_ & -> & ->).
  rewrite !andb_true_iff, Nat.ltb_lt, Nat.leb_le. intuition lia.
Qed.

Lemma elem_of_insert_by_score m a l :
  m ∈ insert_by_score a l <-> m = a \/ m ∈ l.
Proof.
  induction l as [|b l IH]; simpl.
  - rewrite list_elem_of_singleton, elem_of_nil; tauto.
  - destruct (0 <? matchScore b - matchScore a)%float;
      rewrite !elem_of_cons; [rewrite IH|]; tauto.
Qed.

Lemma elem_of_sort_by_score m l : m ∈ sort_by_score l <-> m ∈ l.
Proof.
  induction l as [|a l IH]; simpl; [done|].
  rewrite elem_of_insert_by_score, elem_of_cons, IH; tauto.
Qed.

Lemma elem_of_examined newCitizen threshold m store acc :
  m ∈ fold_left (examine newCitizen threshold) store acc
  <-> m ∈ acc
      \/ exists existing, existing ∈ store
           /\ qualifies threshold (tally newCitizen existing) = true
           /\ m = report existing (tally newCitizen existing).
Proof.
  revert acc; induction store as [|e store IH]; intros acc; simpl.
  - split; [auto|]. intros [?|(? & []%elem_of_nil & _)]; done.
  - rewrite IH. unfold Validation.examine.
    destruct (qualifies threshold (tally newCitizen e)) eqn:Q.
    + rewrite elem_of_app, list_elem_of_singleton. split.
      * intros [[?| ->]|(x & ? & ? & ?)]; eauto.
        -- right; exists e; rewrite elem_of_cons; eauto.
        -- right; exists x; rewrite elem_of_cons; eauto.
      * intros [?|(x & [-> |?]%elem_of_cons & ? & ?)]; eauto 6.
    + split.
      * intros [?|(x & ? & ? & ?)]; eauto.
        right; exists x; rewrite elem_of_cons; eauto.
      * intros [?|(x & [-> |?]%elem_of_cons & ? & ?)]; eauto 6.
        congruence.
Qed.

Abbreviation shares_only_village := (shares_only_village toDateString).

(** C7. [findDuplicates] reports an existing record exactly when its
    score, the sum of the contributions that fired divided by their
    number, reaches the threshold and at least two signals fired; the
    reported score is that quotient.  A record that shares nothing but
    the village with the candidate is not reported, whatever the
    threshold. *)
Theorem findDuplicates_rule existingCitizens newCitizen threshold :
  (forall m,
     m ∈ findDuplicates existingCitizens newCitizen threshold
     <-> exists existing,
           existing ∈ existingCitizens
           /\ citizen m = existing
           /\ matchScore m = spec_score newCitizen existing
           /\ matchReasons m = reasons (tally newCitizen existing)
           /\ (threshold <=? spec_score newCitizen existing)%float = true
           /\ 2 <= length (contributions newCitizen existing))
  /\ (forall existing m,
        shares_only_village newCitizen existing ->
        m ∈ findDuplicates existingCitizens newCitizen threshold ->
        citizen m <> existing).
Proof.
  assert (Hchar : forall m,
     m ∈ findDuplicates existingCitizens newCitizen threshold
     <-> exists existing,
           existing ∈ existingCitizens
           /\ citizen m = existing
           /\ matchScore m = spec_score newCitizen existing
           /\ matchReasons m = reasons (tally newCitizen existing)
           /\ (threshold <=? spec_score newCitizen existing)%float = true
           /\ 2 <= length (contributions newCitizen existing)).
  { intros m. unfold Validation.findDuplicates.
    rewrite elem_of_sort_by_score, elem_of_examined. split.
    - intros [[]%elem_of_nil|(e & He & Q & ->)].
      apply qualifies_spec in Q as [? ?].
      exists e; simpl; rewrite score_of_tally; auto 10.
    - intros (e & He & Hc & Hs & Hr & Hle & Hn).
      right; exists e; split; [done|]; split.
      + apply qualifies_spec; auto.
      + destruct m; simpl in *; subst.
        unfold report; rewrite score_of_tally; done. }
  split; [exact Hchar|].
  intros existing m (H1 & H2 & H3 & H4 & H5) Hm <-.
  apply Hchar in Hm as (e & _ & <- & _ & _ & _ & Hn).
  unfold ValidationTerms.contributions in Hn.
  rewrite H1, H2, H3, H4, H5 in Hn; simpl in Hn.
  unfold same_signal in Hn.
  destruct (Citizen.p_villageId newCitizen); simpl in Hn; [|lia].
  destruct (_ && _); simpl in Hn; lia.
Qed.

End WithHost.

(** C8, as stated, fails: on the scenario's input the detector reports
    nothing, so it does not report exactly one match. *)
Lemma fuzzy_scenario_reports_nothing :
  ~ exists m, findDuplicates utc_day_string [john_smith] jon_smith 0.6%float = [m].
Proof. intros [m Hm]. vm_compute in Hm. discriminate Hm. Qed.

(** C8, amended.  "Jon" against "John" is one edit over four characters,
    a similarity of exactly 0.75, which does not pass the 0.8 gate; the
    last name is the only signal that fires, and a single signal is not
    reported. *)
Theorem fuzzy_scenario_single_signal toDateString (existing : Citizen.t) :
  Citizen.firstName existing = "John" ->
  Citizen.lastName existing = "Smith" ->
  levenshtein "jon" "john" = 1
  /\ stringSimilarity "Jon" "John" = 0.75%float
  /\ (0.8 <? stringSimilarity "Jon" "John")%float = false
  /\ contributions toDateString jon_smith existing = [1%float]
  /\ reasons (tally toDateString jon_smith existing) = ["Last name similar (100%)"]
  /\ findDuplicates toDateString [existing] jon_smith 0.6%float = [].
Proof.
  destruct existing; simpl; intros -> ->.
  repeat split; vm_compute; reflexivity.
Qed.

Lemma fuzzy_scenario_single_signal_witness :
  findDuplicates utc_day_string [john_smith] jon_smith 0.6%float = [].
Proof.
  apply (fuzzy_scenario_single_signal utc_day_string john_smith);
    reflexivity.
Defined.

Lemma findDuplicates_rule_witness :
  contributions utc_day_string villager john_smith = [0.3%float]
  /\ forall m,
       m ∈ findDuplicates utc_day_string [john_smith] villager 0%float ->
       citizen m <> john_smith.
Proof.
  split; [reflexivity|].
  intros m.
  apply (proj2 (findDuplicates_rule utc_day_string [john_smith] villager 0%float)).
  repeat split; reflexivity.
Defined.
End ValidationFacts.

(** * Properties of the reconciler *)

Module SyncFacts.
Import SyncTerms.

(** ** Results *)

Lemma finish_success r : success (finish r) = true <-> errors (finish r) = [].
Proof. destruct r as [s u d [|e es]]; simpl; split; congruence. Qed.

Lemma abort_success prefix e r :
  success (abort prefix e r) = true <-> errors (abort prefix e r) = [].
Proof.
  simpl; split; [discriminate|].
  intros H; apply app_eq_nil in H as [_ H]; discriminate.
Qed.

(** C4. The result of an upload and the result of a download have
    [success = true] exactly when their error list is empty. *)
Theorem success_iff_no_errors :
  (forall env local remote,
      success (result (syncToSupabase env local remote)) = true
      <-> errors (result (syncToSupabase env local remote)) = [])
  /\ (forall env local remote,
        success (result (restoreFromSupabase env local remote)) = true
        <-> errors (result (restoreFromSupabase env local remote)) = []).
Proof.
  split; intros env local remote.
  - unfold syncToSupabase. destruct (onLine env); simpl result.
    + apply finish_success.
    + apply abort_success.
  - unfold restoreFromSupabase. destruct (dl_onLine env); simpl result.
    + apply finish_success.
    + apply abort_success.
Qed.

(** ** A record whose parent is not in the session map *)

Lemma up_error_reports msg st : only_reports_up msg st (up_error msg st).
Proof. unfold only_reports_up; simpl; auto 10. Qed.

Lemma dn_error_reports msg st : only_reports_down msg st (dn_error msg st).
Proof. unfold only_reports_down; simpl; auto 10. Qed.

Lemma upload_citizen_skips env st citizen :
  householdIdMap st !! Citizen.householdId citizen = None
  \/ villageIdMap st !! Citizen.villageId citizen = None
  \/ wardIdMap st !! Citizen.wardId citizen = None ->
  upload_citizen env st citizen = up_error (missing_parents citizen) st.
Proof.
  unfold upload_citizen. intros [H|[H|H]]; rewrite H.
  - done.
  - destruct (householdIdMap st !! Citizen.householdId citizen); done.
  - destruct (householdIdMap st !! Citizen.householdId citizen),
      (villageIdMap st !! Citizen.villageId citizen); done.
Qed.

Lemma download_citizen_skips env objects st citizen :
  householdUuidToLocalId st !! SupabaseCitizen.household_id citizen = None
  \/ villageUuidToLocalId st !! SupabaseCitizen.village_id citizen = None
  \/ wardUuidToLocalId st !! SupabaseCitizen.ward_id citizen = None ->
  download_citizen env objects st citizen
  = dn_error (missing_parents_locally citizen) st.
Proof.
  unfold download_citizen. intros [H|[H|H]]; rewrite H.
  - done.
  - destruct (householdUuidToLocalId st !! SupabaseCitizen.household_id citizen);
      done.
  - destruct (householdUuidToLocalId st !! SupabaseCitizen.household_id citizen),
      (villageUuidToLocalId st !! SupabaseCitizen.village_id citizen); done.
Qed.

(** C3. In either direction, a record whose parent identifier is not in
    the session map is not written: the step leaves the destination
    store, the maps and the counters as they were and appends the
    parent-not-found message, and the loop goes on with the records that
    follow. *)
Theorem missing_parent_is_skipped :
  (forall env st village rest,
      wardIdMap st !! Village.wardId village = None ->
      only_reports_up ("Village " ++ Village.code village ++ ": Ward not found")
        st (upload_village env st village)
      /\ fold_left (upload_village env) (village :: rest) st
         = fold_left (upload_village env) rest (upload_village env st village))
  /\ (forall env st household rest,
      villageIdMap st !! Household.villageId household = None ->
      only_reports_up
        ("Household " ++ Household.code household ++ ": Village not found")
        st (upload_household env st household)
      /\ fold_left (upload_household env) (household :: rest) st
         = fold_left (upload_household env) rest
             (upload_household env st household))
  /\ (forall env st citizen rest,
      householdIdMap st !! Citizen.householdId citizen = None
      \/ villageIdMap st !! Citizen.villageId citizen = None
      \/ wardIdMap st !! Citizen.wardId citizen = None ->
      only_reports_up
        ("Citizen " ++ Citizen.uniqueId citizen ++ ": Missing parent records")
        st (upload_citizen env st citizen)
      /\ fold_left (upload_citizen env) (citizen :: rest) st
         = fold_left (upload_citizen env) rest (upload_citizen env st citizen))
  /\ (forall env st village rest,
      wardUuidToLocalId st !! SupabaseVillage.ward_id village = None ->
      only_reports_down
        ("Village " ++ SupabaseVillage.code village ++ ": Ward not found locally")
        st (download_village env st village)
      /\ fold_left (download_village env) (village :: rest) st
         = fold_left (download_village env) rest
             (download_village env st village))
  /\ (forall env st household rest,
      villageUuidToLocalId st !! SupabaseHousehold.village_id household = None ->
      only_reports_down
        ("Household " ++ SupabaseHousehold.code household
         ++ ": Village not found locally")
        st (download_household env st household)
      /\ fold_left (download_household env) (household :: rest) st
         = fold_left (download_household env) rest
             (download_household env st household))
  /\ (forall env objects st citizen rest,
      householdUuidToLocalId st !! SupabaseCitizen.household_id citizen = None
      \/ villageUuidToLocalId st !! SupabaseCitizen.village_id citizen = None
      \/ wardUuidToLocalId st !! SupabaseCitizen.ward_id citizen = None ->
      only_reports_down
        ("Citizen " ++ SupabaseCitizen.unique_id citizen
         ++ ": Missing parent records")
        st (download_citizen env objects st citizen)
      /\ fold_left (download_citizen env objects) (citizen :: rest) st
         = fold_left (download_citizen env objects) rest
             (download_citizen env objects st citizen)).
Proof.
  split; [|split; [|split; [|split; [|split]]]];
    intros; (split; [|reflexivity]).
  - unfold upload_village; rewrite H; apply up_error_reports.
  - unfold upload_household; rewrite H; apply up_error_reports.
  - rewrite upload_citizen_skips by done; apply up_error_reports.
  - unfold download_village; rewrite H; apply dn_error_reports.
  - unfold download_household; rewrite H; apply dn_error_reports.
  - rewrite download_citizen_skips by done; apply dn_error_reports.
Qed.

Lemma missing_parent_is_skipped_witness :
  let st := mkUploadState Remote.empty (Settings.mk None None) initial_result
              ∅ ∅ ∅ in
  wardIdMap st !! Village.wardId Scenario.lakeside = None
  /\ only_reports_up "Village V01: Ward not found" st
       (upload_village (Scenario.reliable 5000) st Scenario.lakeside)
  /\ errors (up_result
               (fold_left (upload_village (Scenario.reliable 5000))
                  [Scenario.lakeside; Scenario.lakeside] st))
     = ["Village V01: Ward not found"; "Village V01: Ward not found"].
Proof.
  intros st. split; [reflexivity|]. split; [|reflexivity].
  apply (proj1 missing_parent_is_skipped (Scenario.reliable 5000) st
           Scenario.lakeside []).
  reflexivity.
Defined.

(** ** Connectivity *)

Lemma fold_left_preserves {A B} (P : A -> Prop) (f : A -> B -> A) l a :
  (forall a b, P a -> P (f a b)) -> P a -> P (fold_left f l a).
Proof. intros Hf; revert a; induction l; simpl; auto. Qed.

Lemma remote_eta r :
  Remote.mk (Remote.wards r) (Remote.villages r) (Remote.households r)
    (Remote.citizens r) (Remote.objects r) = r.
Proof. destruct r; reflexivity. Qed.

Lemma local_eta l :
  Local.mk (Local.wards l) (Local.villages l) (Local.households l)
    (Local.citizens l) (Local.settings l) = l.
Proof. destruct l; reflexivity. Qed.

Lemma upload_attachment_not_transferred upload now data citizenId objects :
  upload = uploadPhotoToStorage \/ upload = uploadFingerprintToStorage ->
  upload_attachment upload false now data citizenId objects = (None, objects).
Proof.
  intros [-> | ->]; unfold upload_attachment; destruct data as [d|]; try done;
    destruct (truthy_string d); done.
Qed.

Section Unreachable.
Variable env : UploadEnv.
Hypothesis Hdown : remote_unreachable env.

Lemma unreachable_ward st ward :
  up_remote (upload_ward env st ward) = up_remote st.
Proof.
  unfold upload_ward.
  destruct (Hdown TWard (Ward.id ward)) as (_ & [e ->] & _); simpl.
  apply remote_eta.
Qed.

Lemma unreachable_village st village :
  up_remote (upload_village env st village) = up_remote st.
Proof.
  unfold upload_village.
  destruct (wardIdMap st !! Village.wardId village) as [u|]; [|done].
  destruct (truthy_string u); [|done].
  destruct (Hdown TVillage (Village.id village)) as (_ & [e ->] & _); simpl.
  apply remote_eta.
Qed.

Lemma unreachable_household st household :
  up_remote (upload_household env st household) = up_remote st.
Proof.
  unfold upload_household.
  destruct (villageIdMap st !! Household.villageId household) as [u|]; [|done].
  destruct (truthy_string u); [|done].
  destruct (Hdown THousehold (Household.id household)) as (_ & [e ->] & _); simpl.
  apply remote_eta.
Qed.

Lemma unreachable_citizen st citizen :
  up_remote (upload_citizen env st citizen) = up_remote st.
Proof.
  unfold upload_citizen.
  destruct (householdIdMap st !! Citizen.householdId citizen) as [h|]; [|done].
  destruct (villageIdMap st !! Citizen.villageId citizen) as [v|]; [|done].
  destruct (wardIdMap st !! Citizen.wardId citizen) as [w|]; [|done].
  destruct (truthy_string h && truthy_string v && truthy_string w); [|done].
  unfold upload_citizen_with_parents.
  destruct (Hdown TCitizen (Citizen.id citizen)) as (_ & [e ->] & -> & ->).
  destruct (getDeviceId (new_device_id env) (up_settings st)) as [d s'].
  rewrite !upload_attachment_not_transferred by auto; simpl.
  apply remote_eta.
Qed.

Lemma unreachable_upload_all local remote :
  up_remote (upload_all env local remote) = remote.
Proof.
  unfold upload_all.
  repeat (apply (fold_left_preserves (fun st => up_remote st = remote));
          [intros st x <-;
           first [apply unreachable_citizen | apply unreachable_household
                 | apply unreachable_village | apply unreachable_ward]|]).
  reflexivity.
Qed.

End Unreachable.

Lemma unreachable_download env local remote e1 e2 e3 e4 :
  fetch_error env TWard = Some e1 ->
  fetch_error env TVillage = Some e2 ->
  fetch_error env THousehold = Some e3 ->
  fetch_error env TCitizen = Some e4 ->
  download_all env local remote
  = mkDownloadState local
      (mkResult false Counts.zero Counts.zero
         ["Failed to fetch wards: " ++ e1; "Failed to fetch villages: " ++ e2;
          "Failed to fetch households: " ++ e3;
          "Failed to fetch citizens: " ++ e4]%string)
      ∅ ∅ ∅.
Proof.
  intros E1 E2 E3 E4. unfold download_all, download_tier.
  rewrite E1, E2, E3, E4. reflexivity.
Qed.

(** C5, as stated, fails.  The browser is on line and no request reaches
    the remote store.  A download of the scenario's registry is then not
    stopped by a check made once before the first record: each of the four
    fetches is tried and fails, the result lists four errors, one per
    tier, and the run ends by writing the time of the synchronisation to
    the settings of the local store, which is therefore not as it was. *)
Lemma unreachable_download_is_not_fatal :
  let env := Scenario.restoring true (Some "TypeError: Failed to fetch") in
  let local := Scenario.registry (Scenario.jane None None) in
  let run := restoreFromSupabase env local Remote.empty in
  dl_onLine env = true
  /\ remote_unreachable_dl env
  /\ errors (result run)
     = ["Failed to fetch wards: TypeError: Failed to fetch";
        "Failed to fetch villages: TypeError: Failed to fetch";
        "Failed to fetch households: TypeError: Failed to fetch";
        "Failed to fetch citizens: TypeError: Failed to fetch"]
  /\ Settings.last_sync_time (Local.settings local) = None
  /\ Settings.last_sync_time (Local.settings (local_after run)) = Some 9000%Z
  /\ local_after run <> local.
Proof.
  intros env local run. split; [reflexivity|]. split; [intros tier; by eexists|].
  split; [reflexivity|]. split; [reflexivity|]. split; [reflexivity|].
  intros H. apply (f_equal (fun l => Settings.last_sync_time (Local.settings l))) in H.
  discriminate H.
Qed.

(** C5, amended.  A run tests connectivity once, before the first record:
    when the browser is off line the upload and the download end at once,
    both stores stay as they were, every counter is zero, [success] is
    false and the error list holds the connectivity error alone.  The run
    does not test whether the remote store can be reached.  The dialog
    that starts it does: its flag is false until [checkStatus] has the
    answer of [checkSupabaseConnection], it is false again when the
    request of that check comes back with an error or throws, and no run
    is started while either flag is down.  A run that is started against
    a remote store out of reach changes no remote record.  A download is
    then not fatal: with the browser on line and the four fetches failing,
    it reports the four fetch errors, one per tier and in the order of the
    tiers, with zero downloads and [success = false], leaves the local
    records alone and writes the time of the run to the local settings. *)
Theorem offline_run_aborts :
  (forall env local remote,
      onLine env = false ->
      syncToSupabase env local remote
      = mkRun (mkResult false Counts.zero Counts.zero
                 ["Sync failed: Error: No internet connection"])
          local remote)
  /\ (forall env local remote,
        dl_onLine env = false ->
        restoreFromSupabase env local remote
        = mkRun (mkResult false Counts.zero Counts.zero
                   ["Restore failed: Error: No internet connection"])
            local remote)
  /\ (forall d confirmed env denv local remote,
        Dialog.isOnline d = false \/ Dialog.supabaseReachable d = false ->
        handleSync d env local remote = None
        /\ handleRestore d confirmed denv local remote = None)
  /\ (forall onLine, Dialog.supabaseReachable (Dialog.initial onLine) = false)
  /\ (forall probe d,
        Dialog.supabaseReachable (checkStatus probe d) = false <-> probe <> Done)
  /\ (forall env local remote,
        remote_unreachable env ->
        remote_after (syncToSupabase env local remote) = remote)
  /\ (forall env local remote e1 e2 e3 e4,
        dl_onLine env = true ->
        fetch_error env TWard = Some e1 ->
        fetch_error env TVillage = Some e2 ->
        fetch_error env THousehold = Some e3 ->
        fetch_error env TCitizen = Some e4 ->
        restoreFromSupabase env local remote
        = mkRun (mkResult false Counts.zero Counts.zero
                   ["Failed to fetch wards: " ++ e1;
                    "Failed to fetch villages: " ++ e2;
                    "Failed to fetch households: " ++ e3;
                    "Failed to fetch citizens: " ++ e4]%string)
            (Local.mk (Local.wards local) (Local.villages local)
               (Local.households local) (Local.citizens local)
               (Settings.mk (Some (dl_finished_at env))
                  (Settings.sync_device_id (Local.settings local))))
            remote).
Proof.
  split_and!.
  - intros env local remote H. unfold syncToSupabase. rewrite H. reflexivity.
  - intros env local remote H. unfold restoreFromSupabase. rewrite H. reflexivity.
  - intros [[] []] confirmed env denv local remote [H|H]; done.
  - done.
  - intros [| |] d; simpl; split; congruence.
  - intros env local remote H. unfold syncToSupabase.
    destruct (onLine env); simpl; [|done].
    apply unreachable_upload_all, H.
  - intros env local remote e1 e2 e3 e4 H E1 E2 E3 E4.
    unfold restoreFromSupabase. rewrite H.
    rewrite (unreachable_download env local remote e1 e2 e3 e4) by done.
    reflexivity.
Qed.

Lemma offline_run_aborts_witness :
  let local := Scenario.registry (Scenario.jane None None) in
  syncToSupabase Scenario.offline local Remote.empty
  = mkRun (mkResult false Counts.zero Counts.zero
             ["Sync failed: Error: No internet connection"])
      local Remote.empty.
Proof.
  intros local.
  apply (proj1 offline_run_aborts Scenario.offline local Remote.empty).
  reflexivity.
Defined.

(** ** Attachments and discarded replies *)

Lemma upload_citizen_mapped env st citizen h v w :
  parents_mapped st citizen h v w ->
  upload_citizen env st citizen = upload_citizen_with_parents env st citizen h v w.
Proof.
  intros (Hh & Hv & Hw & Th & Tv & Tw).
  unfold upload_citizen. rewrite Hh, Hv, Hw, Th, Tv, Tw. reflexivity.
Qed.

Lemma upload_attachment_url upload transferred now data citizenId objects :
  upload = uploadPhotoToStorage \/ upload = uploadFingerprintToStorage ->
  transferred = false ->
  (upload_attachment upload transferred now data citizenId objects).1 = None.
Proof.
  intros H ->. rewrite upload_attachment_not_transferred by done. reflexivity.
Qed.

(** C6, as stated, fails: the member of the scenario has a photo, the
    transfer of the photo fails and the record itself is written; the
    member is counted, and nothing is appended to the result. *)
Lemma failed_attachment_leaves_no_warning :
  let run := syncToSupabase Scenario.no_attachments
               (Scenario.registry (Scenario.jane (Some "data:image/jpeg;base64,AAAA") None))
               Remote.empty in
  photo_transferred Scenario.no_attachments 1 = false
  /\ Counts.citizens (uploaded (result run)) = 1
  /\ ~ (exists warning, warning ∈ errors (result run)).
Proof.
  repeat split.
  intros [w Hw]. vm_compute in Hw. apply elem_of_nil in Hw. exact Hw.
Qed.

(** C6, amended.  When the record of a member is written and the transfer
    of its photo or of its fingerprint fails, the member is counted, the
    row that is written is the converted record with the locator of the
    failed attachment left out, and the error list of the result is
    unchanged: the failure is logged on the console and is not reported
    in the result. *)
Theorem attachment_failure_is_silent env st citizen householdUuid villageUuid wardUuid :
  parents_mapped st citizen householdUuid villageUuid wardUuid ->
  write_reply env TCitizen (Citizen.id citizen) = Done ->
  photo_transferred env (Citizen.id citizen) = false
  \/ fingerprint_transferred env (Citizen.id citizen) = false ->
  let st' := upload_citizen env st citizen in
  Counts.citizens (uploaded (up_result st'))
  = S (Counts.citizens (uploaded (up_result st)))
  /\ errors (up_result st') = errors (up_result st)
  /\ exists photoUrl fingerprintUrl,
       Remote.citizens (up_remote st')
       = write_row Done SupabaseCitizen.id (citizen_patch env citizen)
           (existing_citizen env st citizen)
           (set_fingerprint_url fingerprintUrl
              (set_photo_url photoUrl
                 (converted_citizen env st citizen householdUuid villageUuid wardUuid)))
           (Remote.citizens (up_remote st))
       /\ (photo_transferred env (Citizen.id citizen) = false -> photoUrl = None)
       /\ (fingerprint_transferred env (Citizen.id citizen) = false ->
           fingerprintUrl = None).
Proof.
  intros Hp Hw Hfail st'. subst st'.
  rewrite (upload_citizen_mapped _ _ _ _ _ _ Hp).
  unfold upload_citizen_with_parents, converted_citizen, existing_citizen.
  rewrite Hw.
  destruct (getDeviceId (new_device_id env) (up_settings st)) as [d s'] eqn:Ed.
  destruct (upload_attachment uploadPhotoToStorage _ _ _ _ _)
    as [photoUrl objects] eqn:Ep.
  destruct (upload_attachment uploadFingerprintToStorage _ _ _ _ _)
    as [fingerprintUrl objects'] eqn:Ef.
  simpl. repeat split.
  exists photoUrl, fingerprintUrl. repeat split.
  - intros Hf. rewrite Hf in Ep.
    rewrite upload_attachment_not_transferred in Ep by auto. congruence.
  - intros Hf. rewrite Hf in Ef.
    rewrite upload_attachment_not_transferred in Ef by auto. congruence.
Qed.

Lemma attachment_failure_is_silent_witness :
  let member := Scenario.jane (Some "data:image/jpeg;base64,AAAA") None in
  let st := fold_left (upload_household Scenario.no_attachments) [Scenario.doe_unit]
              (fold_left (upload_village Scenario.no_attachments) [Scenario.lakeside]
                 (fold_left (upload_ward Scenario.no_attachments) [Scenario.north]
                    (mkUploadState Remote.empty (Settings.mk None None)
                       initial_result ∅ ∅ ∅))) in
  errors (up_result (upload_citizen Scenario.no_attachments st member))
  = errors (up_result st).
Proof.
  intros member st.
  apply (attachment_failure_is_silent Scenario.no_attachments st member
           (Scenario.uuid_of THousehold 1) (Scenario.uuid_of TVillage 1)
           (Scenario.uuid_of TWard 1)).
  - repeat split; reflexivity.
  - reflexivity.
  - left; reflexivity.
Defined.

(** C10. The replies of the remote insert and update calls are not
    looked at.  When such a call answers with an error value, the table
    is as it was, yet no error is appended, the counter of the tier is
    incremented and the identifier chosen for the record enters the
    session map; a child of a ward whose insert was refused in this way
    is then inserted with the identifier of a ward that was never
    written. *)
Theorem rejected_write_is_counted :
  (forall env st ward e,
      write_reply env TWard (Ward.id ward) = ErrorValue e ->
      let st' := upload_ward env st ward in
      up_remote st' = up_remote st
      /\ errors (up_result st') = errors (up_result st)
      /\ Counts.wards (uploaded (up_result st'))
         = S (Counts.wards (uploaded (up_result st)))
      /\ wardIdMap st' !! Ward.id ward = Some (ward_uuid env st ward))
  /\ (forall env st village wardUuid e,
        wardIdMap st !! Village.wardId village = Some wardUuid ->
        truthy_string wardUuid = true ->
        write_reply env TVillage (Village.id village) = ErrorValue e ->
        let st' := upload_village env st village in
        up_remote st' = up_remote st
        /\ errors (up_result st') = errors (up_result st)
        /\ Counts.villages (uploaded (up_result st'))
           = S (Counts.villages (uploaded (up_result st)))
        /\ villageIdMap st' !! Village.id village
           = Some (village_uuid env st village))
  /\ (forall env st household villageUuid e,
        villageIdMap st !! Household.villageId household = Some villageUuid ->
        truthy_string villageUuid = true ->
        write_reply env THousehold (Household.id household) = ErrorValue e ->
        let st' := upload_household env st household in
        up_remote st' = up_remote st
        /\ errors (up_result st') = errors (up_result st)
        /\ Counts.households (uploaded (up_result st'))
           = S (Counts.households (uploaded (up_result st)))
        /\ householdIdMap st' !! Household.id household
           = Some (household_uuid env st household))
  /\ (forall env st citizen householdUuid villageUuid wardUuid e,
        parents_mapped st citizen householdUuid villageUuid wardUuid ->
        write_reply env TCitizen (Citizen.id citizen) = ErrorValue e ->
        let st' := upload_citizen env st citizen in
        Remote.citizens (up_remote st') = Remote.citizens (up_remote st)
        /\ errors (up_result st') = errors (up_result st)
        /\ Counts.citizens (uploaded (up_result st'))
           = S (Counts.citizens (uploaded (up_result st))))
  /\ (forall env st ward village e,
        write_reply env TWard (Ward.id ward) = ErrorValue e ->
        existing_ward env st ward = None ->
        truthy_string (randomUUID env TWard (Ward.id ward)) = true ->
        Village.wardId village = Ward.id ward ->
        write_reply env TVillage (Village.id village) = Done ->
        existing_village env st village = None ->
        let st' := upload_village env (upload_ward env st ward) village in
        Remote.wards (up_remote st') = Remote.wards (up_remote st)
        /\ Remote.villages (up_remote st')
           = Remote.villages (up_remote st)
             ++ [villageToSupabase (randomUUID env TVillage (Village.id village))
                   village (randomUUID env TWard (Ward.id ward)) None]
        /\ errors (up_result st') = errors (up_result st)).
Proof.
  split; [|split; [|split; [|split]]].
  - intros env st ward e Hw st'. subst st'. unfold upload_ward. rewrite Hw.
    simpl. rewrite remote_eta, lookup_insert_eq. done.
  - intros env st village u e Hu Tu Hw st'. subst st'.
    unfold upload_village. rewrite Hu, Tu, Hw.
    simpl. rewrite remote_eta, lookup_insert_eq. done.
  - intros env st household u e Hu Tu Hw st'. subst st'.
    unfold upload_household. rewrite Hu, Tu, Hw.
    simpl. rewrite remote_eta, lookup_insert_eq. done.
  - intros env st citizen h v w e Hp Hw st'. subst st'.
    rewrite (upload_citizen_mapped _ _ _ _ _ _ Hp).
    unfold upload_citizen_with_parents. rewrite Hw.
    destruct (getDeviceId _ _), (upload_attachment uploadPhotoToStorage _ _ _ _ _),
      (upload_attachment uploadFingerprintToStorage _ _ _ _ _).
    done.
  - intros env st ward village e Hw Hex Tr Hparent Hv Hexv st'. subst st'.
    unfold existing_ward in Hex. unfold existing_village in Hexv.
    unfold upload_village, upload_ward. rewrite Hw. simpl.
    rewrite Hparent, lookup_insert_eq, Hex. simpl. rewrite Tr, Hv, Hexv.
    done.
Qed.

Lemma rejected_write_is_counted_witness :
  let st := mkUploadState Remote.empty (Settings.mk None None) initial_result ∅ ∅ ∅ in
  let st' := upload_village refusing_wards
               (upload_ward refusing_wards st Scenario.north) Scenario.lakeside in
  Remote.wards (up_remote st') = []
  /\ Remote.villages (up_remote st')
     = [villageToSupabase "v-1" Scenario.lakeside "w-1" None]
  /\ errors (up_result st') = [].
Proof.
  intros st st'.
  apply (proj2 (proj2 (proj2 (proj2 rejected_write_is_counted)))
           refusing_wards st Scenario.north Scenario.lakeside
           "permission denied for table wards"); reflexivity.
Defined.

(** ** Tables *)

Section TableFacts.
Context {R : Type} `{Keyed R}.
Variable key : R -> string.

Lemma find_some_elem (p : R -> bool) (l : list R) e :
  List.find p l = Some e -> e ∈ l /\ p e = true.
Proof.
  intros [Hin Hp]%find_some. split; [|done]. by apply list_elem_of_In.
Qed.

Lemma same_key_same_row (l : list R) x y :
  NoDup (primary_key <$> l) -> x ∈ l -> y ∈ l ->
  primary_key x = primary_key y -> x = y.
Proof.
  induction l as [|a l IH]; simpl; [by intros _ ?%elem_of_nil|].
  intros [Hnotin Hnd]%NoDup_cons [-> |Hx]%elem_of_cons [-> |Hy]%elem_of_cons E.
  - done.
  - exfalso; apply Hnotin. rewrite E. by apply list_elem_of_fmap_2.
  - exfalso; apply Hnotin. rewrite <- E. by apply list_elem_of_fmap_2.
  - auto.
Qed.

Lemma update_ids k (fields : nat -> R) (t : Table R) :
  (forall i, primary_key (fields i) = i) ->
  primary_key <$> rows (update k fields t) = primary_key <$> rows t.
Proof.
  intros Hf. unfold update; simpl.
  induction (rows t) as [|r l IH]; simpl; [done|].
  f_equal; [|exact IH].
  destruct (Nat.eqb_spec (primary_key r) k) as [->|]; [apply Hf|done].
Qed.

Lemma add_rows (fields : nat -> R) (t : Table R) :
  rows (add fields t).2 = rows t ++ [fields (nextId t)].
Proof. reflexivity. Qed.

Lemma add_nextId (fields : nat -> R) (t : Table R) :
  nextId (add fields t).2 = S (nextId t).
Proof. reflexivity. Qed.

Lemma put_ok existing (fields : nat -> R) (t : Table R) :
  (forall i, primary_key (fields i) = i) ->
  table_ok t -> table_ok (put existing fields t).2.
Proof.
  intros Hf [Hnd Hlt]. destruct existing as [e|].
  - change (put (Some e) fields t).2 with (update (primary_key e) fields t).
    split; [by rewrite update_ids|].
    unfold update; simpl. rewrite Forall_forall in Hlt |- *.
    intros r [r0 [-> Hr0]]%list_elem_of_fmap. specialize (Hlt r0 Hr0).
    destruct (Nat.eqb_spec (primary_key r0) (primary_key e)) as [E|]; [|done].
    rewrite Hf, <- E. done.
  - change (put None fields t).2 with (add fields t).2.
    unfold table_ok. rewrite add_rows, add_nextId. split.
    + rewrite fmap_app. apply NoDup_app. split; [done|].
      split; [|apply NoDup_singleton].
      intros k [r [-> Hr]]%list_elem_of_fmap Hk.
      apply list_elem_of_singleton in Hk. rewrite Hf in Hk.
      rewrite Forall_forall in Hlt. specialize (Hlt r Hr). lia.
    + apply Forall_app. split.
      * eapply Forall_impl; [exact Hlt|]. simpl. intros; lia.
      * apply Forall_singleton. rewrite Hf. lia.
Qed.

Lemma put_ids existing (fields : nat -> R) (t : Table R) :
  (forall i, primary_key (fields i) = i) ->
  exists added,
    primary_key <$> rows (put existing fields t).2
    = (primary_key <$> rows t) ++ added.
Proof.
  intros Hf. destruct existing as [e|].
  - change (put (Some e) fields t).2 with (update (primary_key e) fields t).
    exists []. rewrite update_ids by done. by rewrite app_nil_r.
  - change (put None fields t).2 with (add fields t).2.
    exists [nextId t]. rewrite add_rows, fmap_app. simpl. by rewrite Hf.
Qed.

Lemma put_keeps c (fields : nat -> R) (t : Table R) r :
  table_ok t -> r ∈ rows t -> key r <> c ->
  r ∈ rows (put (first_where (fun x => String.eqb (key x) c) t) fields t).2.
Proof.
  intros [Hnd _] Hr Hc. unfold first_where.
  destruct (List.find _ (rows t)) as [e|] eqn:E.
  - change (put (Some e) fields t).2 with (update (primary_key e) fields t).
    apply find_some_elem in E as [He Hk]. apply String.eqb_eq in Hk.
    unfold update; simpl.
    apply (list_elem_of_fmap
             (fun r => if (primary_key r =? primary_key e)%nat
                       then fields (primary_key e) else r)).
    exists r. split; [|done].
    destruct (Nat.eqb_spec (primary_key r) (primary_key e)) as [Eid|]; [|done].
    exfalso. apply Hc. rewrite <- Hk. f_equal.
    eapply same_key_same_row; eauto.
  - change (put None fields t).2 with (add fields t).2.
    rewrite add_rows. apply elem_of_app; auto.
Qed.

Lemma untouched_refl keys (t : Table R) : untouched key keys t t.
Proof. split; [exists []; by rewrite app_nil_r | auto]. Qed.

Lemma untouched_put keys c (fields : nat -> R) (t0 t : Table R) :
  (forall i, primary_key (fields i) = i) ->
  c ∈ keys -> table_ok t -> untouched key keys t0 t ->
  untouched key keys t0
    (put (first_where (fun x => String.eqb (key x) c) t) fields t).2.
Proof.
  intros Hf Hc Hok [[added Hids] Hkeep]. split.
  - destruct (put_ids (first_where (fun x => String.eqb (key x) c) t) fields t Hf)
      as [more ->].
    exists (added ++ more). by rewrite Hids, app_assoc.
  - intros r Hr Hk. apply put_keeps; auto. intros E; rewrite E in Hk; auto.
Qed.

End TableFacts.

Lemma elem_of_insert_by {R} (key : R -> Z) x y l :
  y ∈ insert_by key x l <-> y = x \/ y ∈ l.
Proof.
  induction l as [|a l IH]; simpl.
  - rewrite list_elem_of_singleton, elem_of_nil; tauto.
  - destruct (key x <=? key a)%Z; rewrite !elem_of_cons; [|rewrite IH]; tauto.
Qed.

Lemma elem_of_order_by {R} (key : R -> Z) y l : y ∈ order_by key l <-> y ∈ l.
Proof.
  induction l as [|a l IH]; simpl; [done|].
  rewrite elem_of_insert_by, elem_of_cons, IH; tauto.
Qed.

(** ** Nothing is deleted *)

Lemma fold_left_preserves_in {A B} (P : A -> Prop) (f : A -> B -> A) l a :
  (forall a b, b ∈ l -> P a -> P (f a b)) -> P a -> P (fold_left f l a).
Proof.
  revert a; induction l as [|b l IH]; simpl; intros a Hf Ha; [done|].
  apply IH.
  - intros a' b' Hb'. apply Hf. by apply elem_of_cons; right.
  - apply Hf; [by apply elem_of_cons; left | done].
Qed.

Lemma frame_refl keys l : local_ok l -> frame keys l l.
Proof. intros H; split; [done|]. repeat split; auto using untouched_refl;
  exists []; by rewrite app_nil_r. Qed.

Lemma second_of_pair {A B} (p : A * B) a b : p = (a, b) -> b = p.2.
Proof. by intros ->. Qed.

Section DownloadFrame.
Variable env : DownloadEnv.
Variable keys : Tier -> list string.
Variable l0 : Local.t.

Lemma download_ward_frame st ward :
  SupabaseWard.code ward ∈ keys TWard ->
  frame keys l0 (dn_local st) -> frame keys l0 (dn_local (download_ward env st ward)).
Proof.
  intros Hk Hf. unfold download_ward.
  destruct (store_throws env TWard (SupabaseWard.id ward)); [exact Hf|].
  destruct (put _ _ _) as [localId table] eqn:E. apply second_of_pair in E as ->.
  destruct Hf as ((Hw & Hv & Hh & Hc) & Uw & Uv & Uh & Uc). simpl.
  refine (conj (conj _ (conj _ (conj _ _))) (conj _ (conj _ (conj _ _))));
    try assumption.
  - by apply put_ok.
  - by apply untouched_put.
Qed.

Lemma download_village_frame st village :
  SupabaseVillage.code village ∈ keys TVillage ->
  frame keys l0 (dn_local st) ->
  frame keys l0 (dn_local (download_village env st village)).
Proof.
  intros Hk Hf. unfold download_village.
  destruct (wardUuidToLocalId st !! SupabaseVillage.ward_id village) as [p|];
    [|exact Hf].
  destruct (truthy_number p); [|exact Hf].
  destruct (store_throws env TVillage (SupabaseVillage.id village));
    [exact Hf|].
  destruct (put _ _ _) as [localId table] eqn:E. apply second_of_pair in E as ->.
  destruct Hf as ((Hw & Hv & Hh & Hc) & Uw & Uv & Uh & Uc). simpl.
  refine (conj (conj _ (conj _ (conj _ _))) (conj _ (conj _ (conj _ _))));
    try assumption.
  - by apply put_ok.
  - by apply untouched_put.
Qed.

Lemma download_household_frame st household :
  SupabaseHousehold.code household ∈ keys THousehold ->
  frame keys l0 (dn_local st) ->
  frame keys l0 (dn_local (download_household env st household)).
Proof.
  intros Hk Hf. unfold download_household.
  destruct (villageUuidToLocalId st !! SupabaseHousehold.village_id household)
    as [p|]; [|exact Hf].
  destruct (truthy_number p); [|exact Hf].
  destruct (store_throws env THousehold (SupabaseHousehold.id household));
    [exact Hf|].
  destruct (put _ _ _) as [localId table] eqn:E. apply second_of_pair in E as ->.
  destruct Hf as ((Hw & Hv & Hh & Hc) & Uw & Uv & Uh & Uc). simpl.
  refine (conj (conj _ (conj _ (conj _ _))) (conj _ (conj _ (conj _ _))));
    try assumption.
  - by apply put_ok.
  - by apply untouched_put.
Qed.

Lemma attachments_keep_id pd fd (fields : nat -> Citizen.t) :
  (forall i, primary_key (fields i) = i) ->
  forall i, primary_key (set_fingerprintData fd (set_photoData pd (fields i))) = i.
Proof.
  intros Hf i. unfold set_fingerprintData, set_photoData.
  destruct (truthy_opt_string fd), (truthy_opt_string pd); simpl; apply Hf.
Qed.

Lemma download_citizen_frame objects st citizen :
  SupabaseCitizen.unique_id citizen ∈ keys TCitizen ->
  frame keys l0 (dn_local st) ->
  frame keys l0 (dn_local (download_citizen env objects st citizen)).
Proof.
  intros Hk Hf. unfold download_citizen.
  destruct (householdUuidToLocalId st !! SupabaseCitizen.household_id citizen)
    as [h|]; [|exact Hf].
  destruct (villageUuidToLocalId st !! SupabaseCitizen.village_id citizen)
    as [v|]; [|exact Hf].
  destruct (wardUuidToLocalId st !! SupabaseCitizen.ward_id citizen)
    as [w|]; [|exact Hf].
  destruct (truthy_number h && truthy_number v && truthy_number w);
    [|exact Hf].
  unfold download_citizen_with_parents.
  destruct (store_throws env TCitizen (SupabaseCitizen.id citizen));
    [exact Hf|].
  destruct (put _ _ _) as [localId table] eqn:E. apply second_of_pair in E as ->.
  destruct Hf as ((Hw & Hv & Hh & Hc) & Uw & Uv & Uh & Uc). simpl.
  refine (conj (conj _ (conj _ (conj _ _))) (conj _ (conj _ (conj _ _))));
    try assumption.
  - apply put_ok; [by apply attachments_keep_id | done].
  - apply untouched_put; [by apply attachments_keep_id | done..].
Qed.

Lemma download_tier_frame {R} tier label (created_at : R -> Z) (code : R -> string)
    step table st :
  (forall st x, code x ∈ keys tier -> frame keys l0 (dn_local st) ->
                frame keys l0 (dn_local (step st x))) ->
  (fetch_error env tier = None -> forall x, x ∈ table -> code x ∈ keys tier) ->
  frame keys l0 (dn_local st) ->
  frame keys l0 (dn_local (download_tier env tier label created_at step table st)).
Proof.
  intros Hstep Hkeys Hst. unfold download_tier.
  destruct (fetch_error env tier); [done|].
  apply (fold_left_preserves_in (fun st => frame keys l0 (dn_local st))); [|done].
  intros a b Hb%elem_of_order_by. apply Hstep. by apply Hkeys.
Qed.

End DownloadFrame.

Lemma download_all_frame env local remote :
  local_ok local ->
  frame (fetched_keys env remote) local (dn_local (download_all env local remote)).
Proof.
  intros Hok. unfold download_all.
  apply (download_tier_frame _ _ _ _ _ _ SupabaseCitizen.unique_id);
    [apply download_citizen_frame
    |intros E x Hx; unfold fetched_keys; rewrite E; by apply list_elem_of_fmap_2|].
  apply (download_tier_frame _ _ _ _ _ _ SupabaseHousehold.code);
    [apply download_household_frame
    |intros E x Hx; unfold fetched_keys; rewrite E; by apply list_elem_of_fmap_2|].
  apply (download_tier_frame _ _ _ _ _ _ SupabaseVillage.code);
    [apply download_village_frame
    |intros E x Hx; unfold fetched_keys; rewrite E; by apply list_elem_of_fmap_2|].
  apply (download_tier_frame _ _ _ _ _ _ SupabaseWard.code);
    [apply download_ward_frame
    |intros E x Hx; unfold fetched_keys; rewrite E; by apply list_elem_of_fmap_2|].
  by apply frame_refl.
Qed.

Lemma grown_refl r : grown r r.
Proof. unfold grown; split_and!; try lia. by exists []. Qed.

Lemma grown_trans r1 r2 r3 : grown r1 r2 -> grown r2 r3 -> grown r1 r3.
Proof.
  intros (? & ? & ? & ? & [a Ha]) (? & ? & ? & ? & [b Hb]).
  unfold grown; split_and!; try lia.
  exists (b ++ a). by rewrite Hb, Ha, app_assoc.
Qed.

Lemma write_row_length {R} reply (id : R -> string) patch existing row table :
  length table <= length (write_row reply id patch existing row table).
Proof.
  unfold write_row, update_eq_id, insert_row.
  destruct reply; [destruct existing|..]; rewrite ?length_map, ?length_app; simpl; lia.
Qed.

Lemma upload_attachment_objects upload transferred now data citizenId objects :
  upload = uploadPhotoToStorage \/ upload = uploadFingerprintToStorage ->
  exists added,
    (upload_attachment upload transferred now data citizenId objects).2
    = added ++ objects.
Proof.
  intros Hu. unfold upload_attachment.
  destruct data as [d|]; [|by exists []].
  destruct (truthy_string d); [|by exists []].
  destruct Hu as [-> | ->]; unfold uploadPhotoToStorage,
    uploadFingerprintToStorage, uploadToStorage;
    (destruct transferred; [eexists [_]|exists []]; reflexivity).
Qed.

Section UploadGrows.
Variable env : UploadEnv.
#[local] Arguments write_row : simpl never.

Lemma upload_ward_grows st ward :
  grown (up_remote st) (up_remote (upload_ward env st ward)).
Proof.
  unfold upload_ward.
  destruct (write_reply env TWard (Ward.id ward)); simpl;
    try apply grown_refl;
    (unfold grown; simpl; split_and!;
     first [lia | apply write_row_length | by exists []]).
Qed.

Lemma upload_village_grows st village :
  grown (up_remote st) (up_remote (upload_village env st village)).
Proof.
  unfold upload_village.
  destruct (wardIdMap st !! Village.wardId village) as [u|]; [|apply grown_refl].
  destruct (truthy_string u); [|apply grown_refl].
  destruct (write_reply env TVillage (Village.id village)); simpl;
    try apply grown_refl;
    (unfold grown; simpl; split_and!;
     first [lia | apply write_row_length | by exists []]).
Qed.

Lemma upload_household_grows st household :
  grown (up_remote st) (up_remote (upload_household env st household)).
Proof.
  unfold upload_household.
  destruct (villageIdMap st !! Household.villageId household) as [u|];
    [|apply grown_refl].
  destruct (truthy_string u); [|apply grown_refl].
  destruct (write_reply env THousehold (Household.id household)); simpl;
    try apply grown_refl;
    (unfold grown; simpl; split_and!;
     first [lia | apply write_row_length | by exists []]).
Qed.

Lemma upload_citizen_grows st citizen :
  grown (up_remote st) (up_remote (upload_citizen env st citizen)).
Proof.
  unfold upload_citizen.
  destruct (householdIdMap st !! Citizen.householdId citizen) as [h|];
    [|apply grown_refl].
  destruct (villageIdMap st !! Citizen.villageId citizen) as [v|];
    [|destruct h; apply grown_refl].
  destruct (wardIdMap st !! Citizen.wardId citizen) as [w|]; [|apply grown_refl].
  destruct (truthy_string h && truthy_string v && truthy_string w);
    [|apply grown_refl].
  unfold upload_citizen_with_parents.
  destruct (getDeviceId _ _) as [d s'].
  destruct (upload_attachment uploadPhotoToStorage _ _ _ _ _) as [pu o1] eqn:E1.
  destruct (upload_attachment uploadFingerprintToStorage _ _ _ _ _)
    as [fu o2] eqn:E2.
  apply second_of_pair in E1, E2.
  assert (Ho : exists added, o2 = added ++ Remote.objects (up_remote st)).
  { destruct (upload_attachment_objects uploadPhotoToStorage
                (photo_transferred env (Citizen.id citizen))
                (photo_stamp env (Citizen.id citizen))
                (Citizen.photoData citizen) (Citizen.uniqueId citizen)
                (Remote.objects (up_remote st))) as [a Ha]; [auto|].
    destruct (upload_attachment_objects uploadFingerprintToStorage
                (fingerprint_transferred env (Citizen.id citizen))
                (fingerprint_stamp env (Citizen.id citizen))
                (Citizen.fingerprintData citizen) (Citizen.uniqueId citizen)
                o1) as [b Hb]; [auto|].
    exists (b ++ a). rewrite E2, Hb, E1, Ha. by rewrite app_assoc. }
  destruct (write_reply env TCitizen (Citizen.id citizen));
    unfold grown; simpl; split_and!;
    first [lia | apply write_row_length | done | by exists []].
Qed.

Lemma upload_all_grows local remote :
  grown remote (up_remote (upload_all env local remote)).
Proof.
  unfold upload_all.
  repeat (apply (fold_left_preserves (fun st => grown remote (up_remote st)));
          [intros st x Hst; eapply grown_trans; [exact Hst|];
           first [apply upload_citizen_grows | apply upload_household_grows
                 | apply upload_village_grows | apply upload_ward_grows]|]).
  apply grown_refl.
Qed.

End UploadGrows.

(** C9. A download leaves every local record whose natural key is not
    among the fetched rows exactly as it was, and no primary key
    disappears from a local table: the download only adds rows or
    replaces matched ones, and does not touch the remote store.  An
    upload does not touch the local records and never shortens a remote
    table or drops a stored object. *)
Theorem sync_never_deletes :
  (forall env local remote,
      local_ok local ->
      let run := restoreFromSupabase env local remote in
      remote_after run = remote
      /\ untouched Ward.code (fetched_keys env remote TWard)
           (Local.wards local) (Local.wards (local_after run))
      /\ untouched Village.code (fetched_keys env remote TVillage)
           (Local.villages local) (Local.villages (local_after run))
      /\ untouched Household.code (fetched_keys env remote THousehold)
           (Local.households local) (Local.households (local_after run))
      /\ untouched Citizen.uniqueId (fetched_keys env remote TCitizen)
           (Local.citizens local) (Local.citizens (local_after run)))
  /\ (forall env local remote,
        let run := syncToSupabase env local remote in
        Local.wards (local_after run) = Local.wards local
        /\ Local.villages (local_after run) = Local.villages local
        /\ Local.households (local_after run) = Local.households local
        /\ Local.citizens (local_after run) = Local.citizens local
        /\ grown remote (remote_after run)).
Proof.
  split.
  - intros env local remote Hok run. subst run. unfold restoreFromSupabase.
    destruct (dl_onLine env); simpl.
    + destruct (download_all_frame env local remote Hok) as (_ & ? & ? & ? & ?).
      done.
    + repeat split; auto; exists []; by rewrite app_nil_r.
  - intros env local remote run. subst run. unfold syncToSupabase.
    destruct (onLine env); simpl.
    + repeat split; try done; apply upload_all_grows.
    + repeat split; try done; try lia. by exists [].
Qed.

Lemma sync_never_deletes_witness :
  let local := Scenario.registry (Scenario.jane None None) in
  let run := restoreFromSupabase (Scenario.restoring true None) local Remote.empty in
  untouched Ward.code [] (Local.wards local) (Local.wards (local_after run)).
Proof.
  intros local run.
  refine (proj1 (proj2 (proj1 sync_never_deletes
                          (Scenario.restoring true None) local Remote.empty _))).
  unfold local_ok, table_ok; simpl.
  split_and!; first [apply NoDup_singleton | repeat constructor].
Defined.

(** ** One tier of the upload, in general

    With every lookup answered and every write carried out, the four
    loops of the upload differ only in the rows they build.  [build w] is
    the row of the local record [w] as a function of the remote
    identifier it gets, or nothing when [w] is skipped for want of a
    parent. *)

Section Upsert.
Context {L R : Type}.
Variables (lid : L -> nat) (lcode : L -> string).
Variables (rid rcode : R -> string) (patch : L -> R -> R -> R).

Abbreviation upsert := (upsert lid lcode rid rcode patch).

Abbreviation remote_table_ok := (remote_table_ok rid rcode).

Lemma filter_none (p : R -> bool) (T : list R) :
  (forall r, r ∈ T -> p r = false) -> List.filter p T = [].
Proof.
  induction T as [|a T IH]; simpl; [done|]. intros H.
  rewrite (H a) by (apply elem_of_cons; auto).
  apply IH. intros r Hr. apply H, elem_of_cons; auto.
Qed.

Lemma single_absent c (T : list R) :
  c ∉ rcode <$> T -> single (fun r => String.eqb (rcode r) c) T = None.
Proof.
  intros Hc. unfold single. rewrite filter_none; [done|].
  intros r Hr. apply String.eqb_neq. intros <-.
  apply Hc. by apply list_elem_of_fmap_2.
Qed.

Lemma single_present r (T : list R) :
  NoDup (rcode <$> T) -> r ∈ T ->
  single (fun x => String.eqb (rcode x) (rcode r)) T = Some r.
Proof.
  intros Hnd Hr. unfold single.
  enough (List.filter (fun x => String.eqb (rcode x) (rcode r)) T = [r]) as -> by done.
  induction T as [|a T IH]; [by apply elem_of_nil in Hr|].
  apply NoDup_cons in Hnd as [Ha Hnd]. simpl.
  apply elem_of_cons in Hr as [<- |Hr].
  - rewrite String.eqb_refl. f_equal. apply filter_none.
    intros x Hx. apply String.eqb_neq. intros E. apply Ha. rewrite <- E.
    by apply list_elem_of_fmap_2.
  - destruct (String.eqb_spec (rcode a) (rcode r)) as [E|]; [|by apply IH].
    exfalso. apply Ha. rewrite E. by apply list_elem_of_fmap_2.
Qed.

Lemma select_id_absent c (T : list R) :
  c ∉ rcode <$> T -> select_id true rcode rid c T = None.
Proof. intros Hc. unfold select_id. by rewrite single_absent. Qed.

Lemma select_id_present r (T : list R) :
  NoDup (rcode <$> T) -> r ∈ T ->
  select_id true rcode rid (rcode r) T = Some (rid r).
Proof. intros Hnd Hr. unfold select_id. by rewrite single_present. Qed.

Lemma update_eq_id_fmap (f : R -> string) (g : R -> R) u (T : list R) :
  (forall r, f (g r) = f r) ->
  f <$> update_eq_id rid g u T = f <$> T.
Proof.
  intros Hg. unfold update_eq_id.
  induction T as [|a T IH]; simpl; [done|].
  f_equal; [|exact IH]. destruct (String.eqb (rid a) u); auto.
Qed.

Lemma elem_of_update_eq_id (g : R -> R) u (T : list R) r :
  r ∈ T -> rid r <> u -> r ∈ update_eq_id rid g u T.
Proof.
  intros Hr Hu. unfold update_eq_id.
  apply (list_elem_of_fmap (fun r => if String.eqb (rid r) u then g r else r)).
  exists r. split; [|done].
  destruct (String.eqb_spec (rid r) u); done.
Qed.

Lemma elem_of_update_eq_id_hit (g : R -> R) (T : list R) r :
  r ∈ T -> g r ∈ update_eq_id rid g (rid r) T.
Proof.
  intros Hr. unfold update_eq_id.
  apply (list_elem_of_fmap (fun x => if String.eqb (rid x) (rid r) then g x else x)).
  exists r. split; [|done]. by rewrite String.eqb_refl.
Qed.

Lemma elem_of_update_eq_id_inv (g : R -> R) u (T : list R) x :
  x ∈ update_eq_id rid g u T ->
  (x ∈ T /\ rid x <> u) \/ exists r, r ∈ T /\ rid r = u /\ x = g r.
Proof.
  unfold update_eq_id.
  intros [r [-> Hr]]%(list_elem_of_fmap
    (fun r => if String.eqb (rid r) u then g r else r)).
  destruct (String.eqb_spec (rid r) u); eauto.
Qed.

Lemma same_id_same_row (T : list R) x y :
  NoDup (rid <$> T) -> x ∈ T -> y ∈ T -> rid x = rid y -> x = y.
Proof.
  induction T as [|a T IH]; simpl; [by intros _ ?%elem_of_nil|].
  intros [Hnotin Hnd]%NoDup_cons [-> |Hx]%elem_of_cons [-> |Hy]%elem_of_cons E.
  - done.
  - exfalso; apply Hnotin. rewrite E. by apply list_elem_of_fmap_2.
  - exfalso; apply Hnotin. rewrite <- E. by apply list_elem_of_fmap_2.
  - auto.
Qed.

End Upsert.

Lemma not_elem_of_fmap_app_l {A B} (f : A -> B) (l1 l2 : list A) x y :
  NoDup (f <$> l1 ++ x :: l2) -> y ∈ l1 -> f y <> f x.
Proof.
  rewrite fmap_app, fmap_cons. intros Hnd Hy E.
  apply NoDup_app in Hnd as (_ & Hdisj & _).
  apply (Hdisj (f y)); [by apply list_elem_of_fmap_2|].
  rewrite E. apply elem_of_cons; auto.
Qed.

Lemma fmap_ext_all {A B} (f g : A -> B) (l : list A) :
  (forall x, f x = g x) -> f <$> l = g <$> l.
Proof. intros H. apply list_fmap_ext. intros i x _. apply H. Qed.

(** Two uploads of the same records, one after the other.  The rows the
    two runs build may differ, but not in their [data]. *)
Section TwoRuns.
Context {L R : Type}.
Variables (lid : L -> nat) (lcode : L -> string).
Variables (rid rcode : R -> string).
Variables patch1 patch2 : L -> R -> R -> R.
Variables build1 build2 : L -> option (string -> R).
Variables random1 random2 : L -> string.
Variable data : R -> R.
Variable merge : R -> R -> R.

Hypothesis data_id : forall r, rid (data r) = rid r.
Hypothesis data_code : forall r, rcode (data r) = rcode r.
Hypothesis merge_id : forall a b, rid (merge a b) = rid a.
Hypothesis merge_code : forall a b, rcode (merge a b) = rcode a.
Hypothesis merge_assoc : forall a b c, merge a (merge b c) = merge (merge a b) c.
Hypothesis merge_same : forall a, merge (data a) (data a) = data a.
Hypothesis merge_again : forall a b, merge a (merge b a) = merge a b.
Hypothesis patch1_data :
  forall w n o, data (patch1 w n o) = merge (data n) (data o).
Hypothesis patch2_data :
  forall w n o, data (patch2 w n o) = merge (data n) (data o).
Hypothesis same_skip : forall w, is_Some (build1 w) <-> is_Some (build2 w).
Hypothesis build1_keys :
  forall w f u, build1 w = Some f -> rid (f u) = u /\ rcode (f u) = lcode w.
Hypothesis build2_keys :
  forall w f u, build2 w = Some f -> rid (f u) = u /\ rcode (f u) = lcode w.
Hypothesis same_data :
  forall w f1 f2 u, build1 w = Some f1 -> build2 w = Some f2 ->
    data (f1 u) = data (f2 u).

Variable T0 : list R.

#[local] Arguments select_id : simpl never.
#[local] Arguments write_row : simpl never.
#[local] Arguments or_random : simpl never.

Abbreviation ok := (remote_table_ok rid rcode).
Abbreviation run1 := (upsert lid lcode rid rcode patch1 build1 random1).
Abbreviation run2 := (upsert lid lcode rid rcode patch2 build2 random2).
Abbreviation rewritten := (rewritten lcode rid rcode build1 data merge).
Abbreviation rewritten_by := (rewritten_by lcode rid rcode build1 data merge).
Abbreviation after_first :=
  (after_first lid lcode rid rcode T0 build1 data merge random1).
Abbreviation after_second :=
  (after_second lid lcode rid rcode build1 data merge).

Lemma patch1_keys w n o :
  rid (patch1 w n o) = rid n /\ rcode (patch1 w n o) = rcode n.
Proof.
  rewrite <- (data_id (patch1 w n o)), <- (data_code (patch1 w n o)), patch1_data.
  by rewrite merge_id, merge_code, data_id, data_code.
Qed.

Lemma patch2_keys w n o :
  rid (patch2 w n o) = rid n /\ rcode (patch2 w n o) = rcode n.
Proof.
  rewrite <- (data_id (patch2 w n o)), <- (data_code (patch2 w n o)), patch2_data.
  by rewrite merge_id, merge_code, data_id, data_code.
Qed.

(** *** Writing the records again, row by row *)

Lemma rewritten_by_app p q x :
  rewritten_by (p ++ q) x = rewritten_by q (rewritten_by p x).
Proof. unfold SyncTerms.rewritten_by. by rewrite fold_left_app. Qed.

Lemma rewritten_skip w x : build1 w = None -> rewritten w x = x.
Proof. intros E. unfold SyncTerms.rewritten. by rewrite E. Qed.

Lemma rewritten_other w x : rcode x <> lcode w -> rewritten w x = x.
Proof.
  intros Hne. unfold SyncTerms.rewritten. destruct (build1 w); [|done].
  by destruct (String.eqb_spec (rcode x) (lcode w)).
Qed.

Lemma rewritten_hit w f x :
  build1 w = Some f -> rcode x = lcode w ->
  rewritten w x = merge (data (f (rid x))) x.
Proof.
  intros E Hc. unfold SyncTerms.rewritten. rewrite E, Hc.
  by rewrite String.eqb_refl.
Qed.

Lemma rewritten_keys w x :
  rid (rewritten w x) = rid x /\ rcode (rewritten w x) = rcode x.
Proof.
  unfold SyncTerms.rewritten. destruct (build1 w) as [f|] eqn:E; [|done].
  destruct (String.eqb_spec (rcode x) (lcode w)) as [Hc|]; [|done].
  rewrite merge_id, merge_code, data_id, data_code.
  destruct (build1_keys w f (rid x) E) as [-> ->]. done.
Qed.

Lemma rewritten_by_keys p : forall x,
  rid (rewritten_by p x) = rid x /\ rcode (rewritten_by p x) = rcode x.
Proof.
  induction p as [|w p IH]; intros x; [done|].
  change (rewritten_by (w :: p) x) with (rewritten_by p (rewritten w x)).
  destruct (IH (rewritten w x)) as [-> ->]. apply rewritten_keys.
Qed.

Lemma rewritten_by_untouched p x :
  (forall w, w ∈ p -> is_Some (build1 w) -> lcode w <> rcode x) ->
  rewritten_by p x = x.
Proof.
  revert x. induction p as [|w p IH]; intros x Hp; [done|].
  change (rewritten_by (w :: p) x) with (rewritten_by p (rewritten w x)).
  assert (E : rewritten w x = x).
  { destruct (build1 w) as [f|] eqn:Eb; [|by apply rewritten_skip].
    apply rewritten_other. intros Hc. apply (Hp w); [apply elem_of_cons; auto| |done].
    rewrite Eb. by eexists. }
  rewrite E. apply IH. intros w' Hw'. apply Hp. apply elem_of_cons; auto.
Qed.

(** On the rows of one key, writing [p] again does nothing or merges one
    fixed row into them. *)
Lemma rewritten_by_acts p u c :
  (forall y, rid y = u -> rcode y = c -> rewritten_by p y = y)
  \/ (exists m, rid m = u /\ rcode m = c
        /\ forall y, rid y = u -> rcode y = c -> rewritten_by p y = merge m y).
Proof.
  induction p as [|w p IH]; [by left|].
  assert (Hstep : (forall y, rid y = u -> rcode y = c -> rewritten w y = y)
            \/ (exists a, rid a = u /\ rcode a = c
                  /\ forall y, rid y = u -> rcode y = c ->
                       rewritten w y = merge a y)).
  { destruct (build1 w) as [f|] eqn:Eb;
      [|left; intros; by apply rewritten_skip].
    destruct (decide (c = lcode w)) as [-> |Hne].
    - right. exists (data (f u)). rewrite data_id, data_code.
      destruct (build1_keys w f u Eb) as [-> ->]. split; [done|]. split; [done|].
      intros y <- Hc. by apply rewritten_hit.
    - left. intros y _ Hc. apply rewritten_other. congruence. }
  destruct Hstep as [Hid|(a & Ha1 & Ha2 & Ha)], IH as [IH|(m & Hm1 & Hm2 & Hm)].
  - left. intros y Hu Hc.
    change (rewritten_by (w :: p) y) with (rewritten_by p (rewritten w y)).
    rewrite Hid by done. by apply IH.
  - right. exists m. split; [done|]. split; [done|]. intros y Hu Hc.
    change (rewritten_by (w :: p) y) with (rewritten_by p (rewritten w y)).
    rewrite Hid by done. by apply Hm.
  - right. exists a. split; [done|]. split; [done|]. intros y Hu Hc.
    change (rewritten_by (w :: p) y) with (rewritten_by p (rewritten w y)).
    rewrite Ha by done. apply IH; by rewrite ?merge_id, ?merge_code.
  - right. exists (merge m a). rewrite merge_id, merge_code.
    split; [done|]. split; [done|]. intros y Hu Hc.
    change (rewritten_by (w :: p) y) with (rewritten_by p (rewritten w y)).
    rewrite Ha by done. rewrite Hm by (by rewrite ?merge_id, ?merge_code).
    apply merge_assoc.
Qed.

(** A row that writing [p] again leaves alone is, once [w] has updated
    it, left alone by writing [p] and then [w] again. *)
Lemma updated_row_settled p w f x :
  build1 w = Some f -> rcode x = lcode w ->
  rewritten_by p (data x) = data x ->
  let y := merge (data (f (rid x))) (data x) in
  rewritten_by (p ++ [w]) y = y.
Proof.
  intros Eb Hc Hx y. subst y. set (a := data (f (rid x))). set (s := data x) in *.
  destruct (build1_keys w f (rid x) Eb) as [Ka Kc].
  assert (Has : rid (merge a s) = rid x /\ rcode (merge a s) = lcode w).
  { rewrite merge_id, merge_code. unfold a. by rewrite data_id, data_code. }
  destruct Has as [Hu Hcode].
  assert (Haa : merge a a = a) by apply merge_same.
  rewrite rewritten_by_app.
  change (rewritten_by [w] ?z) with (rewritten w z).
  destruct (rewritten_by_acts p (rid x) (lcode w)) as [Hid|(m & Hm1 & Hm2 & Hm)].
  - rewrite Hid by done. rewrite (rewritten_hit w f) by done.
    rewrite Hu. fold a. by rewrite merge_assoc, Haa.
  - rewrite Hm by done.
    rewrite (rewritten_hit w f) by (by rewrite ?merge_code).
    rewrite merge_id, Hm1. fold a.
    assert (Hs : merge m s = s).
    { rewrite <- Hm; [done|unfold s; by rewrite data_id
                     |unfold s; by rewrite data_code]. }
    rewrite (merge_assoc m a s), (merge_assoc a (merge m a) s), merge_again.
    by rewrite <- merge_assoc, Hs.
Qed.

Lemma same_code_same_row (T : list R) x y :
  NoDup (rcode <$> T) -> x ∈ T -> y ∈ T -> rcode x = rcode y -> x = y.
Proof.
  induction T as [|a T IH]; simpl; [by intros _ ?%elem_of_nil|].
  intros [Hnotin Hnd]%NoDup_cons [-> |Hx]%elem_of_cons [-> |Hy]%elem_of_cons E.
  - done.
  - exfalso; apply Hnotin. rewrite E. by apply list_elem_of_fmap_2.
  - exfalso; apply Hnotin. rewrite <- E. by apply list_elem_of_fmap_2.
  - auto.
Qed.

Lemma update_keeps_keys (f : R -> string) (g : R -> R) u (T : list R) :
  (forall r, r ∈ T -> rid r = u -> f (g r) = f r) ->
  f <$> update_eq_id rid g u T = f <$> T.
Proof.
  intros Hg. unfold update_eq_id.
  induction T as [|a T IH]; simpl; [done|].
  f_equal.
  - destruct (String.eqb_spec (rid a) u); [|done].
    apply Hg; [apply elem_of_cons; auto | done].
  - apply IH. intros r Hr. apply Hg. apply elem_of_cons; auto.
Qed.

(** An update in place keeps a row under every key that had one. *)
Lemma update_keeps_rows (g : R -> R) u (T : list R) x :
  (forall r, r ∈ T -> rid r = u -> rid (g r) = rid r /\ rcode (g r) = rcode r) ->
  x ∈ T ->
  exists x', x' ∈ update_eq_id rid g u T /\ rid x' = rid x /\ rcode x' = rcode x.
Proof.
  intros Hg Hx. destruct (decide (rid x = u)) as [E|E].
  - exists (g x). destruct (Hg x Hx E) as [-> ->]. split; [|done].
    rewrite <- E. by apply elem_of_update_eq_id_hit.
  - exists x. split; [by apply elem_of_update_eq_id|done].
Qed.

(** *** The first run *)

Lemma after_first_step done s w :
  after_first done s ->
  lid w ∉ lid <$> done ->
  truthy_string (random1 w) = true -> random1 w ∉ rid <$> T0 ->
  (forall w', w' ∈ done -> random1 w' <> random1 w) ->
  after_first (done ++ [w]) (run1 s w).
Proof.
  destruct s as [T M].
  intros ((Hcodes & Hids & Htruthy) & Hfix & Hset & Hdom & Hfrom).
  simpl in *. intros Hid Hrt Hr0 Hrd. unfold upsert.
  destruct (build1 w) as [f|] eqn:Eb; cbn [fst snd].
  2: { (* skipped *)
    split; [by split_and!|]. split; [|split; [|split]]; simpl.
    - intros x Hx. rewrite rewritten_by_app, Hfix by done.
      by apply rewritten_skip.
    - intros w' [Hw'| ->%list_elem_of_singleton]%elem_of_app Hb; [by apply Hset|].
      rewrite Eb in Hb. by destruct Hb.
    - intros k Hk. destruct (Hdom k Hk) as (w' & ? & ? & ?).
      exists w'. split; [apply elem_of_app; auto | done].
    - intros u Hu. destruct (Hfrom u Hu) as [?|(w' & ? & ?)]; [by left|].
      right. exists w'. split; [apply elem_of_app; auto | done]. }
  assert (Hmap : forall w' u, w' ∈ done -> <[lid w := u]> M !! lid w' = M !! lid w').
  { intros w' u Hw'. apply lookup_insert_ne. intros E. apply Hid.
    rewrite E. by apply list_elem_of_fmap_2. }
  assert (Hdom' : forall u k, is_Some (<[lid w := u]> M !! k) ->
            exists w', w' ∈ done ++ [w] /\ lid w' = k /\ is_Some (build1 w')).
  { intros u k Hk. destruct (decide (k = lid w)) as [-> |Hne].
    - exists w. split; [apply elem_of_app; right; by apply list_elem_of_singleton|].
      split; [done|]. rewrite Eb. by eexists.
    - rewrite lookup_insert_ne in Hk by done.
      destruct (Hdom k Hk) as (w' & ? & ? & ?).
      exists w'. split; [apply elem_of_app; auto | done]. }
  destruct (decide (lcode w ∈ rcode <$> T)) as [Hin|Hout].
  - (* the row exists: update in place *)
    apply list_elem_of_fmap in Hin as (r & Hrc & Hr).
    rewrite Hrc, (select_id_present rid rcode r T Hcodes Hr) in *.
    assert (Hu : truthy_string (rid r) = true).
    { rewrite Forall_forall in Htruthy. by apply Htruthy. }
    unfold or_random, write_row. rewrite Hu.
    destruct (build1_keys w f (rid r) Eb) as [Kid Kcode].
    assert (Hsame : forall x, x ∈ T -> rid x = rid r -> x = r).
    { intros x Hx E. by apply (same_id_same_row rid T). }
    assert (Hkeys : forall x, rid (patch1 w (f (rid r)) x) = rid r
                              /\ rcode (patch1 w (f (rid r)) x) = lcode w).
    { intros x. destruct (patch1_keys w (f (rid r)) x) as [-> ->]. done. }
    split; [|split; [|split; [|split]]]; simpl.
    + split; [|split].
      * rewrite update_keeps_keys; [done|]. intros x Hx E.
        rewrite (Hsame x Hx E). by rewrite (proj2 (Hkeys r)).
      * rewrite update_keeps_keys; [done|]. intros x Hx E.
        rewrite (Hsame x Hx E). by rewrite (proj1 (Hkeys r)).
      * rewrite Forall_forall in Htruthy |- *. intros x Hx.
        apply elem_of_update_eq_id_inv in Hx as [[Hx _]|(y & Hy & Ey & ->)];
          [by apply Htruthy|]. by rewrite (proj1 (Hkeys y)).
    + intros x Hx.
      apply elem_of_update_eq_id_inv in Hx as [[Hx Hne]|(y & Hy & Ey & ->)].
      * rewrite rewritten_by_app, Hfix by done.
        apply rewritten_other. rewrite data_code. intros Hc. apply Hne.
        f_equal. apply (same_code_same_row T); try done. congruence.
      * rewrite (Hsame y Hy Ey). rewrite patch1_data.
        exact (updated_row_settled done w f r Eb (eq_sym Hrc) (Hfix r Hr)).
    + intros w' [Hw'| ->%list_elem_of_singleton]%elem_of_app Hb.
      * destruct (Hset w' Hw' Hb) as (row & Hrow & Hrcode & HM). simpl in *.
        destruct (update_keeps_rows (patch1 w (f (rid r))) (rid r) T row)
          as (row' & Hrow' & Eid & Ecode); [|done|].
        { intros x Hx E. rewrite (Hsame x Hx E).
          destruct (Hkeys r) as [-> ->]. done. }
        exists row'. split; [done|]. split; [congruence|].
        rewrite Hmap by done. by rewrite Eid.
      * exists (patch1 w (f (rid r)) r).
        split; [by apply elem_of_update_eq_id_hit|].
        split; [apply Hkeys|].
        by rewrite lookup_insert_eq, Kid, (proj1 (Hkeys r)).
    + apply Hdom'.
    + intros u' Hu'. rewrite update_keeps_keys in Hu'.
      * destruct (Hfrom u' Hu') as [?|(w' & ? & ?)]; [by left|].
        right. exists w'. split; [apply elem_of_app; auto | done].
      * intros x Hx E. rewrite (Hsame x Hx E). apply Hkeys.
  - (* no row yet: insert under a fresh identifier *)
    rewrite (select_id_absent rid rcode _ T Hout) in *.
    unfold or_random, write_row in *.
    destruct (build1_keys w f (random1 w) Eb) as [Kid Kcode].
    assert (Hfresh : random1 w ∉ rid <$> T).
    { intros Hu. destruct (Hfrom _ Hu) as [?|(w' & Hw' & E)]; [done|].
      by apply (Hrd w' Hw'). }
    unfold insert_row.
    split; [|split; [|split; [|split]]]; simpl.
    + split; [|split].
      * rewrite fmap_app. apply NoDup_app. split; [done|].
        split; [|apply NoDup_singleton]. simpl.
        intros c Hc ->%list_elem_of_singleton. rewrite Kcode in Hc. done.
      * rewrite fmap_app. apply NoDup_app. split; [done|].
        split; [|apply NoDup_singleton]. simpl.
        intros c Hc ->%list_elem_of_singleton. rewrite Kid in Hc. done.
      * apply Forall_app. split; [done|]. apply Forall_singleton. by rewrite Kid.
    + intros x [Hx| ->%list_elem_of_singleton]%elem_of_app.
      * rewrite rewritten_by_app, Hfix by done.
        apply rewritten_other. rewrite data_code. intros Hc. apply Hout.
        rewrite <- Hc. by apply list_elem_of_fmap_2.
      * rewrite rewritten_by_app, (rewritten_by_untouched done).
        -- change (rewritten_by [w] ?z) with (rewritten w z).
           rewrite (rewritten_hit w f) by (by rewrite ?data_code).
           rewrite data_id, Kid. apply merge_same.
        -- intros w' Hw' Hb Hc. rewrite data_code, Kcode in Hc.
           destruct (Hset w' Hw' Hb) as (row & Hrow & Hrcode & _). simpl in *.
           apply Hout. rewrite <- Hc, <- Hrcode. by apply list_elem_of_fmap_2.
    + intros w' [Hw'| ->%list_elem_of_singleton]%elem_of_app Hb.
      * destruct (Hset w' Hw' Hb) as (row & Hrow & Hrcode & HM). simpl in *.
        exists row. split; [apply elem_of_app; auto|]. split; [done|].
        by rewrite Hmap.
      * exists (f (random1 w)).
        split; [apply elem_of_app; right; by apply list_elem_of_singleton|].
        split; [done|]. by rewrite lookup_insert_eq.
    + apply Hdom'.
    + intros u Hu. rewrite fmap_app in Hu.
      apply elem_of_app in Hu as [Hu|Hu].
      * destruct (Hfrom u Hu) as [?|(w' & ? & ?)]; [by left|].
        right. exists w'. split; [apply elem_of_app; auto | done].
      * simpl in Hu. apply list_elem_of_singleton in Hu. rewrite Kid in Hu.
        right. exists w. split; [|done].
        apply elem_of_app; right; by apply list_elem_of_singleton.
Qed.

Abbreviation fresh_for := (fresh_for lid rid T0).

Lemma after_first_fold todo : forall done s,
  after_first done s ->
  NoDup (lid <$> (done ++ todo)) ->
  fresh_for random1 (done ++ todo) ->
  after_first (done ++ todo) (fold_left run1 todo s).
Proof.
  induction todo as [|w todo IH]; intros done s Hs Hi Hf; simpl.
  - by rewrite app_nil_r.
  - replace (done ++ w :: todo) with ((done ++ [w]) ++ todo) in *
      by (by rewrite <- app_assoc).
    apply IH; try done.
    assert (Hw : w ∈ (done ++ [w]) ++ todo).
    { apply elem_of_app; left. apply elem_of_app; right.
      by apply list_elem_of_singleton. }
    destruct (Hf w Hw) as (Ht & H0 & Hinj).
    rewrite <- app_assoc in Hi. simpl in Hi.
    apply after_first_step; try done.
    + intros [w' [E Hw']]%list_elem_of_fmap.
      by apply (not_elem_of_fmap_app_l lid done todo w w' Hi).
    + intros w' Hw' E.
      apply (not_elem_of_fmap_app_l lid done todo w w' Hi Hw').
      symmetry. apply Hinj; [|done].
      apply elem_of_app; left. apply elem_of_app; auto.
Qed.

Lemma after_first_start : ok T0 -> after_first [] (T0, ∅).
Proof.
  intros H0. split; [done|]. split; [|split; [|split]]; simpl.
  - done.
  - by intros w ?%elem_of_nil.
  - intros k [x Hx]. by rewrite lookup_empty in Hx.
  - auto.
Qed.

(** *** The second run *)

Section Second.
Variable l : list L.
Variable s1 : list R * gmap nat string.
Hypothesis first_done : after_first l s1.
Hypothesis l_ids : NoDup (lid <$> l).

Lemma data_keys (T : list R) (g : R -> R) :
  (forall y, rid (g y) = rid y /\ rcode (g y) = rcode y) ->
  data <$> T = g <$> (data <$> s1.1) ->
  rid <$> T = rid <$> s1.1 /\ rcode <$> T = rcode <$> s1.1.
Proof.
  intros Hg E. split.
  - apply (f_equal (fmap rid)) in E. rewrite <- !list_fmap_compose in E.
    rewrite <- (fmap_ext_all (rid ∘ data) rid T),
      <- (fmap_ext_all (rid ∘ g ∘ data) rid s1.1); [done|..].
    + intros x. simpl. by rewrite (proj1 (Hg _)), data_id.
    + intros x. simpl. by rewrite data_id.
  - apply (f_equal (fmap rcode)) in E. rewrite <- !list_fmap_compose in E.
    rewrite <- (fmap_ext_all (rcode ∘ data) rcode T),
      <- (fmap_ext_all (rcode ∘ g ∘ data) rcode s1.1); [done|..].
    + intros x. simpl. by rewrite (proj2 (Hg _)), data_code.
    + intros x. simpl. by rewrite data_code.
Qed.

Lemma after_second_step done s w :
  after_second s1.1 done s -> w ∈ l -> lid w ∉ lid <$> done ->
  after_second s1.1 (done ++ [w]) (run2 s w).
Proof.
  destruct s as [T M].
  destruct first_done as ((Hcodes & Hids & Htruthy) & Hfix & Hset & Hdom & Hfrom).
  intros (Hdata & Hmap & Hdom2) Hw Hid. simpl in *. unfold upsert.
  destruct (build2 w) as [f2|] eqn:Eb2; cbn [fst snd].
  2: { assert (Eb1 : build1 w = None).
       { destruct (build1 w) eqn:E; [|done].
         assert (is_Some (build2 w)) as [? ?] by (apply same_skip; by eexists).
         congruence. }
       split; [|split]; simpl.
       - rewrite Hdata. apply fmap_ext_all.
         intros x. rewrite rewritten_by_app.
         symmetry. by apply rewritten_skip.
       - intros w' [Hw'| ->%list_elem_of_singleton]%elem_of_app Hb; [by apply Hmap|].
         rewrite Eb1 in Hb. by destruct Hb.
       - intros k Hk. destruct (Hdom2 k Hk) as (w' & ? & ? & ?).
         exists w'. split; [apply elem_of_app; auto | done]. }
  assert (is_Some (build1 w)) as [f1 Eb1] by (apply same_skip; rewrite Eb2; by eexists).
  destruct (data_keys T (rewritten_by done) (rewritten_by_keys done) Hdata)
    as [EidT EcodeT].
  assert (HcodesT : NoDup (rcode <$> T)) by (by rewrite EcodeT).
  assert (HidsT : NoDup (rid <$> T)) by (by rewrite EidT).
  assert (HtruthyT : Forall (fun r => truthy_string (rid r) = true) T).
  { apply Forall_forall. intros x Hx.
    apply (list_elem_of_fmap_2 rid) in Hx. rewrite EidT in Hx.
    apply list_elem_of_fmap in Hx as (y & -> & Hy).
    rewrite Forall_forall in Htruthy. by apply Htruthy. }
  (* the row of [w] *)
  destruct (Hset w Hw) as (row1 & Hrow1 & Hcode1 & HM1); [by eexists|].
  assert (Hin : lcode w ∈ rcode <$> T).
  { rewrite EcodeT, <- Hcode1. by apply list_elem_of_fmap_2. }
  apply list_elem_of_fmap in Hin as (r & Hrc & Hr).
  rewrite Hrc, (select_id_present rid rcode r T HcodesT Hr).
  assert (Hu : truthy_string (rid r) = true).
  { rewrite Forall_forall in HtruthyT. by apply HtruthyT. }
  unfold or_random, write_row. rewrite Hu.
  destruct (build2_keys w f2 (rid r) Eb2) as [Kid Kcode].
  assert (Hsame : forall x, x ∈ T -> rid x = rid r -> x = r).
  { intros x Hx E. by apply (same_id_same_row rid T). }
  assert (Hkeys : forall x, rid (patch2 w (f2 (rid r)) x) = rid r
                            /\ rcode (patch2 w (f2 (rid r)) x) = lcode w).
  { intros x. destruct (patch2_keys w (f2 (rid r)) x) as [-> ->]. done. }
  split; [|split]; simpl.
  - transitivity (rewritten w <$> (data <$> T)).
    + unfold update_eq_id.
      change (map ?g T) with (g <$> T). rewrite <- !list_fmap_compose.
      apply Forall_fmap_ext_1, Forall_forall. intros x Hx. simpl.
      destruct (String.eqb_spec (rid x) (rid r)) as [E|E].
      * rewrite (Hsame x Hx E). rewrite patch2_data.
        rewrite (rewritten_hit w f1) by (rewrite ?data_code; congruence).
        rewrite data_id. by rewrite (same_data w f1 f2 (rid r) Eb1 Eb2).
      * symmetry. apply rewritten_other. rewrite data_code. intros Hc. apply E.
        f_equal. apply (same_code_same_row T); try done. congruence.
    + rewrite Hdata, <- (list_fmap_compose (rewritten_by done) (rewritten w)).
      apply fmap_ext_all. intros x. simpl. by rewrite rewritten_by_app.
  - intros w' [Hw'| ->%list_elem_of_singleton]%elem_of_app Hb.
    + destruct (Hmap w' Hw' Hb) as (row & Hrow & Hrcode & HM). simpl in *.
      destruct (update_keeps_rows (patch2 w (f2 (rid r))) (rid r) T row)
        as (row' & Hrow' & Eid & Ecode); [|done|].
      { intros x Hx E. rewrite (Hsame x Hx E).
        destruct (Hkeys r) as [-> ->]. done. }
      exists row'. split; [done|]. split; [congruence|].
      rewrite lookup_insert_ne.
      * by rewrite Eid.
      * intros E. apply Hid. rewrite E. by apply list_elem_of_fmap_2.
    + exists (patch2 w (f2 (rid r)) r).
      split; [by apply elem_of_update_eq_id_hit|].
      split; [apply Hkeys|].
      by rewrite lookup_insert_eq, Kid, (proj1 (Hkeys r)).
  - intros k Hk. destruct (decide (k = lid w)) as [-> |Hne].
    + exists w. split; [apply elem_of_app; right; by apply list_elem_of_singleton|].
      split; [done|]. rewrite Eb1. by eexists.
    + rewrite lookup_insert_ne in Hk by done.
      destruct (Hdom2 k Hk) as (w' & ? & ? & ?).
      exists w'. split; [apply elem_of_app; auto | done].
Qed.

Lemma after_second_fold todo : forall done s,
  after_second s1.1 done s -> (forall w, w ∈ todo -> w ∈ l) ->
  NoDup (lid <$> (done ++ todo)) ->
  after_second s1.1 (done ++ todo) (fold_left run2 todo s).
Proof.
  induction todo as [|w todo IH]; intros done s Hs Hl Hi; simpl.
  - by rewrite app_nil_r.
  - replace (done ++ w :: todo) with ((done ++ [w]) ++ todo) in *
      by (by rewrite <- app_assoc).
    apply IH; try done.
    + apply after_second_step; [done|apply Hl, elem_of_cons; auto|].
      rewrite <- app_assoc in Hi. simpl in Hi.
      intros [w' [E Hw']]%list_elem_of_fmap.
      by apply (not_elem_of_fmap_app_l lid done todo w w' Hi).
    + intros w' Hw'. apply Hl, elem_of_cons; auto.
Qed.

(** Run again on what the first run left, the loop ends with the same
    session map and with rows that have the data of the rows it found. *)
Lemma second_run_settles M :
  let s2 := fold_left run2 l (s1.1, M) in
  data <$> s2.1 = data <$> s1.1 /\ (M = ∅ -> s2.2 = s1.2).
Proof.
  intros s2.
  assert (Htable : forall M1 M2 p T,
            (fold_left run2 p (T, M1)).1 = (fold_left run2 p (T, M2)).1).
  { intros M1 M2 p. revert M1 M2. induction p as [|w p IH]; intros M1 M2 T; [done|].
    simpl. unfold upsert at 2 4. destruct (build2 w); simpl; apply IH. }
  assert (H2 : after_second s1.1 ([] ++ l) (fold_left run2 l (s1.1, ∅))).
  { apply after_second_fold; [|done|done].
    split; [|split]; simpl.
    - rewrite <- (list_fmap_id (data <$> s1.1)) at 1. by apply fmap_ext_all.
    - by intros w ?%elem_of_nil.
    - intros k [x Hx]. by rewrite lookup_empty in Hx. }
  simpl in H2. destruct H2 as (Hdata & Hmap & Hdom2).
  destruct first_done as ((Hcodes & _) & Hfix & Hset & Hdom & _).
  split.
  - subst s2. rewrite (Htable M ∅), Hdata.
    rewrite <- (list_fmap_id (data <$> s1.1)) at 2.
    apply Forall_fmap_ext_1, Forall_forall.
    intros y [x [-> Hx]]%list_elem_of_fmap. by apply Hfix.
  - intros ->. subst s2.
    destruct (data_keys (fold_left run2 l (s1.1, ∅)).1 (rewritten_by l)
                (rewritten_by_keys l) Hdata) as [EidT EcodeT].
    assert (Hone : forall w u,
              w ∈ l -> is_Some (build1 w) ->
              (fold_left run2 l (s1.1, ∅)).2 !! lid w = Some u ->
              s1.2 !! lid w = Some u).
    { intros w u Hw Hb E.
      destruct (Hmap w Hw Hb) as (x2 & Hx2 & Hc2 & HM2).
      destruct (Hset w Hw Hb) as (x1 & Hx1 & Hc1 & HM1).
      rewrite HM1. rewrite HM2 in E. injection E as <-. f_equal.
      (* the rows of one code have one identifier *)
      apply list_elem_of_lookup in Hx2 as [i Hi].
      assert (Hi1 : exists y, s1.1 !! i = Some y /\ rid y = rid x2
                              /\ rcode y = rcode x2).
      { assert (Ei : (rid <$> s1.1) !! i = Some (rid x2))
          by (by rewrite <- EidT, list_lookup_fmap, Hi).
        assert (Ec : (rcode <$> s1.1) !! i = Some (rcode x2))
          by (by rewrite <- EcodeT, list_lookup_fmap, Hi).
        rewrite list_lookup_fmap in Ei, Ec.
        destruct (s1.1 !! i) as [y|]; [|done]. simpl in *.
        exists y. split; [done|]. split; congruence. }
      destruct Hi1 as (y & Hy & Eid & Ecode).
      apply list_elem_of_lookup_2 in Hy.
      assert (y = x1) as -> by (apply (same_code_same_row s1.1); try done; congruence).
      done. }
    apply map_eq. intros k.
    destruct ((fold_left run2 l (s1.1, ∅)).2 !! k) as [u|] eqn:E2.
    + destruct (Hdom2 k) as (w & Hw & <- & Hb); [by eexists|].
      symmetry. by apply Hone.
    + destruct (s1.2 !! k) as [u|] eqn:E1; [|done].
      destruct (Hdom k) as (w & Hw & <- & Hb); [by eexists|].
      destruct (Hmap w Hw Hb) as (x2 & _ & _ & HM2). congruence.
Qed.

End Second.

Lemma two_runs l M :
  ok T0 -> NoDup (lid <$> l) -> fresh_for random1 l ->
  let s1 := fold_left run1 l (T0, ∅) in
  let s2 := fold_left run2 l (s1.1, M) in
  ok s1.1 /\ data <$> s2.1 = data <$> s1.1 /\ (M = ∅ -> s2.2 = s1.2).
Proof.
  intros H0 Hi Hf s1 s2.
  assert (H1 : after_first l s1).
  { apply (after_first_fold l [] (T0, ∅)); try done. by apply after_first_start. }
  split; [apply H1|]. by apply second_run_settles.
Qed.

End TwoRuns.

(** ** The four loops as instances of the general loop *)

Lemma upload_attachment_url_any upload transferred now data citizenId objects :
  upload = uploadPhotoToStorage \/ upload = uploadFingerprintToStorage ->
  (upload_attachment upload transferred now data citizenId objects).1
  = (upload_attachment upload transferred now data citizenId []).1.
Proof.
  intros [-> | ->]; unfold upload_attachment; destruct data as [d|]; try done;
    destruct (truthy_string d); try done; by destruct transferred.
Qed.

Lemma getDeviceId_stable env s :
  let d := (getDeviceId (new_device_id env) s).1 in
  let s' := (getDeviceId (new_device_id env) s).2 in
  Settings.sync_device_id s' = Some d /\ truthy_string d = true.
Proof.
  unfold getDeviceId. destruct (Settings.sync_device_id s) as [d|] eqn:E.
  - destruct (truthy_string d) eqn:T; simpl; auto.
  - simpl; auto.
Qed.

Lemma getDeviceId_stored g s d :
  Settings.sync_device_id s = Some d -> truthy_string d = true ->
  getDeviceId g s = (d, s).
Proof. intros E T. unfold getDeviceId. by rewrite E, T. Qed.

Section Instances.
Variable env : UploadEnv.
Hypothesis Hans : answering env.
#[local] Arguments upsert : simpl never.

Lemma upload_ward_upsert st ward :
  upload_ward env st ward
  = let s' := upsert_wards env (Remote.wards (up_remote st), wardIdMap st) ward in
    mkUploadState
      (Remote.mk s'.1 (Remote.villages (up_remote st))
         (Remote.households (up_remote st)) (Remote.citizens (up_remote st))
         (Remote.objects (up_remote st)))
      (up_settings st) (count_uploaded TWard (up_result st))
      s'.2 (villageIdMap st) (householdIdMap st).
Proof.
  unfold upload_ward, upsert, ward_rows.
  destruct Hans as [_ H]. destruct (H TWard (Ward.id ward)) as [-> ->].
  reflexivity.
Qed.

Lemma upload_wards_fold l : forall st,
  exists res,
    fold_left (upload_ward env) l st
    = (let s' := fold_left (upsert_wards env) l
                   (Remote.wards (up_remote st), wardIdMap st) in
       mkUploadState
         (Remote.mk s'.1 (Remote.villages (up_remote st))
            (Remote.households (up_remote st)) (Remote.citizens (up_remote st))
            (Remote.objects (up_remote st)))
         (up_settings st) res s'.2 (villageIdMap st) (householdIdMap st))
    /\ errors res = errors (up_result st).
Proof.
  induction l as [|w l IH]; intros st.
  - exists (up_result st). split; [|done]. simpl. destruct st as [[] ? ? ? ? ?]; done.
  - simpl. rewrite upload_ward_upsert.
    destruct (upsert_wards env (Remote.wards (up_remote st), wardIdMap st) w)
      as [T M] eqn:E. cbn [fst snd].
    destruct (IH (mkUploadState
      (Remote.mk T (Remote.villages (up_remote st))
         (Remote.households (up_remote st)) (Remote.citizens (up_remote st))
         (Remote.objects (up_remote st)))
      (up_settings st) (count_uploaded TWard (up_result st))
      M (villageIdMap st) (householdIdMap st))) as (res & -> & Hres).
    exists res. split; done.
Qed.

Lemma upload_village_upsert st village :
  upload_village env st village
  = match village_rows (wardIdMap st) village with
    | Some _ =>
        let s' := upsert_villages env (wardIdMap st)
                    (Remote.villages (up_remote st), villageIdMap st) village in
        mkUploadState
          (Remote.mk (Remote.wards (up_remote st)) s'.1
             (Remote.households (up_remote st)) (Remote.citizens (up_remote st))
             (Remote.objects (up_remote st)))
          (up_settings st) (count_uploaded TVillage (up_result st))
          (wardIdMap st) s'.2 (householdIdMap st)
    | None =>
        up_error ("Village " ++ Village.code village ++ ": Ward not found") st
    end.
Proof.
  unfold upload_village, upsert, village_rows.
  destruct (wardIdMap st !! Village.wardId village) as [u|]; [|done].
  destruct (truthy_string u); [|done].
  destruct Hans as [_ H]. destruct (H TVillage (Village.id village)) as [-> ->].
  reflexivity.
Qed.

Lemma upsert_skip {L R} (lid : L -> nat) lcode (rid rcode : R -> string) patch
    build random s w :
  build w = None -> upsert lid lcode rid rcode patch build random s w = s.
Proof. intros E. unfold upsert. by rewrite E. Qed.

Lemma upload_villages_fold l : forall st,
  exists res,
    fold_left (upload_village env) l st
    = (let s' := fold_left (upsert_villages env (wardIdMap st)) l
                   (Remote.villages (up_remote st), villageIdMap st) in
       mkUploadState
         (Remote.mk (Remote.wards (up_remote st)) s'.1
            (Remote.households (up_remote st)) (Remote.citizens (up_remote st))
            (Remote.objects (up_remote st)))
         (up_settings st) res (wardIdMap st) s'.2 (householdIdMap st))
    /\ ((forall v, v ∈ l -> is_Some (village_rows (wardIdMap st) v)) ->
        errors res = errors (up_result st)).
Proof.
  induction l as [|v l IH]; intros st.
  - exists (up_result st). split; [|done]. simpl. destruct st as [[] ? ? ? ? ?]; done.
  - simpl. rewrite upload_village_upsert.
    destruct (village_rows (wardIdMap st) v) as [f|] eqn:Eb.
    + destruct (upsert_villages env (wardIdMap st)
                  (Remote.villages (up_remote st), villageIdMap st) v)
        as [T M] eqn:E. cbn [fst snd].
      destruct (IH (mkUploadState
        (Remote.mk (Remote.wards (up_remote st)) T
           (Remote.households (up_remote st)) (Remote.citizens (up_remote st))
           (Remote.objects (up_remote st)))
        (up_settings st) (count_uploaded TVillage (up_result st))
        (wardIdMap st) M (householdIdMap st))) as (res & -> & Hres).
      exists res. split; [done|].
      intros Hall. apply Hres. intros v' Hv'. apply Hall, elem_of_cons; auto.
    + rewrite upsert_skip by done.
      destruct (IH (up_error ("Village " ++ Village.code v ++ ": Ward not found") st))
        as (res & -> & Hres).
      exists res. split; [done|].
      intros Hall. destruct (Hall v) as [? ?]; [apply elem_of_cons; auto|congruence].
Qed.

Lemma upload_household_upsert st household :
  upload_household env st household
  = match household_rows env (villageIdMap st) household with
    | Some _ =>
        let s' := upsert_households env (villageIdMap st)
                    (Remote.households (up_remote st), householdIdMap st)
                    household in
        mkUploadState
          (Remote.mk (Remote.wards (up_remote st)) (Remote.villages (up_remote st))
             s'.1 (Remote.citizens (up_remote st)) (Remote.objects (up_remote st)))
          (up_settings st) (count_uploaded THousehold (up_result st))
          (wardIdMap st) (villageIdMap st) s'.2
    | None =>
        up_error ("Household " ++ Household.code household ++ ": Village not found")
          st
    end.
Proof.
  unfold upload_household, upsert, household_rows.
  destruct (villageIdMap st !! Household.villageId household) as [u|]; [|done].
  destruct (truthy_string u); [|done].
  destruct Hans as [_ H]. destruct (H THousehold (Household.id household)) as [-> ->].
  reflexivity.
Qed.

Lemma upload_households_fold l : forall st,
  exists res,
    fold_left (upload_household env) l st
    = (let s' := fold_left (upsert_households env (villageIdMap st)) l
                   (Remote.households (up_remote st), householdIdMap st) in
       mkUploadState
         (Remote.mk (Remote.wards (up_remote st)) (Remote.villages (up_remote st))
            s'.1 (Remote.citizens (up_remote st)) (Remote.objects (up_remote st)))
         (up_settings st) res (wardIdMap st) (villageIdMap st) s'.2)
    /\ ((forall h, h ∈ l -> is_Some (household_rows env (villageIdMap st) h)) ->
        errors res = errors (up_result st)).
Proof.
  induction l as [|h l IH]; intros st.
  - exists (up_result st). split; [|done]. simpl. destruct st as [[] ? ? ? ? ?]; done.
  - simpl. rewrite upload_household_upsert.
    destruct (household_rows env (villageIdMap st) h) as [f|] eqn:Eb.
    + destruct (upsert_households env (villageIdMap st)
                  (Remote.households (up_remote st), householdIdMap st) h)
        as [T M] eqn:E. cbn [fst snd].
      destruct (IH (mkUploadState
        (Remote.mk (Remote.wards (up_remote st)) (Remote.villages (up_remote st))
           T (Remote.citizens (up_remote st)) (Remote.objects (up_remote st)))
        (up_settings st) (count_uploaded THousehold (up_result st))
        (wardIdMap st) (villageIdMap st) M)) as (res & -> & Hres).
      exists res. split; [done|].
      intros Hall. apply Hres. intros h' Hh'. apply Hall, elem_of_cons; auto.
    + rewrite upsert_skip by done.
      destruct (IH (up_error
        ("Household " ++ Household.code h ++ ": Village not found") st))
        as (res & -> & Hres).
      exists res. split; [done|].
      intros Hall. destruct (Hall h) as [? ?]; [apply elem_of_cons; auto|congruence].
Qed.

End Instances.

Lemma citizen_rows_skip env env' d d' households villages wards c :
  is_Some (citizen_rows env d households villages wards c)
  <-> is_Some (citizen_rows env' d' households villages wards c).
Proof.
  unfold citizen_rows.
  destruct (households !! Citizen.householdId c) as [h|],
    (villages !! Citizen.villageId c) as [v|],
    (wards !! Citizen.wardId c) as [w|]; try done.
  destruct (truthy_string h && truthy_string v && truthy_string w); [|done].
  split; intros _; by eexists.
Qed.

Section CitizenInstance.
Variable env : UploadEnv.
Hypothesis Hans : answering env.
#[local] Arguments upsert : simpl never.

Lemma upload_citizen_upsert st M citizen :
  let d := (getDeviceId (new_device_id env) (up_settings st)).1 in
  upload_citizen env st citizen
  = match citizen_rows env d (householdIdMap st) (villageIdMap st) (wardIdMap st)
            citizen with
    | Some _ =>
        let s' := upsert_citizens env d (householdIdMap st) (villageIdMap st)
                    (wardIdMap st) (Remote.citizens (up_remote st), M) citizen in
        mkUploadState
          (Remote.mk (Remote.wards (up_remote st)) (Remote.villages (up_remote st))
             (Remote.households (up_remote st)) s'.1
             (store_attachments env citizen (Remote.objects (up_remote st))))
          (getDeviceId (new_device_id env) (up_settings st)).2
          (count_uploaded TCitizen (up_result st))
          (wardIdMap st) (villageIdMap st) (householdIdMap st)
    | None => up_error (missing_parents citizen) st
    end.
Proof.
  intros d. subst d. unfold upload_citizen, upsert, citizen_rows.
  destruct (householdIdMap st !! Citizen.householdId citizen) as [h|]; [|done].
  destruct (villageIdMap st !! Citizen.villageId citizen) as [v|]; [|done].
  destruct (wardIdMap st !! Citizen.wardId citizen) as [w|]; [|done].
  destruct (truthy_string h && truthy_string v && truthy_string w); [|done].
  unfold upload_citizen_with_parents, upsert, store_attachments,
    photo_url_of, fingerprint_url_of.
  destruct Hans as [_ H]. destruct (H TCitizen (Citizen.id citizen)) as [-> ->].
  destruct (getDeviceId (new_device_id env) (up_settings st)) as [d s'].
  rewrite <- (upload_attachment_url_any uploadPhotoToStorage _ _ _ _
                (Remote.objects (up_remote st))) by auto.
  destruct (upload_attachment uploadPhotoToStorage _ _ _ _ _) as [pu o1].
  rewrite <- (upload_attachment_url_any uploadFingerprintToStorage _ _ _ _ o1)
    by auto.
  destruct (upload_attachment uploadFingerprintToStorage _ _ _ _ _) as [fu o2].
  reflexivity.
Qed.

Lemma upload_citizens_fold l : forall st M,
  let d := (getDeviceId (new_device_id env) (up_settings st)).1 in
  exists res settings',
    fold_left (upload_citizen env) l st
    = mkUploadState
        (Remote.mk (Remote.wards (up_remote st)) (Remote.villages (up_remote st))
           (Remote.households (up_remote st))
           (fold_left
              (upsert_citizens env d (householdIdMap st) (villageIdMap st)
                 (wardIdMap st))
              l (Remote.citizens (up_remote st), M)).1
           (objects_after env (householdIdMap st) (villageIdMap st) (wardIdMap st)
              l (Remote.objects (up_remote st))))
        settings' res (wardIdMap st) (villageIdMap st) (householdIdMap st)
    /\ (getDeviceId (new_device_id env) settings').1 = d
    /\ Settings.last_sync_time settings' = Settings.last_sync_time (up_settings st)
    /\ (Settings.sync_device_id (up_settings st) = Some d
        \/ (exists c, c ∈ l
              /\ is_Some (citizen_rows env d (householdIdMap st) (villageIdMap st)
                            (wardIdMap st) c)) ->
        Settings.sync_device_id settings' = Some d)
    /\ ((forall c, c ∈ l ->
           is_Some (citizen_rows env d (householdIdMap st) (villageIdMap st)
                      (wardIdMap st) c)) ->
        errors res = errors (up_result st)).
Proof.
  induction l as [|c l IH]; intros st M d.
  - exists (up_result st), (up_settings st). simpl.
    split; [by destruct st as [[] ? ? ? ? ?]|].
    split; [done|]. split; [done|]. split; [|done].
    intros [?|(c & []%elem_of_nil & _)]; done.
  - simpl. rewrite (upload_citizen_upsert st M). fold d.
    unfold objects_after at 1. simpl. fold (objects_after env).
    destruct (citizen_rows env d (householdIdMap st) (villageIdMap st)
                (wardIdMap st) c) as [f|] eqn:Eb.
    + assert (Eskip : is_Some (citizen_rows env "" (householdIdMap st)
                (villageIdMap st) (wardIdMap st) c))
        by (apply (citizen_rows_skip env env d); rewrite Eb; by eexists).
      destruct Eskip as [f0 ->].
      destruct (getDeviceId_stable env (up_settings st)) as [Hstored Htruthy].
      fold d in Hstored, Htruthy.
      set (s1 := (getDeviceId (new_device_id env) (up_settings st)).2) in *.
      assert (Hd : getDeviceId (new_device_id env) s1 = (d, s1))
        by (by apply getDeviceId_stored).
      destruct (upsert_citizens env d (householdIdMap st) (villageIdMap st)
                  (wardIdMap st) (Remote.citizens (up_remote st), M) c)
        as [T M'] eqn:E. cbn [fst snd].
      destruct (IH (mkUploadState
        (Remote.mk (Remote.wards (up_remote st)) (Remote.villages (up_remote st))
           (Remote.households (up_remote st)) T
           (store_attachments env c (Remote.objects (up_remote st))))
        s1 (count_uploaded TCitizen (up_result st))
        (wardIdMap st) (villageIdMap st) (householdIdMap st)) M')
        as (res & settings' & -> & Hdev & Hlast & Hsome & Herr).
      cbn [up_remote up_settings up_result wardIdMap villageIdMap householdIdMap
           Remote.wards Remote.villages Remote.households Remote.citizens
           Remote.objects] in *.
      rewrite Hd in *. cbn [fst] in *.
      exists res, settings'. split; [done|]. split; [done|].
      split.
      { rewrite Hlast. subst s1. unfold getDeviceId.
        destruct (Settings.sync_device_id (up_settings st)) as [x|]; [|done].
        by destruct (truthy_string x). }
      split.
      * intros _. apply Hsome. by left.
      * intros Hall. rewrite Herr; [done|].
        intros c' Hc'. apply Hall, elem_of_cons; auto.
    + assert (Eskip : citizen_rows env "" (householdIdMap st)
                (villageIdMap st) (wardIdMap st) c = None).
      { destruct (citizen_rows env "" _ _ _ c) eqn:E0; [|done].
        assert (is_Some (citizen_rows env d (householdIdMap st)
                  (villageIdMap st) (wardIdMap st) c)) as [? ?]
          by (apply (citizen_rows_skip env env ""); rewrite E0; by eexists).
        congruence. }
      rewrite Eskip, upsert_skip by done.
      destruct (IH (up_error (missing_parents c) st) M)
        as (res & settings' & -> & Hdev & Hlast & Hsome & Herr).
      exists res, settings'. simpl in *. split; [done|]. split; [done|].
      split; [done|]. split.
      * intros [Hst|(c' & [-> |Hc']%elem_of_cons & Hb)].
        -- apply Hsome. by left.
        -- rewrite Eb in Hb. by destruct Hb.
        -- apply Hsome. eauto.
      * intros Hall. destruct (Hall c) as [? ?]; [apply elem_of_cons; auto|congruence].
Qed.

End CitizenInstance.

(** ** Writing a record twice *)

Lemma or_keep_same {A} (x : option A) : or_keep x x = x.
Proof. by destruct x. Qed.

Lemma or_keep_assoc {A} (x y z : option A) :
  or_keep x (or_keep y z) = or_keep (or_keep x y) z.
Proof. by destruct x. Qed.

Lemma or_keep_again {A} (x y : option A) : or_keep x (or_keep y x) = or_keep x y.
Proof. by destruct x, y. Qed.

Ltac built_citizen H :=
  unfold citizen_rows in *;
  repeat match type of H with
         | context [?m !! ?k] => destruct (m !! k); [|discriminate H]
         end;
  try match type of H with
      | context [if ?b then _ else _] => destruct b; [|discriminate H]
      end;
  injection H as <-.

Lemma citizen_rows_keys env d hs vs ws c f u :
  citizen_rows env d hs vs ws c = Some f ->
  SupabaseCitizen.id (f u) = u
  /\ SupabaseCitizen.unique_id (f u) = Citizen.uniqueId c.
Proof.
  intros H. built_citizen H.
  destruct (photo_url_of env c), (fingerprint_url_of env c); done.
Qed.

Lemma citizen_rows_data env1 env2 d hs vs ws c f1 f2 u :
  citizen_rows env1 d hs vs ws c = Some f1 ->
  citizen_rows env2 d hs vs ws c = Some f2 ->
  member_data (f1 u) = member_data (f2 u).
Proof.
  intros H1 H2. built_citizen H1. built_citizen H2.
  destruct (photo_url_of env1 c), (photo_url_of env2 c),
    (fingerprint_url_of env1 c), (fingerprint_url_of env2 c); reflexivity.
Qed.

Lemma household_rows_keys env vs h f u :
  household_rows env vs h = Some f ->
  SupabaseHousehold.id (f u) = u
  /\ SupabaseHousehold.code (f u) = Household.code h.
Proof.
  unfold household_rows. destruct (vs !! Household.villageId h) as [x|]; [|done].
  destruct (truthy_string x); [|done]. by intros [= <-].
Qed.

Lemma household_rows_skip env1 env2 vs h :
  is_Some (household_rows env1 vs h) <-> is_Some (household_rows env2 vs h).
Proof.
  unfold household_rows. destruct (vs !! Household.villageId h) as [x|]; [|done].
  destruct (truthy_string x); [|done]. split; intros _; by eexists.
Qed.

Lemma household_rows_data env1 env2 vs h f1 f2 u :
  same_columns env1 env2 ->
  household_rows env1 vs h = Some f1 ->
  household_rows env2 vs h = Some f2 ->
  household_data (f1 u) = household_data (f2 u).
Proof.
  intros Hcol. unfold household_rows.
  destruct (vs !! Household.villageId h) as [x|]; [|done].
  destruct (truthy_string x); [|done]. intros [= <-] [= <-].
  unfold household_data, stored_household, householdToSupabase; simpl.
  destruct (Household.latitude h) as [lat|], (Household.longitude h) as [lon|];
    simpl; rewrite ?(proj1 (Hcol _)), ?(proj2 (Hcol _)); reflexivity.
Qed.

Lemma village_rows_keys ws v f u :
  village_rows ws v = Some f ->
  SupabaseVillage.id (f u) = u /\ SupabaseVillage.code (f u) = Village.code v.
Proof.
  unfold village_rows. destruct (ws !! Village.wardId v) as [x|]; [|done].
  destruct (truthy_string x); [|done]. by intros [= <-].
Qed.

Lemma fmap_eq_Forall2 {A B} (f : A -> B) (l1 l2 : list A) :
  f <$> l1 = f <$> l2 -> Forall2 (fun a b => f a = f b) l1 l2.
Proof.
  revert l2. induction l1 as [|a l1 IH]; intros [|b l2] E; try done.
  injection E as E1 E2. constructor; auto.
Qed.

(** The data of a row and what an update makes of it, tier by tier. *)
Lemma merge_member_assoc a b c :
  merge_member a (merge_member b c) = merge_member (merge_member a b) c.
Proof.
  unfold merge_member, member_data, patch_citizen; cbn.
  f_equal; apply or_keep_assoc.
Qed.

Lemma merge_member_same a :
  merge_member (member_data a) (member_data a) = member_data a.
Proof.
  unfold merge_member, member_data, patch_citizen; cbn.
  f_equal; apply or_keep_same.
Qed.

Lemma merge_member_again a b :
  merge_member a (merge_member b a) = merge_member a b.
Proof.
  unfold merge_member, member_data, patch_citizen; cbn.
  f_equal; apply or_keep_again.
Qed.

Lemma merge_household_assoc a b c :
  merge_household a (merge_household b c)
  = merge_household (merge_household a b) c.
Proof.
  unfold merge_household, household_data, patch_household; cbn.
  f_equal; apply or_keep_assoc.
Qed.

Lemma merge_household_same a :
  merge_household (household_data a) (household_data a) = household_data a.
Proof.
  unfold merge_household, household_data, patch_household; cbn.
  f_equal; apply or_keep_same.
Qed.

Lemma merge_household_again a b :
  merge_household a (merge_household b a) = merge_household a b.
Proof.
  unfold merge_household, household_data, patch_household; cbn.
  f_equal; apply or_keep_again.
Qed.

(** A tier uploaded twice, in terms of the general loop. *)
Lemma wards_twice env1 env2 T0 l :
  remote_table_ok SupabaseWard.id SupabaseWard.code T0 ->
  NoDup (Ward.id <$> l) ->
  fresh_for Ward.id SupabaseWard.id T0
    (fun w => randomUUID env1 TWard (Ward.id w)) l ->
  let s1 := fold_left (upsert_wards env1) l (T0, ∅) in
  let s2 := fold_left (upsert_wards env2) l (s1.1, ∅) in
  ward_data <$> s2.1 = ward_data <$> s1.1 /\ s2.2 = s1.2.
Proof.
  intros H0 Hi Hf s1 s2.
  destruct (two_runs Ward.id Ward.code SupabaseWard.id SupabaseWard.code
              (ward_patch env1) (ward_patch env2) ward_rows ward_rows
              (fun w => randomUUID env1 TWard (Ward.id w))
              (fun w => randomUUID env2 TWard (Ward.id w))
              ward_data merge_ward)
    with (T0 := T0) (l := l) (M := (∅ : gmap nat string))
    as (_ & Hdata & Hmap); try done.
  - by intros w f u [= <-].
  - by intros w f u [= <-].
  - by intros w f1 f2 u [= <-] [= <-].
  - split; [exact Hdata|by apply Hmap].
Qed.

Lemma villages_twice env1 env2 ws T0 l :
  remote_table_ok SupabaseVillage.id SupabaseVillage.code T0 ->
  NoDup (Village.id <$> l) ->
  fresh_for Village.id SupabaseVillage.id T0
    (fun v => randomUUID env1 TVillage (Village.id v)) l ->
  let s1 := fold_left (upsert_villages env1 ws) l (T0, ∅) in
  let s2 := fold_left (upsert_villages env2 ws) l (s1.1, ∅) in
  village_data <$> s2.1 = village_data <$> s1.1 /\ s2.2 = s1.2.
Proof.
  intros H0 Hi Hf s1 s2.
  destruct (two_runs Village.id Village.code SupabaseVillage.id
              SupabaseVillage.code (village_patch env1) (village_patch env2)
              (village_rows ws) (village_rows ws)
              (fun v => randomUUID env1 TVillage (Village.id v))
              (fun v => randomUUID env2 TVillage (Village.id v))
              village_data merge_village)
    with (T0 := T0) (l := l) (M := (∅ : gmap nat string))
    as (_ & Hdata & Hmap); try done.
  - intros; by eapply village_rows_keys.
  - intros; by eapply village_rows_keys.
  - intros w f1 f2 u E1 E2. congruence.
  - split; [exact Hdata|by apply Hmap].
Qed.

Lemma households_twice env1 env2 vs T0 l :
  same_columns env1 env2 ->
  remote_table_ok SupabaseHousehold.id SupabaseHousehold.code T0 ->
  NoDup (Household.id <$> l) ->
  fresh_for Household.id SupabaseHousehold.id T0
    (fun h => randomUUID env1 THousehold (Household.id h)) l ->
  let s1 := fold_left (upsert_households env1 vs) l (T0, ∅) in
  let s2 := fold_left (upsert_households env2 vs) l (s1.1, ∅) in
  household_data <$> s2.1 = household_data <$> s1.1 /\ s2.2 = s1.2.
Proof.
  intros Hcol H0 Hi Hf s1 s2.
  destruct (two_runs Household.id Household.code SupabaseHousehold.id
              SupabaseHousehold.code (household_patch env1) (household_patch env2)
              (household_rows env1 vs) (household_rows env2 vs)
              (fun h => randomUUID env1 THousehold (Household.id h))
              (fun h => randomUUID env2 THousehold (Household.id h))
              household_data merge_household)
    with (T0 := T0) (l := l) (M := (∅ : gmap nat string))
    as (_ & Hdata & Hmap); try done.
  - apply merge_household_assoc.
  - apply merge_household_same.
  - apply merge_household_again.
  - intros h. apply household_rows_skip.
  - intros; by eapply household_rows_keys.
  - intros; by eapply household_rows_keys.
  - intros; by eapply household_rows_data.
  - split; [exact Hdata|by apply Hmap].
Qed.

Lemma citizens_twice env1 env2 d hs vs ws T0 l M :
  remote_table_ok SupabaseCitizen.id SupabaseCitizen.unique_id T0 ->
  NoDup (Citizen.id <$> l) ->
  fresh_for Citizen.id SupabaseCitizen.id T0
    (fun c => randomUUID env1 TCitizen (Citizen.id c)) l ->
  let T1 := (fold_left (upsert_citizens env1 d hs vs ws) l (T0, ∅)).1 in
  member_data <$> (fold_left (upsert_citizens env2 d hs vs ws) l (T1, M)).1
  = member_data <$> T1.
Proof.
  intros H0 Hi Hf T1.
  destruct (two_runs Citizen.id Citizen.uniqueId SupabaseCitizen.id
              SupabaseCitizen.unique_id (citizen_patch env1) (citizen_patch env2)
              (citizen_rows env1 d hs vs ws) (citizen_rows env2 d hs vs ws)
              (fun c => randomUUID env1 TCitizen (Citizen.id c))
              (fun c => randomUUID env2 TCitizen (Citizen.id c))
              member_data merge_member)
    with (T0 := T0) (l := l) (M := M) as (_ & Hdata & _); try done.
  - apply merge_member_assoc.
  - apply merge_member_same.
  - apply merge_member_again.
  - intros c. apply citizen_rows_skip.
  - intros; by eapply citizen_rows_keys.
  - intros; by eapply citizen_rows_keys.
  - intros; by eapply citizen_rows_data.
Qed.

(** ** A whole upload in terms of the general loop *)

Ltac projections :=
  cbn [up_remote up_settings up_result wardIdMap villageIdMap householdIdMap
       Remote.wards Remote.villages Remote.households Remote.citizens
       Remote.objects fst snd] in *.

Lemma upload_all_shape env local remote :
  answering env ->
  let d := device_of env (Local.settings local) in
  exists res settings',
    upload_all env local remote
    = mkUploadState
        (Remote.mk (wards_pass env local remote).1
           (villages_pass env local remote).1
           (households_pass env local remote).1
           (citizens_pass env d local remote)
           (objects_pass env local remote))
        settings' res
        (wards_pass env local remote).2 (villages_pass env local remote).2
        (households_pass env local remote).2
    /\ device_of env settings' = d
    /\ Settings.last_sync_time settings'
       = Settings.last_sync_time (Local.settings local)
    /\ (Settings.sync_device_id (Local.settings local) = Some d
        \/ (exists c, c ∈ rows (Local.citizens local)
              /\ is_Some (member_rows env d local remote c)) ->
        Settings.sync_device_id settings' = Some d)
    /\ ((forall v, v ∈ rows (Local.villages local) ->
           is_Some (village_rows (wards_pass env local remote).2 v)) ->
        (forall h, h ∈ rows (Local.households local) ->
           is_Some (household_rows env (villages_pass env local remote).2 h)) ->
        (forall c, c ∈ rows (Local.citizens local) ->
           is_Some (member_rows env d local remote c)) ->
        errors res = []).
Proof.
  intros Hans d. unfold upload_all, toArray.
  destruct (upload_wards_fold env Hans (rows (Local.wards local))
              (mkUploadState remote (Local.settings local) initial_result ∅ ∅ ∅))
    as (res1 & -> & E1). projections.
  fold (wards_pass env local remote).
  destruct (upload_villages_fold env Hans (rows (Local.villages local))
    (mkUploadState
       (Remote.mk (wards_pass env local remote).1 (Remote.villages remote)
          (Remote.households remote) (Remote.citizens remote)
          (Remote.objects remote))
       (Local.settings local) res1 (wards_pass env local remote).2 ∅ ∅))
    as (res2 & -> & E2). projections.
  fold (villages_pass env local remote).
  destruct (upload_households_fold env Hans (rows (Local.households local))
    (mkUploadState
       (Remote.mk (wards_pass env local remote).1 (villages_pass env local remote).1
          (Remote.households remote) (Remote.citizens remote)
          (Remote.objects remote))
       (Local.settings local) res2 (wards_pass env local remote).2
       (villages_pass env local remote).2 ∅))
    as (res3 & -> & E3). projections.
  fold (households_pass env local remote).
  destruct (upload_citizens_fold env Hans (rows (Local.citizens local))
    (mkUploadState
       (Remote.mk (wards_pass env local remote).1 (villages_pass env local remote).1
          (households_pass env local remote).1 (Remote.citizens remote)
          (Remote.objects remote))
       (Local.settings local) res3 (wards_pass env local remote).2
       (villages_pass env local remote).2 (households_pass env local remote).2) ∅)
    as (res4 & settings' & -> & Hdev & Hlast & Hsome & E4). projections.
  exists res4, settings'. split; [done|]. split; [done|]. split; [done|].
  split; [done|].
  intros Hv Hh Hc. unfold member_rows in Hc.
  rewrite (E4 Hc), (E3 Hh), (E2 Hv), E1. done.
Qed.

(** ** Idempotence *)

Lemma upsert_all_skipped {L R} (lid : L -> nat) lcode (rid rcode : R -> string)
    patch build random l s :
  Forall (fun w => build w = None) l ->
  fold_left (upsert lid lcode rid rcode patch build random) l s = s.
Proof.
  induction 1 as [|w l Hw Hl IH]; simpl; [done|]. by rewrite upsert_skip.
Qed.




(** ** Uploading into a remote store that has none of the keys *)

Section UpsertFresh.
Context {L R : Type}.
Variables (lid : L -> nat) (lcode : L -> string).
Variables (rid rcode : R -> string) (patch : L -> R -> R -> R).
Variable build : L -> option (string -> R).
Variable random : L -> string.
Variable row : L -> R.
#[local] Arguments select_id : simpl never.

Abbreviation step := (upsert lid lcode rid rcode patch build random).

Abbreviation builds := (builds lcode rid rcode build random row).

Lemma upsert_fresh l : forall T M,
  NoDup (lcode <$> l) -> NoDup (lid <$> l) ->
  (forall w, w ∈ l -> lcode w ∉ rcode <$> T) ->
  (forall w, w ∈ l -> builds w) ->
  (fold_left step l (T, M)).1 = T ++ (row <$> l)
  /\ (forall w, w ∈ l -> (fold_left step l (T, M)).2 !! lid w = Some (random w))
  /\ (forall k, k ∉ lid <$> l -> (fold_left step l (T, M)).2 !! k = M !! k).
Proof.
  induction l as [|w l IH]; intros T M Hc Hi Hnew Hb.
  - simpl. rewrite app_nil_r. split; [done|]. split; [|done].
    by intros w ?%elem_of_nil.
  - rewrite fmap_cons in Hc. rewrite fmap_cons in Hi.
    apply NoDup_cons in Hc as [Hcw Hc]. apply NoDup_cons in Hi as [Hiw Hi].
    destruct (Hb w) as (f & Ef & Er & Eid & Ecode); [apply elem_of_cons; auto|].
    assert (Estep : step (T, M) w = (T ++ [row w], <[lid w := random w]> M)).
    { unfold upsert. rewrite Ef. cbn [fst snd].
      rewrite (select_id_absent rid rcode) by (apply Hnew, elem_of_cons; auto).
      unfold or_random, write_row, insert_row. by rewrite <- Er, Eid. }
    simpl. rewrite Estep.
    destruct (IH (T ++ [row w]) (<[lid w := random w]> M)) as (E1 & E2 & E3);
      try done.
    { intros w' Hw'. rewrite fmap_app. intros [Hin|Hin]%elem_of_app.
      - by apply (Hnew w'); [apply elem_of_cons; auto|].
      - simpl in Hin. apply list_elem_of_singleton in Hin.
        apply Hcw. rewrite <- Ecode, <- Hin. by apply list_elem_of_fmap_2. }
    { intros w' Hw'. apply Hb, elem_of_cons; auto. }
    split; [|split].
    + rewrite E1, <- app_assoc. done.
    + intros w' [-> |Hw']%elem_of_cons; [|by apply E2].
      rewrite E3 by done. by rewrite lookup_insert_eq.
    + intros k Hk.
      rewrite E3 by (intros ?; apply Hk, elem_of_cons; auto).
      apply lookup_insert_ne. intros <-. apply Hk, elem_of_cons; auto.
Qed.

End UpsertFresh.

(** ** One tier of the download, in general *)

Section Restore.
Context {R L : Type} `{Keyed L}.
Variables (rid rcode : R -> string) (lcode : L -> string).
Variable build : R -> option (nat -> L).

Abbreviation restore := (restore rid rcode lcode build).

Lemma restore_skip s r : build r = None -> restore s r = s.
Proof. intros E. unfold restore. by rewrite E. Qed.

Lemma find_absent (p : L -> bool) (l : list L) :
  (forall x, x ∈ l -> p x = false) -> List.find p l = None.
Proof.
  induction l as [|a l IH]; simpl; [done|]. intros Hp.
  rewrite (Hp a) by (apply elem_of_cons; auto).
  apply IH. intros x Hx. apply Hp, elem_of_cons; auto.
Qed.

Variable row : R -> nat -> L.

Abbreviation restores := (restores rcode lcode build row).

Lemma restore_fresh rs : forall t M,
  NoDup (rcode <$> rs) -> NoDup (rid <$> rs) ->
  (forall r, r ∈ rs -> rcode r ∉ lcode <$> rows t) ->
  (forall r, r ∈ rs -> restores r) ->
  let s' := fold_left restore rs (t, M) in
  rows s'.1 = rows t ++ ((fun r => row r (default 0 (s'.2 !! rid r))) <$> rs)
  /\ (forall r, r ∈ rs -> exists k, s'.2 !! rid r = Some k /\ nextId t <= k)
  /\ (forall u, u ∉ rid <$> rs -> s'.2 !! u = M !! u)
  /\ nextId t <= nextId s'.1.
Proof.
  induction rs as [|r rs IH]; intros t M Hc Hi Hnew Hb; cbn zeta.
  - simpl. rewrite app_nil_r. split; [done|]. split; [|done].
    by intros r ?%elem_of_nil.
  - rewrite fmap_cons in Hc. rewrite fmap_cons in Hi.
    apply NoDup_cons in Hc as [Hcr Hc]. apply NoDup_cons in Hi as [Hir Hi].
    destruct (Hb r) as (f & Ef & Hf); [apply elem_of_cons; auto|].
    assert (Estep : restore (t, M) r
                    = (mkTable (rows t ++ [row r (nextId t)]) (S (nextId t)),
                       <[rid r := nextId t]> M)).
    { unfold restore. rewrite Ef. cbn [fst snd]. unfold first_where.
      rewrite find_absent.
      - unfold put, add. cbn [fst snd]. by rewrite (proj1 (Hf (nextId t))).
      - intros x Hx. apply String.eqb_neq. intros E.
        apply (Hnew r); [apply elem_of_cons; auto|].
        rewrite <- E. by apply list_elem_of_fmap_2. }
    cbn [fold_left]. rewrite Estep.
    destruct (IH (mkTable (rows t ++ [row r (nextId t)]) (S (nextId t)))
                (<[rid r := nextId t]> M)) as (E1 & E2 & E3 & E4); try done.
    { intros r' Hr'. cbn [rows]. rewrite fmap_app.
      intros [Hin|Hin]%elem_of_app.
      - by apply (Hnew r'); [apply elem_of_cons; auto|].
      - simpl in Hin. apply list_elem_of_singleton in Hin.
        destruct (Hf (nextId t)) as [Er Ecode]. rewrite <- Er, Ecode in Hin.
        apply Hcr. rewrite <- Hin. by apply list_elem_of_fmap_2. }
    { intros r' Hr'. apply Hb, elem_of_cons; auto. }
    cbn [rows nextId] in *.
    split; [|split; [|split]].
    + rewrite E1, <- app_assoc. simpl.
      rewrite (E3 (rid r)) by done. by rewrite lookup_insert_eq.
    + intros r' [-> |Hr']%elem_of_cons.
      * exists (nextId t). rewrite E3 by done. by rewrite lookup_insert_eq.
      * destruct (E2 r' Hr') as (k & Hk & Hle). exists k. split; [done|lia].
    + intros u Hu.
      rewrite E3 by (intros ?; apply Hu; rewrite fmap_cons; apply elem_of_cons; auto).
      apply lookup_insert_ne. intros <-. apply Hu. rewrite fmap_cons.
      apply elem_of_cons; auto.
    + lia.
Qed.

End Restore.

(** ** The four loops of the download as instances *)

Ltac dn_projections :=
  cbn [dn_local dn_result wardUuidToLocalId villageUuidToLocalId
       householdUuidToLocalId Local.wards Local.villages Local.households
       Local.citizens Local.settings fst snd] in *.

Section RestoreInstances.
Variable env : DownloadEnv.
Hypothesis Hok : restoring_ok env.
#[local] Arguments restore : simpl never.
#[local] Arguments put : simpl never.

Lemma download_ward_restore st r :
  download_ward env st r
  = let s' := restore_wards (Local.wards (dn_local st), wardUuidToLocalId st) r in
    mkDownloadState
      (Local.mk s'.1 (Local.villages (dn_local st)) (Local.households (dn_local st))
         (Local.citizens (dn_local st)) (Local.settings (dn_local st)))
      (count_downloaded TWard (dn_result st))
      s'.2 (villageUuidToLocalId st) (householdUuidToLocalId st).
Proof.
  unfold download_ward, restore, ward_fields.
  destruct Hok as (_ & _ & Hs). rewrite Hs.
  destruct (put _ _ _) as [k t]. reflexivity.
Qed.

Lemma download_wards_fold l : forall st,
  exists res,
    fold_left (download_ward env) l st
    = (let s' := fold_left restore_wards l
                   (Local.wards (dn_local st), wardUuidToLocalId st) in
       mkDownloadState
         (Local.mk s'.1 (Local.villages (dn_local st))
            (Local.households (dn_local st)) (Local.citizens (dn_local st))
            (Local.settings (dn_local st)))
         res s'.2 (villageUuidToLocalId st) (householdUuidToLocalId st))
    /\ errors res = errors (dn_result st).
Proof.
  induction l as [|r l IH]; intros st.
  - exists (dn_result st). split; [|done]. simpl. destruct st as [[] ? ? ? ?]; done.
  - simpl. rewrite download_ward_restore.
    destruct (restore_wards (Local.wards (dn_local st), wardUuidToLocalId st) r)
      as [t M] eqn:E. cbn [fst snd].
    destruct (IH (mkDownloadState
      (Local.mk t (Local.villages (dn_local st)) (Local.households (dn_local st))
         (Local.citizens (dn_local st)) (Local.settings (dn_local st)))
      (count_downloaded TWard (dn_result st))
      M (villageUuidToLocalId st) (householdUuidToLocalId st)))
      as (res & -> & Hres).
    exists res. split; done.
Qed.

Lemma download_village_restore st r :
  download_village env st r
  = match village_fields (wardUuidToLocalId st) r with
    | Some _ =>
        let s' := restore_villages (wardUuidToLocalId st)
                    (Local.villages (dn_local st), villageUuidToLocalId st) r in
        mkDownloadState
          (Local.mk (Local.wards (dn_local st)) s'.1
             (Local.households (dn_local st)) (Local.citizens (dn_local st))
             (Local.settings (dn_local st)))
          (count_downloaded TVillage (dn_result st))
          (wardUuidToLocalId st) s'.2 (householdUuidToLocalId st)
    | None =>
        dn_error ("Village " ++ SupabaseVillage.code r ++ ": Ward not found locally")
          st
    end.
Proof.
  unfold download_village, restore, village_fields.
  destruct (wardUuidToLocalId st !! SupabaseVillage.ward_id r) as [k|]; [|done].
  destruct (truthy_number k); [|done].
  destruct Hok as (_ & _ & Hs). rewrite Hs.
  destruct (put _ _ _) as [k' t]. reflexivity.
Qed.

Lemma download_villages_fold l : forall st,
  exists res,
    fold_left (download_village env) l st
    = (let s' := fold_left (restore_villages (wardUuidToLocalId st)) l
                   (Local.villages (dn_local st), villageUuidToLocalId st) in
       mkDownloadState
         (Local.mk (Local.wards (dn_local st)) s'.1
            (Local.households (dn_local st)) (Local.citizens (dn_local st))
            (Local.settings (dn_local st)))
         res (wardUuidToLocalId st) s'.2 (householdUuidToLocalId st))
    /\ ((forall r, r ∈ l -> is_Some (village_fields (wardUuidToLocalId st) r)) ->
        errors res = errors (dn_result st)).
Proof.
  induction l as [|r l IH]; intros st.
  - exists (dn_result st). split; [|done]. simpl. destruct st as [[] ? ? ? ?]; done.
  - simpl. rewrite download_village_restore.
    destruct (village_fields (wardUuidToLocalId st) r) as [f|] eqn:Eb.
    + destruct (restore_villages (wardUuidToLocalId st)
                  (Local.villages (dn_local st), villageUuidToLocalId st) r)
        as [t M] eqn:E. cbn [fst snd].
      destruct (IH (mkDownloadState
        (Local.mk (Local.wards (dn_local st)) t (Local.households (dn_local st))
           (Local.citizens (dn_local st)) (Local.settings (dn_local st)))
        (count_downloaded TVillage (dn_result st))
        (wardUuidToLocalId st) M (householdUuidToLocalId st)))
        as (res & -> & Hres).
      exists res. split; [done|].
      intros Hall. apply Hres. intros r' Hr'. apply Hall, elem_of_cons; auto.
    + rewrite restore_skip by done.
      destruct (IH (dn_error
        ("Village " ++ SupabaseVillage.code r ++ ": Ward not found locally") st))
        as (res & -> & Hres).
      exists res. split; [done|].
      intros Hall. destruct (Hall r) as [? ?]; [apply elem_of_cons; auto|congruence].
Qed.

Lemma download_household_restore st r :
  download_household env st r
  = match household_fields (villageUuidToLocalId st) r with
    | Some _ =>
        let s' := restore_households (villageUuidToLocalId st)
                    (Local.households (dn_local st), householdUuidToLocalId st) r in
        mkDownloadState
          (Local.mk (Local.wards (dn_local st)) (Local.villages (dn_local st))
             s'.1 (Local.citizens (dn_local st)) (Local.settings (dn_local st)))
          (count_downloaded THousehold (dn_result st))
          (wardUuidToLocalId st) (villageUuidToLocalId st) s'.2
    | None =>
        dn_error ("Household " ++ SupabaseHousehold.code r
                  ++ ": Village not found locally") st
    end.
Proof.
  unfold download_household, restore, household_fields.
  destruct (villageUuidToLocalId st !! SupabaseHousehold.village_id r) as [k|];
    [|done].
  destruct (truthy_number k); [|done].
  destruct Hok as (_ & _ & Hs). rewrite Hs.
  destruct (put _ _ _) as [k' t]. reflexivity.
Qed.

Lemma download_households_fold l : forall st,
  exists res,
    fold_left (download_household env) l st
    = (let s' := fold_left (restore_households (villageUuidToLocalId st)) l
                   (Local.households (dn_local st), householdUuidToLocalId st) in
       mkDownloadState
         (Local.mk (Local.wards (dn_local st)) (Local.villages (dn_local st))
            s'.1 (Local.citizens (dn_local st)) (Local.settings (dn_local st)))
         res (wardUuidToLocalId st) (villageUuidToLocalId st) s'.2)
    /\ ((forall r, r ∈ l -> is_Some (household_fields (villageUuidToLocalId st) r)) ->
        errors res = errors (dn_result st)).
Proof.
  induction l as [|r l IH]; intros st.
  - exists (dn_result st). split; [|done]. simpl. destruct st as [[] ? ? ? ?]; done.
  - simpl. rewrite download_household_restore.
    destruct (household_fields (villageUuidToLocalId st) r) as [f|] eqn:Eb.
    + destruct (restore_households (villageUuidToLocalId st)
                  (Local.households (dn_local st), householdUuidToLocalId st) r)
        as [t M] eqn:E. cbn [fst snd].
      destruct (IH (mkDownloadState
        (Local.mk (Local.wards (dn_local st)) (Local.villages (dn_local st)) t
           (Local.citizens (dn_local st)) (Local.settings (dn_local st)))
        (count_downloaded THousehold (dn_result st))
        (wardUuidToLocalId st) (villageUuidToLocalId st) M))
        as (res & -> & Hres).
      exists res. split; [done|].
      intros Hall. apply Hres. intros r' Hr'. apply Hall, elem_of_cons; auto.
    + rewrite restore_skip by done.
      destruct (IH (dn_error
        ("Household " ++ SupabaseHousehold.code r
         ++ ": Village not found locally") st))
        as (res & -> & Hres).
      exists res. split; [done|].
      intros Hall. destruct (Hall r) as [? ?]; [apply elem_of_cons; auto|congruence].
Qed.

Lemma download_citizen_restore objects st M r :
  download_citizen env objects st r
  = match citizen_fields env objects (householdUuidToLocalId st)
            (villageUuidToLocalId st) (wardUuidToLocalId st) r with
    | Some _ =>
        let s' := restore_citizens env objects (householdUuidToLocalId st)
                    (villageUuidToLocalId st) (wardUuidToLocalId st)
                    (Local.citizens (dn_local st), M) r in
        mkDownloadState
          (Local.mk (Local.wards (dn_local st)) (Local.villages (dn_local st))
             (Local.households (dn_local st)) s'.1 (Local.settings (dn_local st)))
          (count_downloaded TCitizen (dn_result st))
          (wardUuidToLocalId st) (villageUuidToLocalId st)
          (householdUuidToLocalId st)
    | None => dn_error (missing_parents_locally r) st
    end.
Proof.
  unfold download_citizen, restore, citizen_fields.
  destruct (householdUuidToLocalId st !! SupabaseCitizen.household_id r) as [h|];
    [|done].
  destruct (villageUuidToLocalId st !! SupabaseCitizen.village_id r) as [v|];
    [|done].
  destruct (wardUuidToLocalId st !! SupabaseCitizen.ward_id r) as [w|]; [|done].
  destruct (truthy_number h && truthy_number v && truthy_number w); [|done].
  unfold download_citizen_with_parents.
  destruct Hok as (_ & _ & Hs). rewrite Hs.
  cbn [fst snd]. destruct (put _ _ _) as [k' t]. reflexivity.
Qed.

Lemma download_citizens_fold objects l : forall st M,
  exists res,
    fold_left (download_citizen env objects) l st
    = mkDownloadState
        (Local.mk (Local.wards (dn_local st)) (Local.villages (dn_local st))
           (Local.households (dn_local st))
           (fold_left
              (restore_citizens env objects (householdUuidToLocalId st)
                 (villageUuidToLocalId st) (wardUuidToLocalId st))
              l (Local.citizens (dn_local st), M)).1
           (Local.settings (dn_local st)))
        res (wardUuidToLocalId st) (villageUuidToLocalId st)
        (householdUuidToLocalId st)
    /\ ((forall r, r ∈ l ->
           is_Some (citizen_fields env objects (householdUuidToLocalId st)
                      (villageUuidToLocalId st) (wardUuidToLocalId st) r)) ->
        errors res = errors (dn_result st)).
Proof.
  induction l as [|r l IH]; intros st M.
  - exists (dn_result st). split; [|done]. simpl. destruct st as [[] ? ? ? ?]; done.
  - simpl. rewrite (download_citizen_restore objects st M).
    destruct (citizen_fields env objects (householdUuidToLocalId st)
                (villageUuidToLocalId st) (wardUuidToLocalId st) r) as [f|] eqn:Eb.
    + destruct (restore_citizens env objects (householdUuidToLocalId st)
                  (villageUuidToLocalId st) (wardUuidToLocalId st)
                  (Local.citizens (dn_local st), M) r) as [t M'] eqn:E.
      cbn [fst snd].
      destruct (IH (mkDownloadState
        (Local.mk (Local.wards (dn_local st)) (Local.villages (dn_local st))
           (Local.households (dn_local st)) t (Local.settings (dn_local st)))
        (count_downloaded TCitizen (dn_result st))
        (wardUuidToLocalId st) (villageUuidToLocalId st)
        (householdUuidToLocalId st)) M') as (res & -> & Hres).
      exists res. split; [done|].
      intros Hall. apply Hres. intros r' Hr'. apply Hall, elem_of_cons; auto.
    + rewrite restore_skip by done.
      destruct (IH (dn_error (missing_parents_locally r) st) M)
        as (res & -> & Hres).
      exists res. split; [done|].
      intros Hall. destruct (Hall r) as [? ?]; [apply elem_of_cons; auto|congruence].
Qed.

End RestoreInstances.

(** ** A whole download in terms of the general loop *)

Lemma download_all_shape env local remote :
  restoring_ok env ->
  exists res,
    download_all env local remote
    = mkDownloadState
        (Local.mk (wards_back local remote).1 (villages_back local remote).1
           (households_back local remote).1 (citizens_back env local remote)
           (Local.settings local))
        res (wards_back local remote).2 (villages_back local remote).2
        (households_back local remote).2
    /\ ((forall r, r ∈ Remote.villages remote ->
           is_Some (village_fields (wards_back local remote).2 r)) ->
        (forall r, r ∈ Remote.households remote ->
           is_Some (household_fields (villages_back local remote).2 r)) ->
        (forall r, r ∈ Remote.citizens remote ->
           is_Some (member_fields env local remote r)) ->
        errors res = []).
Proof.
  intros Hok. pose proof Hok as (_ & Hfetch & _).
  unfold download_all, download_tier. rewrite !Hfetch.
  destruct (download_wards_fold env Hok
              (order_by SupabaseWard.created_at (Remote.wards remote))
              (mkDownloadState local initial_result ∅ ∅ ∅))
    as (res1 & -> & E1). dn_projections.
  fold (wards_back local remote).
  destruct (download_villages_fold env Hok
    (order_by SupabaseVillage.created_at (Remote.villages remote))
    (mkDownloadState
       (Local.mk (wards_back local remote).1 (Local.villages local)
          (Local.households local) (Local.citizens local) (Local.settings local))
       res1 (wards_back local remote).2 ∅ ∅))
    as (res2 & -> & E2). dn_projections.
  fold (villages_back local remote).
  destruct (download_households_fold env Hok
    (order_by SupabaseHousehold.created_at (Remote.households remote))
    (mkDownloadState
       (Local.mk (wards_back local remote).1 (villages_back local remote).1
          (Local.households local) (Local.citizens local) (Local.settings local))
       res2 (wards_back local remote).2 (villages_back local remote).2 ∅))
    as (res3 & -> & E3). dn_projections.
  fold (households_back local remote).
  destruct (download_citizens_fold env Hok (Remote.objects remote)
    (order_by SupabaseCitizen.created_at (Remote.citizens remote))
    (mkDownloadState
       (Local.mk (wards_back local remote).1 (villages_back local remote).1
          (households_back local remote).1 (Local.citizens local)
          (Local.settings local))
       res3 (wards_back local remote).2 (villages_back local remote).2
       (households_back local remote).2) ∅)
    as (res4 & -> & E4). dn_projections.
  exists res4. split; [done|].
  intros Hv Hh Hc.
  rewrite E4, E3, E2, E1; [done|..].
  - intros r Hr%elem_of_order_by. by apply Hv.
  - intros r Hr%elem_of_order_by. by apply Hh.
  - intros r Hr%elem_of_order_by. by apply Hc.
Qed.

Lemma insert_by_perm {R} (key : R -> Z) x l : insert_by key x l ≡ₚ x :: l.
Proof.
  induction l as [|a l IH]; simpl; [done|].
  destruct (key x <=? key a)%Z; [done|].
  rewrite IH. apply Permutation_swap.
Qed.

Lemma order_by_perm {R} (key : R -> Z) l : order_by key l ≡ₚ l.
Proof.
  induction l as [|a l IH]; simpl; [done|].
  by rewrite insert_by_perm, IH.
Qed.

(** Rows uploaded from [l] as [g] and restored into an empty table come
    back as [l], each under the key the session map records for it. *)
Section TierRoundTrip.
Context {L R : Type} `{Keyed L}.
Variables (rid rcode : R -> string) (lcode : L -> string).
Variable build : R -> option (nat -> L).
Variable row : R -> nat -> L.
Variable key : R -> Z.
Variable g : L -> R.

Lemma tier_round_trip (l : list L) (t : Table L) :
  rows t = [] ->
  NoDup ((fun w => rcode (g w)) <$> l) -> NoDup ((fun w => rid (g w)) <$> l) ->
  (forall w, w ∈ l -> restores rcode lcode build row (g w)) ->
  let s' := fold_left (restore rid rcode lcode build) (order_by key (g <$> l))
              (t, ∅) in
  rows s'.1 ≡ₚ (fun w => row (g w) (default 0 (s'.2 !! rid (g w)))) <$> l
  /\ (forall w, w ∈ l -> exists k, s'.2 !! rid (g w) = Some k /\ nextId t <= k).
Proof.
  intros Ht Hc Hi Hb s'.
  assert (Hperm : order_by key (g <$> l) ≡ₚ g <$> l) by apply order_by_perm.
  destruct (restore_fresh rid rcode lcode build row (order_by key (g <$> l)) t ∅)
    as (E1 & E2 & _ & _).
  - rewrite Hperm, <- list_fmap_compose. done.
  - rewrite Hperm, <- list_fmap_compose. done.
  - intros r _. rewrite Ht. by intros ?%elem_of_nil.
  - intros r Hr. rewrite Hperm in Hr.
    apply list_elem_of_fmap in Hr as (w & -> & Hw). by apply Hb.
  - fold s' in E1, E2. split.
    + rewrite E1, Ht. simpl. rewrite Hperm, <- list_fmap_compose. done.
    + intros w Hw. apply E2. rewrite Hperm. by apply list_elem_of_fmap_2.
Qed.

End TierRoundTrip.

(** ** Attachments in the storage *)

Lemma fetch_object_skip url added rest :
  (forall u d, (u, d) ∈ added -> u <> url) ->
  fetch_object url (added ++ rest) = fetch_object url rest.
Proof.
  induction added as [|[u d] added IH]; intros Hne; simpl; [done|].
  rewrite bool_decide_eq_false_2 by (apply (Hne u d), elem_of_cons; auto).
  apply IH. intros u' d' Hin. apply (Hne u' d'), elem_of_cons; auto.
Qed.

Lemma store_attachments_other env c url objects :
  owner url <> Citizen.uniqueId c ->
  fetch_object url (store_attachments env c objects) = fetch_object url objects.
Proof.
  intros Hne. unfold store_attachments, upload_attachment,
    uploadFingerprintToStorage, uploadPhotoToStorage, uploadToStorage.
  assert (Hskip : forall b s d o,
            fetch_object url ((mkUrl b (Citizen.uniqueId c) s, d) :: o)
            = fetch_object url o).
  { intros b s d o. simpl. rewrite bool_decide_eq_false_2; [done|].
    intros <-. by apply Hne. }
  destruct (Citizen.photoData c) as [p|], (Citizen.fingerprintData c) as [f|];
    repeat match goal with
           | |- context [if ?b then _ else _] => destruct b
           end; cbn [fst snd]; rewrite ?Hskip; done.
Qed.

Lemma store_attachments_photo env c d objects :
  photo_transferred env (Citizen.id c) = true ->
  Citizen.photoData c = Some d -> truthy_string d = true ->
  fetch_object (mkUrl citizen_photos (Citizen.uniqueId c)
                  (photo_stamp env (Citizen.id c)))
    (store_attachments env c objects) = Some d.
Proof.
  intros Ht Ed Td. unfold store_attachments, upload_attachment,
    uploadFingerprintToStorage, uploadPhotoToStorage, uploadToStorage.
  rewrite Ht, Ed, Td. cbn [fst snd].
  destruct (Citizen.fingerprintData c) as [f|];
    repeat match goal with
           | |- context [if ?b then _ else _] => destruct b
           end; cbn [fst snd fetch_object];
    rewrite ?bool_decide_eq_false_2 by discriminate;
    by rewrite bool_decide_eq_true_2.
Qed.

Lemma store_attachments_fingerprint env c d objects :
  fingerprint_transferred env (Citizen.id c) = true ->
  Citizen.fingerprintData c = Some d -> truthy_string d = true ->
  fetch_object (mkUrl citizen_fingerprints (Citizen.uniqueId c)
                  (fingerprint_stamp env (Citizen.id c)))
    (store_attachments env c objects) = Some d.
Proof.
  intros Ht Ed Td. unfold store_attachments, upload_attachment,
    uploadFingerprintToStorage, uploadPhotoToStorage, uploadToStorage.
  rewrite Ht, Ed, Td. cbn [fst snd fetch_object].
  by rewrite bool_decide_eq_true_2.
Qed.

Lemma objects_after_other env hs vs ws l : forall objects url,
  owner url ∉ Citizen.uniqueId <$> l ->
  fetch_object url (objects_after env hs vs ws l objects)
  = fetch_object url objects.
Proof.
  induction l as [|a l IH]; intros objects url Hne; [done|].
  unfold objects_after in *. simpl. rewrite fmap_cons in Hne.
  rewrite IH by (intros ?; apply Hne, elem_of_cons; auto).
  destruct (citizen_rows env "" hs vs ws a); [|done].
  apply store_attachments_other. intros E. apply Hne. rewrite E.
  apply elem_of_cons; auto.
Qed.

Lemma objects_after_fetch env hs vs ws l : forall objects c url d,
  NoDup (Citizen.uniqueId <$> l) -> c ∈ l ->
  is_Some (citizen_rows env "" hs vs ws c) ->
  owner url = Citizen.uniqueId c ->
  (forall o, fetch_object url (store_attachments env c o) = Some d) ->
  fetch_object url (objects_after env hs vs ws l objects) = Some d.
Proof.
  induction l as [|a l IH]; intros objects c url d Hnd Hc Hb Ho Hf;
    [by apply elem_of_nil in Hc|].
  rewrite fmap_cons in Hnd. apply NoDup_cons in Hnd as [Ha Hnd].
  unfold objects_after in *. simpl.
  apply elem_of_cons in Hc as [-> |Hc].
  - destruct Hb as [f ->].
    fold (objects_after env hs vs ws l (store_attachments env a objects)).
    rewrite objects_after_other by (by rewrite Ho). apply Hf.
  - by apply (IH _ c).
Qed.

(** ** Round trip *)

Lemma NoDup_fmap_on {A B C} (f : A -> B) (g : A -> C) (l : list A) :
  NoDup (f <$> l) ->
  (forall x y, x ∈ l -> y ∈ l -> g x = g y -> f x = f y) ->
  NoDup (g <$> l).
Proof.
  induction l as [|a l IH]; simpl; [constructor|].
  intros [Ha Hl]%NoDup_cons Hinj. apply NoDup_cons. split.
  - intros [x [E Hx]]%list_elem_of_fmap. apply Ha.
    rewrite (Hinj a x); [by apply list_elem_of_fmap_2| | |done];
      apply elem_of_cons; auto.
  - apply IH; [done|]. intros x y Hx Hy. apply Hinj; apply elem_of_cons; auto.
Qed.

Section RoundTrip.
Variables (env : UploadEnv) (denv : DownloadEnv) (local : Local.t).
Hypothesis Hans : answering env.
Hypothesis Hsent : attachments_sent env.
Hypothesis Hrest : restoring_ok denv.
Hypothesis Hfetched : attachments_fetched denv.
Hypothesis Hlocal : local_ok local.
Hypothesis Hkeys : natural_keys_unique local.
Hypothesis Hcomplete : hierarchy_complete local.
Hypothesis Hfresh : fresh_ids env local Remote.empty.

Abbreviation uw := (randomUUID env TWard).
Abbreviation uv := (randomUUID env TVillage).
Abbreviation uh := (randomUUID env THousehold).
Abbreviation uc := (randomUUID env TCitizen).
Abbreviation lw := (rows (Local.wards local)).
Abbreviation lv := (rows (Local.villages local)).
Abbreviation lh := (rows (Local.households local)).
Abbreviation lc := (rows (Local.citizens local)).
Abbreviation dev := (device_of env (Local.settings local)).

Abbreviation ward_row := (ward_row env).

Abbreviation village_row := (village_row env).

Abbreviation household_row := (household_row env).

Abbreviation citizen_row := (citizen_row env local).

Lemma wards_sent :
  (wards_pass env local Remote.empty).1 = ward_row <$> lw
  /\ forall k, k ∈ Ward.id <$> lw ->
       (wards_pass env local Remote.empty).2 !! k = Some (uw k)
       /\ truthy_string (uw k) = true.
Proof.
  destruct Hlocal as ((Hi & _) & _), Hkeys as (Hc & _), Hfresh as (Hf & _).
  destruct (upsert_fresh Ward.id Ward.code SupabaseWard.id SupabaseWard.code
              (ward_patch env) ward_rows (fun w => uw (Ward.id w)) ward_row
              lw [] ∅)
    as (E1 & E2 & _); try done.
  - intros w _. by intros ?%elem_of_nil.
  - intros w _. by eexists.
  - split; [done|]. intros k [w [-> Hw]]%list_elem_of_fmap.
    split; [by apply E2 | by apply (Hf w)].
Qed.

Lemma villages_sent :
  (villages_pass env local Remote.empty).1 = village_row <$> lv
  /\ forall k, k ∈ Village.id <$> lv ->
       (villages_pass env local Remote.empty).2 !! k = Some (uv k)
       /\ truthy_string (uv k) = true.
Proof.
  destruct Hlocal as (_ & (Hi & _) & _), Hkeys as (_ & Hc & _),
    Hfresh as (_ & Hf & _), Hcomplete as (Hp & _), wards_sent as [_ Hw].
  destruct (upsert_fresh Village.id Village.code SupabaseVillage.id
              SupabaseVillage.code (village_patch env)
              (village_rows (wards_pass env local Remote.empty).2)
              (fun v => uv (Village.id v)) village_row lv [] ∅)
    as (E1 & E2 & _); try done.
  - intros v _. by intros ?%elem_of_nil.
  - intros v Hv. unfold builds, village_rows.
    destruct (Hw _ (Hp v Hv)) as [-> ->]. by eexists.
  - split; [done|]. intros k [v [-> Hv]]%list_elem_of_fmap.
    split; [by apply E2 | by apply (Hf v)].
Qed.

Lemma households_sent :
  (households_pass env local Remote.empty).1 = household_row <$> lh
  /\ forall k, k ∈ Household.id <$> lh ->
       (households_pass env local Remote.empty).2 !! k = Some (uh k)
       /\ truthy_string (uh k) = true.
Proof.
  destruct Hlocal as (_ & _ & (Hi & _) & _), Hkeys as (_ & _ & Hc & _),
    Hfresh as (_ & _ & Hf & _), Hcomplete as (_ & Hp & _),
    villages_sent as [_ Hv].
  destruct (upsert_fresh Household.id Household.code SupabaseHousehold.id
              SupabaseHousehold.code (household_patch env)
              (household_rows env (villages_pass env local Remote.empty).2)
              (fun h => uh (Household.id h)) household_row lh [] ∅)
    as (E1 & E2 & _); try done.
  - intros h _. by intros ?%elem_of_nil.
  - intros h Hh. unfold builds, household_rows.
    destruct (Hv _ (Hp h Hh)) as [-> ->]. by eexists.
  - split; [done|]. intros k [h [-> Hh]]%list_elem_of_fmap.
    split; [by apply E2 | by apply (Hf h)].
Qed.

Lemma member_rows_sent d c :
  c ∈ lc ->
  member_rows env d local Remote.empty c
  = Some (fun u =>
      set_fingerprint_url (fingerprint_url_of env c)
        (set_photo_url (photo_url_of env c)
           (citizenToSupabase d (now env (Citizen.id c)) u c
              (uh (Citizen.householdId c)) (uv (Citizen.villageId c))
              (uw (Citizen.wardId c)) None))).
Proof.
  intros Hc. destruct Hcomplete as (_ & _ & Hp).
  destruct (Hp c Hc) as (Ph & Pv & Pw).
  destruct wards_sent as [_ Hw], villages_sent as [_ Hv],
    households_sent as [_ Hh].
  unfold member_rows, citizen_rows.
  destruct (Hh _ Ph) as [-> ->], (Hv _ Pv) as [-> ->], (Hw _ Pw) as [-> ->].
  reflexivity.
Qed.

Lemma citizens_sent :
  citizens_pass env dev local Remote.empty = citizen_row <$> lc.
Proof.
  destruct Hlocal as (_ & _ & _ & (Hi & _)), Hkeys as (_ & _ & _ & Hc),
    Hfresh as (_ & _ & _ & Hf).
  destruct (upsert_fresh Citizen.id Citizen.uniqueId SupabaseCitizen.id
              SupabaseCitizen.unique_id (citizen_patch env)
              (member_rows env dev local Remote.empty)
              (fun c => uc (Citizen.id c)) citizen_row lc [] ∅)
    as (E1 & _); try done.
  - intros c _. by intros ?%elem_of_nil.
  - intros c Hcin. unfold builds. rewrite member_rows_sent by done.
    eexists. split; [done|]. unfold citizen_row.
    destruct (fingerprint_url_of env c), (photo_url_of env c); done.
Qed.

Abbreviation uploaded_remote := (uploaded_remote env local).

Lemma upload_outcome :
  remote_after (syncToSupabase env local Remote.empty) = uploaded_remote
  /\ errors (result (syncToSupabase env local Remote.empty)) = [].
Proof.
  unfold syncToSupabase. destruct Hans as [-> _]. cbn [negb remote_after result].
  destruct (upload_all_shape env local Remote.empty Hans)
    as (res & s' & -> & _ & _ & _ & Herr). projections.
  destruct wards_sent as [Ew Pw], villages_sent as [Ev Pv],
    households_sent as [Eh Ph].
  rewrite Ew, Ev, Eh, citizens_sent. split; [done|].
  unfold finish. cbn [errors]. rewrite Herr; [done|..].
  - intros v Hv. unfold village_rows. destruct Hcomplete as (Hp & _).
    destruct (Pw _ (Hp v Hv)) as [-> ->]. by eexists.
  - intros h Hh. unfold household_rows. destruct Hcomplete as (_ & Hp & _).
    destruct (Pv _ (Hp h Hh)) as [-> ->]. by eexists.
  - intros c Hc. rewrite member_rows_sent by done. by eexists.
Qed.

(** *** The download of what was uploaded *)

Abbreviation wb := (wards_back Local.empty uploaded_remote).
Abbreviation vb := (villages_back Local.empty uploaded_remote).
Abbreviation hb := (households_back Local.empty uploaded_remote).

Abbreviation new_ward := (new_ward env local).
Abbreviation new_village := (new_village env local).
Abbreviation new_household := (new_household env local).

Lemma wards_restored :
  rows wb.1 ≡ₚ relabel_ward new_ward <$> lw
  /\ forall k, k ∈ Ward.id <$> lw -> exists n, wb.2 !! uw k = Some n /\ 1 <= n.
Proof.
  destruct Hlocal as ((Hi & _) & _), Hkeys as (Hc & _), Hfresh as (Hf & _).
  destruct (tier_round_trip SupabaseWard.id SupabaseWard.code Ward.code
              ward_fields supabaseToWard SupabaseWard.created_at ward_row
              lw (mkTable [] 1)) as [E1 E2]; try done.
  - apply (NoDup_fmap_on Ward.id); [done|]. intros x y Hx Hy E.
    by apply (Hf x Hx).
  - intros w _. by eexists.
  - split; [exact E1|].
    intros k [w [-> Hw]]%list_elem_of_fmap. by apply E2.
Qed.

Lemma villages_restored :
  rows vb.1 ≡ₚ relabel_village new_ward new_village <$> lv
  /\ forall k, k ∈ Village.id <$> lv -> exists n, vb.2 !! uv k = Some n /\ 1 <= n.
Proof.
  destruct Hlocal as (_ & (Hi & _) & _), Hkeys as (_ & Hc & _),
    Hfresh as (_ & Hf & _), Hcomplete as (Hp & _), wards_restored as [_ Hw].
  destruct (tier_round_trip SupabaseVillage.id SupabaseVillage.code Village.code
              (village_fields wb.2)
              (fun r => supabaseToVillage r
                          (default 0 (wb.2 !! SupabaseVillage.ward_id r)))
              SupabaseVillage.created_at village_row lv (mkTable [] 1))
    as [E1 E2]; try done.
  - apply (NoDup_fmap_on Village.id); [done|]. intros x y Hx Hy E.
    by apply (Hf x Hx).
  - intros v Hv. unfold restores, village_fields. cbn [village_row
      villageToSupabase SupabaseVillage.ward_id].
    destruct (Hw _ (Hp v Hv)) as (n & -> & Hn).
    destruct n as [|n]; [lia|]. by eexists.
  - split; [exact E1|].
    intros k [v [-> Hv]]%list_elem_of_fmap. by apply E2.
Qed.

Lemma households_restored :
  rows hb.1
  ≡ₚ (fun h => relabel_household new_village new_household
                 (household_as_restored env h)) <$> lh
  /\ forall k, k ∈ Household.id <$> lh ->
       exists n, hb.2 !! uh k = Some n /\ 1 <= n.
Proof.
  destruct Hlocal as (_ & _ & (Hi & _) & _), Hkeys as (_ & _ & Hc & _),
    Hfresh as (_ & _ & Hf & _), Hcomplete as (_ & Hp & _),
    villages_restored as [_ Hv].
  destruct (tier_round_trip SupabaseHousehold.id SupabaseHousehold.code
              Household.code (household_fields vb.2)
              (fun r => supabaseToHousehold r
                          (default 0 (vb.2 !! SupabaseHousehold.village_id r)))
              SupabaseHousehold.created_at household_row lh (mkTable [] 1))
    as [E1 E2]; try done.
  - apply (NoDup_fmap_on Household.id); [done|]. intros x y Hx Hy E.
    by apply (Hf x Hx).
  - intros h Hh. unfold restores, household_fields. cbn [household_row
      stored_household householdToSupabase SupabaseHousehold.village_id].
    destruct (Hv _ (Hp h Hh)) as (n & -> & Hn).
    destruct n as [|n]; [lia|]. by eexists.
  - split; [exact E1|].
    intros k [h [-> Hh]]%list_elem_of_fmap. by apply E2.
Qed.

Lemma citizen_row_urls c :
  SupabaseCitizen.photo_url (citizen_row c) = photo_url_of env c
  /\ SupabaseCitizen.fingerprint_url (citizen_row c) = fingerprint_url_of env c.
Proof.
  unfold citizen_row.
  destruct (fingerprint_url_of env c), (photo_url_of env c); done.
Qed.

Lemma photo_comes_back c :
  c ∈ lc ->
  download_attachment (photo_fetched denv (SupabaseCitizen.id (citizen_row c)))
    (SupabaseCitizen.photo_url (citizen_row c))
    (objects_pass env local Remote.empty)
  = present (Citizen.photoData c).
Proof.
  intros Hc. rewrite (proj1 (citizen_row_urls c)), (proj1 (Hfetched _)).
  unfold photo_url_of, upload_attachment, present, truthy_opt_string.
  destruct (Citizen.photoData c) as [d|] eqn:Ed; [|done].
  destruct (truthy_string d) eqn:Td; [|done].
  unfold uploadPhotoToStorage, uploadToStorage.
  rewrite (proj1 (Hsent _)). cbn [fst download_attachment downloadFromStorage].
  destruct Hkeys as (_ & _ & _ & Hnd).
  apply (objects_after_fetch _ _ _ _ _ _ c); try done.
  - pose proof (member_rows_sent "" c Hc) as E. unfold member_rows in E.
    rewrite E. by eexists.
  - intros o. apply store_attachments_photo; [apply Hsent|done..].
Qed.

Lemma fingerprint_comes_back c :
  c ∈ lc ->
  download_attachment
    (fingerprint_fetched denv (SupabaseCitizen.id (citizen_row c)))
    (SupabaseCitizen.fingerprint_url (citizen_row c))
    (objects_pass env local Remote.empty)
  = present (Citizen.fingerprintData c).
Proof.
  intros Hc. rewrite (proj2 (citizen_row_urls c)), (proj2 (Hfetched _)).
  unfold fingerprint_url_of, upload_attachment, present, truthy_opt_string.
  destruct (Citizen.fingerprintData c) as [d|] eqn:Ed; [|done].
  destruct (truthy_string d) eqn:Td; [|done].
  unfold uploadFingerprintToStorage, uploadToStorage.
  rewrite (proj2 (Hsent _)). cbn [fst download_attachment downloadFromStorage].
  destruct Hkeys as (_ & _ & _ & Hnd).
  apply (objects_after_fetch _ _ _ _ _ _ c); try done.
  - pose proof (member_rows_sent "" c Hc) as E. unfold member_rows in E.
    rewrite E. by eexists.
  - intros o. apply store_attachments_fingerprint; [apply Hsent|done..].
Qed.

Lemma restored_member c h v w k p f :
  set_fingerprintData (present f)
    (set_photoData (present p)
       (supabaseToCitizen (citizen_row c) h v w k))
  = Citizen.mk k (Citizen.uniqueId c) h v w (Citizen.firstName c)
      (Citizen.lastName c) (Citizen.otherNames c) (Citizen.sex c)
      ((fun d => date_of_iso_date (iso_date d)) <$> Citizen.dateOfBirth c)
      (Citizen.age c) (Citizen.phoneNumber c) (Citizen.occupation c)
      (Citizen.disabilityStatus c) (Citizen.disabilityNotes c)
      (present p) (present f) (Citizen.notes c) (Citizen.consentGiven c)
      (Citizen.consentDate c) (Citizen.recorderName c) (Citizen.createdAt c)
      (Citizen.updatedAt c).
Proof.
  unfold citizen_row, set_fingerprintData, set_photoData, present,
    truthy_opt_string, supabaseToCitizen, citizenToSupabase.
  destruct (fingerprint_url_of env c), (photo_url_of env c);
    (destruct p as [p|]; [destruct (truthy_string p) eqn:Tp|]);
    (destruct f as [f|]; [destruct (truthy_string f) eqn:Tf|]);
    cbn; rewrite ?Tp, ?Tf; cbn; rewrite ?Tp, ?Tf;
    destruct (Citizen.dateOfBirth c); reflexivity.
Qed.

Lemma citizen_row_keys c :
  SupabaseCitizen.id (citizen_row c) = uc (Citizen.id c)
  /\ SupabaseCitizen.unique_id (citizen_row c) = Citizen.uniqueId c
  /\ SupabaseCitizen.household_id (citizen_row c) = uh (Citizen.householdId c)
  /\ SupabaseCitizen.village_id (citizen_row c) = uv (Citizen.villageId c)
  /\ SupabaseCitizen.ward_id (citizen_row c) = uw (Citizen.wardId c).
Proof.
  unfold citizen_row.
  destruct (fingerprint_url_of env c), (photo_url_of env c); done.
Qed.

Lemma village_restores v :
  v ∈ lv ->
  restores SupabaseVillage.code Village.code (village_fields wb.2)
    (fun r => supabaseToVillage r (default 0 (wb.2 !! SupabaseVillage.ward_id r)))
    (village_row v).
Proof.
  intros Hv. destruct Hcomplete as (Hp & _), wards_restored as [_ Hw].
  unfold restores, village_fields.
  cbn [village_row villageToSupabase SupabaseVillage.ward_id].
  destruct (Hw _ (Hp v Hv)) as (n & -> & Hn).
  destruct n as [|n]; [lia|]. by eexists.
Qed.

Lemma household_restores h :
  h ∈ lh ->
  restores SupabaseHousehold.code Household.code (household_fields vb.2)
    (fun r => supabaseToHousehold r
                (default 0 (vb.2 !! SupabaseHousehold.village_id r)))
    (household_row h).
Proof.
  intros Hh. destruct Hcomplete as (_ & Hp & _), villages_restored as [_ Hv].
  unfold restores, household_fields.
  cbn [household_row stored_household householdToSupabase
       SupabaseHousehold.village_id].
  destruct (Hv _ (Hp h Hh)) as (n & -> & Hn).
  destruct n as [|n]; [lia|]. by eexists.
Qed.

Abbreviation restored_row := (restored_row env denv local).

Lemma set_attachments_code p f c :
  Citizen.uniqueId (set_fingerprintData f (set_photoData p c)) = Citizen.uniqueId c.
Proof.
  unfold set_fingerprintData, set_photoData.
  destruct (truthy_opt_string f), (truthy_opt_string p); done.
Qed.

Lemma citizen_restores c :
  c ∈ lc ->
  restores SupabaseCitizen.unique_id Citizen.uniqueId
    (member_fields denv Local.empty uploaded_remote) restored_row (citizen_row c).
Proof.
  intros Hc. destruct Hcomplete as (_ & _ & Hp).
  destruct (Hp c Hc) as (Ph & Pv & Pw).
  destruct wards_restored as [_ Hw], villages_restored as [_ Hv],
    households_restored as [_ Hh].
  destruct (citizen_row_keys c) as (_ & _ & Eh & Ev & Ew).
  unfold restores, member_fields, citizen_fields, restored_row.
  cbn [Remote.objects uploaded_remote]. rewrite Eh, Ev, Ew.
  destruct (Hh _ Ph) as (nh & -> & Hnh), (Hv _ Pv) as (nv & -> & Hnv),
    (Hw _ Pw) as (nw & -> & Hnw).
  destruct nh as [|nh]; [lia|]. destruct nv as [|nv]; [lia|].
  destruct nw as [|nw]; [lia|]. cbn [truthy_number andb default].
  eexists. split; [done|]. intros k. split; [done|].
  by rewrite set_attachments_code.
Qed.

Lemma citizens_restored :
  exists new_citizen : nat -> nat,
    rows (citizens_back denv Local.empty uploaded_remote)
    ≡ₚ (fun c => relabel_citizen new_ward new_village new_household new_citizen
                   (as_restored c)) <$> lc.
Proof.
  destruct Hlocal as (_ & _ & _ & (Hi & _)), Hkeys as (_ & _ & _ & Hc),
    Hfresh as (_ & _ & _ & Hf).
  destruct (tier_round_trip SupabaseCitizen.id SupabaseCitizen.unique_id
              Citizen.uniqueId (member_fields denv Local.empty uploaded_remote)
              restored_row SupabaseCitizen.created_at citizen_row
              lc (mkTable [] 1)) as [E1 _]; try done.
  - apply (NoDup_fmap_on Citizen.uniqueId); [done|]. intros x y _ _.
    by rewrite !(proj1 (proj2 (citizen_row_keys _))).
  - apply (NoDup_fmap_on Citizen.id); [done|]. intros x y Hx Hy.
    rewrite !(proj1 (citizen_row_keys _)). by apply (Hf x Hx).
  - apply citizen_restores.
  - match type of E1 with
    | rows (fold_left ?step ?rs ?s0).1 ≡ₚ _ =>
        exists (fun k => default 0 ((fold_left step rs s0).2 !! uc k))
    end.
    unfold citizens_back. cbn [Remote.citizens uploaded_remote Local.citizens
      Local.empty]. rewrite E1.
    match goal with
    | |- _ ≡ₚ ?g <$> _ => rewrite (Forall_fmap_ext_1 _ g); [done|]
    end.
    apply Forall_forall. intros c Hcin. cbn beta. unfold restored_row.
    rewrite photo_comes_back, fingerprint_comes_back, restored_member by done.
    destruct (citizen_row_keys c) as (-> & _ & -> & -> & ->).
    reflexivity.
Qed.

Lemma download_outcome :
  let down := restoreFromSupabase denv Local.empty uploaded_remote in
  errors (result down) = []
  /\ exists new_citizen : nat -> nat,
       rows (Local.wards (local_after down)) ≡ₚ relabel_ward new_ward <$> lw
       /\ rows (Local.villages (local_after down))
          ≡ₚ relabel_village new_ward new_village <$> lv
       /\ rows (Local.households (local_after down))
          ≡ₚ (fun h => relabel_household new_village new_household
                         (household_as_restored env h)) <$> lh
       /\ rows (Local.citizens (local_after down))
          ≡ₚ (fun c => relabel_citizen new_ward new_village new_household
                         new_citizen (as_restored c)) <$> lc.
Proof.
  intros down. subst down. unfold restoreFromSupabase.
  destruct Hrest as (-> & _). cbn [negb result local_after].
  destruct (download_all_shape denv Local.empty uploaded_remote Hrest)
    as (res & -> & Herr). dn_projections. split.
  - unfold finish. cbn [errors]. rewrite Herr; [done|..].
    + intros r [v [-> Hv]]%list_elem_of_fmap.
      destruct (village_restores v Hv) as (f & -> & _). by eexists.
    + intros r [h [-> Hh]]%list_elem_of_fmap.
      destruct (household_restores h Hh) as (f & -> & _). by eexists.
    + intros r [c [-> Hc]]%list_elem_of_fmap.
      destruct (citizen_restores c Hc) as (f & -> & _). by eexists.
  - destruct citizens_restored as [new_citizen Ec]. exists new_citizen.
    unfold with_settings. cbn [Local.wards Local.villages Local.households
      Local.citizens].
    split; [apply wards_restored|]. split; [apply villages_restored|].
    split; [apply households_restored|]. exact Ec.
Qed.

End RoundTrip.

(** *** The two runs, end to end *)

Lemma NoDup_fmap_injective {A B} (f : A -> B) (l : list A) x y :
  NoDup (f <$> l) -> x ∈ l -> y ∈ l -> f x = f y -> x = y.
Proof.
  induction l as [|a l IH]; simpl; [by intros _ ?%elem_of_nil|].
  intros [Hnotin Hnd]%NoDup_cons [-> |Hx]%elem_of_cons [-> |Hy]%elem_of_cons E.
  - done.
  - exfalso; apply Hnotin. rewrite E. by apply list_elem_of_fmap_2.
  - exfalso; apply Hnotin. rewrite <- E. by apply list_elem_of_fmap_2.
  - auto.
Qed.

(** Rows with distinct keys that are the renamed rows of [l] tell the
    renaming to be one to one on the keys of [l]. *)
Lemma renaming_injective {R} `{Keyed R} (f : nat -> nat) (g : R -> R)
    (T l : list R) :
  NoDup (primary_key <$> T) -> T ≡ₚ g <$> l ->
  (forall x, primary_key (g x) = f (primary_key x)) ->
  injective_on f (primary_key <$> l).
Proof.
  intros Hnd Hperm Hg.
  assert (Hnd' : NoDup (f <$> (primary_key <$> l))).
  { rewrite <- list_fmap_compose.
    rewrite (fmap_ext_all (f ∘ primary_key) (primary_key ∘ g))
      by (intros x; simpl; by rewrite Hg).
    rewrite list_fmap_compose, <- Hperm. done. }
  intros a b Ha Hb E. by apply (NoDup_fmap_injective f (primary_key <$> l)).
Qed.




End SyncFacts.

(** * The edit distance behind the similarity score *)

(** ** The matrix computes the recursive distance *)

Module LevenshteinFacts.
Import Validation EditDistance.

Lemma dist_nil_l b : dist [] b = length b.
Proof. reflexivity. Qed.

Lemma dist_nil_r a : dist a [] = length a.
Proof. by destruct a. Qed.

Lemma dist_cons c a d b :
  dist (c :: a) (d :: b)
  = Nat.min (Nat.min (dist a (d :: b) + 1) (dist (c :: a) b + 1))
            (dist a b + cost c d).
Proof. reflexivity. Qed.

#[local] Opaque dist.

Lemma cost_sym c d : cost c d = cost d c.
Proof. unfold cost. by rewrite Ascii.eqb_sym. Qed.

Lemma dist_sym a : forall b, dist a b = dist b a.
Proof.
  induction a as [|c a IHa]; intros b.
  - by rewrite dist_nil_l, dist_nil_r.
  - induction b as [|d b IHb]; [by rewrite dist_nil_l, dist_nil_r|].
    rewrite !dist_cons, IHb, (IHa (d :: b)), (IHa b), (cost_sym c d).
    f_equal. apply Nat.min_comm.
Qed.

Lemma dist_upper a : forall b, dist a b <= Nat.max (length a) (length b).
Proof.
  induction a as [|c a IHa]; intros b; [rewrite dist_nil_l; simpl; lia|].
  destruct b as [|d b]; [rewrite dist_nil_r; lia|].
  rewrite dist_cons. specialize (IHa b). unfold cost.
  destruct (Ascii.eqb c d); cbn [length]; lia.
Qed.

Lemma dist_lower a :
  forall b, length a - length b <= dist a b /\ length b - length a <= dist a b.
Proof.
  induction a as [|c a IHa]; intros b; [rewrite dist_nil_l; simpl; lia|].
  induction b as [|d b IHb]; [rewrite dist_nil_r; simpl; lia|].
  rewrite dist_cons.
  pose proof (IHa (d :: b)). pose proof (IHa b). cbn [length] in *. lia.
Qed.

Lemma dist_refl a : dist a a = 0.
Proof.
  induction a as [|c a IH]; [done|].
  rewrite dist_cons, IH. unfold cost. rewrite Ascii.eqb_refl. lia.
Qed.

Lemma dist_zero a : forall b, dist a b = 0 -> a = b.
Proof.
  induction a as [|c a IHa]; intros b.
  - rewrite dist_nil_l. by destruct b.
  - destruct b as [|d b]; [by rewrite dist_nil_r|].
    rewrite dist_cons. unfold cost. intros H.
    destruct (Ascii.eqb_spec c d) as [->|]; [|lia].
    f_equal. apply IHa. lia.
Qed.

(** *** The matrix computes [dist] *)

Lemma row_from_nil b s2 :
  row_from [] b s2 = seq (S (length b)) (length s2).
Proof.
  revert b. induction s2 as [|d s2 IH]; intros b; simpl; [done|].
  f_equal. by rewrite IH.
Qed.

Lemma next_cells_row c a s2 : forall b,
  next_cells c s2 (row_from a b s2) (dist a b) (dist (c :: a) b)
  = row_from (c :: a) b s2.
Proof.
  induction s2 as [|d s2 IH]; intros b; simpl; [done|].
  by rewrite <- (IH (d :: b)), dist_cons.
Qed.

Lemma next_row_row c a s2 :
  next_row (S (length a)) c s2 (dist a [] :: row_from a [] s2)
  = dist (c :: a) [] :: row_from (c :: a) [] s2.
Proof.
  unfold next_row. rewrite !dist_nil_r. simpl. f_equal.
  rewrite <- next_cells_row. by rewrite !dist_nil_r.
Qed.

Lemma matrix_rows_row s1 s2 : forall a,
  matrix_rows (length a) s1 s2 (dist a [] :: row_from a [] s2)
  = dist (rev s1 ++ a) [] :: row_from (rev s1 ++ a) [] s2.
Proof.
  induction s1 as [|c s1 IH]; intros a; [done|].
  cbn [matrix_rows rev]. rewrite next_row_row.
  change (S (length a)) with (length (c :: a)).
  rewrite (IH (c :: a)). by rewrite <- app_assoc.
Qed.

Lemma last_row_from a s2 : forall b x,
  List.last (x :: row_from a b s2) 0
  = match s2 with [] => x | _ => dist a (rev s2 ++ b) end.
Proof.
  induction s2 as [|d s2 IH]; intros b x; [done|].
  change (List.last (x :: row_from a b (d :: s2)) 0)
    with (List.last (dist a (d :: b) :: row_from a (d :: b) s2) 0).
  rewrite IH. simpl. rewrite <- app_assoc. by destruct s2.
Qed.

Lemma length_chars s : length (chars s) = String.length s.
Proof. induction s; simpl; auto. Qed.

Lemma levenshtein_dist s1 s2 :
  levenshtein s1 s2 = dist (rev (chars s1)) (rev (chars s2)).
Proof.
  unfold levenshtein. rewrite <- length_chars.
  pose proof (row_from_nil [] (chars s2)) as E. cbn [length] in E.
  change (seq 0 (S (length (chars s2))))
    with (0 :: seq 1 (length (chars s2))).
  rewrite <- E.
  pose proof (matrix_rows_row (chars s1) (chars s2) []) as H.
  rewrite dist_nil_l in H. cbn [length] in H. rewrite H.
  rewrite app_nil_r, last_row_from, app_nil_r.
  destruct (chars s2); [by rewrite !dist_nil_r|done].
Qed.

End LevenshteinFacts.

(** ** Similarity of names *)

Module SimilarityFacts.
Import Validation EditDistance LevenshteinFacts.

Lemma chars_app s t : chars (s ++ t)%string = chars s ++ chars t.
Proof. induction s as [|c s IH]; simpl; [done|]. by rewrite <- IH. Qed.

Lemma chars_inj s t : chars s = chars t -> s = t.
Proof.
  intros H. rewrite <- (string_of_list_ascii_of_string s),
    <- (string_of_list_ascii_of_string t). unfold chars in H. by rewrite H.
Qed.

Lemma length_rev_chars s : length (rev (chars s)) = String.length s.
Proof. by rewrite length_rev, length_chars. Qed.

(** X1. The distance the matrix of [stringSimilarity] ends with obeys the
    recurrence of the edit distance on the last characters of the two
    strings: against the empty string it is the length of the other
    string, and otherwise the least of a deletion, an insertion and a
    substitution, which is free when the last characters agree. *)
Theorem levenshtein_recurrence :
  (forall s, levenshtein "" s = String.length s)
  /\ (forall s, levenshtein s "" = String.length s)
  /\ (forall s1 s2 c d,
        levenshtein (s1 ++ String c "") (s2 ++ String d "")
        = Nat.min
            (Nat.min (levenshtein s1 (s2 ++ String d "") + 1)
                     (levenshtein (s1 ++ String c "") s2 + 1))
            (levenshtein s1 s2 + (if Ascii.eqb c d then 0 else 1))).
Proof.
  split; [|split].
  - intros s. by rewrite levenshtein_dist, dist_nil_l, length_rev_chars.
  - intros s. by rewrite levenshtein_dist, dist_nil_r, length_rev_chars.
  - intros s1 s2 c d. rewrite !levenshtein_dist, !chars_app. simpl.
    rewrite !rev_unit. apply dist_cons.
Qed.

Lemma levenshtein_sym s1 s2 : levenshtein s1 s2 = levenshtein s2 s1.
Proof. rewrite !levenshtein_dist. apply dist_sym. Qed.

(** X2. The distance and the similarity do not depend on which of the
    two names is the candidate and which the stored one. *)
Theorem stringSimilarity_sym str1 str2 :
  levenshtein str1 str2 = levenshtein str2 str1
  /\ stringSimilarity str1 str2 = stringSimilarity str2 str1.
Proof.
  split; [apply levenshtein_sym|].
  unfold stringSimilarity.
  rewrite (String.eqb_sym (trim (toLowerCase str1))).
  rewrite (orb_comm (String.length (trim (toLowerCase str1)) =? 0)%nat).
  by rewrite (Nat.max_comm (String.length (trim (toLowerCase str1)))),
    (levenshtein_sym (trim (toLowerCase str1))).
Qed.

Lemma levenshtein_le_max s1 s2 :
  levenshtein s1 s2 <= Nat.max (String.length s1) (String.length s2).
Proof.
  rewrite levenshtein_dist.
  pose proof (dist_upper (rev (chars s1)) (rev (chars s2))) as U.
  by rewrite !length_rev_chars in U.
Qed.

Lemma levenshtein_zero s1 s2 : levenshtein s1 s2 = 0 -> s1 = s2.
Proof.
  rewrite levenshtein_dist. intros H%dist_zero. apply chars_inj.
  by rewrite <- (rev_involutive (chars s1)), H, rev_involutive.
Qed.

(** X3. The distance is at least the difference of the two lengths and at
    most the greater length, and it is zero for equal strings only. *)
Theorem levenshtein_bounds s1 s2 :
  String.length s1 - String.length s2 <= levenshtein s1 s2
  /\ String.length s2 - String.length s1 <= levenshtein s1 s2
  /\ levenshtein s1 s2 <= Nat.max (String.length s1) (String.length s2)
  /\ (levenshtein s1 s2 = 0 <-> s1 = s2).
Proof.
  rewrite levenshtein_dist.
  pose proof (dist_lower (rev (chars s1)) (rev (chars s2))) as [L1 L2].
  pose proof (dist_upper (rev (chars s1)) (rev (chars s2))) as U.
  rewrite !length_rev_chars in *. split_and!; try done. split.
  - intros H%dist_zero. apply chars_inj.
    by rewrite <- (rev_involutive (chars s1)), H, rev_involutive.
  - intros ->. apply dist_refl.
Qed.

Lemma signal_table l m :
  m <= 128 -> l <= m ->
  (0.8 <? 1 - float_of_nat l / float_of_nat m)%float = (5 * l <? m).
Proof.
  intros Hm Hl.
  assert (T : forallb (fun m =>
                forallb (fun l =>
                  Bool.eqb (0.8 <? 1 - float_of_nat l / float_of_nat m)%float
                           (5 * l <? m))
                  (seq 0 (S m)))
                (seq 0 129) = true) by (vm_compute; reflexivity).
  rewrite forallb_forall in T. specialize (T m).
  rewrite forallb_forall in T. apply Bool.eqb_prop, T; apply in_seq; lia.
Qed.

Lemma length_zero s : String.length s = 0 <-> s = ""%string.
Proof. destruct s; simpl; split; congruence. Qed.

(** X4. For names of at most 128 characters the name signal fires, that
    is, the similarity exceeds 0.8, exactly when the two names are equal
    after lower-casing and trimming, or both are non-empty and differ by
    fewer than one edit per five characters of the longer one.  So two
    names of at most five characters fire only when they are equal. *)
Theorem name_signal_rule str1 str2 :
  let s1 := trim (toLowerCase str1) in
  let s2 := trim (toLowerCase str2) in
  Nat.max (String.length s1) (String.length s2) <= 128 ->
  ((0.8 <? stringSimilarity str1 str2)%float = true
   <-> s1 = s2
       \/ (s1 <> "" /\ s2 <> ""
           /\ 5 * levenshtein s1 s2 < Nat.max (String.length s1) (String.length s2))%string)
  /\ (Nat.max (String.length s1) (String.length s2) <= 5 ->
      ((0.8 <? stringSimilarity str1 str2)%float = true <-> s1 = s2)).
Proof.
  intros s1 s2 Hlen.
  assert (G : (0.8 <? stringSimilarity str1 str2)%float = true
              <-> s1 = s2
                  \/ (s1 <> "" /\ s2 <> ""
                      /\ 5 * levenshtein s1 s2
                         < Nat.max (String.length s1) (String.length s2))%string).
  { unfold stringSimilarity. fold s1 s2.
    destruct (String.eqb_spec s1 s2) as [E|E].
    { split; [by left|]. intros _. by vm_compute. }
    destruct (String.length s1 =? 0) eqn:E1.
    { apply Nat.eqb_eq, length_zero in E1. simpl. split; [by vm_compute|].
      intros [?|(? & _)]; done. }
    destruct (String.length s2 =? 0) eqn:E2.
    { apply Nat.eqb_eq, length_zero in E2. simpl. split; [by vm_compute|].
      intros [?|(_ & ? & _)]; done. }
    simpl. rewrite signal_table; [|done|apply levenshtein_le_max].
    rewrite Nat.ltb_lt. split; [intros H; right|intros [?|(_ & _ & ?)]; done].
    split_and!; [| |done]; intros Hs; apply length_zero in Hs.
    - by rewrite Hs in E1.
    - by rewrite Hs in E2. }
  split; [exact G|]. intros Hshort. rewrite G. split; [|by left].
  intros [?|(_ & _ & H)]; [done|].
  apply levenshtein_zero. lia.
Qed.

Lemma name_signal_rule_witness :
  (0.8 <? stringSimilarity " Mary-Anne " "maryanne")%float = true.
Proof.
  apply (proj1 (name_signal_rule " Mary-Anne " "maryanne" ltac:(vm_compute; lia))).
  right. vm_compute. split_and!; [done|done|lia].
Defined.

End SimilarityFacts.

(** * Case and surrounding white space *)

Module NormalFormFacts.
Import Validation AsciiTerms.

Lemma is_space_lower c : is_space (lower_ascii c) = is_space c.
Proof. by destruct c as [[] [] [] [] [] [] [] []]. Qed.

Lemma lower_lower c : lower_ascii (lower_ascii c) = lower_ascii c.
Proof. by destruct c as [[] [] [] [] [] [] [] []]. Qed.

Lemma toLowerCase_idem s : toLowerCase (toLowerCase s) = toLowerCase s.
Proof.
  induction s as [|c s IH]; [done|].
  cbn [toLowerCase]. by rewrite lower_lower, IH.
Qed.

Lemma trimStart_lower s : trimStart (toLowerCase s) = toLowerCase (trimStart s).
Proof.
  induction s as [|c s IH]; [done|].
  cbn [toLowerCase trimStart]. rewrite is_space_lower.
  by destruct (is_space c).
Qed.

Lemma trimEnd_lower s : trimEnd (toLowerCase s) = toLowerCase (trimEnd s).
Proof.
  induction s as [|c s IH]; [done|].
  cbn [toLowerCase trimEnd]. rewrite IH, is_space_lower.
  destruct (trimEnd s); [by destruct (is_space c)|done].
Qed.

Lemma trim_lower s : trim (toLowerCase s) = toLowerCase (trim s).
Proof. unfold trim. by rewrite trimStart_lower, trimEnd_lower. Qed.

Lemma trimEnd_idem s : trimEnd (trimEnd s) = trimEnd s.
Proof.
  induction s as [|c s IH]; [done|].
  cbn [trimEnd]. destruct (trimEnd s) as [|d r] eqn:E.
  - destruct (is_space c) eqn:Ec; [done|]. cbn [trimEnd]. by rewrite Ec.
  - cbn [trimEnd] in *. by rewrite IH.
Qed.

Lemma trimStart_starts s :
  match trimStart s with
  | String c _ => is_space c = false
  | EmptyString => True
  end.
Proof.
  induction s as [|c s IH]; [done|].
  cbn [trimStart]. by destruct (is_space c) eqn:E.
Qed.

Lemma trimStart_trimEnd s :
  match s with String c _ => is_space c = false | EmptyString => True end ->
  trimStart (trimEnd s) = trimEnd s.
Proof.
  destruct s as [|c s]; [done|]. intros Hc.
  cbn [trimEnd]. destruct (trimEnd s); rewrite ?Hc; cbn [trimStart]; by rewrite Hc.
Qed.

Lemma trim_idem s : trim (trim s) = trim s.
Proof.
  unfold trim. rewrite trimStart_trimEnd by apply trimStart_starts.
  apply trimEnd_idem.
Qed.

Lemma normal_form_trim s : trim (toLowerCase (trim s)) = trim (toLowerCase s).
Proof. by rewrite !trim_lower, trim_idem. Qed.

Lemma normal_form_lower s :
  trim (toLowerCase (toLowerCase s)) = trim (toLowerCase s).
Proof. by rewrite toLowerCase_idem. Qed.

(** X19. For two names made of ASCII characters, the similarity does not
    change when a name is trimmed or put in lower case first: the
    comparison ignores the case of the letters [A] to [Z] and surrounding
    ASCII white space, on either side. *)
Theorem stringSimilarity_ignores_case_and_margins str1 str2 :
  ascii_only str1 = true -> ascii_only str2 = true ->
  stringSimilarity (trim str1) str2 = stringSimilarity str1 str2
  /\ stringSimilarity (toLowerCase str1) str2 = stringSimilarity str1 str2
  /\ stringSimilarity str1 (trim str2) = stringSimilarity str1 str2
  /\ stringSimilarity str1 (toLowerCase str2) = stringSimilarity str1 str2.
Proof.
  intros _ _. unfold stringSimilarity.
  by rewrite !normal_form_trim, !normal_form_lower.
Qed.

Lemma stringSimilarity_ignores_case_and_margins_witness :
  stringSimilarity (trim "  Mary Kila ") "MARY KILA"
  = stringSimilarity "  Mary Kila " "MARY KILA"
  /\ stringSimilarity "  Mary Kila " (toLowerCase "MARY KILA")
     = stringSimilarity "  Mary Kila " "MARY KILA".
Proof.
  destruct (stringSimilarity_ignores_case_and_margins "  Mary Kila " "MARY KILA")
    as (H1 & _ & _ & H4); [reflexivity|reflexivity|].
  exact (conj H1 H4).
Defined.

End NormalFormFacts.

(** * Batch validation *)

Module BatchFacts.
Import Validation Batch BatchTerms.

Lemma elem_of_indexed {A} (l : list A) i x :
  (i, x) ∈ indexed l <-> l !! i = Some x.
Proof.
  unfold indexed.
  assert (G : forall k, (i, x) ∈ combine (seq k (length l)) l
                        <-> k <= i /\ l !! (i - k) = Some x).
  { induction l as [|a l IH]; intros k; simpl.
    - split; [by intros ?%elem_of_nil|by intros [_ ?]].
    - rewrite elem_of_cons, IH. split.
      + intros [[= -> ->]|[Hk Hl]].
        * split; [lia|]. by rewrite Nat.sub_diag.
        * split; [lia|]. by replace (i - k) with (S (i - S k)) by lia.
      + intros [Hk Hl]. destruct (decide (i = k)) as [->|Hne].
        * left. rewrite Nat.sub_diag in Hl. simpl in Hl. congruence.
        * right. split; [lia|].
          by replace (i - k) with (S (i - S k)) in Hl by lia. }
  rewrite G, Nat.sub_0_r. intuition lia.
Qed.

Section WithHost.
Variable toDateString : Date -> string.
Variable now : nat -> Date.
Variable existingCitizens : list Citizen.t.

Abbreviation batch_step := (batch_step toDateString now existingCitizens).
Abbreviation validateImportBatch :=
  (validateImportBatch toDateString now existingCitizens).
Abbreviation row_errors := (row_errors now).
Abbreviation row_valid := (row_valid now).
Abbreviation row_matches := (row_matches toDateString existingCitizens).
Abbreviation row_duplicates :=
  (row_duplicates toDateString now existingCitizens).

Lemma batch_step_closed skip acc ir :
  batch_step skip acc ir
  = mkBatch (valid acc ++ (if row_valid ir then [ir.2] else []))
      (errors acc ++ row_errors ir)
      (duplicates acc ++ (if skip then [] else row_duplicates ir)).
Proof.
  destruct ir as [i r]. unfold Batch.batch_step, BatchTerms.row_duplicates,
    BatchTerms.row_valid, BatchTerms.row_matches, BatchTerms.row_errors.
  cbn [fst snd].
  destruct (validateCitizenData (now (i + 1)) r (Some (i + 1))) as [|e es];
    cbn [length Nat.ltb Nat.leb negb].
  - rewrite !app_nil_r. destruct skip; cbn [negb]; [by rewrite app_nil_r|].
    destruct (findDuplicates _ _ _ _); cbn [length Nat.ltb Nat.leb];
      by rewrite ?app_nil_r.
  - by destruct skip; rewrite !app_nil_r.
Qed.

Lemma batch_fold_closed skip l : forall acc,
  fold_left (batch_step skip) l acc
  = mkBatch
      (valid acc ++ (snd <$> List.filter row_valid l))
      (errors acc ++ flat_map row_errors l)
      (duplicates acc ++ (if skip then [] else flat_map row_duplicates l)).
Proof.
  induction l as [|ir l IH]; intros acc.
  - simpl. destruct acc, skip; by rewrite !app_nil_r.
  - cbn [fold_left]. rewrite IH, batch_step_closed. cbn [valid errors duplicates].
    cbn [List.filter flat_map]. rewrite <- !app_assoc. f_equal.
    + f_equal. by destruct (row_valid ir).
    + by destruct skip.
Qed.

Lemma batch_outputs records skipDuplicateCheck :
  let result := validateImportBatch records skipDuplicateCheck in
  valid result = snd <$> List.filter row_valid (indexed records)
  /\ errors result = flat_map row_errors (indexed records)
  /\ duplicates result
     = if skipDuplicateCheck then []
       else flat_map row_duplicates (indexed records).
Proof.
  unfold Batch.validateImportBatch. by rewrite batch_fold_closed.
Qed.

(** X5. The three outputs of the batch validation are independent of one
    another: [valid] holds the records that have no validation error, in
    the order of the batch; [errors] holds the errors of all rows in the
    order of the batch, each with the row number of its record, counted
    from 1; [duplicates] holds, unless the check is switched off, one
    entry for each valid record that has matches in the store, under the
    row number of the record in the batch. *)
Theorem validateImportBatch_outputs records skipDuplicateCheck :
  let result := validateImportBatch records skipDuplicateCheck in
  valid result = snd <$> List.filter row_valid (indexed records)
  /\ errors result = flat_map row_errors (indexed records)
  /\ duplicates result
     = if skipDuplicateCheck then []
       else flat_map row_duplicates (indexed records).
Proof.
  unfold Batch.validateImportBatch. by rewrite batch_fold_closed.
Qed.

(** X6. What the batch validation reports about a record depends on the
    record and the store alone.  An entry of the duplicate report names a
    row of the batch whose record is valid and is kept in [valid]: matches
    are reported, they do not reject the record.  The matches are those
    of the record against the store at threshold 0.7, so against an empty
    store nothing is reported, also when the batch holds the same person
    twice.  An error names the row of a record that is not in [valid]
    because of it. *)
Theorem validateImportBatch_rows records skipDuplicateCheck :
  let result := validateImportBatch records skipDuplicateCheck in
  (forall rowNumber matches,
     (rowNumber, matches) ∈ duplicates result ->
     exists i record,
       rowNumber = i + 1 /\ records !! i = Some record
       /\ record ∈ valid result
       /\ matches = findDuplicates toDateString existingCitizens record 0.7%float
       /\ matches <> [])
  /\ (forall e,
        e ∈ errors result ->
        exists i record,
          row e = Some (i + 1) /\ records !! i = Some record
          /\ e ∈ validateCitizenData (now (i + 1)) record (Some (i + 1)))
  /\ (existingCitizens = [] -> duplicates result = [])
  /\ length (valid result) <= length records.
Proof.
  intros result.
  destruct (batch_outputs records skipDuplicateCheck)
    as (Ev & Ee & Ed). fold result in Ev, Ee, Ed.
  split_and!.
  - intros rowNumber matches Hin. rewrite Ed in Hin.
    destruct skipDuplicateCheck; [by apply elem_of_nil in Hin|].
    apply list_elem_of_In, in_flat_map in Hin as ([i r] & Hir & Hd).
    apply list_elem_of_In in Hir.
    unfold BatchTerms.row_duplicates in Hd.
    destruct (BatchTerms.row_valid now (i, r)) eqn:Hv; [|done].
    unfold BatchTerms.row_matches in Hd. cbn [fst snd] in Hd.
    destruct (findDuplicates toDateString existingCitizens r 0.7%float)
      as [|m ms] eqn:Em; [done|].
    destruct Hd as [[= <- <-]|[]].
    exists i, r. split_and!; try done.
    + by apply elem_of_indexed.
    + rewrite Ev. apply list_elem_of_fmap. exists (i, r). split; [done|].
      apply list_elem_of_In, filter_In. split; [by apply list_elem_of_In|done].
  - intros e Hin. rewrite Ee in Hin.
    apply list_elem_of_In, in_flat_map in Hin as ([i r] & Hir & He).
    apply list_elem_of_In, elem_of_indexed in Hir.
    unfold BatchTerms.row_errors in He. cbn [fst snd] in He.
    apply list_elem_of_In in He.
    exists i, r. split_and!; try done.
    unfold validateCitizenData, when in He.
    repeat (apply elem_of_app in He as [He|He]);
      repeat match type of He with
             | _ ∈ (if ?b then _ else _) => destruct b
             end;
      first [by apply elem_of_nil in He
            | by apply list_elem_of_singleton in He as ->].
  - intros ->. rewrite Ed. clear Ev Ee Ed.
    destruct skipDuplicateCheck; [done|].
    induction (indexed records) as [|ir l IH]; [done|].
    cbn [flat_map]. rewrite IH, app_nil_r.
    unfold BatchTerms.row_duplicates. by destruct (BatchTerms.row_valid now ir).
  - rewrite Ev, length_fmap. etransitivity; [apply filter_length_le|].
    unfold indexed. rewrite length_combine, length_seq. lia.
Qed.

End WithHost.

(** The same person twice in a batch, against an empty store. *)
Lemma validateImportBatch_rows_witness :
  let john := named (Some "John") (Some "Smith") (Some male) in
  duplicates
    (validateImportBatch ValidationTerms.utc_day_string (fun _ => 9000%Z) []
       [john; john] false) = [].
Proof.
  intros john.
  apply (validateImportBatch_rows ValidationTerms.utc_day_string
           (fun _ => 9000%Z) [] [john; john] false).
  reflexivity.
Defined.

End BatchFacts.

(** * Settings, PIN and member identifiers *)

(** ** Settings *)

Module DbFacts.
Import Db DbTerms.

Lemma find_map_keep {R} (p : R -> bool) (f : R -> R) (l : list R) :
  (forall r, p (f r) = p r) ->
  List.find p (map f l) = f <$> List.find p l.
Proof.
  intros Hp. induction l as [|a l IH]; simpl; [done|].
  rewrite Hp. by destruct (p a).
Qed.

Lemma where_key_modify k i v t :
  where_key k (modify i (fun s => mkSetting (id s) (key s) v) t)
  = (fun s => if (id s =? i)%nat then mkSetting (id s) (key s) v else s)
      <$> where_key k t.
Proof.
  unfold where_key, first_where, modify, primary_key, setting_keyed.
  cbn [rows]. apply find_map_keep. intros r. by destruct (id r =? i)%nat.
Qed.

Lemma where_key_add k k' v t :
  where_key k' (add (fun i => mkSetting i k v) t).2
  = match where_key k' t with
    | Some s => Some s
    | None => if String.eqb k k' then Some (mkSetting (nextId t) k v) else None
    end.
Proof.
  unfold where_key, first_where, add. cbn [snd rows].
  induction (rows t) as [|a l IH]; simpl; [done|].
  by destruct (String.eqb (key a) k').
Qed.

Lemma where_key_spec k t s :
  where_key k t = Some s -> s ∈ rows t /\ key s = k.
Proof.
  unfold where_key, first_where. intros H. apply find_some in H as [Hin Hk].
  split; [by apply list_elem_of_In|by apply String.eqb_eq].
Qed.

Lemma where_key_none k t :
  where_key k t = None -> k ∉ key <$> rows t.
Proof.
  unfold where_key, first_where. intros H [s [-> Hs]]%list_elem_of_fmap.
  apply list_elem_of_In in Hs.
  pose proof (find_none _ _ H s Hs) as Hk. simpl in Hk.
  by rewrite String.eqb_refl in Hk.
Qed.

Lemma same_id_same_setting (l : list AppSettings) s e :
  NoDup (id <$> l) -> s ∈ l -> e ∈ l -> id s = id e -> s = e.
Proof.
  induction l as [|a l IH]; [by intros _ ?%elem_of_nil|].
  rewrite fmap_cons, NoDup_cons. intros [Ha Hl].
  intros [->|Hs]%elem_of_cons [->|He]%elem_of_cons Hid; [done| | |by apply IH].
  - exfalso. apply Ha. rewrite Hid. by apply list_elem_of_fmap_2.
  - exfalso. apply Ha. rewrite <- Hid. by apply list_elem_of_fmap_2.
Qed.

Lemma map_keeps_keys (l : list AppSettings) (f : AppSettings -> AppSettings) :
  (forall r, id (f r) = id r) -> (forall r, key (f r) = key r) ->
  id <$> map f l = id <$> l /\ key <$> map f l = key <$> l.
Proof.
  intros Hi Hk. induction l as [|a l [IH1 IH2]]; [done|].
  cbn [map fmap list_fmap] in *. by rewrite Hi, Hk, IH1, IH2.
Qed.

Lemma setting_written k v t :
  settings_ok t ->
  getAppSetting k (setAppSetting k v t) = Some v
  /\ (forall v', setAppSetting k v' (setAppSetting k v t) = setAppSetting k v' t)
  /\ (forall k', k' <> k ->
        getAppSetting k' (setAppSetting k v t) = getAppSetting k' t).
Proof.
  intros (Hid & Hlt & Hkey). split_and!.
  - unfold getAppSetting, setAppSetting.
    destruct (where_key k t) as [e|] eqn:E.
    + rewrite where_key_modify, E. simpl. by rewrite Nat.eqb_refl.
    + rewrite where_key_add, E. by rewrite String.eqb_refl.
  - intros v'. unfold setAppSetting.
    destruct (where_key k t) as [e|] eqn:E.
    + rewrite where_key_modify, E. cbn [fmap option_fmap option_map].
      rewrite Nat.eqb_refl. cbn [id].
      unfold modify. cbn [rows nextId]. f_equal. rewrite map_map.
      apply map_ext. intros r. unfold primary_key, setting_keyed.
      by destruct (Db.id r =? Db.id e)%nat eqn:Er; cbn [id]; rewrite Er.
    + rewrite where_key_add, E, String.eqb_refl.
      unfold modify, add. cbn [snd rows nextId id]. f_equal.
      unfold primary_key, setting_keyed.
      rewrite map_app. cbn [map id]. rewrite Nat.eqb_refl. f_equal.
      rewrite <- (map_id (rows t)) at 2. apply map_ext_in.
      intros r Hr. destruct (Db.id r =? nextId t)%nat eqn:Er; [|done].
      apply Nat.eqb_eq in Er. rewrite Forall_forall in Hlt.
      apply list_elem_of_In, Hlt in Hr. lia.
  - intros k' Hk'. unfold getAppSetting, setAppSetting.
    destruct (where_key k t) as [e|] eqn:E.
    + rewrite where_key_modify.
      destruct (where_key k' t) as [s|] eqn:E'; [|done].
      cbn [fmap option_fmap option_map]. f_equal.
      destruct (Db.id s =? Db.id e)%nat eqn:Er; [|done].
      apply Nat.eqb_eq in Er.
      apply where_key_spec in E as [He Hke], E' as [Hs Hks].
      assert (s = e) by by apply (same_id_same_setting (rows t)).
      congruence.
    + rewrite where_key_add. destruct (where_key k' t) as [s|]; [done|].
      destruct (String.eqb_spec k k'); [congruence|done].
Qed.

(** X7. In a settings table with unique primary keys and unique keys, a
    setting that is written is read back, a second write of the same key
    replaces the first, and no other setting changes; writing keeps the
    table in that shape, so the insert never violates the unique index on
    the key. *)
Theorem setAppSetting_getAppSetting k v t :
  settings_ok t ->
  getAppSetting k (setAppSetting k v t) = Some v
  /\ (forall v', setAppSetting k v' (setAppSetting k v t) = setAppSetting k v' t)
  /\ (forall k', k' <> k ->
        getAppSetting k' (setAppSetting k v t) = getAppSetting k' t)
  /\ settings_ok (setAppSetting k v t).
Proof.
  intros Hok. destruct (setting_written k v t Hok) as (Hget & Hset & Hframe).
  split_and!; [exact Hget|exact Hset|exact Hframe|].
  destruct Hok as (Hid & Hlt & Hkey).
  unfold setAppSetting. destruct (where_key k t) as [e|] eqn:E.
    + unfold settings_ok, modify, primary_key, setting_keyed. cbn [rows nextId].
      destruct (map_keeps_keys (rows t) (fun r => if (Db.id r =? Db.id e)%nat
                             then mkSetting (Db.id r) (key r) v else r))
        as [E1 E2]; try (by intros r; destruct (Db.id r =? Db.id e)%nat).
      rewrite E1, E2. split_and!; try done.
      apply Forall_forall. intros r [r' [<- Hr']]%list_elem_of_In%in_map_iff.
      rewrite Forall_forall in Hlt. apply list_elem_of_In, Hlt in Hr'.
      by destruct (Db.id r' =? Db.id e)%nat.
    + apply where_key_none in E.
      unfold settings_ok, add. cbn [snd rows nextId].
      rewrite !fmap_app. cbn [fmap list_fmap id key]. split_and!.
      * apply NoDup_app. split; [done|]. split; [|apply NoDup_singleton].
        intros i [r [-> Hr]]%list_elem_of_fmap Hx%list_elem_of_singleton.
        rewrite Forall_forall in Hlt. apply Hlt in Hr. lia.
      * apply Forall_app. split.
        -- eapply Forall_impl; [exact Hlt|]. simpl. lia.
        -- apply Forall_singleton. simpl. lia.
      * apply NoDup_app. split; [done|]. split; [|apply NoDup_singleton].
        by intros k' Hk' ->%list_elem_of_singleton.
Qed.

Lemma setAppSetting_getAppSetting_witness :
  let t := setAppSetting "last_sync_time" "2024-01-01T00:00:00.000Z"
             (mkTable [] 1) in
  getAppSetting "last_sync_time" (setAppSetting "last_sync_time" "later" t)
  = Some "later"%string.
Proof.
  intros t. apply (setAppSetting_getAppSetting "last_sync_time" "later" t).
  unfold settings_ok; simpl.
  split_and!; first [apply NoDup_singleton | repeat constructor].
Defined.

End DbFacts.

(** ** The PIN and the member identifiers *)

Module PinFacts.
Import Db DbTerms DbFacts.

(** X8. Once a PIN is set it is present and verifies; another PIN verifies
    only if it has the same digest; the other settings are untouched and
    setting a new PIN replaces the old one.  Without a stored PIN no PIN
    verifies.  The digest of a PIN is assumed not to be the empty string,
    which holds for a SHA-256 digest in hexadecimal. *)
Theorem setPIN_verifyPIN (sha256_hex : string -> string) pin t :
  settings_ok t ->
  truthy_string (pin_digest sha256_hex pin) = true ->
  verifyPIN sha256_hex pin (setPIN sha256_hex pin t) = true
  /\ hasPIN (setPIN sha256_hex pin t) = true
  /\ (forall pin',
        verifyPIN sha256_hex pin' (setPIN sha256_hex pin t) = true
        <-> pin_digest sha256_hex pin' = pin_digest sha256_hex pin)
  /\ (forall k, k <> "pin_hash"%string ->
        getAppSetting k (setPIN sha256_hex pin t) = getAppSetting k t)
  /\ (forall pin0,
        setPIN sha256_hex pin (setPIN sha256_hex pin0 t) = setPIN sha256_hex pin t)
  /\ (forall t0 pin', hasPIN t0 = false -> verifyPIN sha256_hex pin' t0 = false).
Proof.
  intros Hok Hd.
  destruct (setting_written "pin_hash" (pin_digest sha256_hex pin) t Hok)
    as (Hget & _ & Hframe).
  assert (Hv : forall pin',
             verifyPIN sha256_hex pin' (setPIN sha256_hex pin t) = true
             <-> pin_digest sha256_hex pin' = pin_digest sha256_hex pin).
  { intros pin'. unfold verifyPIN, setPIN. rewrite Hget, Hd.
    apply String.eqb_eq. }
  split_and!.
  - by apply Hv.
  - unfold hasPIN, setPIN. by rewrite Hget.
  - exact Hv.
  - exact Hframe.
  - intros pin0. unfold setPIN.
    by apply (setting_written "pin_hash" (pin_digest sha256_hex pin0) t).
  - intros t0 pin'. unfold hasPIN, verifyPIN.
    by destruct (getAppSetting "pin_hash" t0).
Qed.

Lemma setPIN_verifyPIN_witness :
  let sha := fun s => ("digest of " ++ s)%string in
  verifyPIN sha "1234" (setPIN sha "1234" (mkTable [] 1)) = true
  /\ verifyPIN sha "0000" (setPIN sha "1234" (mkTable [] 1)) = false.
Proof.
  intros sha. split; [|reflexivity].
  refine (proj1 (setPIN_verifyPIN sha "1234" (mkTable [] 1) _ _)); [|reflexivity].
  unfold settings_ok; simpl. split_and!; first [apply NoDup_nil_2 | constructor].
Defined.

End PinFacts.

Module CitizenIdFacts.
Import Db DbTerms.

Lemma uint_of_padded n s :
  NilEmpty.uint_of_string (repeat_char "0" n ++ s)
  = leading_zeros n <$> NilEmpty.uint_of_string s.
Proof.
  induction n as [|n IH].
  - change (repeat_char "0" 0 ++ s)%string with s.
    by destruct (NilEmpty.uint_of_string s).
  - change (repeat_char "0" (S n) ++ s)%string
      with (String "0" (repeat_char "0" n ++ s)).
    cbn [NilEmpty.uint_of_string]. rewrite IH.
    by destruct (NilEmpty.uint_of_string s).
Qed.

Lemma of_uint_leading_zeros n d :
  Nat.of_uint (leading_zeros n d) = Nat.of_uint d.
Proof. induction n as [|n IH]; [done|]. exact IH. Qed.

Lemma decimal_parses n :
  exists d, NilEmpty.uint_of_string (decimal n) = Some d /\ Nat.of_uint d = n.
Proof.
  pose proof (DecimalNat.Unsigned.of_to n) as E.
  unfold decimal, NilZero.string_of_uint.
  destruct (Nat.to_uint n) as [|d|d|d|d|d|d|d|d|d|d] eqn:Eu;
    [by exists (Decimal.D0 Decimal.Nil)|..];
    (eexists; split; [apply NilEmpty.usu|exact E]).
Qed.

Lemma padded_number_parses n k :
  Nat.of_uint <$> NilEmpty.uint_of_string (padStart (decimal n) k "0") = Some n.
Proof.
  unfold padStart. rewrite uint_of_padded.
  destruct (decimal_parses n) as (d & -> & E). simpl.
  by rewrite of_uint_leading_zeros, E.
Qed.

Lemma append_cancel_l (p s t : string) : (p ++ s = p ++ t)%string -> s = t.
Proof.
  induction p as [|c p IH]; [done|].
  change (String c p ++ s)%string with (String c (p ++ s)).
  change (String c p ++ t)%string with (String c (p ++ t)).
  intros [= H]. by apply IH.
Qed.

Lemma length_append (s t : string) :
  String.length (s ++ t) = String.length s + String.length t.
Proof.
  induction s as [|c s IH]; [done|].
  change (String c s ++ t)%string with (String c (s ++ t)).
  cbn [String.length]. by rewrite IH.
Qed.

Lemma length_repeat_char c n : String.length (repeat_char c n) = n.
Proof. induction n; simpl; auto. Qed.

(** X9. Under the same ward and village codes, the identifiers generated
    at two sizes of the member table are equal exactly when the sizes are
    equal: the sequence number, the size plus one, can be read back from
    the identifier.  The number is written with at least six digits. *)
Theorem generateCitizenId_sequence wardCode villageCode t1 t2 :
  (generateCitizenId wardCode villageCode t1
   = generateCitizenId wardCode villageCode t2
   <-> count t1 = count t2)
  /\ Nat.of_uint <$> NilEmpty.uint_of_string
                       (padStart (decimal (count t1 + 1)) 6 "0")
     = Some (count t1 + 1)
  /\ String.length (padStart (decimal (count t1 + 1)) 6 "0")
     = Nat.max 6 (String.length (decimal (count t1 + 1))).
Proof.
  split_and!.
  - unfold generateCitizenId. split; [|by intros ->].
    intros H. do 4 apply append_cancel_l in H.
    apply (f_equal (fun s => Nat.of_uint <$> NilEmpty.uint_of_string s)) in H.
    rewrite !padded_number_parses in H. injection H. lia.
  - apply padded_number_parses.
  - unfold padStart. rewrite length_append, length_repeat_char. lia.
Qed.

End CitizenIdFacts.

(** * Accounting of a run *)

(** ** Folds that count or report *)

Module AccountingFacts.
Import AccountingTerms.

Section Fold.
Context {S A : Type}.
Variable count : Tier -> SyncResult -> SyncResult.
Variable counted : SyncResult -> Counts.t.
Variable other : SyncResult -> Counts.t.
Variables (res : S -> SyncResult) (step : S -> A -> S) (tier : Tier).

Hypothesis count_counted : forall t r t',
  counter t' (counted (count t r))
  = if bool_decide (t' = t) then Datatypes.S (counter t' (counted r))
    else counter t' (counted r).
Hypothesis count_other : forall t r, other (count t r) = other r.
Hypothesis count_errors : forall t r, errors (count t r) = errors r.
Hypothesis push_counted : forall m r, counted (push_error m r) = counted r.
Hypothesis push_other : forall m r, other (push_error m r) = other r.
Hypothesis Hstep : forall st x,
  counts_or_reports count tier (res st) (res (step st x)).

(** What a loop over [l] adds to the result. *)
Lemma fold_accounts l : forall st,
  let r := res st in
  let r' := res (fold_left step l st) in
  (forall t, t <> tier -> counter t (counted r') = counter t (counted r))
  /\ counter tier (counted r) <= counter tier (counted r')
  /\ counter tier (counted r') + length (errors r')
     = counter tier (counted r) + length (errors r) + length l
  /\ other r' = other r
  /\ exists added, errors r' = errors r ++ added.
Proof.
  induction l as [|x l IH]; intros st; cbn [fold_left].
  - split_and!; first [done | lia | by (exists []; rewrite app_nil_r)].
  - destruct (IH (step st x)) as (I1 & I2 & I3 & I4 & added & I5).
    cbv zeta in *. rewrite I3, I4, I5. cbn [length].
    destruct (Hstep st x) as [E|[msg E]]; rewrite E in *.
    + rewrite count_other, count_errors in *.
      pose proof (count_counted tier (res st) tier) as Ec.
      rewrite bool_decide_eq_true_2 in Ec by done.
      split_and!; first [done | lia | by exists added | idtac].
      intros t Ht. rewrite I1 by done. rewrite count_counted.
      by rewrite bool_decide_eq_false_2.
    + rewrite push_counted, push_other in *. unfold push_error in *.
      cbn [errors] in *. rewrite length_app in *. cbn [length] in *.
      split_and!; first [done | lia | idtac]. exists ([msg] ++ added).
      by rewrite <- app_assoc.
Qed.

End Fold.

Lemma count_uploaded_counter t r t' :
  counter t' (uploaded (count_uploaded t r))
  = if bool_decide (t' = t) then S (counter t' (uploaded r))
    else counter t' (uploaded r).
Proof. by destruct t, t'. Qed.

Lemma count_downloaded_counter t r t' :
  counter t' (downloaded (count_downloaded t r))
  = if bool_decide (t' = t) then S (counter t' (downloaded r))
    else counter t' (downloaded r).
Proof. by destruct t, t'. Qed.

Lemma upload_ward_counts env st w :
  counts_or_reports count_uploaded TWard (up_result st)
    (up_result (upload_ward env st w)).
Proof.
  unfold upload_ward, counts_or_reports.
  destruct (write_reply env TWard (Ward.id w)); simpl; eauto.
Qed.

Lemma upload_village_counts env st v :
  counts_or_reports count_uploaded TVillage (up_result st)
    (up_result (upload_village env st v)).
Proof.
  unfold upload_village, counts_or_reports.
  destruct (wardIdMap st !! Village.wardId v) as [u|]; [|simpl; eauto].
  destruct (truthy_string u); [|simpl; eauto].
  destruct (write_reply env TVillage (Village.id v)); simpl; eauto.
Qed.

Lemma upload_household_counts env st h :
  counts_or_reports count_uploaded THousehold (up_result st)
    (up_result (upload_household env st h)).
Proof.
  unfold upload_household, counts_or_reports.
  destruct (villageIdMap st !! Household.villageId h) as [u|]; [|simpl; eauto].
  destruct (truthy_string u); [|simpl; eauto].
  destruct (write_reply env THousehold (Household.id h)); simpl; eauto.
Qed.

Lemma upload_citizen_counts env st c :
  counts_or_reports count_uploaded TCitizen (up_result st)
    (up_result (upload_citizen env st c)).
Proof.
  unfold upload_citizen, counts_or_reports.
  destruct (householdIdMap st !! Citizen.householdId c) as [h|]; [|simpl; eauto].
  destruct (villageIdMap st !! Citizen.villageId c) as [v|]; [|simpl; eauto].
  destruct (wardIdMap st !! Citizen.wardId c) as [w|]; [|simpl; eauto].
  destruct (truthy_string h && truthy_string v && truthy_string w);
    [|simpl; eauto].
  unfold upload_citizen_with_parents.
  destruct (getDeviceId _ _) as [d s].
  destruct (upload_attachment uploadPhotoToStorage _ _ _ _ _) as [pu o1].
  destruct (upload_attachment uploadFingerprintToStorage _ _ _ _ _) as [fu o2].
  destruct (write_reply env TCitizen (Citizen.id c)); simpl; eauto.
Qed.

End AccountingFacts.

(** ** Upload *)

Module UploadAccounting.
Import AccountingTerms AccountingFacts.

Lemma upload_fold_accounts {A} (step : UploadState -> A -> UploadState) tier l st :
  (forall st x,
     counts_or_reports count_uploaded tier (up_result st) (up_result (step st x))) ->
  let r := up_result st in
  let r' := up_result (fold_left step l st) in
  (forall t, t <> tier -> counter t (uploaded r') = counter t (uploaded r))
  /\ counter tier (uploaded r) <= counter tier (uploaded r')
  /\ counter tier (uploaded r') + length (errors r')
     = counter tier (uploaded r) + length (errors r) + length l
  /\ downloaded r' = downloaded r
  /\ exists added, errors r' = errors r ++ added.
Proof.
  intros Hstep.
  apply (fold_accounts count_uploaded uploaded downloaded up_result step tier);
    try done.
  apply count_uploaded_counter.
Qed.

Lemma finish_keeps r :
  uploaded (finish r) = uploaded r /\ downloaded (finish r) = downloaded r
  /\ errors (finish r) = errors r
  /\ (success (finish r) = true <-> length (errors r) = 0).
Proof.
  unfold finish. cbn [uploaded downloaded errors success].
  split_and!; try done. by destruct (errors r).
Qed.

(** X10. An upload that starts accounts for every local record exactly
    once: the record is counted in the counter of its tier or it leaves
    one message in the error list.  So no counter exceeds the size of its
    table, the four counters and the number of errors add up to the
    number of local records, and [success] holds exactly when every
    counter equals the size of its table.  The download counters stay at
    zero. *)
Theorem upload_accounts_for_every_record env local remote :
  onLine env = true ->
  let r := result (syncToSupabase env local remote) in
  Counts.wards (uploaded r) <= length (rows (Local.wards local))
  /\ Counts.villages (uploaded r) <= length (rows (Local.villages local))
  /\ Counts.households (uploaded r) <= length (rows (Local.households local))
  /\ Counts.citizens (uploaded r) <= length (rows (Local.citizens local))
  /\ total (uploaded r) + length (errors r)
     = length (rows (Local.wards local)) + length (rows (Local.villages local))
       + length (rows (Local.households local))
       + length (rows (Local.citizens local))
  /\ downloaded r = Counts.zero
  /\ (success r = true
      <-> Counts.wards (uploaded r) = length (rows (Local.wards local))
          /\ Counts.villages (uploaded r) = length (rows (Local.villages local))
          /\ Counts.households (uploaded r)
             = length (rows (Local.households local))
          /\ Counts.citizens (uploaded r)
             = length (rows (Local.citizens local))).
Proof.
  intros Hon r. subst r. unfold syncToSupabase. rewrite Hon.
  cbn [negb result]. unfold upload_all, toArray.
  set (s0 := mkUploadState remote (Local.settings local) initial_result ∅ ∅ ∅).
  set (s1 := fold_left (upload_ward env) (rows (Local.wards local)) s0).
  set (s2 := fold_left (upload_village env) (rows (Local.villages local)) s1).
  set (s3 := fold_left (upload_household env) (rows (Local.households local)) s2).
  set (s4 := fold_left (upload_citizen env) (rows (Local.citizens local)) s3).
  destruct (upload_fold_accounts (upload_ward env) TWard
              (rows (Local.wards local)) s0 (upload_ward_counts env))
    as (A1 & A2 & A3 & A4 & aa5 & A6).
  destruct (upload_fold_accounts (upload_village env) TVillage
              (rows (Local.villages local)) s1 (upload_village_counts env))
    as (B1 & B2 & B3 & B4 & ba5 & B6).
  destruct (upload_fold_accounts (upload_household env) THousehold
              (rows (Local.households local)) s2 (upload_household_counts env))
    as (C1 & C2 & C3 & C4 & ca5 & C6).
  destruct (upload_fold_accounts (upload_citizen env) TCitizen
              (rows (Local.citizens local)) s3 (upload_citizen_counts env))
    as (D1 & D2 & D3 & D4 & da5 & D6).
  apply (f_equal length) in A6, B6, C6, D6. rewrite length_app in A6, B6, C6, D6.
  fold s1 in A1, A2, A3, A4, A6. fold s2 in B1, B2, B3, B4, B6.
  fold s3 in C1, C2, C3, C4, C6. fold s4 in D1, D2, D3, D4, D6.
  pose proof (A1 TVillage ltac:(done)). pose proof (A1 THousehold ltac:(done)).
  pose proof (A1 TCitizen ltac:(done)).
  pose proof (B1 TWard ltac:(done)). pose proof (B1 THousehold ltac:(done)).
  pose proof (B1 TCitizen ltac:(done)).
  pose proof (C1 TWard ltac:(done)). pose proof (C1 TVillage ltac:(done)).
  pose proof (C1 TCitizen ltac:(done)).
  pose proof (D1 TWard ltac:(done)). pose proof (D1 TVillage ltac:(done)).
  pose proof (D1 THousehold ltac:(done)).
  destruct (finish_keeps (up_result s4)) as (-> & -> & -> & ->).
  assert (Hd : downloaded (up_result s4) = Counts.zero)
    by (by rewrite D4, C4, B4, A4).
  clearbody s1 s2 s3 s4.
  unfold total. cbn [counter up_result s0 initial_result uploaded errors
    Counts.zero Counts.wards Counts.villages Counts.households Counts.citizens
    length] in *.
  split_and!; first [lia | done].
Qed.

Lemma upload_accounts_for_every_record_witness :
  let r := result (syncToSupabase Scenario.unreachable
                     (Scenario.registry (Scenario.jane None None)) Remote.empty) in
  total (uploaded r) + length (errors r) = 4.
Proof.
  apply (upload_accounts_for_every_record Scenario.unreachable
           (Scenario.registry (Scenario.jane None None)) Remote.empty).
  reflexivity.
Defined.

End UploadAccounting.

(** ** Download *)

Module DownloadAccounting.
Import AccountingTerms AccountingFacts.

Lemma length_insert_by {R} (key : R -> Z) x l :
  length (insert_by key x l) = S (length l).
Proof.
  induction l as [|y l IH]; simpl; [done|].
  destruct (key x <=? key y)%Z; simpl; by rewrite ?IH.
Qed.

Lemma length_order_by {R} (key : R -> Z) (l : list R) :
  length (order_by key l) = length l.
Proof.
  unfold order_by. induction l as [|x l IH]; simpl; [done|].
  by rewrite length_insert_by, IH.
Qed.

Lemma download_ward_counts env st w :
  counts_or_reports count_downloaded TWard (dn_result st)
    (dn_result (download_ward env st w)).
Proof.
  unfold download_ward, counts_or_reports.
  destruct (store_throws env TWard (SupabaseWard.id w)); [simpl; eauto|].
  destruct (put _ _ _). simpl; eauto.
Qed.

Lemma download_village_counts env st v :
  counts_or_reports count_downloaded TVillage (dn_result st)
    (dn_result (download_village env st v)).
Proof.
  unfold download_village, counts_or_reports.
  destruct (wardUuidToLocalId st !! SupabaseVillage.ward_id v) as [k|];
    [|simpl; eauto].
  destruct (truthy_number k); [|simpl; eauto].
  destruct (store_throws env TVillage (SupabaseVillage.id v)); [simpl; eauto|].
  destruct (put _ _ _). simpl; eauto.
Qed.

Lemma download_household_counts env st h :
  counts_or_reports count_downloaded THousehold (dn_result st)
    (dn_result (download_household env st h)).
Proof.
  unfold download_household, counts_or_reports.
  destruct (villageUuidToLocalId st !! SupabaseHousehold.village_id h) as [k|];
    [|simpl; eauto].
  destruct (truthy_number k); [|simpl; eauto].
  destruct (store_throws env THousehold (SupabaseHousehold.id h));
    [simpl; eauto|].
  destruct (put _ _ _). simpl; eauto.
Qed.

Lemma download_citizen_counts env objects st c :
  counts_or_reports count_downloaded TCitizen (dn_result st)
    (dn_result (download_citizen env objects st c)).
Proof.
  unfold download_citizen, counts_or_reports.
  destruct (householdUuidToLocalId st !! SupabaseCitizen.household_id c) as [h|];
    [|simpl; eauto].
  destruct (villageUuidToLocalId st !! SupabaseCitizen.village_id c) as [v|];
    [|simpl; eauto].
  destruct (wardUuidToLocalId st !! SupabaseCitizen.ward_id c) as [w|];
    [|simpl; eauto].
  destruct (truthy_number h && truthy_number v && truthy_number w);
    [|simpl; eauto].
  unfold download_citizen_with_parents.
  destruct (store_throws env TCitizen (SupabaseCitizen.id c)); [simpl; eauto|].
  destruct (put _ _ _). simpl; eauto.
Qed.

Lemma download_tier_accounts {R} env tier label (key : R -> Z)
    (step : DownloadState -> R -> DownloadState) table st :
  (forall st x,
     counts_or_reports count_downloaded tier (dn_result st)
       (dn_result (step st x))) ->
  let r := dn_result st in
  let r' := dn_result (download_tier env tier label key step table st) in
  (forall t, t <> tier -> counter t (downloaded r') = counter t (downloaded r))
  /\ counter tier (downloaded r) <= counter tier (downloaded r')
  /\ counter tier (downloaded r') + length (errors r')
     = counter tier (downloaded r) + length (errors r)
       + fetched env tier (length table)
  /\ uploaded r' = uploaded r
  /\ length (errors r) <= length (errors r')
  /\ (fetch_error env tier <> None ->
      counter tier (downloaded r') = counter tier (downloaded r)).
Proof.
  intros Hstep. unfold download_tier, fetched.
  destruct (fetch_error env tier) as [e|].
  - cbn [dn_error dn_result push_error downloaded uploaded errors].
    rewrite length_app. cbn [length]. split_and!; first [done | lia].
  - destruct (fold_accounts count_downloaded downloaded uploaded dn_result
                step tier count_downloaded_counter
                ltac:(done) ltac:(done) ltac:(done) ltac:(done) Hstep
                (order_by key table) st)
      as (F1 & F2 & F3 & F4 & added & F5).
    rewrite length_order_by in F3. cbv zeta.
    rewrite F5, length_app in *. split_and!; first [done | lia].
Qed.

(** X11. A download that starts accounts for every tier: when the fetch
    of a tier fails it leaves one message and counts nothing, otherwise
    every fetched row is counted or leaves one message.  So no counter
    exceeds the number of remote rows, the counters and the number of
    errors add up, and the upload counters stay at zero. *)
Theorem download_accounts_for_every_row env local remote :
  dl_onLine env = true ->
  let r := result (restoreFromSupabase env local remote) in
  Counts.wards (downloaded r) <= length (Remote.wards remote)
  /\ Counts.villages (downloaded r) <= length (Remote.villages remote)
  /\ Counts.households (downloaded r) <= length (Remote.households remote)
  /\ Counts.citizens (downloaded r) <= length (Remote.citizens remote)
  /\ (forall tier,
        fetch_error env tier <> None -> counter tier (downloaded r) = 0)
  /\ total (downloaded r) + length (errors r)
     = fetched env TWard (length (Remote.wards remote))
       + fetched env TVillage (length (Remote.villages remote))
       + fetched env THousehold (length (Remote.households remote))
       + fetched env TCitizen (length (Remote.citizens remote))
  /\ uploaded r = Counts.zero.
Proof.
  intros Hon r. subst r. unfold restoreFromSupabase. rewrite Hon.
  cbn [negb result]. unfold download_all.
  set (s0 := mkDownloadState local initial_result ∅ ∅ ∅).
  set (s1 := download_tier env TWard _ _ _ _ s0).
  set (s2 := download_tier env TVillage _ _ _ _ s1).
  set (s3 := download_tier env THousehold _ _ _ _ s2).
  set (s4 := download_tier env TCitizen _ _ _ _ s3).
  destruct (download_tier_accounts env TWard "wards" SupabaseWard.created_at
              (download_ward env) (Remote.wards remote) s0
              (download_ward_counts env))
    as (A1 & A2 & A3 & A4 & A5 & A6).
  destruct (download_tier_accounts env TVillage "villages"
              SupabaseVillage.created_at (download_village env)
              (Remote.villages remote) s1 (download_village_counts env))
    as (B1 & B2 & B3 & B4 & B5 & B6).
  destruct (download_tier_accounts env THousehold "households"
              SupabaseHousehold.created_at (download_household env)
              (Remote.households remote) s2 (download_household_counts env))
    as (C1 & C2 & C3 & C4 & C5 & C6).
  destruct (download_tier_accounts env TCitizen "citizens"
              SupabaseCitizen.created_at
              (download_citizen env (Remote.objects remote))
              (Remote.citizens remote) s3
              (download_citizen_counts env (Remote.objects remote)))
    as (D1 & D2 & D3 & D4 & D5 & D6).
  fold s1 in A1, A2, A3, A4, A5, A6. fold s2 in B1, B2, B3, B4, B5, B6.
  fold s3 in C1, C2, C3, C4, C5, C6. fold s4 in D1, D2, D3, D4, D5, D6.
  pose proof (A1 TVillage ltac:(done)). pose proof (A1 THousehold ltac:(done)).
  pose proof (A1 TCitizen ltac:(done)).
  pose proof (B1 TWard ltac:(done)). pose proof (B1 THousehold ltac:(done)).
  pose proof (B1 TCitizen ltac:(done)).
  pose proof (C1 TWard ltac:(done)). pose proof (C1 TVillage ltac:(done)).
  pose proof (C1 TCitizen ltac:(done)).
  pose proof (D1 TWard ltac:(done)). pose proof (D1 TVillage ltac:(done)).
  pose proof (D1 THousehold ltac:(done)).
  destruct (UploadAccounting.finish_keeps (dn_result s4)) as (-> & -> & -> & _).
  assert (Hu : uploaded (dn_result s4) = Counts.zero)
    by (by rewrite D4, C4, B4, A4).
  clearbody s1 s2 s3 s4.
  assert (Hf : forall tier n, fetched env tier n <= n \/ fetch_error env tier <> None).
  { intros tier n. unfold fetched. destruct (fetch_error env tier); [by right|by left]. }
  assert (Hf' : forall tier n, fetch_error env tier <> None -> fetched env tier n = 1).
  { intros tier n. unfold fetched. by destruct (fetch_error env tier). }
  unfold total.
  cbn [counter dn_result s0 initial_result downloaded errors Counts.zero
       Counts.wards Counts.villages Counts.households Counts.citizens length] in *.
  split_and!; try done; try lia.
  - destruct (Hf TWard (length (Remote.wards remote))) as [?|Hne]; [lia|].
    specialize (A6 Hne). lia.
  - destruct (Hf TVillage (length (Remote.villages remote))) as [?|Hne]; [lia|].
    specialize (B6 Hne). lia.
  - destruct (Hf THousehold (length (Remote.households remote))) as [?|Hne]; [lia|].
    specialize (C6 Hne). lia.
  - destruct (Hf TCitizen (length (Remote.citizens remote))) as [?|Hne]; [lia|].
    specialize (D6 Hne). lia.
  - intros [] Hne; cbn [counter].
    + specialize (A6 Hne). lia.
    + specialize (B6 Hne). lia.
    + specialize (C6 Hne). lia.
    + specialize (D6 Hne). lia.
Qed.

Lemma download_accounts_for_every_row_witness :
  let r := result (restoreFromSupabase (Scenario.restoring true (Some "timeout"))
                     Local.empty Remote.empty) in
  total (downloaded r) + length (errors r) = 4.
Proof.
  apply (download_accounts_for_every_row
           (Scenario.restoring true (Some "timeout")) Local.empty Remote.empty).
  reflexivity.
Defined.

End DownloadAccounting.

(** * The settings a run writes *)

Module SettingsFacts.

Lemma device_id_kept env1 env2 s :
  let first := getDeviceId (new_device_id env1) s in
  getDeviceId (new_device_id env2) first.2 = first
  /\ Settings.sync_device_id first.2 = Some first.1
  /\ (forall d, Settings.sync_device_id s = Some d -> truthy_string d = true ->
        first = (d, s)).
Proof.
  unfold getDeviceId, new_device_id.
  destruct (Settings.sync_device_id s) as [d|] eqn:E.
  - destruct (truthy_string d) eqn:T; cbn [fst snd Settings.sync_device_id
      Settings.last_sync_time].
    + rewrite E, T. split_and!; try done. by intros d' [= <-] _; destruct s.
    + split_and!; try done. intros d' [= <-]. by rewrite T.
  - cbn [fst snd Settings.sync_device_id Settings.last_sync_time].
    split_and!; done.
Qed.

(** X12. The device identifier is generated once: the first call stores
    the generated identifier, which is not empty, and every later call,
    whatever it would generate, returns the stored one and leaves the
    settings as they are.  The time of the last synchronisation is not
    touched. *)
Theorem getDeviceId_is_stable env1 env2 s :
  let first := getDeviceId (new_device_id env1) s in
  getDeviceId (new_device_id env2) first.2 = first
  /\ truthy_string first.1 = true
  /\ Settings.sync_device_id first.2 = Some first.1
  /\ Settings.last_sync_time first.2 = Settings.last_sync_time s
  /\ (forall d, Settings.sync_device_id s = Some d -> truthy_string d = true ->
        first = (d, s)).
Proof.
  unfold getDeviceId, new_device_id.
  destruct (Settings.sync_device_id s) as [d|] eqn:E.
  - destruct (truthy_string d) eqn:T; cbn [fst snd Settings.sync_device_id
      Settings.last_sync_time].
    + rewrite E, T. split_and!; try done. by intros d' [= <-] _; destruct s.
    + split_and!; try done. intros d' [= <-]. by rewrite T.
  - cbn [fst snd Settings.sync_device_id Settings.last_sync_time].
    split_and!; done.
Qed.

Lemma getDeviceId_is_stable_witness :
  let s := Settings.mk None (Some "device-1-abc"%string) in
  getDeviceId (new_device_id (Scenario.reliable 5000)) s
  = ("device-1-abc"%string, s).
Proof.
  intros s.
  apply (getDeviceId_is_stable (Scenario.reliable 5000)
           (Scenario.reliable 5000) s); reflexivity.
Defined.

Lemma keeps_settings_fold {A} (step : UploadState -> A -> UploadState) l :
  (forall st x, up_settings (step st x) = up_settings st) ->
  forall st, up_settings (fold_left step l st) = up_settings st.
Proof.
  intros H. induction l as [|x l IH]; intros st; [done|].
  cbn [fold_left]. by rewrite IH, H.
Qed.

Lemma upload_ward_settings env st w :
  up_settings (upload_ward env st w) = up_settings st.
Proof. unfold upload_ward. by destruct (write_reply env TWard (Ward.id w)). Qed.

Lemma upload_village_settings env st v :
  up_settings (upload_village env st v) = up_settings st.
Proof.
  unfold upload_village.
  destruct (wardIdMap st !! Village.wardId v) as [u|]; [|done].
  destruct (truthy_string u); [|done].
  by destruct (write_reply env TVillage (Village.id v)).
Qed.

Lemma upload_household_settings env st h :
  up_settings (upload_household env st h) = up_settings st.
Proof.
  unfold upload_household.
  destruct (villageIdMap st !! Household.villageId h) as [u|]; [|done].
  destruct (truthy_string u); [|done].
  by destruct (write_reply env THousehold (Household.id h)).
Qed.

Lemma upload_citizen_settings env st c :
  up_settings (upload_citizen env st c) = up_settings st
  \/ up_settings (upload_citizen env st c)
     = (getDeviceId (new_device_id env) (up_settings st)).2.
Proof.
  unfold upload_citizen.
  destruct (householdIdMap st !! Citizen.householdId c) as [h|]; [|by left].
  destruct (villageIdMap st !! Citizen.villageId c) as [v|]; [|by left].
  destruct (wardIdMap st !! Citizen.wardId c) as [w|]; [|by left].
  destruct (truthy_string h && truthy_string v && truthy_string w); [|by left].
  right. unfold upload_citizen_with_parents.
  destruct (getDeviceId _ _) as [d s].
  destruct (upload_attachment uploadPhotoToStorage _ _ _ _ _) as [pu o1].
  destruct (upload_attachment uploadFingerprintToStorage _ _ _ _ _) as [fu o2].
  by destruct (write_reply env TCitizen (Citizen.id c)).
Qed.

Lemma upload_citizens_settings env l : forall st,
  let s := up_settings st in
  let s' := up_settings (fold_left (upload_citizen env) l st) in
  s' = s \/ s' = (getDeviceId (new_device_id env) s).2.
Proof.
  induction l as [|c l IH]; intros st; cbn [fold_left]; [by left|].
  cbv zeta. destruct (IH (upload_citizen env st c)) as [E|E]; rewrite E.
  - apply upload_citizen_settings.
  - destruct (upload_citizen_settings env st c) as [->| ->]; [by right|].
    right. f_equal.
    apply (device_id_kept env env (up_settings st)).
Qed.

Lemma download_ward_local_settings env st w :
  Local.settings (dn_local (download_ward env st w)) = Local.settings (dn_local st).
Proof.
  unfold download_ward.
  destruct (store_throws env TWard (SupabaseWard.id w)); [done|].
  by destruct (put _ _ _).
Qed.

Lemma download_village_local_settings env st v :
  Local.settings (dn_local (download_village env st v))
  = Local.settings (dn_local st).
Proof.
  unfold download_village.
  destruct (wardUuidToLocalId st !! SupabaseVillage.ward_id v) as [k|]; [|done].
  destruct (truthy_number k); [|done].
  destruct (store_throws env TVillage (SupabaseVillage.id v)); [done|].
  by destruct (put _ _ _).
Qed.

Lemma download_household_local_settings env st h :
  Local.settings (dn_local (download_household env st h))
  = Local.settings (dn_local st).
Proof.
  unfold download_household.
  destruct (villageUuidToLocalId st !! SupabaseHousehold.village_id h) as [k|];
    [|done].
  destruct (truthy_number k); [|done].
  destruct (store_throws env THousehold (SupabaseHousehold.id h)); [done|].
  by destruct (put _ _ _).
Qed.

Lemma download_citizen_local_settings env objects st c :
  Local.settings (dn_local (download_citizen env objects st c))
  = Local.settings (dn_local st).
Proof.
  unfold download_citizen.
  destruct (householdUuidToLocalId st !! SupabaseCitizen.household_id c) as [h|];
    [|done].
  destruct (villageUuidToLocalId st !! SupabaseCitizen.village_id c) as [v|];
    [|done].
  destruct (wardUuidToLocalId st !! SupabaseCitizen.ward_id c) as [w|]; [|done].
  destruct (truthy_number h && truthy_number v && truthy_number w); [|done].
  unfold download_citizen_with_parents.
  destruct (store_throws env TCitizen (SupabaseCitizen.id c)); [done|].
  by destruct (put _ _ _).
Qed.

Lemma download_tier_settings {R} env tier label (key : R -> Z)
    (step : DownloadState -> R -> DownloadState) table st :
  (forall st x,
     Local.settings (dn_local (step st x)) = Local.settings (dn_local st)) ->
  Local.settings (dn_local (download_tier env tier label key step table st))
  = Local.settings (dn_local st).
Proof.
  intros H. unfold download_tier. destruct (fetch_error env tier); [done|].
  generalize (order_by key table). intros l. revert st.
  induction l as [|x l IH]; intros st; [done|].
  cbn [fold_left]. by rewrite IH, H.
Qed.

(** X13. Every run that starts records the time it ended as the time of
    the last synchronisation, whether or not it reports errors, and
    [getSyncStatus] shows that time afterwards.  A download does not touch
    the device identifier; an upload leaves it as it was or stores the
    one [getDeviceId] returns, so a stored identifier is never replaced. *)
Theorem run_records_last_sync :
  (forall env local remote onLine',
      onLine env = true ->
      let settings := Local.settings (local_after (syncToSupabase env local remote)) in
      lastSync (getSyncStatus onLine' settings) = Some (finished_at env)
      /\ (Settings.sync_device_id settings
          = Settings.sync_device_id (Local.settings local)
          \/ Settings.sync_device_id settings
             = Some (getDeviceId (new_device_id env) (Local.settings local)).1)
      /\ (forall d,
            Settings.sync_device_id (Local.settings local) = Some d ->
            truthy_string d = true ->
            Settings.sync_device_id settings = Some d))
  /\ (forall env local remote onLine',
        dl_onLine env = true ->
        let settings :=
          Local.settings (local_after (restoreFromSupabase env local remote)) in
        lastSync (getSyncStatus onLine' settings) = Some (dl_finished_at env)
        /\ Settings.sync_device_id settings
           = Settings.sync_device_id (Local.settings local)).
Proof.
  split.
  - intros env local remote onLine' Hon. unfold syncToSupabase. rewrite Hon.
    cbn [negb local_after with_settings Local.settings getSyncStatus lastSync
         set_last_sync_time Settings.last_sync_time Settings.sync_device_id].
    assert (H : up_settings (upload_all env local remote) = Local.settings local
                \/ up_settings (upload_all env local remote)
                   = (getDeviceId (new_device_id env) (Local.settings local)).2).
    { unfold upload_all.
      set (s3 := fold_left (upload_household env) _ _).
      assert (E : up_settings s3 = Local.settings local).
      { unfold s3.
        rewrite (keeps_settings_fold _ _ (upload_household_settings env)),
          (keeps_settings_fold _ _ (upload_village_settings env)),
          (keeps_settings_fold _ _ (upload_ward_settings env)). done. }
      rewrite <- E. apply upload_citizens_settings. }
    destruct (device_id_kept env env (Local.settings local))
      as (_ & Hs & Hd).
    split_and!; [done| |].
    + destruct H as [->| ->]; [by left|right; exact Hs].
    + intros d E T. destruct H as [->| ->]; [done|].
      by rewrite (Hd d E T).
  - intros env local remote onLine' Hon. unfold restoreFromSupabase. rewrite Hon.
    cbn [negb local_after with_settings Local.settings getSyncStatus lastSync
         set_last_sync_time Settings.last_sync_time Settings.sync_device_id].
    split; [done|]. f_equal. unfold download_all.
    rewrite !download_tier_settings;
      auto using download_ward_local_settings, download_village_local_settings,
        download_household_local_settings, download_citizen_local_settings.
Qed.

Lemma run_records_last_sync_witness :
  let local := Scenario.registry (Scenario.jane None None) in
  let run := syncToSupabase Scenario.unreachable local Remote.empty in
  lastSync (getSyncStatus true (Local.settings (local_after run)))
  = Some (finished_at Scenario.unreachable).
Proof.
  intros local run.
  apply (proj1 run_records_last_sync Scenario.unreachable local Remote.empty
           true).
  reflexivity.
Defined.

End SettingsFacts.

(** * A failed ward and the records below it *)

Module CascadeFacts.
Import AccountingTerms AccountingFacts UploadAccounting.

Lemma errors_kept {A} (step : UploadState -> A -> UploadState) tier l st msg :
  (forall st x,
     counts_or_reports count_uploaded tier (up_result st) (up_result (step st x))) ->
  msg ∈ errors (up_result st) ->
  msg ∈ errors (up_result (fold_left step l st)).
Proof.
  intros Hstep Hin.
  destruct (upload_fold_accounts step tier l st Hstep) as (_ & _ & _ & _ & added & ->).
  apply elem_of_app. by left.
Qed.

Lemma same_id_same_record {A} (f : A -> nat) (l : list A) x y :
  NoDup (f <$> l) -> x ∈ l -> y ∈ l -> f x = f y -> x = y.
Proof.
  induction l as [|a l IH]; [by intros _ ?%elem_of_nil|].
  rewrite fmap_cons, NoDup_cons. intros [Ha Hl].
  intros [->|Hx]%elem_of_cons [->|Hy]%elem_of_cons Hf; [done| | |by apply IH].
  - exfalso. apply Ha. rewrite Hf. by apply list_elem_of_fmap_2.
  - exfalso. apply Ha. rewrite <- Hf. by apply list_elem_of_fmap_2.
Qed.

(** *** Wards *)

Lemma upload_ward_thrown env st w e :
  write_reply env TWard (Ward.id w) = Thrown e ->
  upload_ward env st w = up_error ("Ward " ++ Ward.code w ++ ": " ++ e) st.
Proof. intros E. unfold upload_ward. by rewrite E. Qed.

Lemma upload_ward_map env st w k :
  wardIdMap (upload_ward env st w) !! k = wardIdMap st !! k
  \/ (k = Ward.id w /\ forall e, write_reply env TWard (Ward.id w) <> Thrown e).
Proof.
  unfold upload_ward.
  destruct (write_reply env TWard (Ward.id w)) eqn:E; cbn [wardIdMap up_error];
    [| |by left];
    (destruct (decide (k = Ward.id w)) as [->|Hne];
     [by right|left; by rewrite lookup_insert_ne]).
Qed.

Lemma wards_fold_thrown env l : forall st w e,
  NoDup (Ward.id <$> l) -> w ∈ l ->
  write_reply env TWard (Ward.id w) = Thrown e ->
  wardIdMap st !! Ward.id w = None ->
  let st' := fold_left (upload_ward env) l st in
  wardIdMap st' !! Ward.id w = None
  /\ ("Ward " ++ Ward.code w ++ ": " ++ e)%string ∈ errors (up_result st').
Proof.
  induction l as [|a l IH]; intros st w e Hnd Hw Ht Hm; [by apply elem_of_nil in Hw|].
  rewrite fmap_cons, NoDup_cons in Hnd. destruct Hnd as [Ha Hl].
  cbn [fold_left]. cbv zeta.
  assert (Hm' : wardIdMap (upload_ward env st a) !! Ward.id w = None).
  { destruct (upload_ward_map env st a (Ward.id w)) as [->|[E Hn]]; [done|].
    rewrite <- E in Hn. by destruct (Hn e). }
  apply elem_of_cons in Hw as [->|Hw].
  - split.
    + clear IH. revert Hm'. generalize (upload_ward env st a). clear Hm.
      induction l as [|b l IHl]; intros st' Hm'; [done|].
      rewrite fmap_cons, NoDup_cons in Hl. destruct Hl as [Hb Hl].
      cbn [fold_left]. apply IHl; [|done|].
      * intros Hin. apply Ha. rewrite fmap_cons. apply elem_of_cons. by right.
      * destruct (upload_ward_map env st' b (Ward.id a)) as [->|[E _]]; [done|].
        exfalso. apply Ha. rewrite E, fmap_cons. apply elem_of_cons. by left.
    + apply (errors_kept _ TWard); [apply upload_ward_counts|].
      rewrite (upload_ward_thrown env st a e Ht). cbn [up_error up_result push_error errors].
      apply elem_of_app. right. by apply list_elem_of_singleton.
  - by apply IH.
Qed.

Lemma wards_fold_villages env l : forall st,
  villageIdMap (fold_left (upload_ward env) l st) = villageIdMap st.
Proof.
  induction l as [|a l IH]; intros st; [done|]. cbn [fold_left].
  rewrite IH. unfold upload_ward.
  by destruct (write_reply env TWard (Ward.id a)).
Qed.

(** *** Villages *)

Lemma upload_village_wards env st v :
  wardIdMap (upload_village env st v) = wardIdMap st.
Proof.
  unfold upload_village.
  destruct (wardIdMap st !! Village.wardId v) as [u|]; [|done].
  destruct (truthy_string u); [|done].
  by destruct (write_reply env TVillage (Village.id v)).
Qed.

Lemma upload_village_map env st v k :
  villageIdMap (upload_village env st v) !! k = villageIdMap st !! k
  \/ (k = Village.id v /\ is_Some (wardIdMap st !! Village.wardId v)).
Proof.
  unfold upload_village.
  destruct (wardIdMap st !! Village.wardId v) as [u|]; [|by left].
  destruct (truthy_string u); [|by left].
  destruct (write_reply env TVillage (Village.id v)); cbn [villageIdMap up_error];
    [| |by left];
    (destruct (decide (k = Village.id v)) as [->|Hne];
     [by right|left; by rewrite lookup_insert_ne]).
Qed.

Lemma villages_fold_orphan env l : forall st v,
  NoDup (Village.id <$> l) -> v ∈ l ->
  wardIdMap st !! Village.wardId v = None ->
  villageIdMap st !! Village.id v = None ->
  let st' := fold_left (upload_village env) l st in
  villageIdMap st' !! Village.id v = None
  /\ wardIdMap st' = wardIdMap st
  /\ ("Village " ++ Village.code v ++ ": Ward not found")%string
     ∈ errors (up_result st').
Proof.
  assert (Hw : forall l0 st, wardIdMap (fold_left (upload_village env) l0 st)
                             = wardIdMap st).
  { intros l0. induction l0 as [|a l0 IH]; intros st; [done|].
    cbn [fold_left]. by rewrite IH, upload_village_wards. }
  assert (Hkeep : forall l0 st k,
            k ∉ Village.id <$> l0 -> villageIdMap st !! k = None ->
            villageIdMap (fold_left (upload_village env) l0 st) !! k = None).
  { intros l0. induction l0 as [|a l0 IH]; intros st k Hk Hm; [done|].
    cbn [fold_left]. rewrite fmap_cons in Hk. apply IH.
    - intros Hin. apply Hk, elem_of_cons. by right.
    - destruct (upload_village_map env st a k) as [->|[E _]]; [done|].
      exfalso. apply Hk, elem_of_cons. by left. }
  induction l as [|a l IH]; intros st v Hnd Hv Hp Hm; [by apply elem_of_nil in Hv|].
  rewrite fmap_cons, NoDup_cons in Hnd. destruct Hnd as [Ha Hl].
  cbn [fold_left]. cbv zeta. rewrite Hw.
  apply elem_of_cons in Hv as [->|Hv].
  - assert (E : upload_village env st a
                = up_error ("Village " ++ Village.code a ++ ": Ward not found") st).
    { unfold upload_village. by rewrite Hp. }
    rewrite E. split_and!; [by apply Hkeep|done|].
    apply (errors_kept _ TVillage); [apply upload_village_counts|].
    cbn [up_error up_result push_error errors].
    apply elem_of_app. right. by apply list_elem_of_singleton.
  - destruct (IH (upload_village env st a) v Hl Hv) as (I1 & I2 & I3).
    + by rewrite upload_village_wards.
    + destruct (upload_village_map env st a (Village.id v)) as [->|[E _]]; [done|].
      exfalso. apply Ha. rewrite <- E. by apply list_elem_of_fmap_2.
    + split_and!; [done|by rewrite upload_village_wards|done].
Qed.

(** *** Households and citizens *)

Lemma upload_household_maps env st h :
  wardIdMap (upload_household env st h) = wardIdMap st
  /\ villageIdMap (upload_household env st h) = villageIdMap st.
Proof.
  unfold upload_household.
  destruct (villageIdMap st !! Household.villageId h) as [u|]; [|done].
  destruct (truthy_string u); [|done].
  by destruct (write_reply env THousehold (Household.id h)).
Qed.

Lemma households_fold_maps env l : forall st,
  wardIdMap (fold_left (upload_household env) l st) = wardIdMap st
  /\ villageIdMap (fold_left (upload_household env) l st) = villageIdMap st.
Proof.
  induction l as [|a l IH]; intros st; [done|]. cbn [fold_left].
  destruct (IH (upload_household env st a)) as [-> ->].
  apply upload_household_maps.
Qed.

Lemma households_fold_orphan env l : forall st h,
  h ∈ l -> villageIdMap st !! Household.villageId h = None ->
  ("Household " ++ Household.code h ++ ": Village not found")%string
  ∈ errors (up_result (fold_left (upload_household env) l st)).
Proof.
  induction l as [|a l IH]; intros st h Hh Hp; [by apply elem_of_nil in Hh|].
  cbn [fold_left]. apply elem_of_cons in Hh as [->|Hh].
  - apply (errors_kept _ THousehold); [apply upload_household_counts|].
    unfold upload_household. rewrite Hp.
    cbn [up_error up_result push_error errors].
    apply elem_of_app. right. by apply list_elem_of_singleton.
  - apply IH; [done|]. by rewrite (proj2 (upload_household_maps env st a)).
Qed.

Lemma upload_citizen_maps env st c :
  wardIdMap (upload_citizen env st c) = wardIdMap st.
Proof.
  unfold upload_citizen.
  destruct (householdIdMap st !! Citizen.householdId c) as [h|]; [|done].
  destruct (villageIdMap st !! Citizen.villageId c) as [v|]; [|done].
  destruct (wardIdMap st !! Citizen.wardId c) as [w|]; [|done].
  destruct (truthy_string h && truthy_string v && truthy_string w); [|done].
  unfold upload_citizen_with_parents.
  destruct (getDeviceId _ _) as [d s].
  destruct (upload_attachment uploadPhotoToStorage _ _ _ _ _) as [pu o1].
  destruct (upload_attachment uploadFingerprintToStorage _ _ _ _ _) as [fu o2].
  by destruct (write_reply env TCitizen (Citizen.id c)).
Qed.

Lemma citizens_fold_orphan env l : forall st c,
  c ∈ l -> wardIdMap st !! Citizen.wardId c = None ->
  missing_parents c ∈ errors (up_result (fold_left (upload_citizen env) l st)).
Proof.
  induction l as [|a l IH]; intros st c Hc Hp; [by apply elem_of_nil in Hc|].
  cbn [fold_left]. apply elem_of_cons in Hc as [->|Hc].
  - apply (errors_kept _ TCitizen); [apply upload_citizen_counts|].
    unfold upload_citizen. rewrite Hp.
    destruct (householdIdMap st !! Citizen.householdId a);
      [destruct (villageIdMap st !! Citizen.villageId a)|];
      cbn [up_error up_result push_error errors];
      apply elem_of_app; right; by apply list_elem_of_singleton.
  - apply IH; [done|]. by rewrite upload_citizen_maps.
Qed.

(** X14. A ward whose write throws takes its subtree with it.  With
    unique primary keys in the ward and village tables, the run reports
    the ward, reports "Ward not found" for every village of that ward,
    "Village not found" for every household of such a village and
    "Missing parent records" for every citizen of the ward. *)
Theorem failed_ward_fails_its_subtree env local remote w e :
  onLine env = true ->
  NoDup (Ward.id <$> rows (Local.wards local)) ->
  NoDup (Village.id <$> rows (Local.villages local)) ->
  w ∈ rows (Local.wards local) ->
  write_reply env TWard (Ward.id w) = Thrown e ->
  let r := result (syncToSupabase env local remote) in
  ("Ward " ++ Ward.code w ++ ": " ++ e)%string ∈ errors r
  /\ (forall v, v ∈ rows (Local.villages local) ->
        Village.wardId v = Ward.id w ->
        ("Village " ++ Village.code v ++ ": Ward not found")%string ∈ errors r
        /\ forall h, h ∈ rows (Local.households local) ->
             Household.villageId h = Village.id v ->
             ("Household " ++ Household.code h ++ ": Village not found")%string
             ∈ errors r)
  /\ (forall c, c ∈ rows (Local.citizens local) ->
        Citizen.wardId c = Ward.id w ->
        ("Citizen " ++ Citizen.uniqueId c ++ ": Missing parent records")%string
        ∈ errors r)
  /\ success r = false.
Proof.
  intros Hon Hwn Hvn Hw Ht r. subst r. unfold syncToSupabase. rewrite Hon.
  cbn [negb result]. unfold upload_all, toArray.
  set (s0 := mkUploadState remote (Local.settings local) initial_result ∅ ∅ ∅).
  set (s1 := fold_left (upload_ward env) (rows (Local.wards local)) s0).
  set (s2 := fold_left (upload_village env) (rows (Local.villages local)) s1).
  set (s3 := fold_left (upload_household env) (rows (Local.households local)) s2).
  set (s4 := fold_left (upload_citizen env) (rows (Local.citizens local)) s3).
  destruct (wards_fold_thrown env (rows (Local.wards local)) s0 w e Hwn Hw Ht)
    as [M1 E1]; [apply lookup_empty|]. fold s1 in M1, E1.
  assert (K2 : forall msg, msg ∈ errors (up_result s1) -> msg ∈ errors (up_result s2))
    by (intros msg; apply (errors_kept _ TVillage), upload_village_counts).
  assert (K3 : forall msg, msg ∈ errors (up_result s2) -> msg ∈ errors (up_result s3))
    by (intros msg; apply (errors_kept _ THousehold), upload_household_counts).
  assert (K4 : forall msg, msg ∈ errors (up_result s3) -> msg ∈ errors (up_result s4))
    by (intros msg; apply (errors_kept _ TCitizen), upload_citizen_counts).
  assert (Hall : ("Ward " ++ Ward.code w ++ ": " ++ e)%string
                 ∈ errors (finish (up_result s4))).
  { rewrite (proj1 (proj2 (proj2 (finish_keeps _)))). auto. }
  split_and!.
  - exact Hall.
  - intros v Hv Hp. rewrite !(proj1 (proj2 (proj2 (finish_keeps _)))).
    destruct (villages_fold_orphan env (rows (Local.villages local)) s1 v Hvn Hv)
      as (M2 & W2 & E2);
      [by rewrite Hp|unfold s1; by rewrite wards_fold_villages|].
    fold s2 in M2, W2, E2.
    split; [auto|]. intros h Hh Hq. apply K4.
    apply households_fold_orphan; [done|]. by rewrite Hq.
  - intros c Hc Hp. rewrite !(proj1 (proj2 (proj2 (finish_keeps _)))).
    apply citizens_fold_orphan; [done|]. rewrite Hp.
    unfold s3, s2.
    rewrite (proj1 (households_fold_maps env _ _)).
    clear -M1. fold s1. revert M1. generalize s1.
    induction (rows (Local.villages local)) as [|a l IH]; intros st M1; [done|].
    cbn [fold_left]. apply IH. by rewrite upload_village_wards.
  - destruct (success (finish (up_result s4))) eqn:Es; [|done].
    apply (proj2 (proj2 (proj2 (finish_keeps _)))) in Es.
    rewrite (proj1 (proj2 (proj2 (finish_keeps _)))) in Hall.
    destruct (errors (up_result s4)); [by apply elem_of_nil in Hall|done].
Qed.

Lemma failed_ward_fails_its_subtree_witness :
  let env := mkUploadEnv true (fun _ _ => true)
               (fun tier _ => match tier with
                              | TWard => Thrown "Error: timeout"
                              | _ => Done
                              end)
               Scenario.uuid_of "1700000000000-k3x9q2a" (fun _ => 5000%Z)
               (fun _ => true) (fun _ => 5000%Z) (fun _ => true)
               (fun _ => 5000%Z) 5000%Z (fun _ _ => 5000%Z)
               Scenario.decimal_8 Scenario.decimal_8 in
  let r := result (syncToSupabase env
                     (Scenario.registry (Scenario.jane None None)) Remote.empty) in
  errors r = ["Ward W01: Error: timeout"; "Village V01: Ward not found";
              "Household H001: Village not found";
              "Citizen W01-V01-000001: Missing parent records"]%string
  /\ ("Ward W01: Error: timeout")%string ∈ errors r.
Proof.
  intros env r. split; [reflexivity|].
  refine (proj1 (failed_ward_fails_its_subtree env
                   (Scenario.registry (Scenario.jane None None)) Remote.empty
                   Scenario.north "Error: timeout" _ _ _ _ _)).
  - reflexivity.
  - simpl. apply NoDup_singleton.
  - simpl. apply NoDup_singleton.
  - simpl. by apply list_elem_of_singleton.
  - reflexivity.
Defined.

End CascadeFacts.

(** * The keys of the remote rows *)

(** ** Steps that keep the keys *)

Module KeyFacts.
Import SyncTerms KeyTerms.

Section KeepKeys.
Context {L R : Type}.
Variables (lid : L -> nat) (lcode : L -> string).
Variables (rid rcode : R -> string) (patch : L -> R -> R -> R).
Variable random : L -> string.
Hypothesis patch_id : forall w n o, rid (patch w n o) = rid n.
Hypothesis patch_code : forall w n o, rcode (patch w n o) = rcode n.

Abbreviation keys := (keys_of rid rcode).

Lemma ids_of_keys T : rid <$> T = fst <$> keys T.
Proof. unfold keys_of. by rewrite <- list_fmap_compose. Qed.

Lemma single_found (p : R -> bool) T r :
  single p T = Some r -> r ∈ T /\ p r = true.
Proof.
  unfold single. destruct (List.filter p T) as [|a [|b l]] eqn:E; try done.
  intros [= <-].
  assert (H : In a (List.filter p T)) by (rewrite E; by left).
  apply filter_In in H as [H1 H2]. split; [by apply list_elem_of_In|done].
Qed.

Lemma select_id_found ans c T t :
  select_id ans rcode rid c T = Some t ->
  exists r0, r0 ∈ T /\ rid r0 = t /\ rcode r0 = c.
Proof.
  unfold select_id. destruct ans; [|done].
  destruct (single _ T) as [r0|] eqn:E; [|done]. intros [= <-].
  apply single_found in E as [Hin Hc]. exists r0.
  split_and!; [done|done|by apply String.eqb_eq].
Qed.

Lemma same_id_same_remote (T : list R) x y :
  NoDup (rid <$> T) -> x ∈ T -> y ∈ T -> rid x = rid y -> x = y.
Proof.
  induction T as [|a T IH]; [by intros _ ?%elem_of_nil|].
  rewrite fmap_cons, NoDup_cons. intros [Ha Hl].
  intros [->|Hx]%elem_of_cons [->|Hy]%elem_of_cons E; [done| | |by apply IH].
  - exfalso. apply Ha. rewrite E. by apply list_elem_of_fmap_2.
  - exfalso. apply Ha. rewrite <- E. by apply list_elem_of_fmap_2.
Qed.

Lemma update_eq_id_keys (g : R -> R) t (T : list R) :
  (forall r, r ∈ T -> rid r = t -> rid (g r) = rid r /\ rcode (g r) = rcode r) ->
  keys (update_eq_id rid g t T) = keys T.
Proof.
  unfold update_eq_id, keys_of. intros Hg.
  induction T as [|a T IH]; [done|]. cbn [map fmap list_fmap].
  f_equal.
  - destruct (String.eqb_spec (rid a) t) as [E|]; [|done].
    destruct (Hg a) as [-> ->]; [apply elem_of_cons; by left|done|done].
  - apply IH. intros r Hr. apply Hg, elem_of_cons. by right.
Qed.

(** One write: the keys stay, or the new row is appended under the
    generated identifier. *)
Lemma write_row_keys w reply ans c u row T :
  ids_ok rid T ->
  rid row = or_random (select_id ans rcode rid c T) u ->
  rcode row = c ->
  let T' := write_row reply rid (patch w) (select_id ans rcode rid c T) row T in
  keys T' = keys T \/ keys T' = keys T ++ [(u, c)].
Proof.
  intros [Hnd Ht] Hid Hcode. cbv zeta. unfold write_row.
  destruct reply; [|by left..].
  destruct (select_id ans rcode rid c T) as [t|] eqn:E.
  - left. apply select_id_found in E as (r0 & Hr0 & <- & <-).
    rewrite Forall_forall in Ht. specialize (Ht r0 Hr0).
    unfold or_random in Hid. rewrite Ht in Hid.
    apply update_eq_id_keys. intros r Hr Er. rewrite patch_id, patch_code.
    assert (r = r0) as -> by by apply (same_id_same_remote T).
    by rewrite Hid, Hcode.
  - right. unfold insert_row, keys_of. rewrite fmap_app. cbn [fmap list_fmap].
    unfold or_random in Hid. by rewrite Hid, Hcode.
Qed.

Variable tbl : UploadState -> list R.
Variable step : UploadState -> L -> UploadState.
Hypothesis step_writes : forall st x,
  tbl (step st x) = tbl st
  \/ exists reply ans row,
       tbl (step st x)
       = write_row reply rid (patch x)
           (select_id ans rcode rid (lcode x) (tbl st)) row (tbl st)
       /\ rid row = or_random (select_id ans rcode rid (lcode x) (tbl st)) (random x)
       /\ rcode row = lcode x.

Variable T0 : list R.

Lemma fold_keeps_keys l : forall seen st,
  NoDup (lid <$> (seen ++ l)) ->
  fresh_for lid rid T0 random (seen ++ l) ->
  ids_ok rid (tbl st) ->
  keeps_keys rid rcode T0 (tbl st) ->
  (forall u, u ∈ rid <$> tbl st ->
     u ∈ rid <$> T0 \/ exists x, x ∈ seen /\ u = random x) ->
  let st' := fold_left step l st in
  ids_ok rid (tbl st') /\ keeps_keys rid rcode T0 (tbl st').
Proof.
  induction l as [|x l IH]; intros seen st Hnd Hf Hok Hk Hfrom; [done|].
  cbn [fold_left]. cbv zeta.
  replace (seen ++ x :: l) with ((seen ++ [x]) ++ l) in Hnd, Hf
    by (by rewrite <- app_assoc).
  assert (Hx : x ∈ (seen ++ [x]) ++ l).
  { apply elem_of_app; left. apply elem_of_app; right.
    by apply list_elem_of_singleton. }
  destruct (Hf x Hx) as (Htx & Hx0 & Hinj).
  apply (IH (seen ++ [x])); try done.
  - destruct (step_writes st x) as [->|(reply & ans & row & -> & Hid & Hcode)];
      [done|].
    destruct (write_row_keys x reply ans (lcode x) (random x) row (tbl st)
                Hok Hid Hcode) as [E|E].
    + unfold ids_ok. rewrite ids_of_keys, E, <- ids_of_keys.
      split; [apply Hok|].
      destruct Hok as [_ Ht]. rewrite Forall_forall in *.
      intros r Hr. apply (list_elem_of_fmap_2 rid) in Hr.
      rewrite ids_of_keys, E, <- ids_of_keys in Hr.
      apply list_elem_of_fmap in Hr as (r' & -> & Hr'). by apply Ht.
    + assert (Hnew : random x ∉ rid <$> tbl st).
      { intros Hin. destruct (Hfrom _ Hin) as [?|(y & Hy & Ey)]; [done|].
        assert (lid x = lid y).
        { apply Hinj; [|done]. apply elem_of_app; left.
          apply elem_of_app. by left. }
        rewrite <- app_assoc, fmap_app in Hnd. apply NoDup_app in Hnd as (_ & Hd & _).
        apply (Hd (lid y)); [by apply list_elem_of_fmap_2|].
        apply list_elem_of_fmap. exists x. split; [done|].
        apply elem_of_app; left. by apply list_elem_of_singleton. }
      destruct Hok as [Hn Ht]. split.
      * rewrite ids_of_keys, E, fmap_app, <- ids_of_keys. cbn [fmap list_fmap fst].
        apply NoDup_app. split; [done|]. split; [|apply NoDup_singleton].
        by intros u Hu ->%list_elem_of_singleton.
      * rewrite Forall_forall in *. intros r Hr.
        apply (list_elem_of_fmap_2 rid) in Hr.
        rewrite ids_of_keys, E, fmap_app, <- ids_of_keys in Hr.
        cbn [fmap list_fmap fst] in Hr.
        apply elem_of_app in Hr as [Hr|Hr%list_elem_of_singleton].
        -- apply list_elem_of_fmap in Hr as (r' & -> & Hr'). by apply Ht.
        -- by rewrite Hr.
  - destruct Hk as [added Hk]. unfold keeps_keys.
    destruct (step_writes st x) as [->|(reply & ans & row & -> & Hid & Hcode)];
      [by exists added|].
    destruct (write_row_keys x reply ans (lcode x) (random x) row (tbl st)
                Hok Hid Hcode) as [E|E]; rewrite E, Hk.
    + by exists added.
    + exists (added ++ [(random x, lcode x)]). by rewrite app_assoc.
  - intros u Hu.
    assert (Hu' : u ∈ rid <$> tbl st \/ u = random x).
    { destruct (step_writes st x) as [E|(reply & ans & row & E & Hid & Hcode)];
        rewrite E in Hu; [by left|].
      destruct (write_row_keys x reply ans (lcode x) (random x) row (tbl st)
                  Hok Hid Hcode) as [E'|E'];
        rewrite ids_of_keys, E' in Hu; rewrite ?fmap_app, <- ?ids_of_keys in Hu;
        [by left|].
      apply elem_of_app in Hu as [?|Hu%list_elem_of_singleton]; [by left|by right]. }
    destruct Hu' as [Hu'| ->].
    + destruct (Hfrom u Hu') as [?|(y & Hy & ->)]; [by left|right].
      exists y. split; [apply elem_of_app; by left|done].
    + right. exists x. split; [|done]. apply elem_of_app; right.
      by apply list_elem_of_singleton.
Qed.

End KeepKeys.

End KeyFacts.

(** ** The upload keeps the remote keys *)

Module RemoteKeyFacts.
Import SyncTerms KeyTerms KeyFacts.

Lemma fold_keeps {S A B} (f : S -> B) (step : S -> A -> S) l :
  (forall st x, f (step st x) = f st) ->
  forall st, f (fold_left step l st) = f st.
Proof.
  intros H. induction l as [|x l IH]; intros st; [done|].
  cbn [fold_left]. by rewrite IH, H.
Qed.

Lemma upload_ward_others env st w :
  Remote.villages (up_remote (upload_ward env st w)) = Remote.villages (up_remote st)
  /\ Remote.households (up_remote (upload_ward env st w))
     = Remote.households (up_remote st)
  /\ Remote.citizens (up_remote (upload_ward env st w))
     = Remote.citizens (up_remote st).
Proof. unfold upload_ward. by destruct (write_reply env TWard (Ward.id w)). Qed.

Lemma upload_village_others env st v :
  Remote.wards (up_remote (upload_village env st v)) = Remote.wards (up_remote st)
  /\ Remote.households (up_remote (upload_village env st v))
     = Remote.households (up_remote st)
  /\ Remote.citizens (up_remote (upload_village env st v))
     = Remote.citizens (up_remote st).
Proof.
  unfold upload_village.
  destruct (wardIdMap st !! Village.wardId v) as [u|]; [|done].
  destruct (truthy_string u); [|done].
  by destruct (write_reply env TVillage (Village.id v)).
Qed.

Lemma upload_household_others env st h :
  Remote.wards (up_remote (upload_household env st h)) = Remote.wards (up_remote st)
  /\ Remote.villages (up_remote (upload_household env st h))
     = Remote.villages (up_remote st)
  /\ Remote.citizens (up_remote (upload_household env st h))
     = Remote.citizens (up_remote st).
Proof.
  unfold upload_household.
  destruct (villageIdMap st !! Household.villageId h) as [u|]; [|done].
  destruct (truthy_string u); [|done].
  by destruct (write_reply env THousehold (Household.id h)).
Qed.

Lemma upload_citizen_others env st c :
  Remote.wards (up_remote (upload_citizen env st c)) = Remote.wards (up_remote st)
  /\ Remote.villages (up_remote (upload_citizen env st c))
     = Remote.villages (up_remote st)
  /\ Remote.households (up_remote (upload_citizen env st c))
     = Remote.households (up_remote st).
Proof.
  unfold upload_citizen.
  destruct (householdIdMap st !! Citizen.householdId c) as [h|]; [|done].
  destruct (villageIdMap st !! Citizen.villageId c) as [v|]; [|done].
  destruct (wardIdMap st !! Citizen.wardId c) as [w|]; [|done].
  destruct (truthy_string h && truthy_string v && truthy_string w); [|done].
  unfold upload_citizen_with_parents.
  destruct (getDeviceId _ _) as [d s].
  destruct (upload_attachment uploadPhotoToStorage _ _ _ _ _) as [pu o1].
  destruct (upload_attachment uploadFingerprintToStorage _ _ _ _ _) as [fu o2].
  by destruct (write_reply env TCitizen (Citizen.id c)).
Qed.

Lemma upload_ward_writes env st w :
  Remote.wards (up_remote (upload_ward env st w)) = Remote.wards (up_remote st)
  \/ exists reply ans row,
       Remote.wards (up_remote (upload_ward env st w))
       = write_row reply SupabaseWard.id (ward_patch env w)
           (select_id ans SupabaseWard.code SupabaseWard.id (Ward.code w)
              (Remote.wards (up_remote st))) row (Remote.wards (up_remote st))
       /\ SupabaseWard.id row
          = or_random (select_id ans SupabaseWard.code SupabaseWard.id (Ward.code w)
                         (Remote.wards (up_remote st)))
              (randomUUID env TWard (Ward.id w))
       /\ SupabaseWard.code row = Ward.code w.
Proof.
  unfold upload_ward.
  destruct (write_reply env TWard (Ward.id w)) eqn:E; [|by left..].
  right. eexists Done, _, _. cbn [up_remote Remote.wards]. split; [done|].
  by split.
Qed.

Lemma upload_village_writes env st v :
  Remote.villages (up_remote (upload_village env st v))
  = Remote.villages (up_remote st)
  \/ exists reply ans row,
       Remote.villages (up_remote (upload_village env st v))
       = write_row reply SupabaseVillage.id (village_patch env v)
           (select_id ans SupabaseVillage.code SupabaseVillage.id (Village.code v)
              (Remote.villages (up_remote st))) row
           (Remote.villages (up_remote st))
       /\ SupabaseVillage.id row
          = or_random (select_id ans SupabaseVillage.code SupabaseVillage.id
                         (Village.code v) (Remote.villages (up_remote st)))
              (randomUUID env TVillage (Village.id v))
       /\ SupabaseVillage.code row = Village.code v.
Proof.
  unfold upload_village.
  destruct (wardIdMap st !! Village.wardId v) as [u|]; [|by left].
  destruct (truthy_string u); [|by left].
  destruct (write_reply env TVillage (Village.id v)) eqn:E; [|by left..].
  right. eexists Done, _, _. cbn [up_remote Remote.villages]. split; [done|].
  by split.
Qed.

Lemma upload_household_writes env st h :
  Remote.households (up_remote (upload_household env st h))
  = Remote.households (up_remote st)
  \/ exists reply ans row,
       Remote.households (up_remote (upload_household env st h))
       = write_row reply SupabaseHousehold.id (household_patch env h)
           (select_id ans SupabaseHousehold.code SupabaseHousehold.id
              (Household.code h) (Remote.households (up_remote st))) row
           (Remote.households (up_remote st))
       /\ SupabaseHousehold.id row
          = or_random (select_id ans SupabaseHousehold.code SupabaseHousehold.id
                         (Household.code h) (Remote.households (up_remote st)))
              (randomUUID env THousehold (Household.id h))
       /\ SupabaseHousehold.code row = Household.code h.
Proof.
  unfold upload_household.
  destruct (villageIdMap st !! Household.villageId h) as [u|]; [|by left].
  destruct (truthy_string u); [|by left].
  destruct (write_reply env THousehold (Household.id h)) eqn:E; [|by left..].
  right. eexists Done, _, _. cbn [up_remote Remote.households]. split; [done|].
  by split.
Qed.

Lemma upload_citizen_writes env st c :
  Remote.citizens (up_remote (upload_citizen env st c))
  = Remote.citizens (up_remote st)
  \/ exists reply ans row,
       Remote.citizens (up_remote (upload_citizen env st c))
       = write_row reply SupabaseCitizen.id (citizen_patch env c)
           (select_id ans SupabaseCitizen.unique_id SupabaseCitizen.id
              (Citizen.uniqueId c) (Remote.citizens (up_remote st))) row
           (Remote.citizens (up_remote st))
       /\ SupabaseCitizen.id row
          = or_random (select_id ans SupabaseCitizen.unique_id SupabaseCitizen.id
                         (Citizen.uniqueId c) (Remote.citizens (up_remote st)))
              (randomUUID env TCitizen (Citizen.id c))
       /\ SupabaseCitizen.unique_id row = Citizen.uniqueId c.
Proof.
  unfold upload_citizen.
  destruct (householdIdMap st !! Citizen.householdId c) as [h|]; [|by left].
  destruct (villageIdMap st !! Citizen.villageId c) as [v|]; [|by left].
  destruct (wardIdMap st !! Citizen.wardId c) as [w|]; [|by left].
  destruct (truthy_string h && truthy_string v && truthy_string w); [|by left].
  unfold upload_citizen_with_parents.
  destruct (getDeviceId _ _) as [d s].
  destruct (upload_attachment uploadPhotoToStorage _ _ _ _ _) as [pu o1].
  destruct (upload_attachment uploadFingerprintToStorage _ _ _ _ _) as [fu o2].
  destruct (write_reply env TCitizen (Citizen.id c)) eqn:E; [|by left..].
  right. eexists Done, _, _. cbn [up_remote Remote.citizens]. split; [done|].
  by destruct pu, fu.
Qed.

Lemma keeps_keys_refl {R} (rid rcode : R -> string) T : keeps_keys rid rcode T T.
Proof. exists []. by rewrite app_nil_r. Qed.

(** X15. An upload never changes the identifier or the natural key of a
    remote row: after the run each remote table lists the identifiers and
    natural keys it listed before, in the same places, followed by those of
    the rows the run inserted, whatever fails on the way.  The remote
    identifiers are taken to be unique and not empty, the local primary
    keys unique and the generated identifiers fresh, and these properties
    of the remote tables hold again after the run. *)
Theorem upload_keeps_remote_keys env local remote :
  local_ok local ->
  remote_ids_ok remote ->
  fresh_ids env local remote ->
  let remote' := remote_after (syncToSupabase env local remote) in
  keeps_keys SupabaseWard.id SupabaseWard.code
    (Remote.wards remote) (Remote.wards remote')
  /\ keeps_keys SupabaseVillage.id SupabaseVillage.code
       (Remote.villages remote) (Remote.villages remote')
  /\ keeps_keys SupabaseHousehold.id SupabaseHousehold.code
       (Remote.households remote) (Remote.households remote')
  /\ keeps_keys SupabaseCitizen.id SupabaseCitizen.unique_id
       (Remote.citizens remote) (Remote.citizens remote')
  /\ remote_ids_ok remote'.
Proof.
  intros ((Lw & _) & (Lv & _) & (Lh & _) & (Lc & _)) (Rw & Rv & Rh & Rc)
    (Fw & Fv & Fh & Fc) remote'. subst remote'.
  unfold syncToSupabase. destruct (onLine env); cbn [negb remote_after].
  2: { unfold remote_ids_ok. split_and!; try done; apply keeps_keys_refl. }
  unfold upload_all, toArray.
  set (s0 := mkUploadState remote (Local.settings local) initial_result ∅ ∅ ∅).
  set (s1 := fold_left (upload_ward env) (rows (Local.wards local)) s0).
  set (s2 := fold_left (upload_village env) (rows (Local.villages local)) s1).
  set (s3 := fold_left (upload_household env) (rows (Local.households local)) s2).
  set (s4 := fold_left (upload_citizen env) (rows (Local.citizens local)) s3).
  (* each table is written by its own loop only *)
  assert (Ew : Remote.wards (up_remote s4) = Remote.wards (up_remote s1)).
  { unfold s4, s3, s2.
    rewrite (fold_keeps (fun st => Remote.wards (up_remote st)) _ _
               (fun st x => proj1 (upload_citizen_others env st x))),
      (fold_keeps (fun st => Remote.wards (up_remote st)) _ _
         (fun st x => proj1 (upload_household_others env st x))),
      (fold_keeps (fun st => Remote.wards (up_remote st)) _ _
         (fun st x => proj1 (upload_village_others env st x))). done. }
  assert (Ev1 : Remote.villages (up_remote s1) = Remote.villages remote).
  { unfold s1.
    by rewrite (fold_keeps (fun st => Remote.villages (up_remote st)) _ _
                  (fun st x => proj1 (upload_ward_others env st x))). }
  assert (Ev : Remote.villages (up_remote s4) = Remote.villages (up_remote s2)).
  { unfold s4, s3.
    rewrite (fold_keeps (fun st => Remote.villages (up_remote st)) _ _
               (fun st x => proj1 (proj2 (upload_citizen_others env st x)))),
      (fold_keeps (fun st => Remote.villages (up_remote st)) _ _
         (fun st x => proj1 (proj2 (upload_household_others env st x)))). done. }
  assert (Eh2 : Remote.households (up_remote s2) = Remote.households remote).
  { unfold s2, s1.
    rewrite (fold_keeps (fun st => Remote.households (up_remote st)) _ _
               (fun st x => proj1 (proj2 (upload_village_others env st x)))),
      (fold_keeps (fun st => Remote.households (up_remote st)) _ _
         (fun st x => proj1 (proj2 (upload_ward_others env st x)))). done. }
  assert (Eh : Remote.households (up_remote s4) = Remote.households (up_remote s3)).
  { unfold s4.
    by rewrite (fold_keeps (fun st => Remote.households (up_remote st)) _ _
                  (fun st x => proj2 (proj2 (upload_citizen_others env st x)))). }
  assert (Ec3 : Remote.citizens (up_remote s3) = Remote.citizens remote).
  { unfold s3, s2, s1.
    rewrite (fold_keeps (fun st => Remote.citizens (up_remote st)) _ _
               (fun st x => proj2 (proj2 (upload_household_others env st x)))),
      (fold_keeps (fun st => Remote.citizens (up_remote st)) _ _
         (fun st x => proj2 (proj2 (upload_village_others env st x)))),
      (fold_keeps (fun st => Remote.citizens (up_remote st)) _ _
         (fun st x => proj2 (proj2 (upload_ward_others env st x)))). done. }
  (* the four loops *)
  destruct (fold_keeps_keys Ward.id Ward.code SupabaseWard.id SupabaseWard.code
              (ward_patch env) (fun w => randomUUID env TWard (Ward.id w))
              ltac:(done) ltac:(done)
              (fun st => Remote.wards (up_remote st)) (upload_ward env)
              (upload_ward_writes env) (Remote.wards remote)
              (rows (Local.wards local)) [] s0) as [Ow Kw];
    [done|done|done|apply keeps_keys_refl|by left|].
  destruct (fold_keeps_keys Village.id Village.code SupabaseVillage.id
              SupabaseVillage.code (village_patch env)
              (fun v => randomUUID env TVillage (Village.id v))
              ltac:(done) ltac:(done)
              (fun st => Remote.villages (up_remote st)) (upload_village env)
              (upload_village_writes env) (Remote.villages remote)
              (rows (Local.villages local)) [] s1) as [Ov Kv];
    [done|done|by rewrite Ev1|rewrite Ev1; apply keeps_keys_refl
    |rewrite Ev1; by left|].
  destruct (fold_keeps_keys Household.id Household.code SupabaseHousehold.id
              SupabaseHousehold.code (household_patch env)
              (fun h => randomUUID env THousehold (Household.id h))
              ltac:(done) ltac:(done)
              (fun st => Remote.households (up_remote st)) (upload_household env)
              (upload_household_writes env) (Remote.households remote)
              (rows (Local.households local)) [] s2) as [Oh Kh];
    [done|done|by rewrite Eh2|rewrite Eh2; apply keeps_keys_refl
    |rewrite Eh2; by left|].
  destruct (fold_keeps_keys Citizen.id Citizen.uniqueId SupabaseCitizen.id
              SupabaseCitizen.unique_id (citizen_patch env)
              (fun c => randomUUID env TCitizen (Citizen.id c))
              ltac:(done) ltac:(done)
              (fun st => Remote.citizens (up_remote st)) (upload_citizen env)
              (upload_citizen_writes env) (Remote.citizens remote)
              (rows (Local.citizens local)) [] s3) as [Oc Kc];
    [done|done|by rewrite Ec3|rewrite Ec3; apply keeps_keys_refl
    |rewrite Ec3; by left|].
  fold s1 in Ow, Kw. fold s2 in Ov, Kv. fold s3 in Oh, Kh. fold s4 in Oc, Kc.
  unfold remote_ids_ok. rewrite Ew, Ev, Eh. by split_and!.
Qed.

Lemma upload_keeps_remote_keys_witness :
  let local := Scenario.registry (Scenario.jane None None) in
  let remote :=
    Remote.mk [SupabaseWard.mk "a1" "W01" "Old name" 0%Z None] [] [] [] [] in
  keeps_keys SupabaseWard.id SupabaseWard.code (Remote.wards remote)
    (Remote.wards (remote_after
       (syncToSupabase (Scenario.reliable 5000) local remote))).
Proof.
  intros local remote.
  refine (proj1 (upload_keeps_remote_keys (Scenario.reliable 5000) local
                   remote _ _ _)).
  - unfold local_ok, table_ok; simpl.
    split_and!; first [apply NoDup_singleton | repeat constructor].
  - unfold remote_ids_ok, ids_ok; simpl.
    split_and!; first [apply NoDup_singleton | apply NoDup_nil_2
                      | repeat constructor].
  - unfold fresh_ids, fresh_for; simpl.
    split_and!; intros ? ->%list_elem_of_singleton; split_and!;
      first [done | by intros ?%elem_of_nil
            | by intros ?%list_elem_of_singleton
            | by intros ? ->%list_elem_of_singleton].
Defined.

End RemoteKeyFacts.

(** * A download after a download *)

Module RepeatFacts.
Import SyncTerms RepeatTerms.

Section Again.
Context {R L : Type} `{Keyed L}.
Variables (rid rcode : R -> string) (lcode : L -> string).
Variable build : R -> option (nat -> L).
Hypothesis build_code : forall r f k, build r = Some f -> lcode (f k) = rcode r.
Hypothesis build_key : forall r f k, build r = Some f -> primary_key (f k) = k.

Abbreviation step := (restore rid rcode lcode build).

Lemma find_by_code (l : list L) x c :
  NoDup (lcode <$> l) -> x ∈ l -> lcode x = c ->
  List.find (fun y => String.eqb (lcode y) c) l = Some x.
Proof.
  intros Hnd Hx Hc. induction l as [|a l IH]; [by apply elem_of_nil in Hx|].
  cbn [fmap list_fmap] in Hnd. apply NoDup_cons in Hnd as [Ha Hnd].
  cbn [List.find]. destruct (String.eqb_spec (lcode a) c) as [E|E].
  - apply elem_of_cons in Hx as [->|Hx]; [done|].
    exfalso. apply Ha. rewrite E, <- Hc. by apply list_elem_of_fmap_2.
  - apply elem_of_cons in Hx as [->|Hx]; [done|]. by apply IH.
Qed.

Lemma find_none_code (l : list L) c :
  List.find (fun y => String.eqb (lcode y) c) l = None -> c ∉ lcode <$> l.
Proof.
  intros E [x [-> Hx]]%list_elem_of_fmap.
  apply list_elem_of_In in Hx.
  apply (find_none _ _ E) in Hx. by rewrite String.eqb_refl in Hx.
Qed.

Lemma key_determines_row (l : list L) x y :
  NoDup (primary_key <$> l) -> x ∈ l -> y ∈ l ->
  primary_key x = primary_key y -> x = y.
Proof.
  intros Hnd [i Ei]%list_elem_of_lookup [j Ej]%list_elem_of_lookup E.
  assert (i = j); [|congruence].
  apply (NoDup_lookup (primary_key <$> l) i j (primary_key y));
    [done|..]; rewrite list_lookup_fmap;
    [by rewrite Ei; cbn; rewrite E|by rewrite Ej].
Qed.

Lemma fmap_map_ext {B} (g : L -> L) (h : L -> B) (l : list L) :
  (forall y, y ∈ l -> h (g y) = h y) -> h <$> map g l = h <$> l.
Proof.
  induction l as [|a l IH]; intros Hg; [done|].
  cbn [map fmap list_fmap]. f_equal.
  - apply Hg. by left.
  - apply IH. intros y Hy. apply Hg. by right.
Qed.

Lemma update_codes k (f : nat -> L) (t : Table L) e :
  e ∈ rows t -> primary_key e = k -> lcode (f k) = lcode e ->
  NoDup (primary_key <$> rows t) ->
  lcode <$> rows (update k f t) = lcode <$> rows t.
Proof.
  intros He Hk Hc Hnd. unfold update. cbn [rows].
  apply fmap_map_ext. intros y Hy.
  destruct (Nat.eqb_spec (primary_key y) k) as [E|E]; [|done].
  rewrite Hc. f_equal. symmetry.
  apply (key_determines_row (rows t)); try done. congruence.
Qed.

(** One step, when the row is stored. *)
Lemma step_stores t r f :
  build r = Some f -> keys_unique lcode t ->
  exists k t',
    (forall M', step (t, M') r = (t', <[rid r := k]> M'))
    /\ keys_unique lcode t'
    /\ f k ∈ rows t'
    /\ (forall x, x ∈ rows t -> lcode x <> rcode r -> x ∈ rows t').
Proof.
  intros Hb [Hok Hcodes]. pose proof Hok as [Hnd Hlt].
  unfold restore. rewrite Hb. cbn [fst snd].
  unfold first_where.
  destruct (List.find (fun x => String.eqb (lcode x) (rcode r)) (rows t))
    as [e|] eqn:E.
  - pose proof E as [He Hc]%SyncFacts.find_some_elem.
    apply String.eqb_eq in Hc.
    exists (primary_key e), (update (primary_key e) f t).
    split_and!.
    + done.
    + split.
      * apply (SyncFacts.put_ok (Some e) f t); [|done].
        intros i. by apply (build_key r).
      * rewrite (update_codes _ f t e); try done.
        by rewrite (build_code r f _ Hb).
    + unfold update. cbn [rows]. apply list_elem_of_In, in_map_iff.
      exists e. rewrite Nat.eqb_refl. split; [done|by apply list_elem_of_In].
    + intros x Hx Hne. unfold update. cbn [rows].
      apply list_elem_of_In, in_map_iff. exists x.
      split; [|by apply list_elem_of_In].
      destruct (Nat.eqb_spec (primary_key x) (primary_key e)) as [Ek|]; [|done].
      exfalso. apply Hne. rewrite <- Hc. f_equal.
      by apply (key_determines_row (rows t)).
  - exists (nextId t), (add f t).2. split_and!.
    + done.
    + split.
      * apply (SyncFacts.put_ok None f t); [|done].
        intros i. by apply (build_key r).
      * unfold add. cbn [snd rows]. rewrite fmap_app.
        apply NoDup_app. split; [done|]. split; [|apply NoDup_singleton].
        intros c Hc Hx%list_elem_of_singleton.
        apply find_none_code in E. apply E.
        cbn in Hx. rewrite (build_code r f _ Hb) in Hx. by subst c.
    + unfold add. cbn [snd rows]. apply elem_of_app. right.
      by apply list_elem_of_singleton.
    + intros x Hx _. unfold add. cbn [snd rows]. apply elem_of_app. by left.
Qed.

Lemma fold_keys_unique rs : forall t M,
  keys_unique lcode t -> keys_unique lcode (fold_left step rs (t, M)).1.
Proof.
  induction rs as [|r rs IH]; intros t M Hok; [done|].
  cbn [fold_left]. destruct (build r) as [f|] eqn:Hb.
  - destruct (step_stores t r f Hb Hok) as (k & t' & -> & Hok' & _).
    by apply IH.
  - rewrite SyncFacts.restore_skip by done. by apply IH.
Qed.

Lemma fold_persists rs : forall t M x,
  keys_unique lcode t -> x ∈ rows t -> lcode x ∉ rcode <$> rs ->
  x ∈ rows (fold_left step rs (t, M)).1.
Proof.
  induction rs as [|r rs IH]; intros t M x Hok Hx Hc; [done|].
  cbn [fold_left]. cbn [fmap list_fmap] in Hc.
  apply not_elem_of_cons in Hc as [Hr Hc].
  destruct (build r) as [f|] eqn:Hb.
  - destruct (step_stores t r f Hb Hok) as (k & t' & -> & Hok' & _ & Hkeep).
    apply IH; [done| |done]. by apply Hkeep.
  - rewrite SyncFacts.restore_skip by done. by apply IH.
Qed.

(** One step on a table that already holds the row the step stores. *)
Lemma step_again T M r f x :
  build r = Some f -> keys_unique lcode T ->
  x ∈ rows T -> x = f (primary_key x) ->
  step (T, M) r = (T, <[rid r := primary_key x]> M).
Proof.
  intros Hb [[Hnd _] Hcodes] Hx Ex.
  assert (Hc : lcode x = rcode r) by (rewrite Ex; by apply build_code).
  unfold restore. rewrite Hb. cbn [fst snd]. unfold first_where.
  rewrite (find_by_code (rows T) x (rcode r)) by done.
  cbn [put fst snd]. f_equal.
  unfold update. destruct T as [l n]. cbn [rows nextId] in *. f_equal.
  rewrite <- (map_id l) at 2. apply map_ext_in. intros y Hy.
  destruct (Nat.eqb_spec (primary_key y) (primary_key x)) as [E|]; [|done].
  rewrite <- Ex. symmetry.
  apply (key_determines_row l); try done. by apply list_elem_of_In.
Qed.

Lemma fold_again rs : forall t,
  keys_unique lcode t -> NoDup (rcode <$> rs) ->
  exists pairs,
    (forall M, fold_left step rs (t, M)
               = ((fold_left step rs (t, ∅)).1, bind_all pairs M))
    /\ (forall M, fold_left step rs ((fold_left step rs (t, ∅)).1, M)
                  = ((fold_left step rs (t, ∅)).1, bind_all pairs M)).
Proof.
  induction rs as [|r rs IH]; intros t Hok Hnd.
  { exists []. split; intros M; done. }
  cbn [fmap list_fmap] in Hnd. apply NoDup_cons in Hnd as [Hr Hnd].
  cbn [fold_left]. destruct (build r) as [f|] eqn:Hb.
  - destruct (step_stores t r f Hb Hok) as (k & t' & Hs & Hok' & Hin & _).
    destruct (IH t' Hok' Hnd) as (pairs & H1 & H2).
    exists ((rid r, k) :: pairs).
    assert (ET : (fold_left step rs (step (t, ∅) r)).1
                 = (fold_left step rs (t', ∅)).1).
    { by rewrite Hs, H1. }
    rewrite ET. split; intros M.
    + by rewrite Hs, H1.
    + rewrite (step_again _ M r f (f k)); try done.
      * rewrite (build_key r f k Hb). by rewrite H2.
      * by apply fold_keys_unique.
      * apply fold_persists; [done|done|].
        by rewrite (build_code r f k Hb).
      * by rewrite (build_key r f k Hb).
  - rewrite !SyncFacts.restore_skip by done.
    destruct (IH t Hok Hnd) as (pairs & H1 & H2).
    exists pairs. split; intros M.
    + rewrite SyncFacts.restore_skip by done. apply H1.
    + rewrite SyncFacts.restore_skip by done. apply H2.
Qed.

(** A second pass over the same rows ends where the first ended. *)
Lemma second_pass rs t :
  keys_unique lcode t -> NoDup (rcode <$> rs) ->
  fold_left step rs ((fold_left step rs (t, ∅)).1, ∅) = fold_left step rs (t, ∅).
Proof.
  intros Hok Hnd. destruct (fold_again rs t Hok Hnd) as (pairs & H1 & H2).
  rewrite H2. symmetry. apply H1.
Qed.

End Again.

End RepeatFacts.

(** ** The four tiers, twice *)

Module RestoreAgain.
Import SyncTerms RepeatTerms RepeatFacts.

Lemma ward_fields_code r f k :
  ward_fields r = Some f ->
  Ward.code (f k) = SupabaseWard.code r /\ primary_key (f k) = k.
Proof. by intros [= <-]. Qed.

Lemma village_fields_code M r f k :
  village_fields M r = Some f ->
  Village.code (f k) = SupabaseVillage.code r /\ primary_key (f k) = k.
Proof.
  unfold village_fields. destruct (M !! _) as [w|]; [|done].
  destruct (truthy_number w); [|done]. by intros [= <-].
Qed.

Lemma household_fields_code M r f k :
  household_fields M r = Some f ->
  Household.code (f k) = SupabaseHousehold.code r /\ primary_key (f k) = k.
Proof.
  unfold household_fields. destruct (M !! _) as [w|]; [|done].
  destruct (truthy_number w); [|done]. by intros [= <-].
Qed.

Lemma citizen_fields_code env objects hs vs ws r f k :
  citizen_fields env objects hs vs ws r = Some f ->
  Citizen.uniqueId (f k) = SupabaseCitizen.unique_id r /\ primary_key (f k) = k.
Proof.
  unfold citizen_fields.
  destruct (hs !! _) as [h|]; [|done]. destruct (vs !! _) as [v|]; [|done].
  destruct (ws !! _) as [w|]; [|done].
  destruct (truthy_number h && truthy_number v && truthy_number w); [|done].
  intros [= <-]. unfold set_fingerprintData, set_photoData.
  by repeat match goal with
            | |- context [if ?b then _ else _] => destruct b
            end.
Qed.

Lemma citizen_fields_env env1 env2 :
  photo_fetched env2 = photo_fetched env1 ->
  fingerprint_fetched env2 = fingerprint_fetched env1 ->
  citizen_fields env2 = citizen_fields env1.
Proof.
  destruct env1, env2. cbn. by intros -> ->.
Qed.

Lemma NoDup_order_by {R} (key : R -> Z) (code : R -> string) l :
  NoDup (code <$> l) -> NoDup (code <$> order_by key l).
Proof. by rewrite SyncFacts.order_by_perm. Qed.

Section Twice.
Variables (local : Local.t) (remote : Remote.t).
Hypothesis local_keys : local_ok local.
Hypothesis local_codes : natural_keys_unique local.
Hypothesis remote_codes : remote_codes_unique remote.

Lemma wards_again l1 :
  Local.wards l1 = (wards_back local remote).1 ->
  wards_back l1 remote = wards_back local remote.
Proof.
  intros E. unfold wards_back at 1. rewrite E. unfold wards_back.
  apply second_pass.
  - intros r f k Hf. by apply ward_fields_code.
  - intros r f k Hf. by apply (ward_fields_code r).
  - split; [apply local_keys|apply local_codes].
  - apply NoDup_order_by, remote_codes.
Qed.

Lemma villages_again l1 :
  Local.wards l1 = (wards_back local remote).1 ->
  Local.villages l1 = (villages_back local remote).1 ->
  villages_back l1 remote = villages_back local remote.
Proof.
  intros Ew E. unfold villages_back at 1. rewrite (wards_again l1 Ew), E.
  unfold villages_back. apply second_pass.
  - intros r f k Hf. by eapply village_fields_code.
  - intros r f k Hf. by eapply village_fields_code.
  - split; [apply local_keys|apply local_codes].
  - apply NoDup_order_by, remote_codes.
Qed.

Lemma households_again l1 :
  Local.wards l1 = (wards_back local remote).1 ->
  Local.villages l1 = (villages_back local remote).1 ->
  Local.households l1 = (households_back local remote).1 ->
  households_back l1 remote = households_back local remote.
Proof.
  intros Ew Ev E. unfold households_back at 1.
  rewrite (villages_again l1 Ew Ev), E.
  unfold households_back. apply second_pass.
  - intros r f k Hf. by eapply household_fields_code.
  - intros r f k Hf. by eapply household_fields_code.
  - split; [apply local_keys|apply local_codes].
  - apply NoDup_order_by, remote_codes.
Qed.

Lemma citizens_again env1 env2 l1 :
  photo_fetched env2 = photo_fetched env1 ->
  fingerprint_fetched env2 = fingerprint_fetched env1 ->
  Local.wards l1 = (wards_back local remote).1 ->
  Local.villages l1 = (villages_back local remote).1 ->
  Local.households l1 = (households_back local remote).1 ->
  Local.citizens l1 = citizens_back env1 local remote ->
  citizens_back env2 l1 remote = citizens_back env1 local remote.
Proof.
  intros Hp Hf Ew Ev Eh E. unfold citizens_back at 1. unfold member_fields.
  rewrite (households_again l1 Ew Ev Eh), (villages_again l1 Ew Ev),
    (wards_again l1 Ew), E, (citizen_fields_env env1 env2 Hp Hf).
  unfold citizens_back, member_fields. f_equal. apply second_pass.
  - intros r f k Hk. by eapply citizen_fields_code.
  - intros r f k Hk. by eapply citizen_fields_code.
  - split; [apply local_keys|apply local_codes].
  - apply NoDup_order_by, remote_codes.
Qed.

Lemma back_keys_unique env :
  keys_unique Ward.code (wards_back local remote).1
  /\ keys_unique Village.code (villages_back local remote).1
  /\ keys_unique Household.code (households_back local remote).1
  /\ keys_unique Citizen.uniqueId (citizens_back env local remote).
Proof.
  split_and!; apply fold_keys_unique;
    first [ intros r f k Hf;
            first [ by apply ward_fields_code
                  | by apply (ward_fields_code r)
                  | by eapply village_fields_code
                  | by eapply household_fields_code
                  | by eapply citizen_fields_code ]
          | split; [apply local_keys|apply local_codes] ].
Qed.

End Twice.

(** X18. A download into the store a download has left changes no table.
    When the fetches succeed, no local write throws and the attachments
    that can be fetched are the same in both runs, and the local primary
    keys, the local natural keys and the remote natural keys are unique,
    the second run finds every row of the first under its natural key and
    writes it back as it is; it adds no row.  The first run leaves the
    local keys unique. *)
Theorem second_restore_changes_nothing env1 env2 local remote :
  restoring_ok env1 -> restoring_ok env2 ->
  photo_fetched env2 = photo_fetched env1 ->
  fingerprint_fetched env2 = fingerprint_fetched env1 ->
  local_ok local -> natural_keys_unique local -> remote_codes_unique remote ->
  let run1 := restoreFromSupabase env1 local remote in
  let run2 := restoreFromSupabase env2 (local_after run1) remote in
  Local.wards (local_after run2) = Local.wards (local_after run1)
  /\ Local.villages (local_after run2) = Local.villages (local_after run1)
  /\ Local.households (local_after run2) = Local.households (local_after run1)
  /\ Local.citizens (local_after run2) = Local.citizens (local_after run1)
  /\ local_ok (local_after run1)
  /\ natural_keys_unique (local_after run1).
Proof.
  intros Hok1 Hok2 Hp Hf Hl Hc Hr run1 run2.
  pose proof Hok1 as (On1 & _). pose proof Hok2 as (On2 & _).
  destruct (SyncFacts.download_all_shape env1 local remote Hok1)
    as (res1 & E1 & _).
  assert (L1 : local_after run1
               = with_settings
                   (set_last_sync_time (dl_finished_at env1) (Local.settings local))
                   (Local.mk (wards_back local remote).1
                      (villages_back local remote).1
                      (households_back local remote).1
                      (citizens_back env1 local remote) (Local.settings local))).
  { unfold run1, restoreFromSupabase. rewrite On1. cbn [negb local_after].
    by rewrite E1. }
  destruct (SyncFacts.download_all_shape env2 (local_after run1) remote Hok2)
    as (res2 & E2 & _).
  assert (L2 : local_after run2
               = with_settings
                   (set_last_sync_time (dl_finished_at env2)
                      (Local.settings (local_after run1)))
                   (Local.mk (wards_back (local_after run1) remote).1
                      (villages_back (local_after run1) remote).1
                      (households_back (local_after run1) remote).1
                      (citizens_back env2 (local_after run1) remote)
                      (Local.settings (local_after run1)))).
  { unfold run2, restoreFromSupabase. rewrite On2. cbn [negb local_after].
    by rewrite E2. }
  assert (Ew : Local.wards (local_after run1) = (wards_back local remote).1)
    by by rewrite L1.
  assert (Ev : Local.villages (local_after run1) = (villages_back local remote).1)
    by by rewrite L1.
  assert (Eh : Local.households (local_after run1)
               = (households_back local remote).1) by by rewrite L1.
  assert (Ec : Local.citizens (local_after run1)
               = citizens_back env1 local remote) by by rewrite L1.
  destruct (back_keys_unique local remote Hl Hc env1)
    as ((?&?) & (?&?) & (?&?) & (?&?)).
  rewrite L2. cbn [with_settings Local.wards Local.villages Local.households
                   Local.citizens].
  rewrite (wards_again local remote Hl Hc Hr _ Ew),
    (villages_again local remote Hl Hc Hr _ Ew Ev),
    (households_again local remote Hl Hc Hr _ Ew Ev Eh),
    (citizens_again local remote Hl Hc Hr env1 env2 _ Hp Hf Ew Ev Eh Ec).
  rewrite Ew, Ev, Eh, Ec.
  split_and!; try done.
  - unfold local_ok. by rewrite Ew, Ev, Eh, Ec.
  - unfold natural_keys_unique. by rewrite Ew, Ev, Eh, Ec.
Qed.

(** A store with one ward and a remote store with another one: the first
    download adds the remote ward, the second adds nothing. *)
Lemma second_restore_changes_nothing_witness :
  let env := Scenario.restoring true None in
  let local := Scenario.registry (Scenario.jane None None) in
  let remote :=
    Remote.mk [SupabaseWard.mk "a1" "W02" "South" 0%Z None] [] [] [] [] in
  let run1 := restoreFromSupabase env local remote in
  let run2 := restoreFromSupabase env (local_after run1) remote in
  Local.wards (local_after run2) = Local.wards (local_after run1)
  /\ length (rows (Local.wards (local_after run1))) = 2.
Proof.
  intros env local remote run1 run2. split; [|reflexivity].
  refine (proj1 (second_restore_changes_nothing env env local remote
                   _ _ _ _ _ _ _)).
  - unfold restoring_ok; simpl. by split_and!.
  - unfold restoring_ok; simpl. by split_and!.
  - reflexivity.
  - reflexivity.
  - unfold local_ok, table_ok; simpl.
    split_and!; first [apply NoDup_singleton | repeat constructor].
  - unfold natural_keys_unique; simpl. split_and!; apply NoDup_singleton.
  - unfold remote_codes_unique; simpl.
    split_and!; first [apply NoDup_singleton | apply NoDup_nil_2].
Defined.

End RestoreAgain.

(** * The import of a batch *)

Module ImportFacts.
Import Validation Batch BatchTerms BatchFacts Db CsvImport ImportTerms.

Lemma import_fold_closed env skipDuplicates duplicateRows l : forall st,
  fold_left (import_step env skipDuplicates duplicateRows) l st
  = mkImportState
      (fold_left (import_one env)
         (List.filter (kept_row env skipDuplicates duplicateRows) l)
         (citizens st))
      (imported st
       + length (List.filter (kept_row env skipDuplicates duplicateRows) l))
      (skipped st
       + length (List.filter (skipped_row skipDuplicates duplicateRows) l))
      (import_errors st
       ++ (import_failure
             <$> List.filter (failed_row env skipDuplicates duplicateRows) l)).
Proof.
  induction l as [|ir l IH]; intros st.
  - destruct st. cbn. by rewrite !Nat.add_0_r, app_nil_r.
  - cbn [fold_left List.filter]. rewrite IH. clear IH.
    unfold import_step, kept_row, failed_row, skipped_row.
    destruct (skipDuplicates && bool_decide (ir.1 + 1 ∈ duplicateRows));
      cbn [negb andb citizens imported skipped import_errors length fold_left
           fmap list_fmap].
    + f_equal; lia.
    + destruct (add_throws env (ir.1 + 1));
        cbn [negb andb citizens imported skipped import_errors length fold_left
             fmap list_fmap].
      * f_equal. by rewrite <- app_assoc.
      * f_equal; lia.
Qed.

Lemma snd_indexed {A} (l : list A) : snd <$> indexed l = l.
Proof.
  unfold indexed. generalize 0.
  induction l as [|a l IH]; intros k; [done|].
  cbn [length seq combine fmap list_fmap snd]. by rewrite IH.
Qed.

Lemma filter_all {A} (p : A -> bool) (l : list A) :
  (forall x, x ∈ l -> p x = true) -> List.filter p l = l.
Proof.
  induction l as [|a l IH]; intros H; [done|]. cbn [List.filter].
  rewrite (H a) by (apply elem_of_cons; by left).
  f_equal. apply IH. intros x Hx. apply H, elem_of_cons. by right.
Qed.

Section WithHost.
Variable toDateString : Date -> string.
Variable now : nat -> Date.

Lemma import_closed env records skipDuplicates t :
  let batch :=
    validateImportBatch toDateString now (toArray t) records
      (negb skipDuplicates) in
  let duplicateRows := fst <$> duplicates batch in
  let out := handleImport env toDateString now records skipDuplicates t in
  out.2
  = fold_left (import_one env)
      (List.filter (kept_row env skipDuplicates duplicateRows)
         (indexed (valid batch))) t
  /\ result_imported out.1
     = length (List.filter (kept_row env skipDuplicates duplicateRows)
                 (indexed (valid batch)))
  /\ result_skipped out.1
     = length (List.filter (skipped_row skipDuplicates duplicateRows)
                 (indexed (valid batch)))
  /\ result_errors out.1
     = errors batch
       ++ (import_failure
             <$> List.filter (failed_row env skipDuplicates duplicateRows)
                   (indexed (valid batch)))
  /\ result_duplicates out.1 = duplicates batch.
Proof.
  intros batch duplicateRows out.
  unfold out, handleImport. fold batch. fold duplicateRows.
  by rewrite import_fold_closed.
Qed.

(** X16. The import decides by position.  The record at index [i] of
    [valid] is skipped exactly when skipping is switched on and the
    duplicate report has an entry for row [i + 1], that is, when the
    record at index [i] of the batch is valid and has matches in the
    store.  When no record of the batch has a validation error, [valid]
    is the batch and the skipped records are the ones with matches.  The
    records that are not skipped are inserted in the order of [valid],
    unless their insert throws, which leaves one error; the counters are
    the numbers of inserted and of skipped records. *)
Theorem handleImport_skips_by_position env records skipDuplicates t :
  let batch :=
    validateImportBatch toDateString now (toArray t) records
      (negb skipDuplicates) in
  let duplicateRows := fst <$> duplicates batch in
  let out := handleImport env toDateString now records skipDuplicates t in
  (forall i record,
     skipped_row skipDuplicates duplicateRows (i, record) = true
     <-> skipDuplicates = true
         /\ exists record',
              records !! i = Some record'
              /\ row_valid now (i, record') = true
              /\ findDuplicates toDateString (toArray t) record' 0.7%float <> [])
  /\ (errors batch = [] -> valid batch = records)
  /\ out.2
     = fold_left (import_one env)
         (List.filter (kept_row env skipDuplicates duplicateRows)
            (indexed (valid batch))) t
  /\ result_imported out.1
     = length (List.filter (kept_row env skipDuplicates duplicateRows)
                 (indexed (valid batch)))
  /\ result_skipped out.1
     = length (List.filter (skipped_row skipDuplicates duplicateRows)
                 (indexed (valid batch)))
  /\ result_errors out.1
     = errors batch
       ++ (import_failure
             <$> List.filter (failed_row env skipDuplicates duplicateRows)
                   (indexed (valid batch)))
  /\ result_duplicates out.1 = duplicates batch.
Proof.
  intros batch duplicateRows out.
  destruct (batch_outputs toDateString now (toArray t) records
              (negb skipDuplicates)) as (Ev & Ee & Ed).
  fold batch in Ev, Ee, Ed.
  split_and!.
  - intros i record. unfold skipped_row. cbn [fst].
    rewrite andb_true_iff, bool_decide_eq_true. subst duplicateRows.
    rewrite Ed. split.
    + intros [-> Hin]. split; [done|]. cbn [negb] in Hin.
      apply list_elem_of_fmap in Hin as ([row ms] & Erow & Hin).
      cbn [fst] in Erow. subst row.
      apply list_elem_of_In, in_flat_map in Hin as ([j r] & Hjr & Hd).
      apply list_elem_of_In, elem_of_indexed in Hjr.
      unfold row_duplicates, row_matches in Hd. cbn [fst snd] in Hd.
      destruct (row_valid now (j, r)) eqn:Hv; [|done].
      destruct (findDuplicates toDateString (toArray t) r 0.7%float)
        as [|m ms'] eqn:Em; [done|].
      destruct Hd as [[= Ej <-]|[]]. assert (j = i) as -> by lia.
      exists r. split_and!; [done|done|]. by rewrite Em.
    + intros (-> & r & Hr & Hv & Hm). split; [done|]. cbn [negb].
      apply list_elem_of_fmap.
      exists (i + 1, findDuplicates toDateString (toArray t) r 0.7%float).
      split; [done|]. apply list_elem_of_In, in_flat_map. exists (i, r).
      split; [by apply list_elem_of_In, elem_of_indexed|].
      unfold row_duplicates, row_matches. cbn [fst snd]. rewrite Hv.
      destruct (findDuplicates toDateString (toArray t) r 0.7%float); [done|].
      by left.
  - intros He. rewrite Ev, filter_all; [apply snd_indexed|].
    intros ir Hir. unfold row_valid.
    rewrite Ee in He.
    destruct (row_errors now ir) as [|e es] eqn:E; [done|]. exfalso.
    assert (Hin : In e (flat_map (row_errors now) (indexed records))).
    { apply in_flat_map. exists ir. split; [by apply list_elem_of_In|].
      rewrite E. by left. }
    by rewrite He in Hin.
  - apply import_closed.
  - apply import_closed.
  - apply import_closed.
  - apply import_closed.
  - done.
Qed.

End WithHost.

(** A batch of a record without names, a record of a stored member and a
    record of a new member: the duplicate report names row 2, the stored
    member, and the loop skips the second valid record, the new member,
    and imports the stored member again. *)
Lemma handleImport_skips_by_position_witness :
  let store := mkTable [ValidationTerms.john_smith] 2 in
  let records := [named None None None;
                  named (Some "John") (Some "Smith") (Some male);
                  named (Some "Mary") (Some "Kila") (Some female)]%string in
  let batch :=
    validateImportBatch ValidationTerms.utc_day_string (fun _ => 9000%Z)
      (toArray store) records false in
  let out := handleImport plain_import ValidationTerms.utc_day_string
               (fun _ => 9000%Z) records true store in
  skipped_row true (fst <$> duplicates batch)
    (1, named (Some "Mary") (Some "Kila") (Some female))%string = true
  /\ Citizen.firstName <$> rows out.2 = ["John"; "John"]%string
  /\ result_skipped out.1 = 1.
Proof.
  intros store records batch out. split; [|split; vm_compute; reflexivity].
  apply (proj1 (handleImport_skips_by_position ValidationTerms.utc_day_string
                  (fun _ => 9000%Z) plain_import records true store)).
  split; [reflexivity|].
  exists (named (Some "John") (Some "Smith") (Some male))%string.
  split; [reflexivity|]. split; [vm_compute; reflexivity|].
  vm_compute. discriminate.
Defined.

End ImportFacts.

(** ** The rows an import adds *)

Module ImportedRows.
Import Validation Batch BatchTerms Db DbFacts CsvImport ImportTerms ImportFacts.
Import CitizenIdFacts.

Lemma import_one_rows env t ir :
  rows (import_one env t ir)
  = rows t ++ [citizen_of env (ir.1 + 1) (id_at env (count t)) ir.2 (nextId t)]
  /\ nextId (import_one env t ir) = S (nextId t).
Proof. done. Qed.

Lemma import_rows env kept : forall t,
  exists added,
    rows (fold_left (import_one env) kept t) = rows t ++ added
    /\ nextId (fold_left (import_one env) kept t) = nextId t + length kept
    /\ length added = length kept
    /\ Citizen.uniqueId <$> added = id_at env <$> seq (count t) (length kept)
    /\ Citizen.id <$> added = seq (nextId t) (length kept)
    /\ Forall (fun c =>
                 Citizen.householdId c = selectedHouseholdId env
                 /\ Citizen.villageId c = selectedVillageId env
                 /\ Citizen.wardId c = selectedWardId env
                 /\ Citizen.consentGiven c = true
                 /\ Citizen.recorderName c = Some "CSV Import"%string
                 /\ Citizen.photoData c = None
                 /\ Citizen.fingerprintData c = None) added.
Proof.
  induction kept as [|ir kept IH]; intros t.
  - exists []. cbn. rewrite app_nil_r, Nat.add_0_r. split_and!; done.
  - cbn [fold_left]. destruct (IH (import_one env t ir))
      as (added & E1 & E2 & E3 & E4 & E5 & E6).
    destruct (import_one_rows env t ir) as [R1 R2].
    exists (citizen_of env (ir.1 + 1) (id_at env (count t)) ir.2 (nextId t)
            :: added).
    rewrite E1, E2, R1, R2, <- app_assoc. cbn [length]. split_and!.
    + done.
    + lia.
    + by rewrite E3.
    + rewrite fmap_cons, E4. cbn [seq fmap list_fmap citizen_of Citizen.uniqueId].
      f_equal. unfold count. rewrite R1, length_app. cbn [length].
      by rewrite Nat.add_1_r.
    + rewrite fmap_cons, E5, R2. done.
    + by constructor.
Qed.

Lemma id_at_inj env n m : id_at env n = id_at env m -> n = m.
Proof.
  unfold id_at. intros H. do 4 apply append_cancel_l in H.
  apply (f_equal (fun s => Nat.of_uint <$> NilEmpty.uint_of_string s)) in H.
  rewrite !padded_number_parses in H. injection H. lia.
Qed.

Lemma filter_three {A} (p q r : A -> bool) (l : list A) :
  (forall x, (p x, q x, r x) = (true, false, false)
             \/ (p x, q x, r x) = (false, true, false)
             \/ (p x, q x, r x) = (false, false, true)) ->
  length (List.filter p l) + length (List.filter q l) + length (List.filter r l)
  = length l.
Proof.
  intros H. induction l as [|a l IH]; [done|]. cbn [List.filter].
  destruct (H a) as [[= -> -> ->]|[[= -> -> ->]|[= -> -> ->]]];
    cbn [length]; lia.
Qed.

Lemma length_indexed {A} (l : list A) : length (indexed l) = length l.
Proof. unfold indexed. rewrite length_combine, length_seq. lia. Qed.

Section WithHost.
Variable toDateString : Date -> string.
Variable now : nat -> Date.

(** X17. An import only appends to the member table: the rows that were
    there stay as they are, and one row is appended for each imported
    record, under the next primary keys, with the selected household,
    village and ward, consent given, recorder "CSV Import" and no
    attachments.  The identifiers generated in one import carry
    consecutive sequence numbers, starting after the size of the table,
    and are pairwise distinct.  Every valid record is imported, skipped or
    leaves one import error. *)
Theorem handleImport_appends env records skipDuplicates t :
  let batch :=
    validateImportBatch toDateString now (toArray t) records
      (negb skipDuplicates) in
  let out := handleImport env toDateString now records skipDuplicates t in
  exists added,
    rows out.2 = rows t ++ added
    /\ length added = result_imported out.1
    /\ Citizen.uniqueId <$> added
       = id_at env <$> seq (count t) (result_imported out.1)
    /\ NoDup (Citizen.uniqueId <$> added)
    /\ Citizen.id <$> added = seq (nextId t) (result_imported out.1)
    /\ Forall (fun c =>
                 Citizen.householdId c = selectedHouseholdId env
                 /\ Citizen.villageId c = selectedVillageId env
                 /\ Citizen.wardId c = selectedWardId env
                 /\ Citizen.consentGiven c = true
                 /\ Citizen.recorderName c = Some "CSV Import"%string
                 /\ Citizen.photoData c = None
                 /\ Citizen.fingerprintData c = None) added
    /\ result_imported out.1 + result_skipped out.1
       + (length (result_errors out.1) - length (errors batch))
       = length (valid batch).
Proof.
  intros batch out.
  destruct (import_closed toDateString now env records
              skipDuplicates t) as (Et & Ei & Es & Ee & _).
  fold batch in Et, Ei, Es, Ee. fold out in Et, Ei, Es, Ee.
  set (duplicateRows := fst <$> duplicates batch) in *.
  destruct (import_rows env
              (List.filter (kept_row env skipDuplicates duplicateRows)
                 (indexed (valid batch))) t)
    as (added & E1 & _ & E3 & E4 & E5 & E6).
  exists added. rewrite Et, Ei, <- E3. split_and!; try done.
  - by rewrite E3.
  - rewrite E4. apply NoDup_fmap_2; [|apply NoDup_seq].
    intros n m. apply id_at_inj.
  - by rewrite E3.
  - rewrite E3, <- Ei, Es, Ee, length_app, length_fmap.
    rewrite Ei.
    pose proof (filter_three (kept_row env skipDuplicates duplicateRows)
                  (skipped_row skipDuplicates duplicateRows)
                  (failed_row env skipDuplicates duplicateRows)
                  (indexed (valid batch))) as H.
    rewrite length_indexed in H. rewrite <- H; [lia|].
    intros ir. unfold kept_row, failed_row.
    destruct (skipped_row skipDuplicates duplicateRows ir),
      (add_throws env (ir.1 + 1)); cbn; auto.
Qed.

End WithHost.

End ImportedRows.

(** ** The names and the sex of the rows an import adds *)

Module ImportedNames.
Import Validation Batch BatchTerms BatchFacts Db CsvImport ImportTerms ImportFacts.

Lemma when_nil b e : when b e = [] -> b = false.
Proof. by destruct b. Qed.

(** A record without validation errors has names that are not blank and
    a sex. *)
Lemma valid_record now record rowNumber :
  validateCitizenData now record rowNumber = [] ->
  exists firstName lastName sex,
    Citizen.p_firstName record = Some firstName
    /\ Citizen.p_lastName record = Some lastName
    /\ Citizen.p_sex record = Some sex
    /\ truthy_string (trim firstName) = true
    /\ truthy_string (trim lastName) = true.
Proof.
  unfold validateCitizenData. intros H.
  apply app_eq_nil in H as [H1%when_nil H].
  apply app_eq_nil in H as [H2%when_nil H].
  apply app_eq_nil in H as [H3%when_nil _].
  destruct (Citizen.p_firstName record) as [f|]; [|done].
  destruct (Citizen.p_lastName record) as [l|]; [|done].
  destruct (Citizen.p_sex record) as [s|]; [|done].
  exists f, l, s. cbn in H1, H2. apply negb_false_iff in H1, H2. done.
Qed.

Lemma or_else_trimmed v d : truthy_string (trim v) = true -> or_else (Some v) d = v.
Proof. by destruct v. Qed.

Lemma import_rows_from env kept : forall t,
  exists added,
    rows (fold_left (import_one env) kept t) = rows t ++ added
    /\ Forall (fun c => exists ir uniqueId k,
                 ir ∈ kept /\ c = citizen_of env (ir.1 + 1) uniqueId ir.2 k)
         added.
Proof.
  induction kept as [|ir kept IH]; intros t.
  - exists []. by rewrite app_nil_r.
  - cbn [fold_left]. destruct (IH (import_one env t ir)) as (added & E & Hall).
    eexists (_ :: added). rewrite E. unfold import_one at 1, add.
    cbn [snd rows]. rewrite <- app_assoc. split; [done|].
    constructor.
    + eexists ir, _, _. split; [by left|done].
    + eapply Forall_impl; [exact Hall|]. cbn.
      intros c (ir' & u & k & Hin & ->). exists ir', u, k. split; [by right|done].
Qed.

Section WithHost.
Variable toDateString : Date -> string.
Variable now : nat -> Date.

(** X22. Every row an import adds carries the first name, the last name
    and the sex of a record of the batch, and its names are not blank:
    the values the import would put in place of a missing name or sex
    are never used.  A missing disability status becomes none. *)
Theorem handleImport_uses_no_default env records skipDuplicates t :
  let out := handleImport env toDateString now records skipDuplicates t in
  exists added,
    rows out.2 = rows t ++ added
    /\ Forall (fun c => exists record,
                 record ∈ records
                 /\ Citizen.p_firstName record = Some (Citizen.firstName c)
                 /\ Citizen.p_lastName record = Some (Citizen.lastName c)
                 /\ Citizen.p_sex record = Some (Citizen.sex c)
                 /\ truthy_string (trim (Citizen.firstName c)) = true
                 /\ truthy_string (trim (Citizen.lastName c)) = true
                 /\ Citizen.disabilityStatus c
                    = default none (Citizen.p_disabilityStatus record))
         added.
Proof.
  intros out.
  destruct (import_closed toDateString now env records skipDuplicates t)
    as (Et & _).
  destruct (batch_outputs toDateString now (toArray t) records
              (negb skipDuplicates)) as (Ev & _).
  fold out in Et. rewrite Et.
  set (batch := validateImportBatch toDateString now (toArray t) records
                  (negb skipDuplicates)) in *.
  destruct (import_rows_from env
              (List.filter
                 (kept_row env skipDuplicates (fst <$> duplicates batch))
                 (indexed (valid batch))) t) as (added & E & Hall).
  exists added. split; [done|].
  eapply Forall_impl; [exact Hall|]. cbn.
  intros c ([i record] & u & k & Hin & ->).
  apply list_elem_of_In, filter_In in Hin as [Hin _].
  apply list_elem_of_In, elem_of_indexed in Hin.
  apply list_elem_of_lookup_2 in Hin. rewrite Ev in Hin.
  apply list_elem_of_fmap in Hin as ([j record'] & Er & Hj). cbn in Er. subst record'.
  apply list_elem_of_In, filter_In in Hj as [Hj Hv].
  apply list_elem_of_In, elem_of_indexed, list_elem_of_lookup_2 in Hj.
  unfold row_valid, row_errors in Hv. cbn [fst snd] in Hv.
  destruct (validateCitizenData (now (j + 1)) record (Some (j + 1))) eqn:Eq;
    [|done].
  destruct (valid_record _ _ _ Eq) as (f & l & s & Ef & El & Es & Tf & Tl).
  exists record. cbn [citizen_of Citizen.firstName Citizen.lastName Citizen.sex
                      Citizen.disabilityStatus fst snd].
  rewrite Ef, El, Es, !or_else_trimmed by done. by split_and!.
Qed.

End WithHost.

End ImportedNames.

(** * Normalisation of a parsed row *)

Module NormalizeFacts.
Import Validation Normalize NormalizeTerms.
Import Citizen.

Section WithHost.
Variable parseInt : string -> option Z.
Variable parseDate : string -> option Date.

Abbreviation normalize_entry := (normalize_entry parseInt parseDate).
Abbreviation normalizeCitizenData := (normalizeCitizenData parseInt parseDate).

Ltac by_column :=
  intros acc [key value]; unfold names, readable, names, Normalize.normalize_entry;
  cbn [fst snd]; generalize (mappedKey key); intros m;
  repeat match goal with
         | |- context [String.eqb m ?f] =>
             destruct (String.eqb_spec m f) as [->|?];
             [cbn; repeat case_match; repeat case_bool_decide; naive_solver|]
         end;
  done.

Lemma entry_firstName : forall acc e,
  p_firstName (normalize_entry acc e)
  = if names "firstName" e then trimmed e.2 else p_firstName acc.
Proof. by_column. Qed.

Lemma entry_lastName : forall acc e,
  p_lastName (normalize_entry acc e)
  = if names "lastName" e then trimmed e.2 else p_lastName acc.
Proof. by_column. Qed.

Lemma entry_otherNames : forall acc e,
  p_otherNames (normalize_entry acc e)
  = if names "otherNames" e then trimmed e.2 else p_otherNames acc.
Proof. by_column. Qed.

Lemma entry_phoneNumber : forall acc e,
  p_phoneNumber (normalize_entry acc e)
  = if names "phoneNumber" e then trimmed e.2 else p_phoneNumber acc.
Proof. by_column. Qed.

Lemma entry_occupation : forall acc e,
  p_occupation (normalize_entry acc e)
  = if names "occupation" e then trimmed e.2 else p_occupation acc.
Proof. by_column. Qed.

Lemma entry_notes : forall acc e,
  p_notes (normalize_entry acc e)
  = if names "notes" e then trimmed e.2 else p_notes acc.
Proof. by_column. Qed.

Lemma entry_disabilityStatus : forall acc e,
  p_disabilityStatus (normalize_entry acc e)
  = if names "disabilityStatus" e then Some (status_of e.2)
    else p_disabilityStatus acc.
Proof. by_column. Qed.

Lemma entry_sex : forall acc e,
  p_sex (normalize_entry acc e)
  = if readable "sex" sex_of e then sex_of e.2 else p_sex acc.
Proof. by_column. Qed.

Lemma entry_age : forall acc e,
  p_age (normalize_entry acc e)
  = if readable "age" parseInt e then parseInt e.2 else p_age acc.
Proof. by_column. Qed.

Lemma entry_dateOfBirth : forall acc e,
  p_dateOfBirth (normalize_entry acc e)
  = if readable "dateOfBirth" parseDate e then parseDate e.2
    else p_dateOfBirth acc.
Proof. by_column. Qed.

Lemma entry_rest : forall acc e,
  let acc' := normalize_entry acc e in
  p_id acc' = p_id acc /\ p_uniqueId acc' = p_uniqueId acc
  /\ p_householdId acc' = p_householdId acc
  /\ p_villageId acc' = p_villageId acc /\ p_wardId acc' = p_wardId acc
  /\ p_disabilityNotes acc' = p_disabilityNotes acc
  /\ p_photoData acc' = p_photoData acc
  /\ p_fingerprintData acc' = p_fingerprintData acc
  /\ p_consentGiven acc' = p_consentGiven acc
  /\ p_consentDate acc' = p_consentDate acc
  /\ p_recorderName acc' = p_recorderName acc
  /\ p_createdAt acc' = p_createdAt acc /\ p_updatedAt acc' = p_updatedAt acc.
Proof. by_column. Qed.

(** A field that every step either leaves or sets from the entry holds
    what the last entry that sets it gives. *)
Lemma last_decides {A} (proj : partial -> option A)
    (p : string * string -> bool) (v : string * string -> option A) :
  proj blank = None ->
  (forall acc e, proj (normalize_entry acc e) = if p e then v e else proj acc) ->
  forall data, proj (normalizeCitizenData data) = last_entry p data ≫= v.
Proof.
  intros Hb Hs data. unfold Normalize.normalizeCitizenData, last_entry.
  induction data as [|e data IH] using rev_ind; [done|].
  rewrite fold_left_app, rev_app_distr. cbn [fold_left rev app List.find].
  rewrite Hs. by destruct (p e).
Qed.

Lemma rest_unset data :
  let r := normalizeCitizenData data in
  p_id r = None /\ p_uniqueId r = None /\ p_householdId r = None
  /\ p_villageId r = None /\ p_wardId r = None
  /\ p_disabilityNotes r = None /\ p_photoData r = None
  /\ p_fingerprintData r = None /\ p_consentGiven r = None
  /\ p_consentDate r = None /\ p_recorderName r = None
  /\ p_createdAt r = None /\ p_updatedAt r = None.
Proof.
  unfold Normalize.normalizeCitizenData.
  induction data as [|e data IH] using rev_ind; [by cbn|].
  rewrite fold_left_app. cbn [fold_left].
  pose proof (entry_rest (fold_left normalize_entry data blank) e) as Hs.
  cbv zeta in *. destruct_and!. by split_and!; congruence.
Qed.

(** X20. For each field of a normalised record the last column that
    names it decides.  A name, phone number, occupation or note is the
    trimmed value of that column, or absent when the value is blank, also
    when an earlier column had a value.  Sex, age and date of birth are
    read from the last column that names them and can be read, and an
    unknown disability status counts as none.  The identifiers, the
    attachments, the disability notes, the consent, the recorder and the
    time stamps are never set. *)
Theorem normalizeCitizenData_last_column data :
  let r := normalizeCitizenData data in
  p_firstName r = last_entry (names "firstName") data ≫= (fun e => trimmed e.2)
  /\ p_lastName r = last_entry (names "lastName") data ≫= (fun e => trimmed e.2)
  /\ p_otherNames r
     = last_entry (names "otherNames") data ≫= (fun e => trimmed e.2)
  /\ p_phoneNumber r
     = last_entry (names "phoneNumber") data ≫= (fun e => trimmed e.2)
  /\ p_occupation r
     = last_entry (names "occupation") data ≫= (fun e => trimmed e.2)
  /\ p_notes r = last_entry (names "notes") data ≫= (fun e => trimmed e.2)
  /\ p_sex r = last_entry (readable "sex" sex_of) data ≫= (fun e => sex_of e.2)
  /\ p_age r
     = last_entry (readable "age" parseInt) data ≫= (fun e => parseInt e.2)
  /\ p_dateOfBirth r
     = last_entry (readable "dateOfBirth" parseDate) data
       ≫= (fun e => parseDate e.2)
  /\ p_disabilityStatus r
     = last_entry (names "disabilityStatus") data
       ≫= (fun e => Some (status_of e.2))
  /\ (p_id r = None /\ p_uniqueId r = None /\ p_householdId r = None
      /\ p_villageId r = None /\ p_wardId r = None
      /\ p_disabilityNotes r = None /\ p_photoData r = None
      /\ p_fingerprintData r = None /\ p_consentGiven r = None
      /\ p_consentDate r = None /\ p_recorderName r = None
      /\ p_createdAt r = None /\ p_updatedAt r = None).
Proof.
  intros r. unfold r. split_and!;
    first [ apply last_decides;
            [done|first [ apply entry_firstName | apply entry_lastName
                        | apply entry_otherNames | apply entry_phoneNumber
                        | apply entry_occupation | apply entry_notes
                        | apply entry_sex | apply entry_age
                        | apply entry_dateOfBirth
                        | apply entry_disabilityStatus ]]
          | apply rest_unset ].
Qed.

End WithHost.

End NormalizeFacts.

(** ** Normalised records under validation *)

Module NormalizedRecords.
Import Validation Batch Normalize NormalizeTerms NormalizeFacts NormalFormFacts.
Import AsciiTerms.
Import Citizen.

Lemma trimmed_some value v :
  trimmed value = Some v -> trim v = v /\ truthy_string v = true.
Proof.
  unfold trimmed. destruct (truthy_string (trim value)) eqn:E; [|done].
  intros [= <-]. by rewrite trim_idem.
Qed.

Lemma last_trimmed p data v :
  last_entry p data ≫= (fun e => trimmed e.2) = Some v ->
  trim v = v /\ truthy_string v = true.
Proof.
  destruct (last_entry p data) as [e|]; [|done]. cbn. apply trimmed_some.
Qed.

Lemma blank_trimmed (o : option string) :
  (forall v, o = Some v -> trim v = v /\ truthy_string v = true) ->
  Batch.blank o = true <-> o = None.
Proof.
  intros H. destruct o as [v|]; [|done]. cbn.
  destruct (H v eq_refl) as [-> ->]. done.
Qed.

Lemma elem_of_when e b e' : e ∈ when b e' <-> b = true /\ e = e'.
Proof.
  unfold when. destruct b.
  - rewrite list_elem_of_singleton. split; [by intros ->|by intros [_ ->]].
  - split; [by intros ?%elem_of_nil|by intros [? _]].
Qed.

Lemma sex_listed s : bool_decide (s ∈ valid_sexes) = true.
Proof. destruct s; by vm_compute. Qed.

Section WithHost.
Variable parseInt : string -> option Z.
Variable parseDate : string -> option Date.

Abbreviation normalizeCitizenData := (normalizeCitizenData parseInt parseDate).

(** X21. For a row whose headers and values are made of ASCII
    characters, the names of the normalised record are trimmed and not
    empty, so validation reports a missing first or last name exactly
    when the record has none, and a missing sex exactly when no column
    gave one that could be read. *)
Theorem normalized_record_validates data now rowNumber :
  ascii_row data = true ->
  let r := normalizeCitizenData data in
  let reported := validateCitizenData now r rowNumber in
  (forall v, p_firstName r = Some v -> trim v = v /\ v <> ""%string)
  /\ (forall v, p_lastName r = Some v -> trim v = v /\ v <> ""%string)
  /\ (mkError "firstName" "First name is required" rowNumber ∈ reported
      <-> p_firstName r = None)
  /\ (mkError "lastName" "Last name is required" rowNumber ∈ reported
      <-> p_lastName r = None)
  /\ (mkError "sex" "Sex must be 'male' or 'female'" rowNumber ∈ reported
      <-> p_sex r = None).
Proof.
  intros _ r reported.
  assert (Hf : forall v, p_firstName r = Some v
                         -> trim v = v /\ truthy_string v = true).
  { intros v. unfold r.
    rewrite (last_decides parseInt parseDate p_firstName (names "firstName")
               (fun e => trimmed e.2) eq_refl (entry_firstName _ _)).
    apply last_trimmed. }
  assert (Hl : forall v, p_lastName r = Some v
                         -> trim v = v /\ truthy_string v = true).
  { intros v. unfold r.
    rewrite (last_decides parseInt parseDate p_lastName (names "lastName")
               (fun e => trimmed e.2) eq_refl (entry_lastName _ _)).
    apply last_trimmed. }
  split_and!.
  - intros v [? T]%Hf. split; [done|]. by intros ->.
  - intros v [? T]%Hl. split; [done|]. by intros ->.
  - rewrite <- (blank_trimmed _ Hf). unfold reported, validateCitizenData.
    rewrite !elem_of_app, !elem_of_when. intuition congruence.
  - rewrite <- (blank_trimmed _ Hl). unfold reported, validateCitizenData.
    rewrite !elem_of_app, !elem_of_when. intuition congruence.
  - unfold reported, validateCitizenData.
    rewrite !elem_of_app, !elem_of_when.
    destruct (p_sex r) as [s|]; [rewrite sex_listed|]; cbn;
      intuition congruence.
Qed.

End WithHost.

(** A row whose first-name column has white space around the name. *)
Lemma normalized_record_validates_witness :
  trim "John" = "John"%string /\ "John"%string <> ""%string.
Proof.
  apply (proj1 (normalized_record_validates (fun _ => None) (fun _ => None)
                  [("First Name", " John "); ("Gender", "M")]%string
                  0%Z None eq_refl) "John"%string).
  reflexivity.
Defined.

End NormalizedRecords.
